(* ===== verification/_CoqProject ===== *)
-Q . S2P
Prelude.v
Mem.v
GDT.v
Cpu.v
Spinlock.v
ChunkList.v
PhysMem.v
PageAlloc.v
CpuReady.v
PhysPages.v
PhysTrace.v
AllocRace.v
Paging.v
PageTables.v
VirtMem.v
MachineSpace.v
PrintfCore.v
PrintfFloat.v
PrintfFormat.v
FloatExact.v
PrintfExact.v
PCI.v
Traps.v
Boot.v
Processor.v
Process.v
Scheduler.v
Contention.v
Heap.v
Devices.v
Console.v
System.v
SegmentDump.v
Display.v
Interrupts.v
Ticks.v
KernelMain.v
Typing.v
