(* ===== verification/Prelude.v ===== *)
(** Xesual: a verification development of the kernel.

    Xesual is a small kernel for x86-64 processors, started by the Limine boot loader.  It keeps a
    list of free physical pages, builds a page table of its own, prepares every processor
    (descriptor tables, model-specific registers, interrupt controller), creates one process and
    schedules it.  The development models its code under [src/Kernel] and proves what each part
    does, up to the theorems that the kernel boots into its first process
    ([KernelMain.KernelMain_reaches_user_mode]) and that this process runs its program
    ([KernelMain.KernelMain_runs_first_program]); it also proves the places where a part does not do
    what it is meant to do.

    * How the code is modelled

    - Integers are [Z]; every operation that can leave the C++ type's range is wrapped where it
      happens ([u64], [u32], [s32], ... below).  Bit operations are those of [Z].
    - Memory is one flat byte memory ([Mem]), a pointer is the unsigned value of the address.  Code
      of the kernel that reads and writes through its direct map, its image or a boot mapping sees
      the same memory; page faults of kernel code are not modelled.
    - A function that changes state takes and returns it; the result is an [outcome]: [Done] with
      the state afterwards or [Stuck] with the reason: a null pointer, an endless busy-wait, [hlt],
      too little fuel.  Loops that are not structural take fuel, and the theorems say how much is
      enough.  One function, the scheduler's loop, really runs for ever: there [OutOfFuel] for
      every fuel is what is proved.
    - Code outside the repository is a parameter: the devices behind the PCI configuration ports
      ([config]), the registers of the interrupt controller ([register]), what the linker decides
      ([System.image]), the boot loader's answers ([KernelMain.boot_info]).
    - The processor's own behaviour is written after the architecture manuals and is the
      specification: the page walk ([Paging.walk], [translate_in]), how it reads descriptors and
      gates ([GDT.decode], [Traps]), what an interrupt pushes and [iretq] pops.

    * The files

    [Prelude]: outcomes, machine integers, bit fields, lists, tactics and hints.  [Mem]: memory,
    loads and stores, [memset] and [memcpy] ([MiscFunctions.cpp]).

    [GDT] ([GDT.h]): descriptors, the table with its task state segment, [Table::init] and
    [install].  [Cpu] ([ProcessManagement.h], [SMP.h], [MiscFunctions.h]): the processors' records,
    [thisCPU], [pushCLI]/[popCLI], model-specific registers.  [Spinlock] ([Spinlock.cpp]): the lock
    for one processor and, as a step relation, contended for by many.

    [ChunkList]: the doubly linked list of chunks whose headers lie in the chunks ([dseg]), which the
    page allocator and the byte heap share; how it is searched, cut and linked.
    [PhysMem] ([PhysicalMemoryManagement.cpp]): the page allocator; the state is the list of chunks
    in memory, the specification a list of pairs ([free_list], [take_first]).
    [PageAlloc] is the interface clients rely on (the classes [PageAllocator] and
    [PageAllocatorLaws]), [PhysPages] its instance, [PhysTrace] sequences of calls by clients,
    [CpuReady] what the allocator's lock leaves of the processor's record.  [AllocRace]: calls of
    [allocatePages] and [freePages] on several processors, cut at their accesses to the list and the
    lock.

    [Paging] ([Paging.h]): entries and the page walk.  [PageTables]: well-formed tables.
    [VirtMem] ([VirtualMemoryManagement.cpp]): the operations, over any allocator with the
    interface.  [MachineSpace]: the same over the free-list allocator.

    [PrintfCore], [PrintfFloat], [PrintfFormat] ([printf.c]): output functions and integers,
    floating point (over the Standard Library's [SpecFloat]), the format interpreter.  [FloatExact]:
    when operations on doubles do not round; [PrintfExact]: numbers that [%f] prints exactly.

    [PCI] ([PCI.h], [PCI.cpp]): configuration space and the bus scan.  [Devices]
    ([PrintfImplementation.cpp], [LocalAPIC.cpp], [Graphics.cpp]): console, interrupt controller,
    registers of the display.  [Console] (the same and [logfn]): calls of [logfn] on several
    processors, byte by byte.  [Heap] ([Alloc.cpp]): the byte allocator, which nothing calls, against
    its own abstract list ([heap_list], [first_fit]).

    [Traps] ([Traps.cpp], [Traps.S]): the descriptor table, every entry stub, the exit paths and
    the handlers.

    [Boot] ([KernelMain.cpp]): the memory map, the kernel's page table, the processors' records.
    [Processor] ([SharedMain]): interrupt stack, descriptor table and registers of one processor.
    [Process] and [Scheduler] ([ProcessManagement.cpp]): the process table, processes' stacks and
    address spaces, the context switch; choosing a process, handing over and coming back.
    [Contention] (the same functions on several processors): what each does between two accesses to
    the process table or its lock, interleaved in any order; [createFirstProcess_visits],
    [schedule_visits] and [freeProcess_visits] relate it to the sequential definitions.
    [System]: the state of the whole kernel ([system]: machine, process table, console, devices) and
    [log], which is [logfn] over it.  [SegmentDump] ([GDT.h]): the dump of a descriptor.  [Display]:
    the loop of [SharedMain] that paints the screen.
    [Interrupts] ([Traps.S], [Traps.cpp], [Panic!!.cpp], [MyFirstUserspace]): whole interrupts and
    system calls over [system], from the interrupted code through stub, handler and its effects to
    where execution goes on; the panic; the first program's instructions.  [Ticks]: user programs
    with interrupts between their instructions.  [KernelMain]: the
    page-table dump, [schedule], [SharedMain], [OtherProcessorMain], [KernelMain], and the way from
    the scheduler through [ProcessEntryPoint] to user mode.  [Typing]: the types of the state, and
    that every entry point of the kernel keeps them.

    * What the theorems show

    - The whole: [KernelMain_reaches_user_mode], from [bootable] (the boot loader's protocol, the
      layout of the image, enough memory) to [in_first_process] (the process's page table in [cr3],
      [ProcessEntryPoint] about to release the scheduler's lock and to return into user mode at
      0x1000, where the first program's bytes are mapped); [KernelMain_runs_first_program], on to the
      end of that program and its output on the serial line, with timer interrupts anywhere on the
      way; [second_processor_keeps_table], what the next processor to arrive does: it takes the process table's lock for ever.
    - Interleaved processors: [one_processor_runs], at most one runs the process; [boot_race], a
      processor that reaches the scheduler too early keeps the process from ever being created;
      [process_cannot_end], one that comes later keeps it from ending; [lock_mutual_exclusion].
      On the console [log_calls_atomic]: calls of [logfn] appear one after the other.  In the
      allocator [lock_protects_first_call_only]: letting go of the lock switches it off, and then two
      processors can be given the same memory; [allocator_visits] says that the cut allocator is the
      sequential one.
    - Interrupts from beginning to end: [timer_interrupt_transparent], [unhandled_interrupt_logged],
      [syscall_logged], [first_program_logs]; programs that are interrupted: [ticks_unnoticed], they
      cannot tell, and [interrupted_program], what the kernel does meanwhile; faults: [fatal_fault_panics], [panic_prints] and
      [user_fault_hangs], after which the scheduler looks at the first slot for ever.
    - Memory: [allocatePages] is first fit and never hands out a page twice, over all sequences of
      calls ([blocks_never_overlap]); [map] changes one translation and keeps the tables well
      formed; [kernel_memory_correct] says what the kernel's page table translates.  Where
      the allocator fails to do so: [freePages_adjacent_overlap], [freePages_below_lost],
      [allocate_return_race], [allocator_switches_lock_off].
    - The byte heap: [allocate_first_fit], [free_inserts]; and its edges: sizes that wrap
      ([allocate_wraps]), remainders too small for a header ([allocated_overlaps_header],
      [client_chooses_block]), sizes never stored ([allocate_split], [allocate_free_loses]), blocks
      too small to be released ([free_small_overruns]), chunks listed twice ([free_adjacent_twice]).
    - Types: [system_stays_typed], for any number of processors that take turns (of whole moves):
      integers stay in the range of their C++ types, locks are 0 or 1, only bytes go out, tables keep
      their lengths; [returns_are_typed] for what goes back to
      interrupted code.
    - Control: registers and contexts survive interrupts, system calls and context switches
      ([trap_roundtrip], [syscall_roundtrip], [manual_stub_cases], [Pause_resumes],
      [dispatch_and_back]); [prepare_processor_correct] says what a prepared processor has, and
      [interrupt_leaves_stack] that its stack is nevertheless used below its end.
    - Interrupt flag: [cli_nesting] and the theorems of [Spinlock] on [acquire].
    - Output: the digits, padding and signs of integers, the exact decimals of doubles ([ftoa_exact],
      [printed_fixed]), the bounds of the internal buffers, the agreement of the functions of the [printf] family, what [logfn] puts on the wire.
    - Devices: what the scan reports and that it ends, what [initLAPIC] writes, what is painted.

    * Bounds and fuel

    - Allocator loops: fuel for the number of free chunks; [chunks] in [KernelMain].
    - The PCI scan: 256 levels of bridges, enough when a bridge leads to a higher-numbered bus
      ([bridges_ascend]); [initLAPIC] polls until the controller delivers ([bt_delivery]).
    - The tables lie below 2 GiB of physical memory: above, [physicalAddress << 12] in [int] is
      wrong ([Paging.physicalAddress_shl_exact]).
    - At most eighteen processors: their records share a page ([Boot.cpu_records_in_page]).
    - One turn of the scheduler is enough for [KernelMain_reaches_user_mode].

    * Assumptions

    No interrupt arrives between two steps of the modelled kernel code; what the code does when one
    arrives is modelled by itself ([Interrupts]), and between the instructions of user code
    ([Ticks]).  Processors interleave in [Spinlock], [Contention],
    [AllocRace], [Console] and [PhysMem]'s [allocate_return_race], each over the part of the state it
    names, with sequentially consistent memory; in [Typing] they take turns of whole moves; elsewhere
    one processor runs, and a second one begins in the state the first one left.  The static data of
    the kernel (process table, locks, processor records) does not share memory with pages, and the
    frames of compiled functions are not in the modelled memory.  An argument narrower than the 64 bits [%llx] reads is extended by its sign.

    * Not modelled

    - User code other than the first program, and page faults of kernel code.  The first program is
      its instructions; how they are encoded is a matter of the assembler.
    - Constants that no code uses: the other enumerations of [Graphics.h] and the trap numbers of
      [LocalAPIC.h].
    - [limine.h] beyond the fields the kernel reads; build files and linker script.  The empty files
      [ResourceTree.cpp], [ResourceTree.h] and [e.cpp].
    - Steps of different processors interleaved over the whole [system]: what processors share is
      interleaved part by part, the process table in [Contention], the page allocator in
      [AllocRace], the console in [Console], each cut at the accesses to that part alone. *)

From Stdlib Require Export ZArith Lia Bool Btauto.
From stdpp Require Export base tactics numbers list option relations.

#[export] Set Default Goal Selector "!".

Declare Scope xesual_scope.
Delimit Scope xesual_scope with X.
#[global] Open Scope Z_scope.

(** ** Outcomes of kernel code

    C++ code of the kernel either returns or gets stuck in one of the ways below;
    nothing in the kernel throws. *)

Inductive stuck : Set :=
  | NullDeref    (* a member access through a null pointer *)
  | Spin         (* a busy-wait loop no other step can end *)
  | Halted       (* [halt()] or a panic: [hlt] for ever *)
  | OutOfFuel    (* the fuel of a model function was too small *)
  | BadArg       (* [va_arg] at a type the caller did not pass *)
  | BadCast      (* converting a floating-point value outside the integer type's range *)
  | PastEnd.     (* reading beyond the end of a string or array *)

#[export] Instance stuck_eq_dec : EqDecision stuck.
Proof. solve_decision. Defined.

Inductive outcome (A : Type) : Type :=
  | Done (a : A)
  | Stuck (w : stuck).
Arguments Done {A} a.
Arguments Stuck {A} w.

#[export] Instance outcome_ret : MRet outcome := λ A a, Done a.
#[export] Instance outcome_bind : MBind outcome :=
  λ A B k c, match c with Done a => k a | Stuck w => Stuck w end.
#[export] Instance outcome_fmap : FMap outcome :=
  λ A B f c, match c with Done a => Done (f a) | Stuck w => Stuck w end.

Lemma outcome_bind_Done {A B} (c : outcome A) (k : A → outcome B) (b : B) :
  (c ≫= k) = Done b ↔ ∃ a, c = Done a ∧ k a = Done b.
Proof. destruct c; simpl; naive_solver. Qed.

Lemma outcome_bind_assoc {A B C} (c : outcome A) (f : A → outcome B) (g : B → outcome C) :
  ((c ≫= f) ≫= g) = (c ≫= λ a, f a ≫= g).
Proof. by destruct c. Qed.

(** Reading off a run's result without normalising the state it ends in. *)
Definition done_or {A} (d : A) (o : outcome A) : A := match o with Done a => a | Stuck _ => d end.

Lemma done_fst {A B} (o : outcome (A * B)) (a : A) (d : A * B) :
  fst <$> o = Done a → o = Done (a, snd (done_or d o)).
Proof. destruct o as [[a' b]|]; simpl; [|done]. by intros [= ->]. Qed.

Lemma done_is {A} (o : outcome A) (d : A) : (λ _, tt) <$> o = Done tt → o = Done (done_or d o).
Proof. by destruct o. Qed.

(** ** Counting the elements of a list *)

Fixpoint count {A} (f : A → bool) (l : list A) : nat :=
  match l with [] => 0 | x :: l => (if f x then 1 else 0) + count f l end.

Lemma count_insert {A} (f : A → bool) (l : list A) (i : nat) (x y : A) :
  l !! i = Some x →
  (count f (<[i := y]> l) + (if f x then 1 else 0) = count f l + (if f y then 1 else 0))%nat.
Proof.
  revert i; induction l as [|z l IH]; intros [|i] H; simpl in H; [done|done| |]; simpl.
  - injection H as ->. lia.
  - specialize (IH _ H). lia.
Qed.

Lemma count_replicate {A} (f : A → bool) (n : nat) (x : A) :
  count f (replicate n x) = if f x then n else 0%nat.
Proof. induction n as [|n IH]; simpl; [by destruct (f x)|]. rewrite IH. by destruct (f x). Qed.

Lemma count_pos {A} (f : A → bool) (l : list A) (i : nat) (x : A) :
  l !! i = Some x → f x = true → (1 ≤ count f l)%nat.
Proof.
  revert i; induction l as [|y l IH]; intros [|i] H Hf; simpl in *; [done|done| |].
  - injection H as ->. rewrite Hf. lia.
  - specialize (IH i H Hf). lia.
Qed.

(** If at most one element counts and the one at [i] does, no other does. *)
Lemma count_others {A} (f : A → bool) (l : list A) (i j : nat) (x y : A) :
  (count f l ≤ 1)%nat → l !! i = Some x → f x = true → l !! j = Some y → j ≠ i → f y = false.
Proof.
  revert i j; induction l as [|z l IH]; intros [|i] [|j] Hc Hi Hf Hj Hn; simpl in *; try done.
  - injection Hi as ->. rewrite Hf in Hc. destruct (f y) eqn:E; [|done].
    pose proof (count_pos f l j y Hj E). lia.
  - injection Hj as ->. destruct (f y); [|done]. pose proof (count_pos f l i x Hi Hf). lia.
  - eapply (IH i j); [lia|done..|lia].
Qed.

Lemma count_le {A} (f g : A → bool) (l : list A) :
  (∀ i x, l !! i = Some x → f x = true → g x = true) → (count f l ≤ count g l)%nat.
Proof.
  induction l as [|x l IH]; intros H; [done|]. simpl.
  specialize (IH (λ i, H (S i))). specialize (H 0%nat x eq_refl).
  destruct (f x), (g x); lia.
Qed.

Lemma count_none {A} (f : A → bool) (l : list A) :
  (∀ j y, l !! j = Some y → f y = false) → count f l = 0%nat.
Proof.
  induction l as [|x l IH]; intros H; [done|]. simpl. rewrite (H 0%nat x) by done. simpl.
  apply IH. intros j. apply (H (S j)).
Qed.

Lemma count_one {A} (f : A → bool) (l : list A) (i : nat) (x : A) :
  l !! i = Some x → f x = true → (∀ j y, l !! j = Some y → j ≠ i → f y = false) → count f l = 1%nat.
Proof.
  revert i; induction l as [|z l IH]; intros [|i] Hi Hf H; simpl in *; [done|done| |].
  - injection Hi as ->. rewrite Hf, (count_none f l); [done|]. intros j y Hj. by apply (H (S j)).
  - rewrite (H 0%nat z) by done. rewrite (IH i Hi Hf); [done|]. intros j y Hj Hn. apply (H (S j)); [done|lia].
Qed.

(** ** Machine integers

    An unsigned [w]-bit value is a [Z] in [0 .. 2^w-1]; [uw] wraps, [sw] wraps to the two's
    complement range. *)

Definition uw (w x : Z) : Z := x mod 2 ^ w.
Definition sw (w x : Z) : Z := (x + 2 ^ (w - 1)) mod 2 ^ w - 2 ^ (w - 1).
Abbreviation u8 := (uw 8).
Abbreviation u16 := (uw 16).
Abbreviation u32 := (uw 32).
Abbreviation u64 := (uw 64).
Abbreviation s32 := (sw 32).

Lemma uw_small (w x : Z) : 0 ≤ x < 2 ^ w → uw w x = x.
Proof. apply Z.mod_small. Qed.

Lemma uw_add_l (w x y : Z) : uw w (uw w x + y) = uw w (x + y).
Proof. apply Zplus_mod_idemp_l. Qed.

Lemma uw_range (w x : Z) : 0 ≤ w → 0 ≤ uw w x < 2 ^ w.
Proof. intros. apply Z.mod_pos_bound, Z.pow_pos_nonneg; lia. Qed.

Lemma uw_idemp (w x : Z) : 0 ≤ w → uw w (uw w x) = uw w x.
Proof. intros. by apply uw_small, uw_range. Qed.

Lemma sw_small (w x : Z) : 0 < w → - 2 ^ (w - 1) ≤ x < 2 ^ (w - 1) → sw w x = x.
Proof.
  intros Hw Hx. unfold sw.
  assert (2 ^ w = 2 * 2 ^ (w - 1)) by (rewrite <- Z.pow_succ_r by lia; f_equal; lia).
  rewrite Z.mod_small; lia.
Qed.

Lemma uw_ones (w x : Z) : 0 ≤ w → uw w x = Z.land x (Z.ones w).
Proof. intros. by rewrite Z.land_ones. Qed.

(** [wrap_lia]: linear goals about wrapped values of a constant width. *)
Ltac wrap_lia :=
  unfold uw, sw in *; change (2 ^ (32 - 1)) with 2147483648 in *;
  change (2 ^ 64) with 18446744073709551616 in *; change (2 ^ 32) with 4294967296 in *;
  change (2 ^ 16) with 65536 in *; change (2 ^ 8) with 256 in *;
  Z.div_mod_to_equations; lia.

(** ** Bits *)

Lemma testbit_uw (w x i : Z) :
  0 ≤ w → 0 ≤ i → Z.testbit (uw w x) i = (i <? w) && Z.testbit x i.
Proof.
  intros Hw Hi. unfold uw. destruct (Z.ltb_spec i w).
  - by rewrite Z.mod_pow2_bits_low.
  - by rewrite Z.mod_pow2_bits_high.
Qed.

Lemma testbit_ones (w i : Z) : 0 ≤ w → 0 ≤ i → Z.testbit (Z.ones w) i = (i <? w).
Proof.
  intros Hw Hi. destruct (Z.ltb_spec i w).
  - by apply Z.ones_spec_low.
  - apply Z.ones_spec_high; lia.
Qed.

Lemma testbit_shiftl (x n i : Z) :
  0 ≤ i → Z.testbit (Z.shiftl x n) i = (n <=? i) && Z.testbit x (i - n).
Proof.
  intros Hi. rewrite Z.shiftl_spec by done. destruct (Z.leb_spec n i); [done|].
  rewrite Z.testbit_neg_r; [done|lia].
Qed.

Create Rewrite HintDb zbits.
#[export] Hint Rewrite testbit_uw testbit_ones testbit_shiftl Z.shiftr_spec Z.land_spec
  Z.lor_spec Z.lnot_spec Z.testbit_neg_r using lia : zbits.

(** [zbits]: equality of bit expressions, bit by bit. *)
Ltac zcases :=
  repeat match goal with
  | |- context [?a <? ?b] => destruct (Z.ltb_spec a b); try lia
  | |- context [?a <=? ?b] => destruct (Z.leb_spec a b); try lia
  end.
(** Every comparison in the goal decided, branches that contradict arithmetic closed. *)
Ltac zdecide :=
  zcases;
  repeat match goal with
  | |- context [?a =? ?b] => destruct (Z.eqb_spec a b); try lia
  end; cbn [andb orb negb]; try done; try lia.
Ltac zbool := rewrite ?andb_true_r, ?andb_false_r, ?orb_false_r, ?orb_true_r;
  cbn [andb orb negb]; rewrite ?andb_true_r, ?andb_false_r, ?orb_false_r, ?orb_true_r.
Ltac zbits :=
  let i := fresh "i" in let Hi := fresh "Hi" in
  apply Z.bits_inj'; intros i Hi;
  repeat (progress (autorewrite with zbits); zcases; zbool);
  simpl; try done; try (f_equal; lia); try btauto.

(** Bit-fields: [w] bits of a word from bit [off] up. *)
Definition bf_get (off w x : Z) : Z := uw w (Z.shiftr x off).
Definition bf_set (off w v x : Z) : Z :=
  Z.lor (Z.land x (Z.lnot (Z.shiftl (Z.ones w) off))) (Z.shiftl (uw w v) off).

Section bitfields.
Context (off w : Z) (Hoff : 0 ≤ off) (Hw : 0 ≤ w).

Lemma bf_get_range x : 0 ≤ bf_get off w x < 2 ^ w.
Proof using Hw. by apply uw_range. Qed.

Lemma testbit_bf_set v x i :
  0 ≤ i →
  Z.testbit (bf_set off w v x) i =
    if (off <=? i) && (i <? off + w) then Z.testbit v (i - off) else Z.testbit x i.
Proof using Hoff Hw.
  intros Hi. unfold bf_set. autorewrite with zbits.
  destruct (Z.leb_spec off i); autorewrite with zbits; zcases; simpl;
    rewrite ?andb_false_r, ?andb_true_r, ?orb_false_r; done.
Qed.

Lemma bf_get_set v x : bf_get off w (bf_set off w v x) = uw w v.
Proof using Hoff Hw.
  apply Z.bits_inj'; intros i Hi. unfold bf_get. autorewrite with zbits.
  rewrite testbit_bf_set by lia. zcases; simpl; try done.
  all: f_equal; lia.
Qed.

Lemma bf_get_set_other off' w' v x :
  0 ≤ off' → 0 ≤ w' → off' + w' ≤ off ∨ off + w ≤ off' →
  bf_get off' w' (bf_set off w v x) = bf_get off' w' x.
Proof using Hoff Hw.
  intros Ho' Hw' Hd. apply Z.bits_inj'; intros i Hi. unfold bf_get. autorewrite with zbits.
  rewrite testbit_bf_set by lia. zcases; done.
Qed.

Lemma bf_set_range n v x :
  off + w ≤ n → 0 ≤ x < 2 ^ n → 0 ≤ bf_set off w v x < 2 ^ n.
Proof using Hoff Hw.
  intros Hn Hx.
  assert (bf_set off w v x = uw n (bf_set off w v x)) as ->; [|apply uw_range; lia].
  assert (x = uw n x) as Hx' by (symmetry; by apply uw_small).
  apply Z.bits_inj'; intros i Hi. autorewrite with zbits.
  rewrite testbit_bf_set by lia. rewrite Hx'. autorewrite with zbits. zcases; done.
Qed.
End bitfields.

(** ** C object layout

    The System V x86-64 layout of a struct: each member at the next multiple of its alignment,
    the size rounded up to the alignment of the struct.  A packed struct has alignment 1
    everywhere.  A member is given by its size and alignment. *)

Definition align_up (x a : Z) : Z := (x + a - 1) / a * a.

Fixpoint struct_offsets (at_ : Z) (ms : list (Z * Z)) : list Z :=
  match ms with
  | [] => []
  | (size, al) :: ms =>
      let off := align_up at_ al in off :: struct_offsets (off + size) ms
  end.

Fixpoint struct_end (at_ : Z) (ms : list (Z * Z)) : Z :=
  match ms with
  | [] => at_
  | (size, al) :: ms => struct_end (align_up at_ al + size) ms
  end.

Definition struct_size (al : Z) (ms : list (Z * Z)) : Z := align_up (struct_end 0 ms) al.

(** Members of common types. *)
Definition c_ptr : Z * Z := (8, 8).
Definition c_u64 : Z * Z := (8, 8).
Definition c_u32 : Z * Z := (4, 4).
Definition c_u16 : Z * Z := (2, 2).
Definition c_bool : Z * Z := (1, 1).
Definition packed (size : Z) : Z * Z := (size, 1).

Definition member (offs : list Z) (i : nat) : Z := nth i offs 0.

(** Joining a value above bit [k] with one below it. *)
Lemma lor_low a b k : 0 ≤ k → 0 ≤ b < 2 ^ k → Z.lor (Z.shiftl a k) b = a * 2 ^ k + b.
Proof.
  intros Hk Hb.
  assert (Z.land (Z.shiftl a k) b = 0) as Hl.
  { apply Z.bits_inj'. intros i Hi. rewrite Z.land_spec, Z.bits_0, Z.shiftl_spec by done.
    destruct (Z.ltb_spec i k) as [|Hik].
    - by rewrite Z.testbit_neg_r by lia.
    - rewrite <- (Z.mod_small b (2 ^ k)), Z.mod_pow2_bits_high by lia. apply andb_false_r. }
  rewrite <- Z.shiftl_mul_pow2 by done. rewrite Z.add_nocarry_lxor by done.
  by rewrite Z.lxor_lor by done.
Qed.

Lemma rev_replicate {A} (n : nat) (a : A) : rev (replicate n a) = replicate n a.
Proof.
  induction n as [|n IH]; [done|]. simpl. rewrite IH. clear. induction n as [|n IH]; [done|].
  simpl. by rewrite IH.
Qed.

Lemma list_snoc_inv {A} (l : list A) : l = [] ∨ ∃ l' x, l = l' ++ [x].
Proof. induction l using rev_ind; eauto. Qed.

(** ** Loops and tables *)

(** [for (x : xs) body] *)
Fixpoint for_each {A St} (xs : list A) (body : A → St → outcome St) (st : St) : outcome St :=
  match xs with [] => Done st | x :: xs => st ← body x st; for_each xs body st end.

Lemma for_each_done {A St} (xs : list A) (body : A → St → outcome St) st :
  (∀ x st, x ∈ xs → ∃ st', body x st = Done st') → ∃ st', for_each xs body st = Done st'.
Proof.
  revert st; induction xs as [|x xs IH]; intros st Hb; [by eexists|]. cbn [for_each].
  destruct (Hb x st (list_elem_of_here _ _)) as [st1 ->]. cbn [mbind outcome_bind].
  apply IH. intros y st2 Hy. apply Hb. by apply list_elem_of_further.
Qed.

Lemma foldl_insert_lookup {A B} (key : B → nat) (val : B → A) l (t : list A) b :
  NoDup (key <$> l) → b ∈ l → (key b < length t)%nat →
  foldl (λ t b, <[key b := val b]> t) t l !! key b = Some (val b).
Proof.
  revert t; induction l as [|a l IH]; intros t Hnd Hin Hk; [by apply not_elem_of_nil in Hin|].
  rewrite fmap_cons in Hnd. apply NoDup_cons in Hnd as [Ha Hnd]. simpl.
  apply elem_of_cons in Hin as [->|Hin]; [|apply IH; [done|done|by rewrite length_insert]].
  assert (∀ t0 : list A, t0 !! key a = Some (val a) →
            foldl (λ t b, <[key b := val b]> t) t0 l !! key a = Some (val a)) as H.
  { clear IH Hnd Hk. induction l as [|c l IHl]; intros t0 Ht0; [done|]. simpl. apply IHl.
    - intros Hin. apply Ha. by right.
    - rewrite list_lookup_insert_ne; [done|]. intros E. apply Ha. rewrite <- E. by left. }
  apply H. by apply list_lookup_insert_eq.
Qed.

Lemma foldl_insert_other {A B} (key : B → nat) (val : B → A) l (t : list A) k :
  k ∉ key <$> l → foldl (λ t b, <[key b := val b]> t) t l !! k = t !! k.
Proof.
  revert t; induction l as [|a l IH]; intros t Hk; [done|]. simpl.
  rewrite IH by (intros H; apply Hk; by right). apply list_lookup_insert_ne.
  intros E. apply Hk. rewrite <- E. by left.
Qed.
