(* ===== verification/Mem.v ===== *)
(** Flat byte memory, the accesses the compiler emits for 2-, 4- and 8-byte objects, and the
    two block routines of [MiscFunctions.cpp].

    An address is the unsigned 64-bit value of a kernel pointer.  The kernel reaches all of
    physical memory through the higher-half direct map, so one byte function indexed by kernel
    virtual address models both the kernel's data structures and the pages behind them; two
    pointers alias exactly when their address ranges meet.  Memory is total: page faults are
    not modelled here. *)

From S2P Require Import Prelude.

Definition mem : Type := Z → Z.

(** A byte access; only the low 8 bits of a cell count. *)
Definition load8 (m : mem) (a : Z) : Z := u8 (m a).

(** Little-endian load of [n] bytes. *)
Fixpoint load (n : nat) (m : mem) (a : Z) : Z :=
  match n with
  | O => 0
  | S n => load8 m a + 256 * load n m (a + 1)
  end.

(** Little-endian store of the low [n] bytes of [v]. *)
Definition store (n : nat) (m : mem) (a v : Z) : mem :=
  λ x, if (a <=? x) && (x <? a + Z.of_nat n) then u8 (Z.shiftr v (8 * (x - a))) else m x.

Abbreviation load16 := (load 2).
Abbreviation load64 := (load 8).
Abbreviation store16 := (store 2).
Abbreviation store32 := (store 4).
Abbreviation store64 := (store 8).

(** [memset]: [rep stosb] stores the low byte of [val] at [count] consecutive addresses. *)
Definition memset (m : mem) (b val count : Z) : mem :=
  λ x, if (b <=? x) && (x <? b + count) then u8 val else m x.

(** [memcpy]: byte by byte from the lowest address up, reading what earlier iterations
    stored when the ranges overlap.  [memcpy_loop n i] runs [n] iterations from index [i]. *)
Fixpoint memcpy_loop (n : nat) (i : Z) (m : mem) (dst src : Z) : mem :=
  match n with
  | O => m
  | S n => memcpy_loop n (i + 1) (store 1 m (dst + i) (load8 m (src + i))) dst src
  end.
Definition memcpy (m : mem) (dst src size : Z) : mem :=
  memcpy_loop (Z.to_nat size) 0 m dst src.

(** ** Equality of memories: the bytes a program can load *)

Definition mem_eq : relation mem := λ m1 m2, ∀ x, load8 m1 x = load8 m2 x.

(** Agreement on a set of addresses. *)
Definition agree (P : Z → Prop) (m1 m2 : mem) : Prop := ∀ x, P x → load8 m1 x = load8 m2 x.

Definition range (a n : Z) : Z → Prop := λ x, a ≤ x < a + n.
Definition disj (a n b k : Z) : Prop := a + n ≤ b ∨ b + k ≤ a.

#[export] Instance mem_eq_equiv : Equivalence mem_eq.
Proof. unfold mem_eq. split; [by intros ?| by intros ???|]. intros ??? H1 H2 x. by rewrite H1. Qed.

Lemma load8_range m a : 0 ≤ load8 m a < 256.
Proof. by apply (uw_range 8). Qed.

Lemma load_range n m a : 0 ≤ load n m a < 2 ^ (8 * Z.of_nat n).
Proof.
  revert a; induction n as [|n IH]; intros a; [done|].
  cbn [load]. specialize (IH (a + 1)). pose proof (load8_range m a).
  replace (8 * Z.of_nat (S n)) with (8 + 8 * Z.of_nat n) by lia.
  rewrite Z.pow_add_r by lia. change (2 ^ 8) with 256. lia.
Qed.

Lemma load64_range m a : 0 ≤ load64 m a < 2 ^ 64.
Proof. apply (load_range 8). Qed.

Lemma load_agree n P m1 m2 a :
  agree P m1 m2 → (∀ x, range a (Z.of_nat n) x → P x) → load n m1 a = load n m2 a.
Proof.
  intros HA. revert a; induction n as [|n IH]; intros a HP; [done|].
  cbn [load]. rewrite IH, HA; [done| |]; unfold range in *; intros; apply HP; lia.
Qed.

#[export] Instance load_proper n : Proper (mem_eq ==> eq ==> eq) (load n).
Proof. intros m1 m2 H a ? <-. eapply (load_agree n (λ _, True)); [by intros x _|done]. Qed.
#[export] Instance load8_proper : Proper (mem_eq ==> eq ==> eq) load8.
Proof. intros m1 m2 H a ? <-. apply H. Qed.
#[export] Instance store_proper n : Proper (mem_eq ==> eq ==> eq ==> mem_eq) (store n).
Proof.
  intros m1 m2 H a ? <- v ? <- x. unfold load8, store. destruct (_ && _); [done|]. apply H.
Qed.
#[export] Instance memset_proper : Proper (mem_eq ==> eq ==> eq ==> eq ==> mem_eq) memset.
Proof.
  intros m1 m2 H b ? <- v ? <- c ? <- x. unfold load8, memset. destruct (_ && _); [done|]. apply H.
Qed.

Lemma agree_refl P m : agree P m m.
Proof. by intros x. Qed.
Lemma agree_sym P m1 m2 : agree P m1 m2 → agree P m2 m1.
Proof. intros H x Hx. symmetry. by apply H. Qed.
Lemma agree_trans P m1 m2 m3 : agree P m1 m2 → agree P m2 m3 → agree P m1 m3.
Proof. intros H1 H2 x Hx. rewrite H1 by done. by apply H2. Qed.
Lemma agree_weaken (P Q : Z → Prop) m1 m2 : (∀ x, Q x → P x) → agree P m1 m2 → agree Q m1 m2.
Proof. intros H H1 x Hx. apply H1; auto. Qed.

(** ** Loads after stores *)

Lemma load8_store n m a v x :
  load8 (store n m a v) x =
    if (a <=? x) && (x <? a + Z.of_nat n) then u8 (Z.shiftr v (8 * (x - a))) else load8 m x.
Proof. unfold load8, store. destruct (_ && _); [|done]. by rewrite uw_idemp. Qed.

Lemma load8_memset m b v c x :
  load8 (memset m b v c) x = if (b <=? x) && (x <? b + c) then u8 v else load8 m x.
Proof. unfold load8, memset. destruct (_ && _); [|done]. by rewrite uw_idemp. Qed.

Lemma store_agree n m a v P :
  (∀ x, P x → ¬ range a (Z.of_nat n) x) → agree P (store n m a v) m.
Proof.
  intros HP x Hx. rewrite load8_store. specialize (HP x Hx). unfold range in HP.
  zcases; done.
Qed.

Lemma memset_agree m b v c P : (∀ x, P x → ¬ range b c x) → agree P (memset m b v c) m.
Proof.
  intros HP x Hx. rewrite load8_memset. specialize (HP x Hx). unfold range in HP.
  zcases; done.
Qed.

Lemma load_store_disj n k m a b v :
  disj a (Z.of_nat n) b (Z.of_nat k) → load n (store k m b v) a = load n m a.
Proof.
  intros Hd. eapply (load_agree n (range a (Z.of_nat n))); [|done].
  apply store_agree. unfold range, disj in *. lia.
Qed.

Lemma load_memset_disj n m a b v c :
  disj a (Z.of_nat n) b c → load n (memset m b v c) a = load n m a.
Proof.
  intros Hd. eapply (load_agree n (range a (Z.of_nat n))); [|done].
  apply memset_agree. unfold range, disj in *. lia.
Qed.

Lemma load_bytes n m a v :
  (∀ i, 0 ≤ i < Z.of_nat n → load8 m (a + i) = u8 (Z.shiftr v (8 * i))) →
  load n m a = uw (8 * Z.of_nat n) v.
Proof.
  revert a v; induction n as [|n IH]; intros a v Hb; cbn [load].
  { unfold uw. by rewrite Z.mod_1_r. }
  rewrite (IH (a + 1) (Z.shiftr v 8)).
  - pose proof (Hb 0 ltac:(lia)) as Hb0. rewrite Z.add_0_r, Z.shiftr_0_r in Hb0. rewrite Hb0.
    unfold uw. rewrite Z.shiftr_div_pow2 by lia.
    replace (8 * Z.of_nat (S n)) with (8 + 8 * Z.of_nat n) by lia.
    rewrite Z.pow_add_r by lia. change (2 ^ 8) with 256.
    rewrite Z.rem_mul_r; [done|lia|]. apply Z.pow_pos_nonneg; lia.
  - intros i Hi. rewrite Z.shiftr_shiftr by lia.
    replace (a + 1 + i) with (a + (i + 1)) by lia. rewrite (Hb (i + 1)) by lia.
    do 2 f_equal. lia.
Qed.

Lemma load_store_same n m a v : load n (store n m a v) a = uw (8 * Z.of_nat n) v.
Proof.
  apply load_bytes. intros i Hi. rewrite load8_store. zcases; simpl; do 2 f_equal; lia.
Qed.

Lemma load64_store64 m a v : 0 ≤ v < 2 ^ 64 → load64 (store64 m a v) a = v.
Proof. intros. rewrite load_store_same. by apply uw_small. Qed.

Lemma load_memset0 n m a b c :
  b ≤ a → a + Z.of_nat n ≤ b + c → load n (memset m b 0 c) a = 0.
Proof.
  intros H1 H2. rewrite (load_bytes n _ a 0); [apply Z.mod_0_l; lia|].
  intros i Hi. rewrite load8_memset, Z.shiftr_0_l. zcases; done.
Qed.

(** ** [memcpy] between disjoint ranges *)

Lemma memcpy_loop_spec n i m dst src x :
  0 ≤ i → disj dst (i + Z.of_nat n) src (i + Z.of_nat n) →
  load8 (memcpy_loop n i m dst src) x =
    if (dst + i <=? x) && (x <? dst + i + Z.of_nat n) then load8 m (src + (x - dst)) else load8 m x.
Proof.
  unfold disj. revert i m; induction n as [|n IH]; intros i m Hi Hd; cbn [memcpy_loop].
  { zcases; done. }
  rewrite IH by lia. rewrite !load8_store.
  assert (u8 (load8 m (src + i)) = load8 m (src + i)) as Hb by (apply uw_idemp; lia).
  zcases; simpl; try done.
  all: assert (x = dst + i) as -> by lia; replace (8 * (dst + i - (dst + i))) with 0 by lia; rewrite Z.shiftr_0_r;
    by replace (src + (dst + i - dst)) with (src + i) by lia.
Qed.

Lemma memcpy_spec m dst src size x :
  0 ≤ size → disj dst size src size →
  load8 (memcpy m dst src size) x =
    if (dst <=? x) && (x <? dst + size) then load8 m (src + (x - dst)) else load8 m x.
Proof.
  intros Hs Hd. unfold memcpy.
  rewrite memcpy_loop_spec by (rewrite ?Z.add_0_l, ?Z2Nat.id; done || lia).
  by rewrite Z.add_0_r, Z2Nat.id.
Qed.

Lemma load_memcpy n m dst src size off :
  0 ≤ off → off + Z.of_nat n ≤ size → disj dst size src size →
  load n (memcpy m dst src size) (dst + off) = load n m (src + off).
Proof.
  intros Ho Hs Hd. transitivity (load n (λ x, m (src + (x - dst))) (dst + off)).
  - apply (load_agree n (range dst size)); unfold range; [|lia].
    intros x Hx. unfold range in Hx. rewrite memcpy_spec by (unfold disj in *; lia).
    zcases; done.
  - assert (∀ k, load k (λ x, m (src + (x - dst))) (dst + off) = load k m (src + off)) as H; [|apply H].
    intros k. clear. revert off; induction k as [|k IH]; intros off; [done|].
    cbn [load]. rewrite <- !Z.add_assoc, IH. f_equal. unfold load8.
    do 2 f_equal. lia.
Qed.

(** [mem_simpl]: discharge loads over disjoint stores, side conditions by [lia]. *)
Create Rewrite HintDb memdb.
#[export] Hint Rewrite load_store_disj load_memset_disj using (unfold disj; lia) : memdb.
#[export] Hint Rewrite load64_store64 using lia : memdb.
#[export] Hint Rewrite load_memset0 using lia : memdb.
Ltac mem_simpl := autorewrite with memdb.

Arguments load : simpl never.
Arguments store : simpl never.
Arguments memset : simpl never.
Arguments memcpy : simpl never.

(** Blocks in a set and outside it are disjoint. *)
Lemma disj_sets (P : Z → Prop) a n b k :
  (∀ x, range a n x → P x) → (∀ x, range b k x → ¬ P x) → 0 < n → 0 < k → disj a n b k.
Proof.
  intros Ha Hb Hn Hk. unfold disj, range in *.
  destruct (Z.le_gt_cases (a + n) b); [by left|]. destruct (Z.le_gt_cases (b + k) a); [by right|].
  exfalso. apply (Hb (Z.max a b)); [lia|]. apply Ha. lia.
Qed.

(** ** The bytes of an integer, least significant first *)

Definition le_split (n : nat) (v : Z) : list Z :=
  (λ i : nat, u8 (Z.shiftr v (8 * Z.of_nat i))) <$> seq 0 n.
Definition le_combine (l : list Z) : Z := foldr (λ b acc, b + 256 * acc) 0 l.

Lemma le_combine_split_at n v k :
  le_combine ((λ i : nat, u8 (Z.shiftr v (8 * Z.of_nat i))) <$> seq k n)
  = uw (8 * Z.of_nat n) (Z.shiftr v (8 * Z.of_nat k)).
Proof.
  revert k; induction n as [|n IH]; intros k; simpl.
  { unfold uw. by rewrite Z.mod_1_r. }
  rewrite IH. unfold uw.
  replace (8 * Z.of_nat (S k)) with (8 * Z.of_nat k + 8) by lia.
  rewrite <- Z.shiftr_shiftr, (Z.shiftr_div_pow2 (Z.shiftr v _)) by lia.
  replace (8 * Z.of_nat (S n)) with (8 + 8 * Z.of_nat n) by lia.
  rewrite Z.pow_add_r by lia. change (2 ^ 8) with 256.
  rewrite Z.rem_mul_r; [done|lia|]. apply Z.pow_pos_nonneg; lia.
Qed.

Lemma le_combine_split n v : le_combine (le_split n v) = uw (8 * Z.of_nat n) v.
Proof. unfold le_split. by rewrite le_combine_split_at, Z.shiftr_0_r. Qed.
