(* ===== verification/GDT.v ===== *)
(** [GDT.h]: segment descriptors, the per-CPU descriptor table with its task-state segment, and
    what [Table::init] and [Table::install] make of them.

    A descriptor is a record of the struct's fields in the order of the source; [raw] is the
    64-bit object representation the processor reads.  [seg_base], [seg_limit], ... decode such
    a word the way the processor does and serve as the specification. *)

From S2P Require Import Prelude.

(** Enumerations of [GDT.h]; several enumerators share a value. *)
Inductive DescriptorPrivilegeLevel := Ring0 | Ring1 | Ring2 | Ring3.
Definition dpl_bits (d : DescriptorPrivilegeLevel) : Z :=
  match d with Ring0 => 0 | Ring1 => 1 | Ring2 => 2 | Ring3 => 3 end.
Definition NullDPL := Ring0.

Inductive ReadableWriteable := DenyRW | AllowRW.
Definition rw_bits (r : ReadableWriteable) : Z := match r with DenyRW => 0 | AllowRW => 1 end.
Definition NullRW := DenyRW.
Definition CodeAllowRead := AllowRW.
Definition DataAllowWrite := AllowRW.

Inductive Executable := DataSeg | CodeSeg.
Definition ex_bits (e : Executable) : Z := match e with DataSeg => 0 | CodeSeg => 1 end.
Definition NullSeg := DataSeg.

Inductive SystemType := LDT | AvailableTSS | BusyTSS.
Definition type_bits (t : SystemType) : Z :=
  match t with LDT => 0x2 | AvailableTSS => 0x9 | BusyTSS => 0xB end.

Inductive Granularity := GByte | GPage.
Definition gran_bits (g : Granularity) : Z := match g with GByte => 0 | GPage => 1 end.
Definition NullGran := GByte.

Inductive Size := Bit16 | Bit32.
Definition size_bits (s : Size) : Z := match s with Bit16 => 0 | Bit32 => 1 end.
Definition NullSize := Bit16.

(** ** Access bytes and flags *)

Record UserAccessByte := {
  accessed : bool;
  readableWriteable : ReadableWriteable;
  directionConforming : bool;
  executable : Executable;
  ua_isUserSegment : bool;
  ua_dpl : DescriptorPrivilegeLevel;
  ua_present : bool;
}.

Definition mkUserAccessByte (rw : ReadableWriteable) (ex : Executable)
    (level : DescriptorPrivilegeLevel) : UserAccessByte :=
  {| accessed := false; readableWriteable := rw; directionConforming := false;
     executable := ex; ua_isUserSegment := true; ua_dpl := level; ua_present := true |}.
Definition nullUserAccessByte : UserAccessByte :=
  {| accessed := false; readableWriteable := NullRW; directionConforming := false;
     executable := NullSeg; ua_isUserSegment := false; ua_dpl := NullDPL; ua_present := false |}.

(** Bit-fields fill the byte from bit 0 up. *)
Definition user_access_bits (a : UserAccessByte) : Z :=
  Z.b2z (accessed a) + 2 * rw_bits (readableWriteable a) + 4 * Z.b2z (directionConforming a)
  + 8 * ex_bits (executable a) + 16 * Z.b2z (ua_isUserSegment a) + 32 * dpl_bits (ua_dpl a)
  + 128 * Z.b2z (ua_present a).

Record SystemAccessByte := {
  sa_type : SystemType;
  sa_isUserSegment : bool;
  sa_dpl : DescriptorPrivilegeLevel;
  sa_present : bool;
}.
Definition mkSystemAccessByte (t : SystemType) (d : DescriptorPrivilegeLevel) : SystemAccessByte :=
  {| sa_type := t; sa_isUserSegment := false; sa_dpl := d; sa_present := true |}.
Definition system_access_bits (a : SystemAccessByte) : Z :=
  type_bits (sa_type a) + 16 * Z.b2z (sa_isUserSegment a) + 32 * dpl_bits (sa_dpl a)
  + 128 * Z.b2z (sa_present a).

(** [Flags]: four one-bit fields; the other four bits of the byte are padding. *)
Record Flags := {
  fl_reserved : Z;
  isLongModeCode : bool;
  fl_size : Size;
  granularity : Granularity;
}.
Definition mkFlags (s : Size) (g : Granularity) : Flags :=
  {| fl_reserved := 0; isLongModeCode := false; fl_size := s; granularity := g |}.
Definition nullFlags : Flags := mkFlags NullSize NullGran.
Definition longModeCode : Flags :=
  {| fl_reserved := 0; isLongModeCode := true; fl_size := NullSize; granularity := GByte |}.

(** [operator uint8_t] reads the whole byte, padding included. *)
Definition flags_u8 (pad : Z) (f : Flags) : Z :=
  fl_reserved f + 2 * Z.b2z (isLongModeCode f) + 4 * size_bits (fl_size f)
  + 8 * gran_bits (granularity f) + 16 * pad.

(** ** Descriptors *)

Record UserEntry := {
  limitLow : Z;
  baseLow : Z;
  baseMid : Z;
  access : Z;
  limitHigh : Z;
  flags : Z;
  baseHigh : Z;
}.

(** The constructor.  Assigning to a bit-field keeps its low bits; [flags] has already gone
    through [operator uint8_t]. *)
Definition mkUserEntry (limit base : Z) (acc : UserAccessByte) (fl : Z) : UserEntry :=
  {| access := user_access_bits acc;
     flags := uw 4 fl;
     limitLow := Z.land limit 0xFFFF;
     limitHigh := uw 4 (Z.land (Z.shiftr limit 16) 0xFF);
     baseLow := Z.land base 0xFFFF;
     baseMid := Z.land (Z.shiftr base 16) 0xFF;
     baseHigh := Z.land (Z.shiftr base 24) 0xFF |}.

(** The object representation as the 64-bit word at the entry's address. *)
Definition raw (e : UserEntry) : Z :=
  limitLow e + Z.shiftl (baseLow e) 16 + Z.shiftl (baseMid e) 32 + Z.shiftl (access e) 40
  + Z.shiftl (limitHigh e) 48 + Z.shiftl (flags e) 52 + Z.shiftl (baseHigh e) 56.

(** [become]: reinterpret a 64-bit word as an entry. *)
Definition become (x : Z) : UserEntry :=
  {| limitLow := bf_get 0 16 x; baseLow := bf_get 16 16 x; baseMid := bf_get 32 8 x;
     access := bf_get 40 8 x; limitHigh := bf_get 48 4 x; flags := bf_get 52 4 x;
     baseHigh := bf_get 56 8 x |}.

Record SystemEntry := {
  s_low : UserEntry;      (* the fields shared with a user entry *)
  s_baseHigher : Z;
  s_reserved : Z;
}.

Definition mkSystemEntry (limit base : Z) (acc : SystemAccessByte) (fl : Z) : SystemEntry :=
  {| s_low :=
       {| access := system_access_bits acc;
          flags := uw 4 fl;
          limitLow := Z.land limit 0xFFFF;
          limitHigh := uw 4 (Z.land (Z.shiftr limit 16) 0xFF);
          baseLow := Z.land base 0xFFFF;
          baseMid := Z.land (Z.shiftr base 16) 0xFF;
          baseHigh := Z.land (Z.shiftr base 24) 0xFF |};
     s_baseHigher := Z.land (Z.shiftr base 32) 0xFFFFFFFF;
     s_reserved := 0 |}.

Record TSSEntry := {
  tss_reserved0 : Z;
  stackPointers : list Z;
  tss_reserved1 : Z;
  interruptStackTable : list Z;
  tss_reserved2 : Z;
  tss_reserved3 : Z;
  iomapBase : Z;
}.
Definition TSSEntry_members : list (Z * Z) :=
  [packed 4; packed (3 * 8); packed 8; packed (7 * 8); packed 8; packed 2; packed 2].
Definition sizeof_TSSEntry : Z := struct_size 1 TSSEntry_members.

Record Table := {
  nullEntry : UserEntry;
  kernelCode : UserEntry;
  kernelData : UserEntry;
  userCode32 : UserEntry;
  userData32 : UserEntry;
  userCode64 : UserEntry;
  userData64 : UserEntry;
  theEntryForTheTSS : SystemEntry;
  theTSSEntryItself : TSSEntry;
}.

(** Layout of the packed, 16-byte aligned [Table]. *)
Definition Table_members : list (Z * Z) :=
  [packed 8; packed 8; packed 8; packed 8; packed 8; packed 8; packed 8; packed 16;
   packed sizeof_TSSEntry].
Definition Table_offsets : list Z := struct_offsets 0 Table_members.
Definition sizeof_Table : Z := struct_size 16 Table_members.
Definition off_kernelCode : Z := member Table_offsets 1.
Definition off_kernelData : Z := member Table_offsets 2.
Definition off_userCode32 : Z := member Table_offsets 3.
Definition off_userData32 : Z := member Table_offsets 4.
Definition off_userCode64 : Z := member Table_offsets 5.
Definition off_userData64 : Z := member Table_offsets 6.
Definition off_theEntryForTheTSS : Z := member Table_offsets 7.
Definition off_theTSSEntryItself : Z := member Table_offsets 8.

(** [Table::init] on the table at address [this]; only [stackPointers[0]] of the TSS changes. *)
Definition Table_init (this stackLocation : Z) (t : Table) : Table :=
  let tss := theTSSEntryItself t in
  {| nullEntry := mkUserEntry 0 0 nullUserAccessByte (flags_u8 0 nullFlags);
     kernelCode := mkUserEntry 0xffffffff 0 (mkUserAccessByte CodeAllowRead CodeSeg Ring0)
                     (flags_u8 0 longModeCode);
     kernelData := mkUserEntry 0xffffffff 0 (mkUserAccessByte DataAllowWrite DataSeg Ring0)
                     (flags_u8 0 (mkFlags Bit32 GByte));
     userCode32 := mkUserEntry 0xffffffff 0 (mkUserAccessByte CodeAllowRead CodeSeg Ring3)
                     (flags_u8 0 (mkFlags Bit32 GByte));
     userData32 := mkUserEntry 0xffffffff 0 (mkUserAccessByte DataAllowWrite DataSeg Ring3)
                     (flags_u8 0 (mkFlags Bit32 GByte));
     userCode64 := mkUserEntry 0xffffffff 0 (mkUserAccessByte CodeAllowRead CodeSeg Ring3)
                     (flags_u8 0 longModeCode);
     userData64 := mkUserEntry 0xffffffff 0 (mkUserAccessByte DataAllowWrite DataSeg Ring3)
                     (flags_u8 0 (mkFlags Bit32 GByte));
     theEntryForTheTSS := mkSystemEntry (u16 sizeof_TSSEntry) (u64 (this + off_theTSSEntryItself))
                     (mkSystemAccessByte AvailableTSS Ring0) (flags_u8 0 nullFlags);
     theTSSEntryItself :=
       {| tss_reserved0 := tss_reserved0 tss;
          stackPointers := <[0%nat := stackLocation]> (stackPointers tss);
          tss_reserved1 := tss_reserved1 tss;
          interruptStackTable := interruptStackTable tss;
          tss_reserved2 := tss_reserved2 tss;
          tss_reserved3 := tss_reserved3 tss;
          iomapBase := iomapBase tss |} |}.

(** [Table::install]: the segment and table registers it leaves. *)
Record SegmentRegisters := {
  gdtr_limit : Z; gdtr_base : Z;
  sr_cs : Z; sr_ds : Z; sr_es : Z; sr_ss : Z; sr_tr : Z;
}.
Definition Table_install (this : Z) (r : SegmentRegisters) : SegmentRegisters :=
  {| gdtr_limit := u16 (off_theTSSEntryItself - 1);
     gdtr_base := this;
     sr_cs := off_kernelCode;
     sr_ds := u16 off_kernelData;
     sr_es := u16 off_kernelData;
     sr_ss := u16 off_kernelData;
     sr_tr := 0x3b |}.

(** ** The processor's reading of a descriptor (specification) *)

Definition seg_limit (d : Z) : Z := bf_get 0 16 d + 2 ^ 16 * bf_get 48 4 d.
Definition seg_base (d : Z) : Z := bf_get 16 24 d + 2 ^ 24 * bf_get 56 8 d.
Definition seg_access (d : Z) : Z := bf_get 40 8 d.
Definition seg_dpl (d : Z) : Z := bf_get 45 2 d.
Definition seg_code (d : Z) : bool := Z.testbit d 43.
Definition seg_long (d : Z) : bool := Z.testbit d 53.
Definition seg_present (d : Z) : bool := Z.testbit d 47.

(** The descriptor word a selector names in the table: index = selector / 8. *)
Definition table_words (t : Table) : list Z :=
  [raw (nullEntry t); raw (kernelCode t); raw (kernelData t); raw (userCode32 t);
   raw (userData32 t); raw (userCode64 t); raw (userData64 t);
   raw (s_low (theEntryForTheTSS t));
   s_baseHigher (theEntryForTheTSS t) + Z.shiftl (s_reserved (theEntryForTheTSS t)) 32].
Definition descriptor (t : Table) (selector : Z) : option Z :=
  table_words t !! Z.to_nat (Z.shiftr selector 3).
Definition selector_rpl (selector : Z) : Z := Z.land selector 3.

(** ** Theorems *)

Definition entry_wf (e : UserEntry) : Prop :=
  0 ≤ limitLow e < 2 ^ 16 ∧ 0 ≤ baseLow e < 2 ^ 16 ∧ 0 ≤ baseMid e < 2 ^ 8 ∧
  0 ≤ access e < 2 ^ 8 ∧ 0 ≤ limitHigh e < 2 ^ 4 ∧ 0 ≤ flags e < 2 ^ 4 ∧ 0 ≤ baseHigh e < 2 ^ 8.

Lemma raw_sum e :
  raw e = limitLow e + 2 ^ 16 * baseLow e + 2 ^ 32 * baseMid e + 2 ^ 40 * access e
          + 2 ^ 48 * limitHigh e + 2 ^ 52 * flags e + 2 ^ 56 * baseHigh e.
Proof. unfold raw. rewrite !Z.shiftl_mul_pow2 by lia. ring. Qed.

Ltac fields_lia :=
  unfold bf_get, uw in *; rewrite ?Z.shiftr_div_pow2 in * by lia;
  change (2 ^ 0) with 1 in *; change (2 ^ 4) with 16 in *; change (2 ^ 8) with 256 in *;
  change (2 ^ 2) with 4 in *; change (2 ^ 1) with 2 in *;
  change (2 ^ 16) with 65536 in *; change (2 ^ 20) with 1048576 in *;
  change (2 ^ 24) with 16777216 in *; change (2 ^ 32) with 4294967296 in *;
  change (2 ^ 40) with 1099511627776 in *; change (2 ^ 45) with 35184372088832 in *;
  change (2 ^ 48) with 281474976710656 in *; change (2 ^ 52) with 4503599627370496 in *;
  change (2 ^ 56) with 72057594037927936 in *; change (2 ^ 64) with 18446744073709551616 in *;
  Z.div_mod_to_equations; lia.

Lemma become_raw e : entry_wf e → become (raw e) = e.
Proof.
  unfold entry_wf. rewrite raw_sum. destruct e; simpl. intros H.
  unfold become. f_equal; fields_lia.
Qed.

Lemma user_access_range a : 0 ≤ user_access_bits a < 2 ^ 8.
Proof. unfold user_access_bits. destruct a as [[] [] [] [] [] [] []]; simpl; lia. Qed.

Lemma system_access_range a : 0 ≤ system_access_bits a < 2 ^ 8.
Proof. unfold system_access_bits. destruct a as [[] [] [] []]; simpl; lia. Qed.

Lemma land_ffff x : Z.land x 0xFFFF = uw 16 x.
Proof. by rewrite uw_ones. Qed.
Lemma land_ff x : Z.land x 0xFF = uw 8 x.
Proof. by rewrite uw_ones. Qed.
Lemma land_ffffffff x : Z.land x 0xFFFFFFFF = uw 32 x.
Proof. by rewrite uw_ones. Qed.

Lemma mkUserEntry_wf limit base acc fl : entry_wf (mkUserEntry limit base acc fl).
Proof.
  unfold entry_wf; simpl. rewrite !land_ffff, !land_ff. pose proof (user_access_range acc).
  repeat split; (apply uw_range || apply user_access_range); lia.
Qed.

(** The descriptor built by the [UserEntry] constructor, as the processor reads it: the whole
    base, the low 20 bits of the limit, the access byte and the low four flag bits. *)
Theorem UserEntry_decodes limit base acc fl :
  0 ≤ base < 2 ^ 32 →
  let d := raw (mkUserEntry limit base acc fl) in
  seg_base d = base ∧ seg_limit d = limit mod 2 ^ 20 ∧
  seg_access d = user_access_bits acc ∧ bf_get 52 4 d = fl mod 16.
Proof.
  intros Hb d. subst d. rewrite raw_sum. simpl.
  rewrite !land_ffff, !land_ff. pose proof (user_access_range acc) as Ha.
  unfold seg_base, seg_limit, seg_access. repeat split; fields_lia.
Qed.

Theorem SystemEntry_decodes limit base acc fl :
  0 ≤ base < 2 ^ 64 → 0 ≤ limit < 2 ^ 16 →
  let e := mkSystemEntry limit base acc fl in
  let d := raw (s_low e) in
  seg_base d + 2 ^ 32 * s_baseHigher e = base ∧ seg_limit d = limit ∧
  seg_access d = system_access_bits acc ∧ 0 ≤ s_baseHigher e < 2 ^ 32.
Proof.
  intros Hb Hl e d. subst d e. rewrite raw_sum. simpl.
  rewrite !land_ffff, !land_ff, land_ffffffff. pose proof (system_access_range acc) as Ha.
  unfold seg_base, seg_limit, seg_access. repeat split; fields_lia.
Qed.

(** Reinterpreting a word as an entry and reading it back gives the word. *)
Lemma raw_become_eq x : 0 ≤ x < 2 ^ 64 → raw (become x) = x.
Proof. intros Hx. rewrite raw_sum. simpl. fields_lia. Qed.

(** What the processor finds behind the selectors the kernel uses. *)
Definition is_code64 (d : Z) (dpl : Z) : Prop :=
  seg_present d = true ∧ seg_code d = true ∧ seg_long d = true ∧ seg_dpl d = dpl.
Definition is_data (d : Z) (dpl : Z) : Prop :=
  seg_present d = true ∧ seg_code d = false ∧ Z.testbit d 41 = true ∧ seg_dpl d = dpl.

Lemma Table_installed_spec this stack t r :
  0 ≤ this → this + off_theTSSEntryItself < 2 ^ 64 → length (stackPointers (theTSSEntryItself t)) = 3%nat →
  let t' := Table_init this stack t in
  let r' := Table_install this r in
  (∃ d, descriptor t' (sr_cs r') = Some d ∧ is_code64 d 0) ∧
  (∃ d, descriptor t' (sr_ds r') = Some d ∧ is_data d 0) ∧
  (∃ d, descriptor t' (Z.lor off_userCode64 3) = Some d ∧ is_code64 d 3) ∧
  (∃ d, descriptor t' (Z.lor off_userData64 3) = Some d ∧ is_data d 3) ∧
  (∃ d, descriptor t' (sr_tr r') = Some d ∧ seg_access d = 0x89 ∧
        seg_base d + 2 ^ 32 * s_baseHigher (theEntryForTheTSS t') = this + off_theTSSEntryItself) ∧
  gdtr_limit r' + 1 = 8 * Z.of_nat (length (table_words t')) ∧
  stackPointers (theTSSEntryItself t') !! 0%nat = Some stack.
Proof.
  intros H0 Hthis Hlen t' r'.
  repeat match goal with |- _ ∧ _ => split end.
  1-4: eexists; split; [reflexivity | repeat split].
  - exists (raw (s_low (theEntryForTheTSS t'))). split; [reflexivity|].
    subst t'. cbn [Table_init theEntryForTheTSS].
    destruct (SystemEntry_decodes (u16 sizeof_TSSEntry) (u64 (this + off_theTSSEntryItself))
      (mkSystemAccessByte AvailableTSS Ring0) (flags_u8 0 nullFlags)) as (Hb & _ & Ha & _).
    + apply uw_range; lia.
    + apply uw_range; lia.
    + split; [by rewrite Ha|]. rewrite Hb.
      apply uw_small. change off_theTSSEntryItself with 72 in *. lia.
  - reflexivity.
  - subst t'. simpl. apply list_lookup_insert_eq. lia.
Qed.

(** C37. After [init] and [install], every selector the kernel loads names the descriptor it is
    meant to name, the table limit covers exactly the descriptors, and the task register names
    the available-TSS descriptor of this table's own TSS, whose ring-0 stack is the one given. *)
Theorem Table_installed this stack t r :
  0 ≤ this → this + off_theTSSEntryItself < 2 ^ 64 → length (stackPointers (theTSSEntryItself t)) = 3%nat →
  let t' := Table_init this stack t in
  let r' := Table_install this r in
  (∃ d, descriptor t' (sr_cs r') = Some d ∧ is_code64 d 0) ∧
  (∃ d, descriptor t' (sr_ds r') = Some d ∧ is_data d 0) ∧
  (∃ d, descriptor t' (Z.lor off_userCode64 3) = Some d ∧ is_code64 d 3) ∧
  (∃ d, descriptor t' (Z.lor off_userData64 3) = Some d ∧ is_data d 3) ∧
  (∃ d, descriptor t' (sr_tr r') = Some d ∧ seg_access d = 0x89 ∧
        seg_base d + 2 ^ 32 * s_baseHigher (theEntryForTheTSS t') = this + off_theTSSEntryItself) ∧
  gdtr_limit r' + 1 = 8 * Z.of_nat (length (table_words t')) ∧
  stackPointers (theTSSEntryItself t') !! 0%nat = Some stack.
Proof. apply Table_installed_spec. Qed.

(** ** Concrete instances *)

(** The table of a zeroed CPU record. *)
Definition zero_TSS : TSSEntry :=
  {| tss_reserved0 := 0; stackPointers := [0; 0; 0]; tss_reserved1 := 0;
     interruptStackTable := [0; 0; 0; 0; 0; 0; 0]; tss_reserved2 := 0;
     tss_reserved3 := 0; iomapBase := 0 |}.
Definition zero_Table : Table :=
  {| nullEntry := become 0; kernelCode := become 0; kernelData := become 0;
     userCode32 := become 0; userData32 := become 0; userCode64 := become 0;
     userData64 := become 0;
     theEntryForTheTSS := {| s_low := become 0; s_baseHigher := 0; s_reserved := 0 |};
     theTSSEntryItself := zero_TSS |}.

Lemma UserEntry_decodes_witness :
  seg_base (raw (mkUserEntry 0xffffffff 0x12345678 nullUserAccessByte 12)) = 0x12345678.
Proof. apply (UserEntry_decodes 0xffffffff 0x12345678 nullUserAccessByte 12). lia. Defined.

Definition zero_segments : SegmentRegisters :=
  {| gdtr_limit := 0; gdtr_base := 0; sr_cs := 0; sr_ds := 0; sr_es := 0; sr_ss := 0; sr_tr := 0 |}.
Lemma Table_installed_witness :
  ∃ d, descriptor (Table_init 0xffff800000200000 0x5000 zero_Table)
         (sr_cs (Table_install 0xffff800000200000 zero_segments)) = Some d ∧ is_code64 d 0.
Proof.
  apply (Table_installed 0xffff800000200000 0x5000 zero_Table zero_segments); [lia|by vm_compute|done].
Defined.
