(* ===== verification/Cpu.v ===== *)
(** Per-CPU state ([ProcessManagement.h], [MiscFunctions.h], [SMP.h]): the array of CPU
    records and the search for the current one, the nesting of interrupt disabling, and the
    model-specific registers the kernel programs.

    The state of the processor that runs the code is [hw]: its local-APIC identifier register,
    the interrupt flag and the model-specific registers.  [cpu_env] adds the kernel's array of
    [CPUState] records, shared by all processors. *)

From S2P Require Import Prelude GDT.

(** ** Model-specific registers ([MiscFunctions.h], [SMP.h]) *)

Definition msrs : Type := Z → Z.
Definition set_msr (r : msrs) (i v : Z) : msrs := λ j, if j =? i then v else r j.

(** [wrmsr] stores edx:eax; the C++ parameters are 32 bits wide. *)
Definition cpuSetMSR (r : msrs) (msr lo hi : Z) : msrs :=
  set_msr r (u32 msr) (u32 lo + 2 ^ 32 * u32 hi).
Definition cpuGetMSR (r : msrs) (msr : Z) : Z * Z := (u32 (r (u32 msr)), u32 (Z.shiftr (r (u32 msr)) 32)).

(** [swapgs] exchanges the active and the kernel GS base. *)
Definition swapgs (r : msrs) : msrs :=
  set_msr (set_msr r 0xC0000101 (r 0xC0000102)) 0xC0000102 (r 0xC0000101).

Definition APICBaseDefault : Z := 0xFEE00000.
Definition setAPICBase (r : msrs) (physAddr : Z) : msrs :=
  let edx := u32 (Z.land (Z.shiftr physAddr 32) 0x0f) in
  let eax := u32 (Z.lor (Z.land physAddr 0xfffff0000) 0x800) in
  cpuSetMSR r 0x1B eax edx.
Definition getAPICBase (r : msrs) : Z :=
  let '(eax, edx) := cpuGetMSR r 0x1B in
  Z.lor (Z.land eax 0xfffff000) (Z.shiftl (Z.land edx 0x0f) 32).

(** [setKernelGSBase], [setSyscallRIP] and [setStarRegister] of [CPUState]; [this] and
    [SyscallHandler] are addresses. *)
Definition setKernelGSBase (r : msrs) (this : Z) : msrs :=
  let r := cpuSetMSR r 0xC0000101 this (Z.shiftr this 32) in
  let r := cpuSetMSR r 0xC0000102 this (Z.shiftr this 32) in
  swapgs r.

Definition setSyscallRIP (r : msrs) (SyscallHandler : Z) : msrs :=
  let r := set_msr r 0xC0000080 (Z.lor (r 0xC0000080) 1) in
  cpuSetMSR r 0xC0000082 SyscallHandler (Z.shiftr SyscallHandler 32).

Definition setStarRegister (r : msrs) : msrs :=
  let KernelSelector := Z.lor off_kernelCode (dpl_bits Ring0) in
  let UserSelector := Z.lor off_userCode32 (dpl_bits Ring3) in
  cpuSetMSR r 0xC0000081 0 (Z.lor KernelSelector (Z.shiftl UserSelector 16)).

(** ** CPU records *)

Record CPUState := {
  apicID : Z;
  cliCount : Z;
  wereInterruptsEnabled : bool;
  currentProcess : Z;           (* ProcessInfo*, 0 is nullptr *)
  interruptStack : Z;
  table : Table;
  userStack : Z;
  schedulerTask : Z;            (* KernelContext* *)
}.

(** The struct's layout: [int], [int32_t], [bool], two pointers, the 16-byte aligned table,
    a word and a pointer. *)
Definition CPUState_members : list (Z * Z) :=
  [c_u32; c_u32; c_bool; c_ptr; c_ptr; (sizeof_Table, 16); c_u64; c_ptr].
Definition CPUState_offsets : list Z := struct_offsets 0 CPUState_members.
Definition sizeof_CPUState : Z := struct_size 16 CPUState_members.
Definition UserStackOffset : Z := 208.
Definition KernelInterruptStackOffset : Z := 24.

Definition set_cli (n : Z) (w : bool) (c : CPUState) : CPUState :=
  {| apicID := apicID c; cliCount := n; wereInterruptsEnabled := w;
     currentProcess := currentProcess c; interruptStack := interruptStack c; table := table c;
     userStack := userStack c; schedulerTask := schedulerTask c |}.

Record hw := {
  lapicReg : Z;      (* the local APIC's ID register, lapic[0x20/4] *)
  IF : bool;         (* the interrupt flag of rflags *)
  msr : msrs;
}.
Definition set_IF (b : bool) (h : hw) : hw := {| lapicReg := lapicReg h; IF := b; msr := msr h |}.

Record cpu_env := { CPUs : list CPUState; this_hw : hw }.

(** [LocalAPIC::lapicID] reads the ID register; the identifier is its top byte. *)
Definition lapicID (h : hw) : Z := Z.shiftr (u32 (lapicReg h)) 24.

(** [thisCPU]: the index of the first record with our identifier, [None] for [nullptr]. *)
Fixpoint find_cpu (i : nat) (id : Z) (l : list CPUState) : option nat :=
  match l with
  | [] => None
  | c :: l => if apicID c =? id then Some i else find_cpu (S i) id l
  end.
Definition thisCPU (e : cpu_env) : option nat := find_cpu 0 (lapicID (this_hw e)) (CPUs e).

(** A member access through [thisCPU()]. *)
Definition with_this {A} (e : cpu_env) (k : nat → CPUState → outcome A) : outcome A :=
  match thisCPU e with
  | None => Stuck NullDeref
  | Some i => match CPUs e !! i with None => Stuck NullDeref | Some c => k i c end
  end.

Definition put_cpu (i : nat) (c : CPUState) (e : cpu_env) : cpu_env :=
  {| CPUs := <[i := c]> (CPUs e); this_hw := this_hw e |}.
Definition put_IF (b : bool) (e : cpu_env) : cpu_env :=
  {| CPUs := CPUs e; this_hw := set_IF b (this_hw e) |}.

(** [pushCLI] reads rflags, disables interrupts, remembers at the outermost level whether they
    were enabled, and counts. *)
Definition pushCLI (e : cpu_env) : outcome cpu_env :=
  let flags := IF (this_hw e) in
  let e := put_IF false e in
  with_this e (λ i c,
    let w := if cliCount c =? 0 then flags else wereInterruptsEnabled c in
    Done (put_cpu i (set_cli (s32 (cliCount c + 1)) w c) e)).

(** [popCLI] counts down and enables interrupts again at the outermost level. *)
Definition popCLI (e : cpu_env) : outcome cpu_env :=
  with_this e (λ i c,
    let c := set_cli (s32 (cliCount c - 1)) (wereInterruptsEnabled c) c in
    let e := put_cpu i c e in
    Done (if (cliCount c =? 0) && wereInterruptsEnabled c then put_IF true e else e)).

(** ** Theorems: interrupt nesting *)

Lemma find_cpu_insert k id l i c c' :
  l !! i = Some c → apicID c' = apicID c → find_cpu k id (<[i := c']> l) = find_cpu k id l.
Proof.
  revert k i; induction l as [|d l IH]; intros k i Hi Ha; [done|].
  destruct i as [|i]; simpl in *.
  - injection Hi as ->. by rewrite Ha.
  - destruct (apicID d =? id); [done|]. by apply IH.
Qed.

Lemma find_cpu_lookup k id l i :
  find_cpu k id l = Some i → ∃ j c, i = (k + j)%nat ∧ l !! j = Some c ∧ apicID c = id.
Proof.
  revert k; induction l as [|d l IH]; intros k H; [done|]. simpl in H.
  destruct (Z.eqb_spec (apicID d) id).
  - injection H as <-. exists 0%nat, d. split; [lia|done].
  - destruct (IH _ H) as (j & c & -> & Hj & Hc). exists (S j), c. split; [lia|done].
Qed.

(** The record of the current processor. *)
Definition cpu_of (e : cpu_env) (i : nat) (c : CPUState) : Prop :=
  thisCPU e = Some i ∧ CPUs e !! i = Some c.

Lemma thisCPU_of e i : thisCPU e = Some i → ∃ c, cpu_of e i c.
Proof.
  intros H. destruct (find_cpu_lookup _ _ _ _ H) as (j & c & -> & Hj & _). by exists c.
Qed.

Lemma with_this_of {A} e i c (k : nat → CPUState → outcome A) :
  cpu_of e i c → with_this e k = k i c.
Proof. intros [H1 H2]. unfold with_this. by rewrite H1, H2. Qed.

Lemma cpu_of_put_IF b e i c : cpu_of e i c → cpu_of (put_IF b e) i c.
Proof. by intros [H1 H2]. Qed.

Lemma cpu_of_put_cpu e i c c' :
  cpu_of e i c → apicID c' = apicID c → cpu_of (put_cpu i c' e) i c'.
Proof.
  intros [H1 H2] Ha. split.
  - unfold thisCPU in *. simpl. by erewrite find_cpu_insert.
  - simpl. apply list_lookup_insert_eq. by eapply lookup_lt_Some.
Qed.

Lemma pushCLI_spec e i c :
  cpu_of e i c →
  pushCLI e =
    Done (put_cpu i (set_cli (s32 (cliCount c + 1))
            (if cliCount c =? 0 then IF (this_hw e) else wereInterruptsEnabled c) c) (put_IF false e)).
Proof. intros H. unfold pushCLI. erewrite with_this_of; [done|]. by apply cpu_of_put_IF. Qed.

Lemma popCLI_spec e i c :
  cpu_of e i c →
  let n := s32 (cliCount c - 1) in
  let e' := put_cpu i (set_cli n (wereInterruptsEnabled c) c) e in
  popCLI e = Done (if (n =? 0) && wereInterruptsEnabled c then put_IF true e' else e').
Proof. intros H. unfold popCLI. by erewrite with_this_of. Qed.

(** The state a run of balanced [pushCLI]/[popCLI] calls at depth [d] is in, when it started
    with interrupts [b] at depth 0. *)
Definition cli_depth (b : bool) (i : nat) (d : Z) (e : cpu_env) : Prop :=
  ∃ c, cpu_of e i c ∧ cliCount c = d ∧ IF (this_hw e) = (if d =? 0 then b else false) ∧
         (0 < d → wereInterruptsEnabled c = b).

(** One level in and out again. *)
Lemma push_pop_total e i c :
  cpu_of e i c →
  ∃ e1 e2 c2, pushCLI e = Done e1 ∧ popCLI e1 = Done e2 ∧ cpu_of e2 i c2.
Proof.
  intros Hc. rewrite (pushCLI_spec _ _ _ Hc). set (c1 := set_cli _ _ _). set (e1 := put_cpu _ _ _).
  assert (H1 : cpu_of e1 i c1) by (eapply cpu_of_put_cpu; [by apply cpu_of_put_IF|done]).
  eexists e1, _, _. split; [done|]. split; [by apply popCLI_spec|].
  case_match; [apply cpu_of_put_IF|]; by eapply cpu_of_put_cpu.
Qed.

Lemma pushCLI_depth b i d e :
  cli_depth b i d e → 0 ≤ d < 2 ^ 31 - 1 → ∃ e', pushCLI e = Done e' ∧ cli_depth b i (d + 1) e'.
Proof.
  intros (c & Hc & Hd & HI & Hw) Hb. rewrite (pushCLI_spec _ _ _ Hc). eexists; split; [done|].
  eexists. split; [eapply cpu_of_put_cpu; [by apply cpu_of_put_IF|done]|]. simpl.
  rewrite Hd. split; [apply sw_small; lia|]. destruct (Z.eqb_spec (d + 1) 0); [lia|].
  split; [done|]. intros _. destruct (Z.eqb_spec d 0); [done|]. apply Hw. lia.
Qed.

Lemma popCLI_depth b i d e :
  cli_depth b i d e → 0 < d < 2 ^ 31 → ∃ e', popCLI e = Done e' ∧ cli_depth b i (d - 1) e'.
Proof.
  intros (c & Hc & Hd & HI & Hw) Hb. rewrite (popCLI_spec _ _ _ Hc). eexists; split; [done|].
  rewrite Hd, sw_small by lia. rewrite Hw in * by lia.
  assert (Hi : IF (this_hw e) = false) by (rewrite HI; by destruct (Z.eqb_spec d 0); [lia|]).
  assert (Hp : cpu_of (put_cpu i (set_cli (d - 1) b c) e) i (set_cli (d - 1) b c))
    by (by eapply cpu_of_put_cpu).
  eexists.
  destruct (Z.eqb_spec (d - 1) 0); simpl; destruct b; simpl;
    (split; [by try apply cpu_of_put_IF|]); simpl; auto.
Qed.

Inductive cli_op := Push | Pop.
Definition cli_step (o : cli_op) (e : cpu_env) : outcome cpu_env :=
  match o with Push => pushCLI e | Pop => popCLI e end.
Fixpoint cli_run (ops : list cli_op) (e : cpu_env) : outcome cpu_env :=
  match ops with [] => Done e | o :: ops => e ← cli_step o e; cli_run ops e end.

(** Nesting depth of a sequence of calls that never pops below where it started. *)
Fixpoint depth_after (d : Z) (ops : list cli_op) : option Z :=
  match ops with
  | [] => Some d
  | Push :: ops => if d + 1 <? 2 ^ 31 then depth_after (d + 1) ops else None
  | Pop :: ops => if 0 <? d then depth_after (d - 1) ops else None
  end.

Lemma cli_run_depth b i ops d d' e :
  cli_depth b i d e → 0 ≤ d < 2 ^ 31 → depth_after d ops = Some d' →
  ∃ e', cli_run ops e = Done e' ∧ cli_depth b i d' e'.
Proof.
  revert d e; induction ops as [|[] ops IH]; intros d e He Hd Hr; cbn [depth_after] in Hr.
  - injection Hr as <-. by exists e.
  - destruct (Z.ltb_spec (d + 1) (2 ^ 31)); [|done].
    destruct (pushCLI_depth b i d e) as (e1 & H1 & H2); [done|lia|].
    cbn [cli_run cli_step]. rewrite H1. eapply IH; [done|lia|done].
  - destruct (Z.ltb_spec 0 d); [|done].
    destruct (popCLI_depth b i d e) as (e1 & H1 & H2); [done|lia|].
    cbn [cli_run cli_step]. rewrite H1. eapply IH; [done|lia|done].
Qed.

(** C31. Calls of [pushCLI] and [popCLI] nest: every sequence that never pops more than it pushed
    runs to the end, the count is the depth, interrupts are off at every depth above 0, and at
    depth 0 they are what they were at the start. *)
Theorem cli_nesting ops e i c d :
  cpu_of e i c → cliCount c = 0 → depth_after 0 ops = Some d →
  ∃ e' c', cli_run ops e = Done e' ∧ cpu_of e' i c' ∧ cliCount c' = d ∧
           IF (this_hw e') = (if d =? 0 then IF (this_hw e) else false).
Proof.
  intros Hc Hn Hd.
  destruct (cli_run_depth (IF (this_hw e)) i ops 0 d e) as (e' & Hr & c' & H1 & H2 & H3 & _);
    [|lia|done|].
  - exists c. rewrite Hn. repeat split; [apply Hc|apply Hc|lia].
  - by exists e', c'.
Qed.

(** ** Theorems: model-specific registers and layout *)

Lemma cpuSetMSR_split r i v :
  0 ≤ v < 2 ^ 64 → cpuSetMSR r i v (Z.shiftr v 32) (u32 i) = v.
Proof.
  intros Hv. unfold cpuSetMSR, set_msr. rewrite Z.eqb_refl, Z.shiftr_div_pow2 by lia.
  change (2 ^ 32) with 4294967296. wrap_lia.
Qed.

(** [setKernelGSBase] leaves the record's address in both GS bases, so that the [swapgs] of the
    system-call entry finds it whichever side it comes from, and touches nothing else. *)
Theorem setKernelGSBase_both r this j :
  0 ≤ this < 2 ^ 64 →
  setKernelGSBase r this j =
    if (j =? 0xC0000101) || (j =? 0xC0000102) then this else r j.
Proof.
  intros Ht. unfold setKernelGSBase, swapgs.
  set (r1 := cpuSetMSR r 0xC0000101 this (Z.shiftr this 32)).
  set (r2 := cpuSetMSR r1 0xC0000102 this (Z.shiftr this 32)).
  assert (r2 0xC0000102 = this) as E2 by (by apply (cpuSetMSR_split r1 0xC0000102)).
  assert (r2 0xC0000101 = this) as E1 by (by apply (cpuSetMSR_split r 0xC0000101)).
  unfold set_msr. rewrite E1, E2.
  destruct (Z.eqb_spec j 0xC0000102) as [->|H2]; [done|].
  destruct (Z.eqb_spec j 0xC0000101) as [->|H1]; [done|]. simpl.
  subst r1 r2. unfold cpuSetMSR, set_msr.
  change (u32 0xC0000102) with 0xC0000102. change (u32 0xC0000101) with 0xC0000101.
  destruct (Z.eqb_spec j 0xC0000102); [done|]. by destruct (Z.eqb_spec j 0xC0000101).
Qed.

(** The selectors [syscall] and [sysret] derive from the STAR register are those of the
    descriptor table: kernel code and data on entry; on a 64-bit return the 64-bit user code
    segment, with the 32-bit user data segment as stack segment. *)
Theorem StarRegister_selectors r :
  let star := setStarRegister r 0xC0000081 in
  let kernel := bf_get 32 16 star in
  let user := bf_get 48 16 star in
  kernel = off_kernelCode ∧ kernel + 8 = off_kernelData ∧
  user = Z.lor off_userCode32 3 ∧
  user + 16 = Z.lor off_userCode64 3 ∧ user + 8 = Z.lor off_userData32 3 ∧
  bf_get 0 32 star = 0.
Proof. by repeat split. Qed.

(** Reading back the local-APIC base gives bits 16 to 35 of what was set: the mask of
    [setAPICBase] drops bits 12 to 15 of the page address. *)
Theorem APICBase_roundtrip r p :
  0 ≤ p < 2 ^ 64 → getAPICBase (setAPICBase r p) = Z.land p 0xfffff0000.
Proof.
  intros Hp. unfold getAPICBase, setAPICBase, cpuGetMSR, cpuSetMSR, set_msr.
  rewrite Z.eqb_refl. set (eax := u32 (Z.lor _ _)). set (edx := u32 (Z.land _ 0x0f)).
  assert (0 ≤ eax < 2 ^ 32) by (by apply uw_range).
  assert (0 ≤ edx < 2 ^ 32) by (by apply uw_range).
  rewrite (uw_small 32 eax), (uw_small 32 edx) by done.
  assert (u32 (eax + 2 ^ 32 * edx) = eax) as -> by wrap_lia.
  assert (u32 (Z.shiftr (eax + 2 ^ 32 * edx) 32) = edx) as ->
    by (rewrite Z.shiftr_div_pow2 by lia; wrap_lia).
  subst eax edx. clear. change 0xfffff0000 with (Z.shiftl (Z.ones 20) 16).
  change 0xfffff000 with (Z.shiftl (Z.ones 20) 12). change 0x0f with (Z.ones 4).
  change 0x800 with (Z.shiftl (Z.ones 1) 11).
  zbits.
Qed.

Lemma CPUState_layout :
  member CPUState_offsets 4 = KernelInterruptStackOffset ∧
  member CPUState_offsets 6 = UserStackOffset ∧ sizeof_CPUState = 224.
Proof. done. Qed.

(** ** Concrete instances *)

Definition zero_hw : hw := {| lapicReg := 0; IF := false; msr := λ _, 0 |}.
Definition zero_cpu : CPUState :=
  {| apicID := 0; cliCount := 0; wereInterruptsEnabled := false; currentProcess := 0;
     interruptStack := 0; userStack := 0; schedulerTask := 0; table := zero_Table |}.
(** Two processors; the second runs, with interrupts enabled. *)
Definition example_env : cpu_env :=
  {| CPUs := [zero_cpu;
              {| apicID := 1; cliCount := 0; wereInterruptsEnabled := false; currentProcess := 0;
                 interruptStack := 0; userStack := 0; schedulerTask := 0; table := zero_Table |}];
     this_hw := {| lapicReg := 0x01000000; IF := true; msr := λ _, 0 |} |}.
Definition example_self : CPUState := nth 1 (CPUs example_env) zero_cpu.

Lemma cli_nesting_witness :
  ∃ e', cli_run [Push; Push; Pop] example_env = Done e' ∧ IF (this_hw e') = false.
Proof.
  destruct (cli_nesting [Push; Push; Pop] example_env 1 example_self 1) as (e' & c' & E & _ & _ & HI);
    [done|done|done|].
  exists e'. split; [exact E|exact HI].
Defined.

Lemma setKernelGSBase_both_witness :
  setKernelGSBase (λ _, 0) 0xffff800000300000 0xC0000102 = 0xffff800000300000.
Proof. rewrite setKernelGSBase_both; [done|lia]. Defined.

Lemma APICBase_roundtrip_witness : getAPICBase (setAPICBase (λ _, 0) 0xFEE01000) = 0xFEE00000.
Proof. rewrite APICBase_roundtrip; [done|lia]. Defined.
