(* ===== verification/Spinlock.v ===== *)
(** [Spinlock.cpp]: the spin lock, run by one processor ([acquire], [release]) and contended
    for by many (the step relation [lock_step]).

    [held] is a 16-bit member, but [release] clears it with a 32-bit [movl]: it also clears the
    two bytes that follow the lock.  [movl_zero] is that store on the bytes of the object the
    lock is the first member of; components that embed a lock apply it to their own layout. *)

From S2P Require Import Prelude Mem GDT Cpu.

(** [init] and the atomic exchange of [__sync_lock_test_and_set]. *)
Definition lock_init : Z := 0.
Definition test_and_set (held : Z) : Z * Z := (held, 1).

(** [acquire] on one processor.  While the lock is held nothing this processor does can free
    it: the busy-wait loop spins for ever. *)
Definition acquire (held : Z) (e : cpu_env) : outcome (Z * cpu_env) :=
  e ← pushCLI e;
  let '(old, held) := test_and_set held in
  if old =? 0 then (e ← popCLI e; Done (held, e)) else Stuck Spin.

(** The store of [release] on the bytes from the lock on. *)
Definition movl_zero (img : list Z) : list Z := replicate 4 0 ++ drop 4 img.

Definition release (img : list Z) (e : cpu_env) : outcome (list Z * cpu_env) :=
  e ← pushCLI e;
  let img := movl_zero img in
  e ← popCLI e;
  Done (img, e).

(** ** Several processors

    [Outside], [Waiting] (in the loop of [acquire]) and [Inside] (between [acquire] and
    [release]) are what a processor can be doing with one lock. *)

Inductive lock_pc := Outside | Waiting | Inside.
#[export] Instance lock_pc_eq_dec : EqDecision lock_pc.
Proof. solve_decision. Defined.

Record lock_state := { ls_held : Z; ls_pcs : list lock_pc }.

Inductive lock_step : lock_state → lock_state → Prop :=
  | ls_start i s :
      ls_pcs s !! i = Some Outside →
      lock_step s {| ls_held := ls_held s; ls_pcs := <[i := Waiting]> (ls_pcs s) |}
  | ls_tas i s old held :
      ls_pcs s !! i = Some Waiting →
      test_and_set (ls_held s) = (old, held) →
      lock_step s {| ls_held := held;
                     ls_pcs := if old =? 0 then <[i := Inside]> (ls_pcs s) else ls_pcs s |}
  | ls_release i s :
      ls_pcs s !! i = Some Inside →
      lock_step s {| ls_held := 0; ls_pcs := <[i := Outside]> (ls_pcs s) |}.

Definition lock_start (n : nat) : lock_state :=
  {| ls_held := lock_init; ls_pcs := replicate n Outside |}.

(** ** Theorems *)

(** [acquire] of a free lock takes it and gives the processor back the interrupt flag it came
    with: interrupts that were enabled are enabled again while the lock is held. *)
Theorem acquire_free i c e :
  cpu_of e i c → 0 ≤ cliCount c < 2 ^ 31 - 1 → (0 < cliCount c → IF (this_hw e) = false) →
  ∃ e', acquire 0 e = Done (1, e') ∧
        IF (this_hw e') = IF (this_hw e) ∧
        ∃ c', cpu_of e' i c' ∧ cliCount c' = cliCount c.
Proof.
  intros Hc Hn HI.
  assert (Hd : cli_depth (if cliCount c =? 0 then IF (this_hw e) else wereInterruptsEnabled c)
                 i (cliCount c) e).
  { exists c. repeat split; try apply Hc; destruct (Z.eqb_spec (cliCount c) 0); auto; try lia.
    apply HI; lia. }
  destruct (pushCLI_depth _ _ _ _ Hd Hn) as (e1 & H1 & Hd1).
  destruct (popCLI_depth _ _ _ _ Hd1) as (e2 & H2 & c2 & Hc2 & Hn2 & HI2 & _); [lia|].
  unfold acquire. rewrite H1. cbn. rewrite H2. exists e2. split; [done|].
  replace (cliCount c + 1 - 1) with (cliCount c) in * by lia. split.
  - rewrite HI2. destruct (Z.eqb_spec (cliCount c) 0); [done|]. symmetry. apply HI. lia.
  - by exists c2.
Qed.

(** A processor that acquires a held lock, such as an interrupt handler that uses a lock the
    code it interrupted holds, waits for ever. *)
Theorem acquire_held held e e' : pushCLI e = Done e' → held ≠ 0 → acquire held e = Stuck Spin.
Proof.
  intros H Hh. unfold acquire. rewrite H. cbn. by destruct (Z.eqb_spec held 0).
Qed.

(** The invariant of contention: at most one processor is inside, and the lock word is 1
    exactly when one is. *)
Definition insiders : list lock_pc → nat := count (λ p, bool_decide (p = Inside)).
Definition lock_inv (s : lock_state) : Prop :=
  (ls_held s = 0 ∧ insiders (ls_pcs s) = 0%nat) ∨ (ls_held s = 1 ∧ insiders (ls_pcs s) = 1%nat).

Lemma lock_inv_step s s' : lock_inv s → lock_step s s' → lock_inv s'.
Proof.
  unfold lock_inv, insiders. intros HI Hs; destruct Hs as [i s H|i s old held H Ht|i s H];
    try (injection Ht as <- <-); simpl.
  - pose proof (count_insert (λ p, bool_decide (p = Inside)) _ _ _ Waiting H) as Hi. simpl in Hi. lia.
  - pose proof (count_insert (λ p, bool_decide (p = Inside)) _ _ _ Inside H) as Hi. simpl in Hi.
    destruct (Z.eqb_spec (ls_held s) 0); [lia|]. right. split; [done|lia].
  - pose proof (count_insert (λ p, bool_decide (p = Inside)) _ _ _ Outside H) as Hi. simpl in Hi.
    destruct HI as [[? ?]|[? ?]]; [lia|]. left. split; [done|lia].
Qed.

Lemma lock_start_inv n : lock_inv (lock_start n).
Proof. left. split; [done|]. unfold insiders. simpl. by rewrite count_replicate. Qed.

(** Mutual exclusion: however the processors' steps interleave, two different processors are
    never both between [acquire] and [release] of the same lock. *)
Theorem lock_mutual_exclusion n s i j :
  rtc lock_step (lock_start n) s →
  ls_pcs s !! i = Some Inside → ls_pcs s !! j = Some Inside → i = j.
Proof.
  intros Hr Hi Hj. assert (lock_inv s) as HI.
  { clear Hi Hj. revert Hr. generalize (lock_start_inv n). generalize (lock_start n).
    intros s0 H0 Hr. induction Hr as [|s0 s1 s2 Hs _ IH]; [done|].
    apply IH. by eapply lock_inv_step. }
  destruct (decide (j = i)) as [|Hn]; [done|]. assert (insiders (ls_pcs s) ≤ 1)%nat as H1.
  { unfold lock_inv in HI. lia. }
  discriminate (count_others _ _ i j _ _ H1 Hi eq_refl Hj Hn).
Qed.

(** A waiting processor can always take the lock once it is free (no lost release). *)
Lemma lock_free_progress s i :
  lock_inv s → insiders (ls_pcs s) = 0%nat → ls_pcs s !! i = Some Waiting →
  lock_step s {| ls_held := 1; ls_pcs := <[i := Inside]> (ls_pcs s) |}.
Proof.
  intros HI H0 Hi. destruct HI as [[Hh _]|[_ ?]]; [|lia].
  replace (<[i := Inside]> (ls_pcs s))
    with (if ls_held s =? 0 then <[i := Inside]> (ls_pcs s) else ls_pcs s) by (by rewrite Hh).
  by econstructor.
Qed.

(** ** Concrete instances *)

Lemma acquire_free_witness :
  ∃ e', acquire 0 example_env = Done (1, e') ∧ IF (this_hw e') = true.
Proof.
  destruct (acquire_free 1 example_self example_env) as (e' & E & H & _);
    [done|simpl; lia|simpl; lia|].
  exists e'. split; [exact E|exact H].
Defined.

Lemma acquire_held_witness : acquire 1 example_env = Stuck Spin.
Proof.
  apply (acquire_held 1 example_env (done_or example_env (pushCLI example_env))); [|lia].
  reflexivity.
Defined.

(** The first of two processors is inside. *)
Lemma lock_mutual_exclusion_witness :
  ∃ s, rtc lock_step (lock_start 2) s ∧ ls_pcs s = [Inside; Waiting] ∧
       ∀ j, ls_pcs s !! j = Some Inside → 0%nat = j.
Proof.
  assert (rtc lock_step (lock_start 2) {| ls_held := 1; ls_pcs := [Inside; Waiting] |}) as R.
  { eapply rtc_l; [apply (ls_start 0); reflexivity|].
    eapply rtc_l; [apply (ls_tas 0 _ 0 1); reflexivity|].
    eapply rtc_l; [apply (ls_start 1); reflexivity|]. apply rtc_refl. }
  exists {| ls_held := 1; ls_pcs := [Inside; Waiting] |}. split; [exact R|]. split; [done|].
  intros j Hj. exact (lock_mutual_exclusion 2 _ 0 j R eq_refl Hj).
Defined.
