(* ===== verification/ChunkList.v ===== *)
(** Chunk lists in memory: what the page allocator and the byte heap share.

    Both keep their free memory as a doubly linked list of chunks whose headers lie in the chunks
    themselves; [MemoryChunk] and [FreeChunk] have the same members at the same offsets, the third
    counts pages in the one and bytes in the other.  Here are the headers, the search for a chunk's
    place, the predicate that pointers run through a list of chunks, and what the pointer operations
    of the two allocators do to it.  None of it depends on how much a chunk holds: the headers must
    not overlap, that is all. *)

From S2P Require Import Prelude Mem.

(** [MemoryChunk] members at their offsets 0, 8 and 16. *)
Definition MemoryChunk_members : list (Z * Z) := [c_ptr; c_ptr; c_u64].
Definition next (m : mem) (c : Z) : Z := load64 m c.
Definition prev (m : mem) (c : Z) : Z := load64 m (c + 8).
Definition numPages (m : mem) (c : Z) : Z := load64 m (c + 16).
Definition set_next (m : mem) (c v : Z) : mem := store64 m c v.
Definition set_prev (m : mem) (c v : Z) : mem := store64 m (c + 8) v.
Definition set_numPages (m : mem) (c v : Z) : mem := store64 m (c + 16) v.

(** The search loop of [freePages] and [free]: the last chunk not above [base] and the one after it. *)
Fixpoint find_place (fuel : nat) (m : mem) (base pv nx : Z) : outcome (Z * Z) :=
  if nx =? 0 then Done (pv, nx)
  else if base <? nx then Done (pv, nx)
  else match fuel with
       | O => Stuck OutOfFuel
       | S fuel => find_place fuel m base nx (next m nx)
       end.

(** ** Lists of chunks *)

(** A chunk is a base address and a count. *)
Abbreviation chunk := (Z * Z)%type.

(** [dseg m pv p l pv' p']: the pointers from [p] run through exactly the chunks [l] to [p'];
    the first one's [prev] is [pv], and [pv'] is the last chunk passed. *)
Fixpoint dseg (m : mem) (pv p : Z) (l : list chunk) (pv' p' : Z) : Prop :=
  match l with
  | [] => p = p' ∧ pv = pv'
  | (b, n) :: l => p = b ∧ prev m b = pv ∧ numPages m b = n ∧ dseg m b (next m b) l pv' p'
  end.


(** In address order, the headers not overlapping. *)
Fixpoint spaced (lo : Z) (l : list chunk) : Prop :=
  match l with
  | [] => True
  | (b, _) :: l => lo ≤ b ∧ b + 24 ≤ 2 ^ 64 ∧ spaced (b + 24) l
  end.

Definition headers (l : list chunk) (x : Z) : Prop := ∃ b n, (b, n) ∈ l ∧ b ≤ x < b + 24.

(** No header of [l] meets a header at [b]. *)
Definition hsep (l : list chunk) (b : Z) : Prop :=
  ∀ b' n', (b', n') ∈ l → b' + 24 ≤ b ∨ b + 24 ≤ b'.

Lemma spaced_elem lo l b n : spaced lo l → (b, n) ∈ l → lo ≤ b ∧ b + 24 ≤ 2 ^ 64.
Proof.
  revert lo; induction l as [|[b' n'] l IH]; intros lo Hw Hin; [by apply not_elem_of_nil in Hin|].
  destruct Hw as (H1 & H2 & H3). apply elem_of_cons in Hin as [[= -> ->]|Hin]; [done|].
  destruct (IH _ H3 Hin). lia.
Qed.

Lemma spaced_weaken lo lo' l : lo' ≤ lo → spaced lo l → spaced lo' l.
Proof. destruct l as [|[b n] l]; simpl; [done|]. intros ? (?&?&?). repeat split; try done; lia. Qed.

Lemma spaced_app lo l1 l2 :
  spaced lo (l1 ++ l2) → spaced lo l1 ∧ ∃ lo', lo ≤ lo' ∧ spaced lo' l2 ∧
    ∀ b n, (b, n) ∈ l1 → b + 24 ≤ lo'.
Proof.
  revert lo; induction l1 as [|[b n] l1 IH]; intros lo; simpl.
  { intros H. split; [done|]. exists lo. split; [lia|]. split; [done|]. by intros ?? ?%not_elem_of_nil. }
  intros (H1 & H2 & H3). destruct (IH _ H3) as (H4 & lo' & H5 & H6 & H7).
  split; [done|]. exists lo'. split; [lia|]. split; [done|].
  intros b' n' [[= -> ->]|Hin]%elem_of_cons; [lia|by eapply H7].
Qed.

(** Headers around one of the list. *)
Lemma spaced_mid lo l1 b k l3 :
  spaced lo (l1 ++ (b, k) :: l3) →
  lo ≤ b ∧ b + 24 ≤ 2 ^ 64 ∧ spaced lo l1 ∧ spaced (b + 24) l3 ∧
  (∀ b' n', (b', n') ∈ l1 → b' + 24 ≤ b) ∧ (∀ b' n', (b', n') ∈ l3 → b + 24 ≤ b').
Proof.
  intros Hw. destruct (spaced_app _ _ _ Hw) as (H1 & lo' & Hlo & (Hb & He & H3) & Hl).
  repeat (split; [done || lia|]). split.
  - intros b' n' Hin. specialize (Hl _ _ Hin). lia.
  - intros b' n' Hin. destruct (spaced_elem _ _ _ _ H3 Hin). lia.
Qed.

Lemma dseg_app m pv p l1 l2 pv' p' :
  dseg m pv p (l1 ++ l2) pv' p' ↔ ∃ pv1 p1, dseg m pv p l1 pv1 p1 ∧ dseg m pv1 p1 l2 pv' p'.
Proof.
  revert pv p; induction l1 as [|[b n] l1 IH]; intros pv p; simpl.
  - split; [by eauto|]. by intros (? & ? & [-> ->] & ?).
  - split.
    + intros (-> & H1 & H2 & H3). apply IH in H3 as (? & ? & ? & ?). eauto 10.
    + intros (pv1 & p1 & (-> & H1 & H2 & H3) & H4). repeat (split; [done|]). apply IH. eauto.
Qed.

Lemma dseg_agree m m' pv p l pv' p' :
  agree (headers l) m' m → dseg m pv p l pv' p' → dseg m' pv p l pv' p'.
Proof.
  revert pv p; induction l as [|[b n] l IH]; intros pv p HA; simpl; [done|].
  intros (-> & H1 & H2 & H3).
  assert (∀ o, 0 ≤ o → o + 8 ≤ 24 → load64 m' (b + o) = load64 m (b + o)) as HL.
  { intros o H0 Ho. eapply load_agree; [exact HA|]. intros x Hx. exists b, n.
    split; [apply list_elem_of_here|]. unfold range in Hx. lia. }
  pose proof (HL 0 ltac:(lia) ltac:(lia)) as HL0. rewrite Z.add_0_r in HL0.
  unfold next, prev, numPages in *. rewrite !HL, HL0 by lia.
  repeat (split; [done|]). apply IH; [|done].
  eapply agree_weaken; [|exact HA]. intros x (b' & n' & Hin & Hx). exists b', n'.
  split; [by apply list_elem_of_further|done].
Qed.

(** A store into [b .. b+24] leaves headers on either side of it alone. *)
Lemma agree_store_off l lo hi b o v m :
  (∀ b' n', (b', n') ∈ l → b' + 24 ≤ lo ∨ hi ≤ b') →
  lo ≤ b → b + 24 ≤ hi → 0 ≤ o → o + 8 ≤ 24 →
  agree (headers l) (store64 m (b + o) v) m.
Proof.
  intros Hl Hlo Hhi Ho1 Ho2. apply store_agree. intros x (b' & n' & Hin & Hx).
  specialize (Hl _ _ Hin). unfold range. lia.
Qed.

(** The three header words of a chunk are independent. *)
Lemma header_words m b v :
  next (set_next m b v) b = uw 64 v ∧ prev (set_next m b v) b = prev m b ∧
  numPages (set_next m b v) b = numPages m b ∧
  next (set_prev m b v) b = next m b ∧ prev (set_prev m b v) b = uw 64 v ∧
  numPages (set_prev m b v) b = numPages m b ∧
  next (set_numPages m b v) b = next m b ∧ prev (set_numPages m b v) b = prev m b ∧
  numPages (set_numPages m b v) b = uw 64 v.
Proof.
  unfold next, prev, numPages, set_next, set_prev, set_numPages.
  repeat split; (rewrite load_store_same || rewrite load_store_disj by (unfold disj; lia)); done.
Qed.

(** Words of a header 24 bytes or more away. *)
Lemma header_words_far m b c v :
  b + 24 ≤ c ∨ c + 24 ≤ b →
  next (set_next m b v) c = next m c ∧ prev (set_next m b v) c = prev m c ∧
  numPages (set_next m b v) c = numPages m c ∧
  next (set_prev m b v) c = next m c ∧ prev (set_prev m b v) c = prev m c ∧
  numPages (set_prev m b v) c = numPages m c ∧
  next (set_numPages m b v) c = next m c ∧ prev (set_numPages m b v) c = prev m c ∧
  numPages (set_numPages m b v) c = numPages m c.
Proof.
  intros H. unfold next, prev, numPages, set_next, set_prev, set_numPages.
  rewrite !load_store_disj by (unfold disj; lia). done.
Qed.

(** Changing the [next] of the last chunk, or the [prev] of the first. *)
Lemma dseg_relink_last m pv p l b n p' v lo :
  spaced lo (l ++ [(b, n)]) → 0 ≤ v < 2 ^ 64 →
  dseg m pv p (l ++ [(b, n)]) b p' → dseg (set_next m b v) pv p (l ++ [(b, n)]) b v.
Proof.
  intros Hw Hv (pv1 & p1 & H1 & H2)%dseg_app. apply dseg_app.
  destruct (spaced_mid _ _ _ _ _ Hw) as (_ & _ & _ & _ & Hl & _).
  exists pv1, p1. split.
  - eapply dseg_agree; [|done]. unfold set_next. rewrite <- (Z.add_0_r b).
    eapply (agree_store_off _ b (b + 24)); try lia. intros b' n' Hin. left. by eapply Hl.
  - simpl in *. destruct (header_words m b v) as (-> & -> & -> & _). rewrite uw_small by done.
    naive_solver.
Qed.

Lemma dseg_relink_first m pv b n l pv' p' v lo :
  spaced lo ((b, n) :: l) → 0 ≤ v < 2 ^ 64 →
  dseg m pv b ((b, n) :: l) pv' p' → dseg (set_prev m b v) v b ((b, n) :: l) pv' p'.
Proof.
  intros (Hb & He & Hw) Hv (_ & H1 & H2 & H3). simpl.
  destruct (header_words m b v) as (_ & _ & _ & -> & -> & -> & _). rewrite uw_small by done.
  repeat (split; [done|]). eapply dseg_agree; [|done].
  eapply (agree_store_off _ b (b + 24)); try lia. intros b' n' Hin. right.
  by destruct (spaced_elem _ _ _ _ Hw Hin).
Qed.

Lemma dseg_last m pv p l b n pv' p' : dseg m pv p (l ++ [(b, n)]) pv' p' → pv' = b.
Proof. intros (? & ? & _ & H)%dseg_app. simpl in H. naive_solver. Qed.

Lemma dseg_head m pv p l pv' lo :
  spaced lo l → dseg m pv p l pv' 0 → 1 ≤ lo →
  (p = 0 ∧ l = []) ∨ (∃ n l', l = (p, n) :: l' ∧ lo ≤ p < 2 ^ 64).
Proof.
  destruct l as [|[b n] l]; simpl; [naive_solver|]. intros (? & ? & _) (-> & _) ?.
  right. exists n, l. split; [done|lia].
Qed.

Lemma headers_in l b n x : (b, n) ∈ l → b ≤ x < b + 24 → headers l x.
Proof. intros. by exists b, n. Qed.

(** A store into a header of the list changes nothing outside the headers. *)
Lemma agree_outside_headers l b n o v m :
  (b, n) ∈ l → 0 ≤ o → o + 8 ≤ 24 → agree (λ x, ¬ headers l x) (store64 m (b + o) v) m.
Proof.
  intros Hin H0 H1. apply store_agree. intros x Hx Hr. apply Hx. unfold range in Hr.
  eapply headers_in; [done|lia].
Qed.

Lemma agree_set_next l1 b n l2 v m :
  agree (λ x, ¬ headers (l1 ++ (b, n) :: l2) x) (set_next m b v) m.
Proof.
  assert (Hin : (b, n) ∈ l1 ++ (b, n) :: l2).
  { rewrite elem_of_app. right. apply list_elem_of_here. }
  pose proof (agree_outside_headers _ b n 0 v m Hin ltac:(lia) ltac:(lia)) as H.
  by rewrite Z.add_0_r in H.
Qed.

(** Setting the count of a chunk keeps the rest of the list. *)
Lemma dseg_set_numPages m free l1 b k l3 last v :
  spaced 1 (l1 ++ (b, k) :: l3) → 0 ≤ v < 2 ^ 64 →
  dseg m 0 free (l1 ++ (b, k) :: l3) last 0 →
  dseg (set_numPages m b v) 0 free (l1 ++ (b, v) :: l3) last 0.
Proof.
  intros Hw Hv (pv & p & H1 & (-> & H2 & H3 & H4))%dseg_app.
  destruct (spaced_mid _ _ _ _ _ Hw) as (Hb & He & _ & _ & Hl1 & Hl3).
  apply dseg_app. exists pv, b. split.
  - eapply dseg_agree; [|done]. eapply (agree_store_off _ b (b + 24)); try lia.
    intros b' n' Hin. left. by eapply Hl1.
  - simpl. destruct (header_words m b v) as (_ & _ & _ & _ & _ & _ & -> & -> & ->).
    rewrite uw_small by done. repeat (split; [done|]).
    eapply dseg_agree; [|done]. eapply (agree_store_off _ b (b + 24)); try lia.
    intros b' n' Hin. right. by eapply Hl3.
Qed.

(** ** Unlinking an emptied chunk: first the predecessor, then the successor *)

Lemma dseg_unlink_before m free l1 b nx pv k l3 :
  spaced 1 (l1 ++ (b, k) :: l3) → 0 ≤ nx < 2 ^ 64 → dseg m 0 free l1 pv b →
  let m1 := if pv =? 0 then m else set_next m pv nx in
  dseg m1 0 (if b =? free then nx else free) l1 pv nx ∧
  agree (λ x, b ≤ x) m1 m ∧ agree (λ x, ¬ headers l1 x) m1 m.
Proof.
  intros Hw Hnx H1. destruct (spaced_mid _ _ _ _ _ Hw) as (Hb & _ & Hw1 & _ & Hl1 & _).
  destruct (list_snoc_inv l1) as [->|(l & [b0 n0] & ->)].
  - destruct H1 as [-> <-]. simpl. rewrite Z.eqb_refl. done.
  - assert (pv = b0) as -> by (by eapply dseg_last).
    assert (Hin0 : (b0, n0) ∈ l ++ [(b0, n0)]) by (apply elem_of_app; right; apply list_elem_of_here).
    pose proof (Hl1 b0 n0 Hin0) as Hb0. destruct (spaced_elem _ _ b0 n0 Hw1 Hin0) as (? & _).
    assert (free < b). { destruct l as [|[bf nf] l]; destruct H1 as [-> _]; [lia|].
      specialize (Hl1 bf nf (list_elem_of_here _ _)). lia. }
    destruct (Z.eqb_spec b0 0); [lia|]. destruct (Z.eqb_spec b free); [lia|].
    split; [by eapply dseg_relink_last|]. split.
    + apply store_agree. unfold range. lia.
    + apply agree_set_next.
Qed.

Lemma dseg_unlink m free l1 b l3 last k :
  spaced 1 (l1 ++ (b, k) :: l3) → dseg m 0 free (l1 ++ (b, 0) :: l3) last 0 →
  let m1 := if prev m b =? 0 then m else set_next m (prev m b) (next m b) in
  let m2 := if next m1 b =? 0 then m1 else set_prev m1 (next m1 b) (prev m1 b) in
  let free' := if b =? free then next m2 b else free in
  (∃ last', dseg m2 0 free' (l1 ++ l3) last' 0) ∧ numPages m2 b = 0 ∧
  agree (λ x, ¬ headers (l1 ++ l3) x) m2 m.
Proof.
  intros Hw (pv & p & H1 & (-> & Hpv & Hnum & H3))%dseg_app m1 m2.
  destruct (spaced_mid _ _ _ _ _ Hw) as (Hb & He & Hw1 & Hw3 & Hl1 & Hl3).
  pose proof (load64_range m b : 0 ≤ next m b < 2 ^ 64) as Hnx.
  destruct (dseg_unlink_before m free l1 b (next m b) pv k l3 Hw Hnx H1) as (Hd & HA & HB).
  rewrite <- Hpv in Hd, HA, HB. fold m1 in Hd, HA, HB.
  assert (next m1 b = next m b ∧ prev m1 b = prev m b ∧ numPages m1 b = 0) as (E1 & E2 & E3).
  { rewrite <- Hnum. repeat split; (eapply (load_agree 8); [exact HA|]); unfold range; lia. }
  assert (agree (λ x, ¬ headers (l1 ++ l3) x) m1 m) as HB'.
  { eapply agree_weaken; [|exact HB]. intros x Hx (b' & n' & Hin & ?). apply Hx.
    exists b', n'. split; [|done]. apply elem_of_app. by left. }
  assert (dseg m1 b (next m b) l3 last 0) as H3'.
  { eapply dseg_agree; [|done]. eapply agree_weaken; [|exact HA].
    intros x (b' & n' & Hin & Hx). simpl. specialize (Hl3 _ _ Hin). lia. }
  assert (0 ≤ pv < 2 ^ 64) as Hpvr by (rewrite <- Hpv; apply load64_range).
  subst m2. rewrite E1, E2.
  destruct (dseg_head _ _ _ _ _ _ Hw3 H3') as [[Hn ->]|(n & l3' & -> & Hn)]; [lia| |].
  - rewrite Hn in *. change (0 =? 0) with true. cbv iota. rewrite E1, app_nil_r in *. eauto.
  - destruct (Z.eqb_spec (next m b) 0); [lia|].
    set (nx := next m b) in *.
    destruct (header_words_far m1 nx b (prev m b)) as (_ & _ & _ & -> & _ & -> & _); [lia|].
    rewrite E1. split; [|split; [done|]].
    2: { eapply agree_trans; [|exact HB']. apply (agree_outside_headers _ _ n); [|lia..].
         apply elem_of_app; right; apply list_elem_of_here. }
    exists last. apply dseg_app. exists (prev m b), nx. split.
    + rewrite Hpv in *. eapply dseg_agree; [|exact Hd].
      eapply (agree_store_off _ b (nx + 24)); try lia. intros b' n' Hin. left. by eapply Hl1.
    + eapply dseg_relink_first; [done|by rewrite Hpv|]. destruct H3' as (_ & H4 & H5 & H6). done.
Qed.

(** ** Linking a new chunk *)

(** Writing a header at [b] when no header of [l] meets it. *)
Lemma dseg_off m b v pv p l pv' p' :
  hsep l b → dseg m pv p l pv' p' →
  dseg (set_next m b v) pv p l pv' p' ∧ dseg (set_prev m b v) pv p l pv' p' ∧
  dseg (set_numPages m b v) pv p l pv' p'.
Proof.
  intros Hs Hd. unfold set_next, set_prev, set_numPages.
  repeat split; eapply dseg_agree; try exact Hd; apply store_agree;
    intros x (b' & n' & Hin & Hx); specialize (Hs _ _ Hin); unfold range; lia.
Qed.

Lemma find_place_spec fuel m base l1 l2 pv p pv1 p1 last lo :
  spaced lo (l1 ++ l2) → 1 ≤ lo → dseg m pv p l1 pv1 p1 → dseg m pv1 p1 l2 last 0 →
  (∀ b n, (b, n) ∈ l1 → b ≤ base) → (∀ b n, (b, n) ∈ l2 → base < b) →
  (length l1 ≤ fuel)%nat → find_place fuel m base pv p = Done (pv1, p1).
Proof.
  revert fuel pv p lo; induction l1 as [|[b n] l1 IH]; intros fuel pv p lo Hw Hlo H1 H2 Hl1 Hl2 Hf.
  - destruct H1 as [-> ->]. destruct l2 as [|[b n] l2].
    + destruct H2 as [-> ->]. by destruct fuel.
    + destruct H2 as (-> & _). pose proof (Hl2 b n (list_elem_of_here _ _)).
      destruct fuel; simpl; destruct (Z.eqb_spec b 0); try done;
        (destruct (Z.ltb_spec base b); [done|lia]).
  - destruct H1 as (-> & _ & _ & H1). destruct Hw as (Hb & _ & Hw).
    pose proof (Hl1 b n (list_elem_of_here _ _)). destruct fuel as [|fuel]; [simpl in Hf; lia|].
    cbn [find_place]. destruct (Z.eqb_spec b 0); [lia|]. destruct (Z.ltb_spec base b); [lia|].
    eapply IH; [exact Hw|lia|done|done| |done|simpl in Hf; lia].
    intros. eapply Hl1. by apply list_elem_of_further.
Qed.

(** The new chunk's [next], and the [prev] of the chunk behind it. *)
Lemma dseg_link_next lo m free l1 b0 l2 base n nx last :
  spaced lo l2 → 0 < lo → dseg m 0 free l1 b0 nx → dseg m b0 nx l2 last 0 →
  0 ≤ base → base + 24 ≤ 2 ^ 64 → numPages m base = n →
  (∀ b' n', (b', n') ∈ l1 → b' + 24 ≤ base) → (∀ b' n', (b', n') ∈ l2 → base + 24 ≤ b') →
  let m1 := if nx =? 0 then set_next m base nx else set_prev (set_next m base nx) nx base in
  dseg m1 0 free l1 b0 nx ∧ dseg m1 base nx l2 (if nx =? 0 then base else last) 0 ∧
  numPages m1 base = n ∧ next m1 base = nx ∧ agree (λ x, ¬ headers (l1 ++ (base, n) :: l2) x) m1 m.
Proof.
  intros Hw Hlo H1 H2 Hb He Hnum Hl1 Hl2 m1. subst m1.
  assert (S1 : hsep l1 base) by (intros b' n' Hin; left; eauto).
  assert (S2 : hsep l2 base) by (intros b' n' Hin; right; eauto).
  destruct (dseg_head _ _ _ _ _ _ Hw H2) as [[-> ->]|(n2 & l2' & -> & Hr)]; [lia| |].
  - rewrite Z.eqb_refl. destruct (header_words m base 0) as (E1 & _ & E3 & _).
    split; [by apply dseg_off|]. split; [done|]. split; [by rewrite E3|]. split; [done|].
    apply agree_set_next.
  - specialize (Hl2 nx n2 (list_elem_of_here _ _)). destruct (Z.eqb_spec nx 0); [lia|].
    destruct (header_words m base nx) as (E1 & _ & E3 & _). rewrite uw_small in E1 by lia.
    destruct (header_words_far (set_next m base nx) nx base base) as (_&_&_& F1 & _ & F3 & _); [lia|].
    rewrite F1, F3, E1, E3. split; [|split; [|split; [done|split; [done|]]]].
    + apply dseg_off; [|by apply dseg_off]. intros b' n' Hin. left. specialize (Hl1 b' n' Hin). lia.
    + eapply dseg_relink_first; [done|lia|]. by apply dseg_off.
    + eapply agree_trans; [|apply agree_set_next]. apply (agree_outside_headers _ nx n2); [|lia..].
      rewrite elem_of_app. right. apply list_elem_of_further, list_elem_of_here.
Qed.

(** The list with the new chunk linked between [l1] (not empty) and [l2]. *)
Lemma dseg_link m free l1 b0 n0 l2 base n nx last :
  spaced 1 ((l1 ++ [(b0, n0)]) ++ l2) →
  dseg m 0 free (l1 ++ [(b0, n0)]) b0 nx → dseg m b0 nx l2 last 0 →
  base + 24 ≤ 2 ^ 64 → numPages m base = n →
  b0 + 24 ≤ base → (∀ b' n', (b', n') ∈ l2 → base + 24 ≤ b') →
  let m1 := if nx =? 0 then set_next m base nx else set_prev (set_next m base nx) nx base in
  let m2 := set_next (set_prev m1 base b0) b0 base in
  (∃ last', dseg m2 0 free ((l1 ++ [(b0, n0)]) ++ (base, n) :: l2) last' 0) ∧ numPages m2 b0 = n0 ∧
  agree (λ x, ¬ headers ((l1 ++ [(b0, n0)]) ++ (base, n) :: l2) x) m2 m.
Proof.
  intros Hw H1 H2 He Hnum Hb0 Hl2 m1 m2.
  destruct (spaced_app _ _ _ Hw) as (Hw1 & lo & Hlo & Hw2 & _).
  pose proof Hw as Hw'. rewrite <- app_assoc in Hw'.
  destruct (spaced_mid _ _ _ _ _ Hw') as (Hb01 & _ & _ & _ & Hl1 & Hl02).
  assert (Hl1' : ∀ b' n', (b', n') ∈ l1 ++ [(b0, n0)] → b' + 24 ≤ base).
  { intros b' n' [Hin|[= -> ->]%list_elem_of_singleton]%elem_of_app; [specialize (Hl1 _ _ Hin); lia|done]. }
  destruct (dseg_link_next lo m free (l1 ++ [(b0, n0)]) b0 l2 base n nx last) as (A1 & A2 & A3 & A4 & A5);
    try done; try lia. fold m1 in A1, A2, A3, A4, A5. subst m2.
  assert (S1 : hsep (l1 ++ [(b0, n0)]) base) by (intros b' n' Hin; left; eauto).
  assert (S2 : hsep l2 base ∧ hsep l2 b0) by (split; intros b' n' Hin; right; eauto).
  destruct (header_words m1 base b0) as (_&_&_& B1 & B2 & B3 &_). rewrite uw_small in B2 by lia.
  destruct (header_words_far (set_prev m1 base b0) b0 base base) as (C1 & C2 & C3 & _); [lia|].
  split; [|split].
  - exists (if nx =? 0 then base else last). apply dseg_app. exists b0, base. split.
    + eapply dseg_relink_last; [done|lia|]. by apply dseg_off.
    + simpl. rewrite C1, C2, C3, B1, B2, B3, A3, A4. repeat (split; [done|]).
      do 2 (apply dseg_off; [apply S2|]). done.
  - destruct (header_words (set_prev m1 base b0) b0 base) as (_&_& -> & _).
    destruct (header_words_far m1 base b0 b0) as (_&_&_&_&_& -> & _); [lia|].
    apply dseg_app in A1 as (? & ? & _ & A1). simpl in A1. naive_solver.
  - eapply agree_trans; [|exact A5]. eapply agree_trans.
    + rewrite <- app_assoc. apply agree_set_next.
    + apply (agree_outside_headers _ base n); [|lia..]. rewrite elem_of_app. right.
      apply list_elem_of_here.
Qed.
