(* ===== verification/PhysMem.v ===== *)
(** [PhysicalMemoryManagement.cpp/.h]: the page allocator.

    Free memory is a doubly linked list of chunks; the header of a chunk (next, prev,
    numPages) lies in the first bytes of the chunk itself, so the list lives in the flat memory
    [ram] and is read through it.  The static variable [Memory] (a spin lock, a flag and the head
    pointer) is a record; its bytes matter because [Spinlock::release] writes four of them. *)

From S2P Require Import Prelude Mem GDT Cpu Spinlock ChunkList.

Definition PageShift : Z := 12.
Definition PageSize : Z := Z.shiftl 1 PageShift.

(** ** State *)

Record Memory_t := { m_held : Z; usingLock : bool; freeList : Z }.

(** Layout of [Memory]: the lock (2 bytes), the flag, the pointer. *)
Definition Memory_members : list (Z * Z) := [c_u16; c_bool; c_ptr].
Definition Memory_offsets : list Z := struct_offsets 0 Memory_members.

(** The sixteen bytes of the struct, padding zero, and the struct they hold. *)
Definition Memory_image (M : Memory_t) : list Z :=
  le_split 2 (m_held M) ++ [Z.b2z (usingLock M)] ++ replicate 5 0 ++ le_split 8 (freeList M).
Definition Memory_of_image (l : list Z) : Memory_t :=
  let at_ i n := take n (drop (Z.to_nat (member Memory_offsets i)) l) in
  {| m_held := le_combine (at_ 0%nat 2%nat);
     usingLock := negb (le_combine (at_ 1%nat 1%nat) =? 0);
     freeList := le_combine (at_ 2%nat 8%nat) |}.

Record machine := {
  ram : mem;
  Memory : Memory_t;
  HigherHalfDirectMapOffset : Z;
  env : cpu_env;
}.
Definition set_ram (m : mem) (s : machine) : machine :=
  {| ram := m; Memory := Memory s; HigherHalfDirectMapOffset := HigherHalfDirectMapOffset s;
     env := env s |}.
Definition set_Memory (M : Memory_t) (s : machine) : machine :=
  {| ram := ram s; Memory := M; HigherHalfDirectMapOffset := HigherHalfDirectMapOffset s;
     env := env s |}.
Definition set_env (e : cpu_env) (s : machine) : machine :=
  {| ram := ram s; Memory := Memory s; HigherHalfDirectMapOffset := HigherHalfDirectMapOffset s;
     env := e |}.
Definition set_freeList (p : Z) (s : machine) : machine :=
  set_Memory {| m_held := m_held (Memory s); usingLock := usingLock (Memory s); freeList := p |} s.

(** Addresses. *)
Definition toPhysical (s : machine) (hhv : Z) : Z := u64 (hhv - HigherHalfDirectMapOffset s).
Definition toVirtual (s : machine) (phys : Z) : Z := u64 (phys + HigherHalfDirectMapOffset s).

(** ** Operations *)

Definition init (s : machine) : machine :=
  set_Memory {| m_held := lock_init; usingLock := false; freeList := 0 |} s.

Definition thereIsNowMoreThanOneProcessor (s : machine) : machine :=
  set_Memory {| m_held := m_held (Memory s); usingLock := true; freeList := freeList (Memory s) |} s.

(** [if (Memory.usingLock) Memory.lock.acquire()] and the same with [release]. *)
Definition lock_if_used (s : machine) : outcome machine :=
  let M := Memory s in
  if usingLock M then
    '(h, e) ← acquire (m_held M) (env s);
    Done (set_env e (set_Memory {| m_held := h; usingLock := usingLock M; freeList := freeList M |} s))
  else Done s.
Definition unlock_if_used (s : machine) : outcome machine :=
  if usingLock (Memory s) then
    '(img, e) ← release (Memory_image (Memory s)) (env s);
    Done (set_env e (set_Memory (Memory_of_image img) s))
  else Done s.

(** Linking the new chunk to its successor, merging with it when it begins where the new chunk
    ends. *)
Definition link_next (m : mem) (self base n nx : Z) : mem :=
  let m := set_next m self nx in
  if next m self =? 0 then m else
  let m := set_prev m (next m self) self in
  if u64 (base + PageSize * n) =? next m self then
    let m := set_numPages m self (u64 (numPages m self + numPages m (next m self))) in
    set_next m self (next m (next m self))
  else m.

(** Linking it to its predecessor; when the predecessor ends where the new chunk begins, the
    predecessor grows by the new chunk's pages (the new chunk stays linked). *)
Definition link_prev (m : mem) (self base n pv : Z) : mem :=
  let m := set_prev m self pv in
  if prev m self =? 0 then m else
  let m := set_next m (prev m self) self in
  if u64 (prev m self + PageSize * numPages m (prev m self)) =? base then
    set_numPages m pv (u64 (numPages m pv + n))
  else m.

Definition freePages (fuel : nat) (base n : Z) (s : machine) : outcome machine :=
  s ← lock_if_used s;
  let self := base in
  let m := memset (ram s) base 0 (u64 (PageSize * n)) in
  let m := set_numPages m self n in
  if freeList (Memory s) =? 0 then
    unlock_if_used (set_freeList self (set_ram m s))
  else
    '(pv, nx) ← find_place fuel m base 0 (freeList (Memory s));
    let m := link_next m self base n nx in
    let m := link_prev m self base n pv in
    unlock_if_used (set_ram m s).

Definition freePage (fuel : nat) (v : Z) (s : machine) : outcome machine := freePages fuel v 1 s.

Definition freeRange (fuel : nat) (start end_ : Z) (s : machine) : outcome machine :=
  freePages fuel start (u64 (end_ - start) / PageSize) s.

(** Taking [n] pages off the end of [chunk]; an emptied chunk is unlinked. *)
Definition take_pages (m : mem) (free chunk n : Z) : mem * Z :=
  let m := set_numPages m chunk (u64 (numPages m chunk - n)) in
  if numPages m chunk =? 0 then
    let m := if prev m chunk =? 0 then m else set_next m (prev m chunk) (next m chunk) in
    let m := if next m chunk =? 0 then m else set_prev m (next m chunk) (prev m chunk) in
    (m, if chunk =? free then next m chunk else free)
  else (m, free).

(** The loop of [allocatePages].  The returned address is computed from the chunk's page count
    after the lock is released. *)
Fixpoint allocate_loop (fuel : nat) (chunk n : Z) (s : machine) : outcome (Z * machine) :=
  if chunk =? 0 then s ← unlock_if_used s; Done (0, s)
  else if n <=? numPages (ram s) chunk then
    let '(m, free) := take_pages (ram s) (freeList (Memory s)) chunk n in
    s ← unlock_if_used (set_freeList free (set_ram m s));
    Done (u64 (chunk + u64 (PageSize * numPages (ram s) chunk)), s)
  else match fuel with
       | O => Stuck OutOfFuel
       | S fuel => allocate_loop fuel (next (ram s) chunk) n s
       end.

Definition allocatePages (fuel : nat) (n : Z) (s : machine) : outcome (Z * machine) :=
  s ← lock_if_used s;
  allocate_loop fuel (freeList (Memory s)) n s.

Definition allocatePage (fuel : nat) (s : machine) : outcome (Z * machine) := allocatePages fuel 1 s.

(** ** The abstract free list *)

(** Chunks in address order, not overlapping, not empty, inside the address space. *)
Fixpoint chunks_wf (lo : Z) (l : list chunk) : Prop :=
  match l with
  | [] => True
  | (b, n) :: l => lo ≤ b ∧ 0 < n ∧ b + PageSize * n ≤ 2 ^ 64 ∧ chunks_wf (b + PageSize * n) l
  end.

Definition free_bytes (l : list chunk) (x : Z) : Prop :=
  ∃ b n, (b, n) ∈ l ∧ b ≤ x < b + PageSize * n.
Definition total_pages (l : list chunk) : Z := foldr (λ c acc, c.2 + acc) 0 l.

(** The concrete state represents the abstract list. *)
Definition free_list (s : machine) (l : list chunk) : Prop :=
  chunks_wf 1 l ∧ ∃ last, dseg (ram s) 0 (freeList (Memory s)) l last 0.

(** First fit, taking pages from the end of the chunk. *)
Fixpoint take_first (n : Z) (l : list chunk) : option (Z * list chunk) :=
  match l with
  | [] => None
  | (b, k) :: l' =>
      if n <=? k then
        Some (b + PageSize * (k - n), if k - n =? 0 then l' else (b, k - n) :: l')
      else (λ r, (r.1, (b, k) :: r.2)) <$> take_first n l'
  end.

(** The lock is not contended: it is not in use, or it is free and this processor has a record. *)
Definition lock_ready (s : machine) : Prop :=
  0 ≤ freeList (Memory s) < 2 ^ 64 ∧
  (usingLock (Memory s) = true →
   m_held (Memory s) = 0 ∧
   ∃ i c, cpu_of (env s) i c ∧ 0 ≤ cliCount c < 2 ^ 31 - 1).

(** ** Lemmas: bytes of [Memory] *)

Lemma Memory_image_roundtrip M :
  0 ≤ m_held M < 2 ^ 16 → 0 ≤ freeList M < 2 ^ 64 → Memory_of_image (Memory_image M) = M.
Proof.
  intros Hh Hf. destruct M as [h u f]. unfold Memory_of_image, Memory_image. simpl in *.
  f_equal.
  - change (le_combine (le_split 2 h) = h). rewrite le_combine_split. by apply uw_small.
  - by destruct u.
  - change (le_combine (le_split 8 f) = f). rewrite le_combine_split. by apply uw_small.
Qed.

(** The four-byte store of [release] clears the lock, and the flag behind it. *)
Lemma Memory_release_image M :
  0 ≤ freeList M < 2 ^ 64 →
  Memory_of_image (movl_zero (Memory_image M)) =
    {| m_held := 0; usingLock := false; freeList := freeList M |}.
Proof.
  intros Hf. unfold Memory_of_image, movl_zero, Memory_image. simpl. f_equal.
  change (le_combine (le_split 8 (freeList M)) = freeList M).
  rewrite le_combine_split. by apply uw_small.
Qed.

(** [lock_if_used] and [unlock_if_used] leave memory and the list alone; after the second the
    lock is no longer in use. *)
Definition unlockable (s : machine) : Prop :=
  usingLock (Memory s) = true → ∃ i c, cpu_of (env s) i c.

Definition same_but_lock (s s' : machine) : Prop :=
  ram s' = ram s ∧ freeList (Memory s') = freeList (Memory s) ∧
  HigherHalfDirectMapOffset s' = HigherHalfDirectMapOffset s.

Lemma lock_if_used_spec s :
  lock_ready s →
  ∃ s1, lock_if_used s = Done s1 ∧ same_but_lock s s1 ∧ unlockable s1.
Proof.
  intros [_ Hl]. unfold lock_if_used, unlockable, same_but_lock.
  destruct (usingLock (Memory s)) eqn:Hu.
  - destruct (Hl eq_refl) as (Hh & i & c & Hc & _).
    destruct (push_pop_total _ _ _ Hc) as (e1 & e2 & c2 & E1 & E2 & H2).
    unfold acquire. rewrite Hh, E1. cbn. rewrite E2. cbn.
    eexists; split; [done|]. simpl. split; [done|]. eauto.
  - exists s. split; [done|]. split; [done|]. congruence.
Qed.

Lemma unlock_if_used_spec s :
  unlockable s → 0 ≤ freeList (Memory s) < 2 ^ 64 →
  ∃ s', unlock_if_used s = Done s' ∧ same_but_lock s s' ∧ usingLock (Memory s') = false.
Proof.
  intros Hl Hf. unfold unlock_if_used. destruct (usingLock (Memory s)) eqn:Hu.
  - destruct (Hl Hu) as (i & c & Hc).
    destruct (push_pop_total _ _ _ Hc) as (e1 & e2 & c2 & E1 & E2 & H2).
    unfold release. rewrite E1. cbn [mbind outcome_bind]. rewrite E2. cbn [mbind outcome_bind].
    rewrite Memory_release_image by done. eexists; split; [done|]. done.
  - exists s. done.
Qed.

(** ** Lemmas: the list in memory *)

Lemma chunks_wf_app lo l1 l2 :
  chunks_wf lo (l1 ++ l2) → chunks_wf lo l1 ∧ ∃ lo', lo ≤ lo' ∧ chunks_wf lo' l2 ∧
    ∀ b n, (b, n) ∈ l1 → b + PageSize * n ≤ lo'.
Proof.
  revert lo; induction l1 as [|[b n] l1 IH]; intros lo; simpl.
  { intros H. split; [done|]. exists lo. split; [lia|]. split; [done|]. by intros ?? ?%not_elem_of_nil. }
  intros (H1 & H2 & H3 & H4). destruct (IH _ H4) as (H5 & lo' & H6 & H7 & H8).
  split; [done|]. exists lo'. change PageSize with 4096 in *. split; [lia|]. split; [done|].
  intros b' n' [[= -> ->]|Hin]%elem_of_cons; [lia|by apply H8].
Qed.

Lemma chunks_wf_elem lo l b n :
  chunks_wf lo l → (b, n) ∈ l → lo ≤ b ∧ 0 < n ∧ b + PageSize * n ≤ 2 ^ 64.
Proof.
  revert lo; induction l as [|[b' n'] l IH]; intros lo Hw Hin; [by apply not_elem_of_nil in Hin|].
  simpl in Hw. destruct Hw as (H1 & H2 & H3 & H4).
  apply elem_of_cons in Hin as [[= -> ->]|Hin]; [done|].
  destruct (IH _ H4 Hin) as (? & ? & ?). change PageSize with 4096 in *. lia.
Qed.

Lemma chunks_wf_weaken lo lo' l : lo' ≤ lo → chunks_wf lo l → chunks_wf lo' l.
Proof. destruct l as [|[b n] l]; simpl; [done|]. intros ? (?&?&?&?). repeat split; try done; lia. Qed.

Lemma chunks_spaced lo l : chunks_wf lo l → spaced lo l.
Proof.
  revert lo; induction l as [|[b n] l IH]; intros lo; simpl; [done|].
  intros (? & ? & ? & H). change PageSize with 4096 in *. split; [done|]. split; [lia|].
  eapply spaced_weaken; [|by apply IH]. lia.
Qed.

(** Chunks around one of the list. *)
Lemma chunks_wf_mid lo l1 b k l3 :
  chunks_wf lo (l1 ++ (b, k) :: l3) →
  lo ≤ b ∧ 0 < k ∧ b + PageSize * k ≤ 2 ^ 64 ∧ chunks_wf lo l1 ∧ chunks_wf (b + PageSize * k) l3 ∧
  (∀ b' n', (b', n') ∈ l1 → b' + PageSize * n' ≤ b ∧ 0 < n') ∧
  (∀ b' n', (b', n') ∈ l3 → b + PageSize * k ≤ b' ∧ 0 < n').
Proof.
  intros Hw. destruct (chunks_wf_app _ _ _ Hw) as (H1 & lo' & Hlo & (Hb & Hk & He & H3) & Hl).
  repeat (split; [done || lia|]). split.
  - intros b' n' Hin. destruct (chunks_wf_elem _ _ _ _ H1 Hin) as (? & ? & ?).
    specialize (Hl _ _ Hin). lia.
  - intros b' n' Hin. destruct (chunks_wf_elem _ _ _ _ H3 Hin) as (? & ? & ?). lia.
Qed.

Lemma chunks_wf_join lo l1 b l3 :
  chunks_wf lo l1 → (∀ b' n', (b', n') ∈ l1 → b' + PageSize * n' ≤ b) → lo ≤ b →
  chunks_wf b l3 → chunks_wf lo (l1 ++ l3).
Proof.
  revert lo; induction l1 as [|[b1 n1] l1 IH]; intros lo; simpl.
  { intros _ _ Hb Hw. by eapply chunks_wf_weaken. }
  intros (? & ? & ? & ?) Hl Hb Hw. repeat (split; [done|]). apply IH; [done| |  |done].
  - intros b' n' Hin. apply Hl. by apply list_elem_of_further.
  - apply Hl. apply list_elem_of_here.
Qed.

Lemma take_pages_spec m free l1 b k l3 last n :
  chunks_wf 1 (l1 ++ (b, k) :: l3) → dseg m 0 free (l1 ++ (b, k) :: l3) last 0 → 0 ≤ n ≤ k →
  let rest := if k - n =? 0 then l3 else (b, k - n) :: l3 in
  let '(m', free') := take_pages m free b n in
  (∃ last', dseg m' 0 free' (l1 ++ rest) last' 0) ∧ numPages m' b = k - n ∧
  chunks_wf 1 (l1 ++ rest) ∧ agree (λ x, ¬ headers (l1 ++ (b, k) :: l3) x) m' m.
Proof.
  intros Hw Hd Hn rest.
  destruct (chunks_wf_mid _ _ _ _ _ Hw) as (Hb & Hk & He & Hw1 & Hw3 & Hl1 & Hl3).
  assert (numPages m b = k) as Hnum by (apply dseg_app in Hd as (? & ? & _ & ? & _ & ? & _); done).
  change PageSize with 4096 in *.
  assert (u64 (k - n) = k - n) as Hu by (apply uw_small; lia).
  pose proof (chunks_spaced _ _ Hw) as Hs.
  pose proof (dseg_set_numPages m free l1 b k l3 last (k - n) Hs ltac:(lia) Hd) as Hd'.
  assert (agree (λ x, ¬ headers (l1 ++ (b, k) :: l3) x) (set_numPages m b (k - n)) m) as HA.
  { apply (agree_outside_headers _ _ k); [|lia..]. apply elem_of_app; right; apply list_elem_of_here. }
  assert (numPages (set_numPages m b (k - n)) b = k - n) as Hnum'.
  { destruct (header_words m b (k - n)) as (_&_&_&_&_&_&_&_& ->). apply uw_small; lia. }
  unfold take_pages. rewrite Hnum, Hu. set (m0 := set_numPages m b (k - n)) in *.
  rewrite Hnum'. subst rest. destruct (Z.eqb_spec (k - n) 0) as [E|E].
  - rewrite E in Hd'. destruct (dseg_unlink m0 free l1 b l3 last k Hs Hd') as (H1 & H2 & H3).
    split; [exact H1|]. split; [by rewrite E|]. split.
    + apply (chunks_wf_join 1 _ b); [done| |lia|eapply chunks_wf_weaken; [|done]; lia].
      intros. by apply Hl1.
    + eapply agree_trans; [|exact HA]. eapply agree_weaken; [|exact H3].
      intros x Hx (b' & n' & Hin & ?). apply Hx. exists b', n'. split; [|done].
      apply elem_of_app. apply elem_of_app in Hin as [?|?]; [by left|right; by apply list_elem_of_further].
  - split; [eauto|]. split; [done|]. split; [|done].
    apply (chunks_wf_join 1 _ b); [done|intros; by apply Hl1|lia|]. simpl.
    change PageSize with 4096. split; [lia|]. split; [lia|]. split; [lia|].
    eapply chunks_wf_weaken; [|done]. lia.
Qed.

(** ** Allocation refines first fit *)

Lemma free_list_head_range s l : free_list s l → 0 ≤ freeList (Memory s) < 2 ^ 64.
Proof.
  intros (Hw & last & Hd).
  destruct (dseg_head _ _ _ _ _ _ (chunks_spaced _ _ Hw) Hd) as [[-> _]|(? & ? & _ & ?)]; lia.
Qed.

Lemma free_list_same s s' l : same_but_lock s s' → free_list s l → free_list s' l.
Proof. intros (H1 & H2 & _) H. unfold free_list. by rewrite H1, H2. Qed.

Definition alloc_result (n : Z) (l : list chunk) : Z :=
  match take_first n l with Some (a, _) => a | None => 0 end.
Definition alloc_rest (n : Z) (l : list chunk) : list chunk :=
  match take_first n l with Some (_, l') => l' | None => l end.

Lemma allocate_loop_spec fuel l1 l2 pv p last n s :
  chunks_wf 1 (l1 ++ l2) → dseg (ram s) 0 (freeList (Memory s)) l1 pv p →
  dseg (ram s) pv p l2 last 0 → unlockable s → (length l2 ≤ fuel)%nat → 0 < n →
  ∃ s', allocate_loop fuel p n s = Done (alloc_result n l2, s') ∧
    free_list s' (l1 ++ alloc_rest n l2) ∧ usingLock (Memory s') = false ∧
    HigherHalfDirectMapOffset s' = HigherHalfDirectMapOffset s ∧
    agree (λ x, ¬ headers (l1 ++ l2) x) (ram s') (ram s).
Proof.
  intros Hw H1 H2 Hu Hf Hn. revert fuel l1 pv p Hw H1 H2 Hf.
  induction l2 as [|[b k] l2 IH]; intros fuel l1 pv p Hw H1 H2 Hf.
  - destruct H2 as [-> ->]. assert (Hfl : free_list s (l1 ++ [])).
    { split; [done|]. exists last. by rewrite app_nil_r. }
    destruct (unlock_if_used_spec s Hu (free_list_head_range _ _ Hfl)) as (s' & E & Hs & Hl).
    exists s'. split; [|split; [by eapply free_list_same|]].
    + destruct fuel; simpl; by rewrite E.
    + destruct Hs as (-> & _ & ->). auto using agree_refl.
  - assert (Hall : dseg (ram s) 0 (freeList (Memory s)) (l1 ++ (b, k) :: l2) last 0)
      by (apply dseg_app; eauto).
    destruct H2 as (-> & Hpv & Hk & H2).
    destruct (chunks_wf_mid _ _ _ _ _ Hw) as (Hb & Hk0 & He & _ & _ & _ & _).
    change PageSize with 4096 in *.
    unfold alloc_result, alloc_rest. cbn [take_first].
    destruct fuel as [|fuel]; [simpl in Hf; lia|]. cbn [allocate_loop].
    destruct (Z.eqb_spec b 0); [lia|]. rewrite Hk. destruct (Z.leb_spec n k) as [Hle|Hgt].
    + pose proof (take_pages_spec _ _ _ _ _ _ _ n Hw Hall ltac:(lia)) as Ht.
      destruct (take_pages _ _ _ _) as [m' f']. destruct Ht as ((last' & Hd') & Hnum & Hw' & HA).
      set (s1 := set_freeList f' (set_ram m' s)).
      assert (Hfl : free_list s1 (l1 ++ (if k - n =? 0 then l2 else (b, k - n) :: l2)))
        by (split; [done|]; by exists last').
      destruct (unlock_if_used_spec s1 Hu (free_list_head_range _ _ Hfl)) as (s' & E & Hs & Hl).
      rewrite E. cbn. exists s'. split; [|split; [by eapply free_list_same|]].
      * destruct Hs as (-> & _). subst s1. simpl. rewrite Hnum. do 2 f_equal.
        change PageSize with 4096. rewrite (uw_small 64 (4096 * _)), uw_small by lia. done.
      * destruct Hs as (-> & _ & ->). auto.
    + assert (Hw' : chunks_wf 1 ((l1 ++ [(b, k)]) ++ l2)) by (by rewrite <- app_assoc).
      destruct (IH fuel (l1 ++ [(b, k)]) b (next (ram s) b)) as (s' & E & Hfl & Hl & Hh & HA);
        [done| |done|simpl in Hf; lia|].
      { apply dseg_app. exists pv, b. split; [done|]. simpl. done. }
      exists s'. rewrite E. unfold alloc_result, alloc_rest in *. rewrite <- app_assoc in *.
      destruct (take_first n l2) as [[a l']|]; simpl in *; auto.
Qed.

Lemma allocatePages_spec fuel n s l :
  free_list s l → lock_ready s → (length l ≤ fuel)%nat → 0 < n →
  ∃ s', allocatePages fuel n s = Done (alloc_result n l, s') ∧
    free_list s' (alloc_rest n l) ∧ usingLock (Memory s') = false ∧
    HigherHalfDirectMapOffset s' = HigherHalfDirectMapOffset s ∧
    agree (λ x, ¬ headers l x) (ram s') (ram s).
Proof.
  intros Hfl Hr Hf Hn. destruct (lock_if_used_spec s Hr) as (s1 & E1 & Hs & Hu).
  pose proof (free_list_same _ _ _ Hs Hfl) as (Hw & last & Hd).
  unfold allocatePages. rewrite E1. cbn [mbind outcome_bind].
  destruct (allocate_loop_spec fuel [] l 0 (freeList (Memory s1)) last n s1) as (s' & E & H1 & H0 & H2 & H3);
    try done.
  destruct Hs as (Hram & _ & Hh). rewrite Hram in H3. rewrite Hh in H2. eauto 10.
Qed.

(** C5. [allocatePages] implements first fit over the abstract free list: it returns the address the
    specification returns (null when no chunk is large enough), the list in memory afterwards is
    the specification's, and no byte outside the chunk headers changes. *)
Theorem allocatePages_refines fuel n s l :
  free_list s l → lock_ready s → (length l ≤ fuel)%nat → 0 < n →
  ∃ s', allocatePages fuel n s = Done (alloc_result n l, s') ∧
    free_list s' (alloc_rest n l) ∧
    HigherHalfDirectMapOffset s' = HigherHalfDirectMapOffset s ∧
    agree (λ x, ¬ headers l x) (ram s') (ram s).
Proof.
  intros Hfl Hr Hf Hn. destruct (allocatePages_spec fuel n s l Hfl Hr Hf Hn) as (s' & ? & ? & _ & ? & ?).
  by exists s'.
Qed.

(** ** What first fit hands out *)

Lemma take_first_Some n l lo a l' :
  chunks_wf lo l → 0 < n → take_first n l = Some (a, l') →
  (∀ x, free_bytes l x ↔ free_bytes l' x ∨ a ≤ x < a + PageSize * n) ∧
  (∀ x, a ≤ x < a + PageSize * n → ¬ free_bytes l' x) ∧
  total_pages l' = total_pages l - n ∧ lo ≤ a ∧ a + PageSize * n ≤ 2 ^ 64.
Proof.
  intros Hw Hn. change PageSize with 4096. revert lo a l' Hw.
  induction l as [|[b k] l IH]; intros lo a l' Hw Ht; [done|].
  pose proof Hw as (Hb & Hk & He & Hw'). change PageSize with 4096 in *. cbn [take_first] in Ht.
  assert (Hout : ∀ x, free_bytes l x → b + 4096 * k ≤ x).
  { intros x (b' & n' & Hin & Hx). destruct (chunks_wf_elem _ _ _ _ Hw' Hin). lia. }
  assert (Hcons : ∀ c q l0 x, free_bytes ((c, q) :: l0) x ↔ c ≤ x < c + 4096 * q ∨ free_bytes l0 x).
  { intros c q l0 x. unfold free_bytes. change PageSize with 4096. split.
    - intros (b' & n' & [[= -> ->]|Hin]%elem_of_cons & Hx); [by left|right; eauto].
    - intros [Hx|(b' & n' & Hin & Hx)].
      + exists c, q. split; [apply list_elem_of_here|done].
      + exists b', n'. split; [by apply list_elem_of_further|done]. }
  destruct (Z.leb_spec n k).
  - injection Ht as <- <-. change PageSize with 4096. destruct (Z.eqb_spec (k - n) 0).
    + split; [intros x; rewrite Hcons; assert (n = k) as -> by lia|].
      { replace (b + 4096 * (k - k)) with b by lia. tauto. }
      split; [intros x Hx Hf%Hout; lia|]. simpl. lia.
    + split; [intros x; rewrite !Hcons; split; [intros [?|?]|intros [[?|?]|?]]; auto; lia|].
      split; [intros x Hx [?|Hf%Hout]%Hcons; lia|]. simpl. lia.
  - destruct (take_first n l) as [[a1 l1]|] eqn:E; [|done]. injection Ht as <- <-.
    destruct (IH _ _ _ Hw' eq_refl) as (H1 & H2 & H3 & H4 & H5). simpl.
    split; [intros x; rewrite !Hcons, H1; tauto|].
    split; [intros x Hx [?|Hf]%Hcons; [lia|by eapply H2]|]. simpl. lia.
Qed.

Lemma take_first_None n l b k : take_first n l = None → (b, k) ∈ l → k < n.
Proof.
  induction l as [|[b' k'] l IH]; intros Ht Hin; [by apply not_elem_of_nil in Hin|].
  cbn [take_first] in Ht. destruct (Z.leb_spec n k'); [done|].
  apply elem_of_cons in Hin as [[= -> ->]|Hin]; [lia|].
  apply IH; [|done]. by destruct (take_first n l).
Qed.

(** No double allocation: the pages handed out were all free, none of them is free afterwards,
    every other free byte stays free, and exactly [n] pages leave the list. *)
Theorem allocatePages_safe fuel n s l a s' :
  free_list s l → lock_ready s → (length l ≤ fuel)%nat → 0 < n →
  allocatePages fuel n s = Done (a, s') → a ≠ 0 →
  ∃ l', free_list s' l' ∧
    (∀ x, free_bytes l x ↔ free_bytes l' x ∨ a ≤ x < a + PageSize * n) ∧
    (∀ x, a ≤ x < a + PageSize * n → ¬ free_bytes l' x) ∧
    total_pages l' = total_pages l - n.
Proof.
  intros Hfl Hr Hf Hn Ha Hz. destruct (allocatePages_spec fuel n s l Hfl Hr Hf Hn) as (s1 & E & H1 & _).
  rewrite Ha in E. injection E as -> <-. unfold alloc_result, alloc_rest in *.
  destruct (take_first n l) as [[a l']|] eqn:E; [|done]. exists l'.
  destruct (take_first_Some _ _ _ _ _ (proj1 Hfl) Hn E) as (? & ? & ? & _). done.
Qed.

(** Null is returned exactly when no chunk has enough pages, and then the list is unchanged. *)
Theorem allocatePages_null fuel n s l s' a :
  free_list s l → lock_ready s → (length l ≤ fuel)%nat → 0 < n →
  allocatePages fuel n s = Done (a, s') →
  (a = 0 ↔ ∀ b k, (b, k) ∈ l → k < n) ∧ (a = 0 → free_list s' l).
Proof.
  intros Hfl Hr Hf Hn Ha. destruct (allocatePages_spec fuel n s l Hfl Hr Hf Hn) as (s1 & E & H1 & _).
  rewrite Ha in E. injection E as -> <-. unfold alloc_result, alloc_rest in *.
  destruct (take_first n l) as [[a l']|] eqn:E.
  - destruct (take_first_Some _ _ _ _ _ (proj1 Hfl) Hn E) as (_ & _ & _ & Hlo & _).
    split; [|lia]. split; [lia|]. intros H. exfalso. clear -E H Hn. revert a l' E.
    induction l as [|[b k] l IH]; intros a l' E; [done|]. cbn [take_first] in E.
    specialize (H b k (list_elem_of_here _ _)) as Hbk. destruct (Z.leb_spec n k); [lia|].
    destruct (take_first n l) as [[a1 l1]|] eqn:E1; [|done].
    eapply IH; [|done]. intros. eapply H. by apply list_elem_of_further.
  - split; [|done]. split; [|done]. intros _ b k. by apply take_first_None.
Qed.

(** ** Freeing pages *)

(** The new chunk after [memset] and the store of its page count. *)
Definition fresh_chunk (m : mem) (base n : Z) : mem :=
  set_numPages (memset m base 0 (u64 (PageSize * n))) base n.

Lemma fresh_chunk_spec m base n :
  1 ≤ base → 0 < n → base + PageSize * n ≤ 2 ^ 64 →
  next (fresh_chunk m base n) base = 0 ∧ prev (fresh_chunk m base n) base = 0 ∧
  numPages (fresh_chunk m base n) base = n ∧
  agree (λ x, ¬ range base (PageSize * n) x) (fresh_chunk m base n) m.
Proof.
  intros Hb Hn He. change PageSize with 4096 in *. unfold fresh_chunk.
  change PageSize with 4096. rewrite (uw_small 64 (4096 * n)) by lia.
  destruct (header_words (memset m base 0 (4096 * n)) base n) as (_&_&_&_&_&_& -> & -> & ->).
  unfold next, prev. rewrite !load_memset0 by lia. rewrite uw_small by lia.
  repeat (split; [done|]). eapply agree_trans.
  - apply store_agree. unfold range. lia.
  - apply memset_agree. tauto.
Qed.

Lemma link_next_plain m base n nx :
  0 ≤ nx < 2 ^ 64 → nx = 0 ∨ base + 24 ≤ nx ∧ u64 (base + PageSize * n) ≠ nx →
  link_next m base base n nx =
    if nx =? 0 then set_next m base nx else set_prev (set_next m base nx) nx base.
Proof.
  intros Hr Hnx. unfold link_next.
  destruct (header_words m base nx) as (-> & _). rewrite uw_small by done.
  destruct (Z.eqb_spec nx 0) as [|Hz]; [done|]. destruct Hnx as [|[Hfar Hne]]; [done|].
  destruct (header_words_far (set_next m base nx) nx base base) as (_&_&_& -> & _); [lia|].
  destruct (header_words m base nx) as (-> & _). rewrite (uw_small 64 nx) by done.
  destruct (Z.eqb_spec (u64 (base + PageSize * n)) nx); [congruence|done].
Qed.

Lemma link_prev_nonnull m base n pv :
  0 < pv < 2 ^ 64 → pv + 24 ≤ base →
  link_prev m base base n pv =
    let m := set_next (set_prev m base pv) pv base in
    if u64 (pv + PageSize * numPages m pv) =? base then set_numPages m pv (u64 (numPages m pv + n))
    else m.
Proof.
  intros Hr Hfar. unfold link_prev.
  destruct (header_words m base pv) as (_&_&_&_& -> & _). rewrite (uw_small 64 pv) by lia.
  destruct (Z.eqb_spec pv 0); [lia|]. cbv zeta.
  destruct (header_words_far (set_prev m base pv) pv base base) as (_& -> & _); [lia|].
  destruct (header_words m base pv) as (_&_&_&_& -> & _). by rewrite (uw_small 64 pv) by lia.
Qed.

(** The list after linking the new chunk between [l1] (not empty) and [l2], before the merge
    with the predecessor. *)
Lemma link_spec m free l1 b0 n0 l2 base n nx last :
  chunks_wf 1 ((l1 ++ [(b0, n0)]) ++ l2) →
  dseg m 0 free (l1 ++ [(b0, n0)]) b0 nx → dseg m b0 nx l2 last 0 →
  0 < n → base + PageSize * n ≤ 2 ^ 64 → numPages m base = n → 1 ≤ base →
  b0 + 24 ≤ base → (∀ b' n', (b', n') ∈ l2 → base + PageSize * n < b') →
  let m2 := set_next (set_prev (link_next m base base n nx) base b0) b0 base in
  (∃ last', dseg m2 0 free ((l1 ++ [(b0, n0)]) ++ (base, n) :: l2) last' 0) ∧ numPages m2 b0 = n0 ∧
  agree (λ x, ¬ headers ((l1 ++ [(b0, n0)]) ++ (base, n) :: l2) x) m2 m.
Proof.
  intros Hw D1 D2 Hn He Hnum Hb Hb0 Hl2. change PageSize with 4096 in *.
  pose proof (chunks_spaced _ _ Hw) as Hs. destruct (spaced_app _ _ _ Hs) as (_ & lo & Hlo & Hs2 & _).
  rewrite link_next_plain.
  - eapply dseg_link; try done; try lia. intros b' n' Hin. specialize (Hl2 _ _ Hin). lia.
  - destruct (dseg_head _ _ _ _ _ _ Hs2 D2) as [[-> _]|(? & ? & _ & ?)]; lia.
  - change PageSize with 4096.
    destruct (dseg_head _ _ _ _ _ _ Hs2 D2) as [[-> _]|(n2 & l2' & -> & _)]; [lia|by left|right].
    destruct Hs2 as (_ & Hend & _).
    specialize (Hl2 nx n2 (list_elem_of_here _ _)). rewrite uw_small; lia.
Qed.

Lemma free_list_fresh m l base n pv p pv' p' :
  agree (λ x, ¬ range base (PageSize * n) x) (fresh_chunk m base n) m →
  (∀ b' k, (b', k) ∈ l → b' + 24 ≤ base ∨ base + PageSize * n ≤ b') →
  dseg m pv p l pv' p' → dseg (fresh_chunk m base n) pv p l pv' p'.
Proof.
  intros HA Hl Hd. eapply dseg_agree; [|exact Hd]. eapply agree_weaken; [|exact HA].
  intros x (b' & k & Hin & Hx). specialize (Hl _ _ Hin). unfold range. lia.
Qed.

Lemma chunks_before lo l1 b0 n0 l2 base :
  chunks_wf lo ((l1 ++ [(b0, n0)]) ++ l2) → b0 + PageSize * n0 ≤ base →
  lo ≤ b0 ∧ 0 < n0 ∧
  ∀ b k, (b, k) ∈ l1 ++ [(b0, n0)] → b + PageSize * k ≤ base ∧ 0 < k.
Proof.
  rewrite <- app_assoc. intros Hw Hb0.
  destruct (chunks_wf_mid _ _ _ _ _ Hw) as (H1 & H2 & _ & _ & _ & Hl & _).
  split; [done|]. split; [done|]. change PageSize with 4096 in *.
  intros b k [Hin|[= -> ->]%list_elem_of_singleton]%elem_of_app; [destruct (Hl _ _ Hin)|]; lia.
Qed.

(** What the unlinked chunk and the search leave before linking. *)
Lemma freePages_prepare fuel m free base n l1 b0 n0 l2 last :
  chunks_wf 1 ((l1 ++ [(b0, n0)]) ++ l2) → dseg m 0 free ((l1 ++ [(b0, n0)]) ++ l2) last 0 →
  (S (length l1) ≤ fuel)%nat → 1 ≤ base → 0 < n → base + PageSize * n ≤ 2 ^ 64 →
  b0 + PageSize * n0 ≤ base → (∀ b' n', (b', n') ∈ l2 → base + PageSize * n < b') →
  free ≠ 0 ∧ ∃ nx, find_place fuel (fresh_chunk m base n) base 0 free = Done (b0, nx) ∧
    dseg (fresh_chunk m base n) 0 free (l1 ++ [(b0, n0)]) b0 nx ∧
    dseg (fresh_chunk m base n) b0 nx l2 last 0.
Proof.
  intros Hw Hd Hf Hb Hn He Hb0 Hl2.
  destruct (chunks_before _ _ _ _ _ base Hw Hb0) as (_ & _ & Hbefore).
  split. { destruct (dseg_head _ _ _ _ _ _ (chunks_spaced _ _ Hw) Hd) as [[_ Hnil]|(? & ? & _ & ?)]; [lia| |lia].
           by destruct l1. }
  apply dseg_app in Hd as (pv & nx & H1 & H2).
  assert (pv = b0) as -> by (by eapply dseg_last).
  destruct (fresh_chunk_spec m base n) as (_ & _ & _ & HA); [done..|].
  exists nx. change PageSize with 4096 in *.
  assert (dseg (fresh_chunk m base n) 0 free (l1 ++ [(b0, n0)]) b0 nx) as D1.
  { apply free_list_fresh; [done| |done]. intros b' k Hin. destruct (Hbefore _ _ Hin). lia. }
  assert (dseg (fresh_chunk m base n) b0 nx l2 last 0) as D2.
  { apply free_list_fresh; [done| |done]. intros b' k Hin. specialize (Hl2 _ _ Hin).
    change PageSize with 4096. lia. }
  split; [|done].
  apply (find_place_spec fuel _ base (l1 ++ [(b0, n0)]) l2 0 _ b0 nx last 1); try done.
  - by apply chunks_spaced.
  - intros b' k Hin. destruct (Hbefore _ _ Hin). lia.
  - intros b' k Hin. specialize (Hl2 _ _ Hin). lia.
  - rewrite length_app. simpl. lia.
Qed.

(** [freePages] above the first chunk: both ways it can end. *)
Lemma freePages_above fuel base n s l1 b0 n0 l2 :
  free_list s ((l1 ++ [(b0, n0)]) ++ l2) → lock_ready s → (S (length l1) ≤ fuel)%nat →
  1 ≤ base → 0 < n → base + PageSize * n ≤ 2 ^ 64 → b0 + PageSize * n0 ≤ base →
  (∀ b' n', (b', n') ∈ l2 → base + PageSize * n < b') →
  ∃ m2 s', freePages fuel base n s = Done s' ∧
    (∃ last, dseg m2 0 (freeList (Memory s')) ((l1 ++ [(b0, n0)]) ++ (base, n) :: l2) last 0) ∧
    usingLock (Memory s') = false ∧
    HigherHalfDirectMapOffset s' = HigherHalfDirectMapOffset s ∧
    ram s' = (if u64 (b0 + PageSize * n0) =? base then set_numPages m2 b0 (u64 (n0 + n)) else m2) ∧
    agree (λ x, ¬ range base (PageSize * n) x ∧ ¬ headers ((l1 ++ [(b0, n0)]) ++ l2) x) m2 (ram s).
Proof.
  intros Hfl Hr Hf Hb Hn He Hb0 Hl2.
  destruct (lock_if_used_spec s Hr) as (s1 & E1 & (R1 & R2 & R3) & Hu).
  destruct Hfl as (Hw & last & Hd). rewrite <- R1, <- R2 in Hd.
  destruct (freePages_prepare fuel _ _ base n _ _ _ _ _ Hw Hd) as (Hz & nx & Ep & D1 & D2); [done..|].
  destruct (chunks_before _ _ _ _ _ base Hw Hb0) as (Hb01 & Hn0 & _).
  destruct (fresh_chunk_spec (ram s1) base n) as (_ & _ & N3 & HA); [done..|].
  unfold freePages. rewrite E1. cbn [mbind outcome_bind].
  apply Z.eqb_neq in Hz. rewrite Hz. fold (fresh_chunk (ram s1) base n).
  rewrite Ep. cbn [mbind outcome_bind].
  destruct (link_spec _ (freeList (Memory s1)) l1 b0 n0 l2 base n nx last Hw D1 D2)
    as (Hd2 & Hnum & HA2); try done; change PageSize with 4096 in *; try lia. rewrite link_prev_nonnull by lia. cbv zeta.
  set (m2 := set_next (set_prev (link_next _ base base n nx) base b0) b0 base) in *.
  rewrite Hnum. change PageSize with 4096.
  match goal with |- context [unlock_if_used ?s2] =>
    destruct (unlock_if_used_spec s2 Hu) as (s' & E & (Hs1 & Hs2 & Hs3) & Hl) end.
  { simpl. rewrite R2. by destruct Hr. }
  exists m2, s'. split; [exact E|]. rewrite Hs2, Hs3, <- R1. split; [done|]. split; [done|].
  split; [done|]. split; [done|]. intros x [Hx1 Hx2]. rewrite HA2; [by apply HA|].
  intros (b' & k & Hin & Hx). apply elem_of_app in Hin as [Hin|[[= -> ->]|Hin]%elem_of_cons].
  - apply Hx2. exists b', k. split; [by apply elem_of_app; left|done].
  - apply Hx1. unfold range. lia.
  - apply Hx2. exists b', k. split; [by apply elem_of_app; right|done].
Qed.

Lemma freePages_insert_spec fuel base n s l1 l2 :
  free_list s (l1 ++ l2) → lock_ready s → (length l1 ≤ fuel)%nat →
  1 ≤ base → 0 < n → base + PageSize * n ≤ 2 ^ 64 → (l1 = [] → l2 = []) →
  (∀ b' n', (b', n') ∈ l1 → b' + PageSize * n' < base) →
  (∀ b' n', (b', n') ∈ l2 → base + PageSize * n < b') →
  ∃ s', freePages fuel base n s = Done s' ∧ free_list s' (l1 ++ (base, n) :: l2) ∧
    usingLock (Memory s') = false ∧
    HigherHalfDirectMapOffset s' = HigherHalfDirectMapOffset s ∧
    agree (λ x, ¬ range base (PageSize * n) x ∧ ¬ headers (l1 ++ l2) x) (ram s') (ram s).
Proof.
  intros Hfl Hr Hf Hb Hn He Hnil Hl1 Hl2.
  assert (Hw' : chunks_wf 1 (l1 ++ (base, n) :: l2)).
  { destruct (chunks_wf_app _ _ _ (proj1 Hfl)) as (Hw1 & lo' & Hlo & Hw2 & Hend).
    apply (chunks_wf_join 1 _ base); [done|intros b' n' Hin; specialize (Hl1 _ _ Hin); lia|done|].
    simpl. split; [done|]. split; [done|]. split; [done|]. destruct l2 as [|[b2 n2] l2]; [done|].
    specialize (Hl2 b2 n2 (list_elem_of_here _ _)). destruct Hw2 as (? & ? & ? & ?).
    change PageSize with 4096 in *. repeat split; try done; lia. }
  destruct (list_snoc_inv l1) as [->|(l & [b0 n0] & ->)].
  - rewrite Hnil in * by done. destruct Hfl as (_ & last & Hnull & _).
    destruct (lock_if_used_spec s Hr) as (s1 & E1 & (R1 & R2 & R3) & Hu).
    destruct (fresh_chunk_spec (ram s1) base n) as (N1 & N2 & N3 & HA); [done..|].
    unfold freePages. rewrite E1. cbn [mbind outcome_bind]. rewrite R2, Hnull, Z.eqb_refl.
    fold (fresh_chunk (ram s1) base n).
    match goal with |- context [unlock_if_used ?s2] =>
      destruct (unlock_if_used_spec s2 Hu) as (s' & E & (Hs1 & Hs2 & Hs3) & Hl) end.
    { simpl. change PageSize with 4096 in *. lia. }
    exists s'. split; [exact E|]. rewrite Hs3. simpl. split; [|split; [done|split; [done|]]].
    + split; [done|]. exists base. rewrite Hs1, Hs2. simpl. done.
    + rewrite Hs1, <- R1. simpl. eapply agree_weaken; [|exact HA]. tauto.
  - assert (Hlt : b0 + PageSize * n0 < base).
    { apply Hl1. apply elem_of_app; right; apply list_elem_of_here. }
    rewrite length_app in Hf. simpl in Hf.
    destruct (freePages_above fuel base n s l b0 n0 l2) as (m2 & s' & E & Hd & Hu & Hh & Hram & HA);
      try done; try lia.
    destruct (chunks_before _ _ _ _ _ base (proj1 Hfl)) as (Hb01 & Hn0 & _); [lia|].
    change PageSize with 4096 in *.
    destruct (Z.eqb_spec (u64 (b0 + 4096 * n0)) base) as [Heq|_].
    { rewrite uw_small in Heq by lia. lia. }
    exists s'. rewrite Hram. split; [done|]. split; [|done]. split; [done|]. by rewrite Hram.
Qed.


(** Freeing pages that begin exactly where a free chunk ends enlarges that chunk, but the new
    chunk stays linked behind it: the freed pages are on the list twice. *)
Theorem freePages_adjacent_overlap fuel base n s l1 b0 n0 l2 :
  free_list s ((l1 ++ [(b0, n0)]) ++ l2) → lock_ready s → (S (length l1) ≤ fuel)%nat →
  0 < n → base + PageSize * n ≤ 2 ^ 64 → b0 + PageSize * n0 = base → 
  (∀ b' n', (b', n') ∈ l2 → base + PageSize * n < b') →
  ∃ s' last, freePages fuel base n s = Done s' ∧
    dseg (ram s') 0 (freeList (Memory s')) ((l1 ++ [(b0, n0 + n)]) ++ (base, n) :: l2) last 0.
Proof.
  intros Hfl Hr Hf Hn He Hb0 Hl2.
  destruct (chunks_before _ _ _ _ _ base (proj1 Hfl)) as (Hb01 & Hn0 & Hbef); [lia|].
  change PageSize with 4096 in *.
  destruct (freePages_above fuel base n s l1 b0 n0 l2)
    as (m2 & s' & E & (last & Hd) & Hu & Hh & Hram & HA); try done; try (change PageSize with 4096; lia).
  exists s', last. split; [done|]. change PageSize with 4096 in *. rewrite Hb0 in *.
  rewrite Hram, (uw_small 64 base), Z.eqb_refl, uw_small by lia.
  rewrite <- app_assoc in *. simpl in *.
  eapply (dseg_set_numPages m2 _ l1 b0 n0); [|lia|done].
  destruct (chunks_wf_mid _ _ _ _ _ (proj1 Hfl)) as (_ & _ & _ & Hw1 & Hw2 & Hm & _).
  change PageSize with 4096 in *.
  apply chunks_spaced, (chunks_wf_join 1 _ b0); [done|intros b' k Hin; by destruct (Hm _ _ Hin)|done|].
  simpl. change PageSize with 4096. rewrite Hb0. repeat (split; [done || lia|]).
  destruct l2 as [|[b2 n2] l2]; [done|]. specialize (Hl2 b2 n2 (list_elem_of_here _ _)).
  destruct Hw2 as (? & ? & ? & ?). repeat split; try done; lia.
Qed.

(** Freeing pages below the first chunk loses them: the head pointer and the chunks reachable
    from it are what they were, and none of them holds the freed pages. *)
Theorem freePages_below_lost fuel base n s b1 n1 l :
  free_list s ((b1, n1) :: l) → lock_ready s →
  1 ≤ base → 0 < n → base + PageSize * n ≤ b1 →
  ∃ s' last, freePages fuel base n s = Done s' ∧
    freeList (Memory s') = freeList (Memory s) ∧
    dseg (ram s') base (freeList (Memory s')) ((b1, n1) :: l) last 0 ∧
    ∀ x, range base (PageSize * n) x → ¬ free_bytes ((b1, n1) :: l) x.
Proof.
  intros Hfl Hr Hb Hn He.
  destruct (lock_if_used_spec s Hr) as (s1 & E1 & (R1 & R2 & R3) & Hu).
  destruct Hfl as (Hw & last & Hd). rewrite <- R1 in Hd. change PageSize with 4096 in *.
  assert (Hall : ∀ b' k, (b', k) ∈ (b1, n1) :: l → b1 ≤ b').
  { intros b' k Hin. assert (chunks_wf b1 ((b1, n1) :: l)) as Hw1
      by (destruct Hw as (?&?&?&?); repeat split; try done; lia).
    by destruct (chunks_wf_elem _ _ _ _ Hw1 Hin). }
  assert (Hsep : hsep ((b1, n1) :: l) base) by (intros b' k Hin; specialize (Hall _ _ Hin); lia).
  assert (Hb1 : 0 ≤ b1 < 2 ^ 64) by (destruct Hw as (?&?&?&_); change PageSize with 4096 in *; lia).
  destruct (fresh_chunk_spec (ram s1) base n) as (_ & _ & _ & HA); [done|done|change PageSize with 4096; lia|].
  assert (D0 : dseg (fresh_chunk (ram s1) base n) 0 (freeList (Memory s)) ((b1, n1) :: l) last 0).
  { apply free_list_fresh; [done| |done]. intros b' k Hin. specialize (Hall _ _ Hin).
    change PageSize with 4096. lia. }
  assert (Hhead : freeList (Memory s) = b1) by (by destruct D0). rewrite Hhead in *.
  unfold freePages. rewrite E1. cbn [mbind outcome_bind]. rewrite R2.
  fold (fresh_chunk (ram s1) base n). set (m0 := fresh_chunk (ram s1) base n) in *.
  destruct (Z.eqb_spec b1 0); [lia|].
  assert (find_place fuel m0 base 0 b1 = Done (0, b1)) as ->.
  { destruct fuel; simpl; destruct (Z.eqb_spec b1 0); try lia; destruct (Z.ltb_spec base b1); try lia; done. }
  cbn [mbind outcome_bind].
  assert (D1 : dseg (link_next m0 base base n b1) base b1 ((b1, n1) :: l) last 0).
  { unfold link_next. destruct (header_words m0 base b1) as (-> & _). rewrite (uw_small 64 b1) by done.
    destruct (Z.eqb_spec b1 0); [done|]. cbv zeta.
    assert (Da : dseg (set_prev (set_next m0 base b1) b1 base) base b1 ((b1, n1) :: l) last 0).
    { eapply (dseg_relink_first _ 0); [by apply chunks_spaced|lia|]. by apply dseg_off. }
    destruct (_ =? _); [|done]. by do 2 (apply dseg_off; [done|]). }
  assert (D2 : dseg (link_prev (link_next m0 base base n b1) base base n 0) base b1 ((b1, n1) :: l) last 0).
  { unfold link_prev. destruct (header_words (link_next m0 base base n b1) base 0) as (_&_&_&_& -> & _).
    by apply dseg_off. }
  match goal with |- context [unlock_if_used ?s2] =>
    destruct (unlock_if_used_spec s2 Hu) as (s' & E & (Hs1 & Hs2 & Hs3) & Hl) end; [simpl; lia|].
  exists s', last. rewrite Hs1, Hs2. simpl. rewrite R2. split; [exact E|]. split; [done|]. split; [done|].
  intros x Hx (b' & k & Hin & Hx'). specialize (Hall _ _ Hin). unfold range in Hx. lia.
Qed.

Lemma unlock_switches_off s s' : unlock_if_used s = Done s' → usingLock (Memory s') = false.
Proof.
  unfold unlock_if_used. destruct (usingLock (Memory s)) eqn:E.
  - intros ((img & e) & H1 & [= <-])%outcome_bind_Done. simpl.
    unfold release in H1. apply outcome_bind_Done in H1 as (e1 & _ & H1).
    apply outcome_bind_Done in H1 as (e2 & _ & [= <- <-]). done.
  - by intros [= <-].
Qed.

Lemma allocate_loop_switches_off fuel p n s a s' :
  allocate_loop fuel p n s = Done (a, s') → usingLock (Memory s') = false.
Proof.
  revert p; induction fuel as [|fuel IH]; intros p; cbn [allocate_loop];
    (destruct (p =? 0);
      [intros (s1 & H1 & [= <- <-])%outcome_bind_Done; by eapply unlock_switches_off|]);
    (destruct (n <=? _);
      [destruct (take_pages _ _ _ _);
       intros (s1 & H1 & [= <- <-])%outcome_bind_Done; by eapply unlock_switches_off|]).
  - done.
  - apply IH.
Qed.

(** Every call of the allocator that returns leaves the lock switched off: the store that
    releases the lock also clears the flag that says it is in use. *)
Theorem allocator_switches_lock_off s :
  (∀ fuel n a s', allocatePages fuel n s = Done (a, s') → usingLock (Memory s') = false) ∧
  (∀ fuel base n s', freePages fuel base n s = Done s' → usingLock (Memory s') = false).
Proof.
  split.
  - intros fuel n a s' (s1 & _ & H)%outcome_bind_Done. by eapply allocate_loop_switches_off.
  - intros fuel base n s' (s1 & _ & H)%outcome_bind_Done.
    destruct (freeList (Memory s1) =? 0); [by eapply unlock_switches_off|].
    apply outcome_bind_Done in H as ([pv nx] & _ & H). by eapply unlock_switches_off.
Qed.

(** Conservation of pages. *)
Lemma total_pages_app l1 l2 : total_pages (l1 ++ l2) = total_pages l1 + total_pages l2.
Proof. induction l1 as [|c l1 IH]; simpl; lia. Qed.

(** ** Concrete runs *)

Definition blank : machine :=
  {| ram := λ _, 0;
     Memory := {| m_held := 0; usingLock := false; freeList := 0 |};
     HigherHalfDirectMapOffset := 0xffff800000000000;
     env := {| CPUs := []; this_hw := zero_hw |} |}.
Definition page0 : Z := 0xffff800000100000.

(** Two chunks, of 2 and 3 pages. *)
Definition example : machine :=
  done_or blank (s ← freePages 4 page0 2 blank; freePages 4 (page0 + 0x10000) 3 s).

Lemma example_free_list : free_list example [(page0, 2); (page0 + 0x10000, 3)].
Proof.
  split; [|eexists]; vm_compute; [by repeat split|]. repeat (split; [reflexivity|]). split; reflexivity.
Qed.

Lemma example_ready : lock_ready example.
Proof. split; [by vm_compute|]. intros H. by vm_compute in H. Qed.

(** The same with the lock in use and one processor. *)
Definition example_smp : machine :=
  thereIsNowMoreThanOneProcessor
    (set_env {| CPUs := [zero_cpu]; this_hw := this_hw (env example) |} example).

Lemma example_smp_ready : lock_ready example_smp.
Proof.
  split; [by vm_compute|]. intros _. split; [done|]. exists 0%nat, zero_cpu. done.
Qed.

Lemma example_smp_free_list : free_list example_smp [(page0, 2); (page0 + 0x10000, 3)].
Proof. apply example_free_list. Qed.

Lemma allocatePages_refines_witness :
  ∃ s', allocatePages 2 3 example_smp = Done (page0 + 0x10000, s') ∧ free_list s' [(page0, 2)].
Proof.
  destruct (allocatePages_refines 2 3 example_smp _ example_smp_free_list example_smp_ready)
    as (s' & E & H & _); [simpl; lia|lia|]. exists s'. split; [exact E|exact H].
Defined.

Lemma allocatePages_safe_witness :
  ∃ s' l', allocatePages 2 1 example = Done (page0 + 4096, s') ∧
           free_list s' l' ∧ total_pages l' = 4.
Proof.
  assert (allocatePages 2 1 example =
          Done (page0 + 4096, (done_or (0, blank) (allocatePages 2 1 example)).2)) as E
    by (apply done_fst; vm_compute; reflexivity).
  destruct (allocatePages_safe 2 1 example [(page0, 2); (page0 + 0x10000, 3)] (page0 + 4096) _
    example_free_list example_ready ltac:(simpl; lia) ltac:(lia) E) as (l' & H1 & _ & _ & H2);
    [by vm_compute|].
  eexists. exists l'. split; [exact E|]. split; [exact H1|exact H2].
Defined.

Lemma allocatePages_null_witness :
  ∃ s', allocatePages 2 4 example = Done (0, s') ∧ free_list s' [(page0, 2); (page0 + 0x10000, 3)].
Proof.
  exists (done_or (0, blank) (allocatePages 2 4 example)).2.
  assert (allocatePages 2 4 example = Done (0, (done_or (0, blank) (allocatePages 2 4 example)).2)) as E
    by (apply done_fst; vm_compute; reflexivity).
  split; [exact E|].
  apply (allocatePages_null 2 4 example [(page0, 2); (page0 + 0x10000, 3)] _ 0
           example_free_list example_ready ltac:(simpl; lia) ltac:(lia) E). reflexivity.
Defined.


Lemma freePages_adjacent_overlap_witness :
  ∃ s' last, freePages 1 (page0 + 0x2000) 1 example = Done s' ∧
    dseg (ram s') 0 (freeList (Memory s'))
      [(page0, 3); (page0 + 0x2000, 1); (page0 + 0x10000, 3)] last 0.
Proof.
  apply (freePages_adjacent_overlap 1 (page0 + 0x2000) 1 example [] page0 2 [(page0 + 0x10000, 3)]
              example_free_list example_ready).
  - simpl; lia.
  - lia.
  - by vm_compute.
  - by vm_compute.
  - intros b' n' Hin. apply list_elem_of_singleton in Hin. injection Hin as -> ->. by vm_compute.
Defined.

Lemma freePages_below_lost_witness :
  ∃ s' last, freePages 1 (page0 - 0x4000) 1 example = Done s' ∧
    freeList (Memory s') = page0 ∧
    dseg (ram s') (page0 - 0x4000) page0 [(page0, 2); (page0 + 0x10000, 3)] last 0.
Proof.
  destruct (freePages_below_lost 1 (page0 - 0x4000) 1 example page0 2 [(page0 + 0x10000, 3)]
              example_free_list example_ready) as (s' & last & E & H1 & H2 & _).
  - by vm_compute.
  - lia.
  - by vm_compute.
  - assert (freeList (Memory example) = page0) as F by (by vm_compute).
    rewrite F in H1. rewrite H1 in H2. exists s', last. split; [exact E|]. split; [exact H1|exact H2].
Defined.

Lemma allocator_switches_lock_off_witness :
  usingLock (Memory example_smp) = true ∧
  usingLock (Memory (done_or (0, blank) (allocatePages 2 1 example_smp)).2) = false.
Proof.
  split; [by vm_compute|].
  apply (proj1 (allocator_switches_lock_off example_smp) 2%nat 1 (page0 + 4096)).
  apply done_fst. vm_compute. reflexivity.
Defined.

(** Two pages freed one after the other, then three allocations of one page: the first and the
    third return the same page, though nothing was freed in between. *)
Theorem adjacent_double_allocation :
  (s ← freePage 4 page0 blank; s ← freePage 4 (page0 + 4096) s;
   '(a, s) ← allocatePage 4 s; '(b, s) ← allocatePage 4 s; '(c, s) ← allocatePage 4 s;
   Done (a, b, c)) = Done (page0 + 4096, page0, page0 + 4096).
Proof. by vm_compute. Qed.

(** ** The return value and the lock

    [allocatePages] computes its result from [chunk->numPages] after it released the lock.
    [allocate_commit] is the part up to the release, [allocate_return] the part after it; between
    the two, other processors can run. *)

Fixpoint commit_loop (fuel : nat) (chunk n : Z) (s : machine) : outcome (Z * machine) :=
  if chunk =? 0 then s ← unlock_if_used s; Done (0, s)
  else if n <=? numPages (ram s) chunk then
    let '(m, free) := take_pages (ram s) (freeList (Memory s)) chunk n in
    s ← unlock_if_used (set_freeList free (set_ram m s));
    Done (chunk, s)
  else match fuel with
       | O => Stuck OutOfFuel
       | S fuel => commit_loop fuel (next (ram s) chunk) n s
       end.
Definition allocate_commit (fuel : nat) (n : Z) (s : machine) : outcome (Z * machine) :=
  s ← lock_if_used s; commit_loop fuel (freeList (Memory s)) n s.
Definition allocate_return (chunk : Z) (s : machine) : Z :=
  if chunk =? 0 then 0 else u64 (chunk + u64 (PageSize * numPages (ram s) chunk)).

Lemma allocate_loop_split fuel p n s :
  allocate_loop fuel p n s =
    ('(c, s') ← commit_loop fuel p n s; Done (allocate_return c s', s')).
Proof.
  revert p; induction fuel as [|fuel IH]; intros p; cbn [allocate_loop commit_loop];
    (destruct (Z.eqb_spec p 0) as [|Hp]; [by destruct (unlock_if_used s)|]);
    (destruct (n <=? _);
      [destruct (take_pages _ _ _ _); destruct (unlock_if_used _); [|done];
       cbn; unfold allocate_return; by destruct (Z.eqb_spec p 0)|]).
  - done.
  - apply IH.
Qed.

(** Run without interruption, the two parts are [allocatePages]. *)
Lemma allocatePages_split fuel n s :
  allocatePages fuel n s = ('(c, s') ← allocate_commit fuel n s; Done (allocate_return c s', s')).
Proof.
  unfold allocatePages, allocate_commit. destruct (lock_if_used s); [|done].
  apply allocate_loop_split.
Qed.

(** Two processors allocate a page each from a chunk of two; both leave the critical section
    before either computes its result, and both get the same page. *)
Theorem allocate_return_race :
  ('(c1, s) ← allocate_commit 2 1 example_smp; '(c2, s) ← allocate_commit 2 1 s;
   Done (allocate_return c1 s, allocate_return c2 s)) = Done (page0, page0).
Proof. by vm_compute. Qed.
