(* ===== verification/PageAlloc.v ===== *)
(** The interface between the page allocator and the code that builds on it.

    [PageAllocator] lists the operations of [PhysicalMemoryManagement.h] a client calls, with
    the memory they share; [PageAllocatorLaws] is what they promise.  [pa_owned] is the set of
    addresses that belong to the allocator (its free pages): a client that writes elsewhere
    cannot disturb it, and a page it hands out leaves the set. *)

From S2P Require Import Prelude Mem.

Class PageAllocator (S : Type) := {
  pa_ram : S → mem;
  pa_set_ram : mem → S → S;
  pa_offset : S → Z;                          (* HigherHalfDirectMapOffset *)
  pa_allocatePage : S → outcome (Z * S);
  pa_freePage : Z → S → outcome S;
}.

Class PageAllocatorLaws (S : Type) `{PageAllocator S} := {
  pa_ok : S → Prop;
  pa_owned : S → Z → Prop;
  pa_pages : S → Z → Prop;                    (* the number of free pages *)

  pa_ram_set m s : pa_ram (pa_set_ram m s) = m;
  pa_offset_set m s : pa_offset (pa_set_ram m s) = pa_offset s;

  (** Writing outside the owned addresses. *)
  pa_frame m s :
    pa_ok s → agree (pa_owned s) m (pa_ram s) →
    pa_ok (pa_set_ram m s) ∧ (∀ x, pa_owned (pa_set_ram m s) x ↔ pa_owned s x) ∧
    (∀ n, pa_pages s n → pa_pages (pa_set_ram m s) n);

  (** Allocating always returns: null, or a whole aligned page that was owned and no longer
      is.  Only owned bytes may change, and null is not returned while pages are left. *)
  pa_alloc s :
    pa_ok s →
    ∃ a s', pa_allocatePage s = Done (a, s') ∧ pa_ok s' ∧ pa_offset s' = pa_offset s ∧
      agree (λ x, ¬ pa_owned s x) (pa_ram s') (pa_ram s) ∧
      (∀ x, pa_owned s' x → pa_owned s x) ∧
      (a ≠ 0 → a mod 4096 = 0 ∧ 0 < a ∧ a + 4096 ≤ 2 ^ 64 ∧
        ∀ x, a ≤ x < a + 4096 → pa_owned s x ∧ ¬ pa_owned s' x) ∧
      (∀ n, pa_pages s n → 0 < n → a ≠ 0 ∧ pa_pages s' (n - 1));
}.
