(* ===== verification/CpuReady.v ===== *)
(** What locks leave behind.  The record of the processor that runs the code: every operation that
    takes and releases a lock finds it in order ([cpu_ready]) and leaves it so ([steady], a
    preorder).  And the allocator's lock itself, which nothing touches while it is not in use. *)

From S2P Require Import Prelude Mem GDT Cpu Spinlock ChunkList PhysMem.

(** This processor has a record, with interrupts disabled [depth] times; the record is one of the
    eighteen that fit in the page allocated for them, and its task state segment has three stack
    pointers. *)
Definition record_ok (i : nat) (c : CPUState) : Prop :=
  (i < 18)%nat ∧ length (stackPointers (theTSSEntryItself (table c))) = 3%nat.
Definition cpu_ready (depth : Z) (e : cpu_env) : Prop :=
  0 ≤ depth < 2 ^ 31 - 1 ∧ ∃ i c, cpu_of e i c ∧ cliCount c = depth ∧ record_ok i c.

Section ready.
Context (depth : Z).
Local Abbreviation cpu_ready := (cpu_ready depth).

Lemma push_pop_ready e :
  cpu_ready e → ∃ e1 e2, pushCLI e = Done e1 ∧ popCLI e1 = Done e2 ∧ cpu_ready e2.
Proof.
  intros (Hn & i & c & Hc & Hd & Hs). rewrite (pushCLI_spec _ _ _ Hc).
  set (c1 := set_cli _ _ _). set (e1 := put_cpu _ _ _).
  assert (H1 : cpu_of e1 i c1) by (eapply cpu_of_put_cpu; [by apply cpu_of_put_IF|done]).
  eexists e1, _. split; [done|]. split; [by apply popCLI_spec|].
  assert (Hn1 : s32 (cliCount c1 - 1) = cliCount c).
  { unfold c1. simpl. rewrite !sw_small by (try rewrite sw_small; lia). lia. }
  split; [done|]. exists i, (set_cli (cliCount c) (wereInterruptsEnabled c1) c1). rewrite Hn1.
  split; [|by split]. case_match; [apply cpu_of_put_IF|]; by eapply cpu_of_put_cpu.
Qed.

(** What the allocator asks of the record. *)
Lemma cpu_ready_record e : cpu_ready e → ∃ i c, cpu_of e i c ∧ 0 ≤ cliCount c < 2 ^ 31 - 1.
Proof using. intros (Hn & i & c & Hc & <- & _). by exists i, c. Qed.

(** Changes of the record that leave its count and its task state segment, and of the interrupt
    flag. *)
Lemma cpu_ready_put e i c c' :
  cpu_ready e → cpu_of e i c → apicID c' = apicID c → cliCount c' = cliCount c →
  table c' = table c → cpu_ready (put_cpu i c' e).
Proof using.
  intros (Hn & j & d & [Hd1 Hd2] & Hd & Hok) Hc Ha Hcli Ht. split; [done|].
  assert (j = i ∧ d = c) as [-> ->] by (destruct Hc; split; congruence).
  exists i, c'. split; [by eapply cpu_of_put_cpu|]. split; [congruence|].
  unfold record_ok in *. by rewrite Ht.
Qed.
Lemma cpu_ready_put_IF b e : cpu_ready e → cpu_ready (put_IF b e).
Proof using. intros (Hn & i & c & Hc & H). split; [done|]. by exists i, c. Qed.

Lemma cpu_ready_pop e :
  cpu_ready e → 0 < depth → ∃ e', popCLI e = Done e' ∧ CpuReady.cpu_ready (depth - 1) e'.
Proof using.
  intros (Hn & i & c & Hc & Hd & Hok) H0. rewrite (popCLI_spec _ _ _ Hc).
  eexists. split; [done|]. split; [lia|].
  exists i, (set_cli (s32 (cliCount c - 1)) (wereInterruptsEnabled c) c).
  rewrite Hd, sw_small by lia. split; [|by split].
  case_match; [apply cpu_of_put_IF|]; by eapply cpu_of_put_cpu.
Qed.

(** ** What taking and releasing locks leaves

    The record stays in order, only its count and the saved flag can differ, and interrupts that are
    disabled stay disabled. *)
Definition steady (e e' : cpu_env) : Prop :=
  cpu_ready e →
    cpu_ready e' ∧ (∀ i c, cpu_of e i c → ∃ n w, cpu_of e' i (set_cli n w c)) ∧
    (IF (this_hw e) = false → IF (this_hw e') = false).

#[export] Instance steady_preorder : PreOrder steady.
Proof.
  split.
  - intros e He. split; [done|]. split; [|done]. intros i c Hc.
    exists (cliCount c), (wereInterruptsEnabled c). by destruct c.
  - intros e1 e2 e3 H1 H2 He. destruct (H1 He) as (He2 & R1 & O1).
    destruct (H2 He2) as (He3 & R2 & O2). split; [done|]. split; [|auto].
    intros i c Hc. destruct (R1 i c Hc) as (n & w & Hc1). destruct (R2 _ _ Hc1) as (n2 & w2 & Hc2).
    by exists n2, w2.
Qed.

Lemma push_pop_steady e e1 e2 : pushCLI e = Done e1 → popCLI e1 = Done e2 → steady e e2.
Proof.
  intros E1 E2 He. destruct (push_pop_ready e He) as (e1' & e2' & E1' & E2' & He2).
  rewrite E1 in E1'. injection E1' as <-. rewrite E2 in E2'. injection E2' as <-.
  destruct He as (Hn & j & d & Hd & Hdep & _). split; [done|].
  assert (H1 : ∀ i c, cpu_of e i c → cpu_of e1 i (set_cli (s32 (cliCount c + 1))
    (if cliCount c =? 0 then IF (this_hw e) else wereInterruptsEnabled c) c)).
  { intros i c Hc. rewrite (pushCLI_spec _ _ _ Hc) in E1. injection E1 as <-.
    eapply cpu_of_put_cpu; [by apply cpu_of_put_IF|done]. }
  split.
  - intros i c Hc. rewrite (popCLI_spec _ _ _ (H1 i c Hc)) in E2. injection E2 as <-.
    eexists _, _. case_match; [apply cpu_of_put_IF|]; (eapply cpu_of_put_cpu; [by apply H1|done]).
  - intros Hoff. rewrite (popCLI_spec _ _ _ (H1 j d Hd)) in E2. injection E2 as <-.
    assert (IF (this_hw e1) = false) as Hoff1.
    { rewrite (pushCLI_spec _ _ _ Hd) in E1. by injection E1 as <-. }
    cbn [cliCount wereInterruptsEnabled set_cli]. rewrite Hdep, Hoff.
    rewrite (sw_small 32 (depth + 1)), sw_small by lia. replace (depth + 1 - 1) with depth by lia.
    by destruct (depth =? 0).
Qed.

Lemma acquire_steady l e l' e' : acquire l e = Done (l', e') → steady e e'.
Proof.
  unfold acquire. destruct (pushCLI e) as [e1|] eqn:E1; [|done]. cbn [mbind outcome_bind].
  destruct (test_and_set l) as [old held]. destruct (old =? 0); [|done].
  destruct (popCLI e1) as [e2|] eqn:E2; [|done]. intros [= _ <-]. by eapply push_pop_steady.
Qed.

Lemma release_steady img e img' e' : release img e = Done (img', e') → steady e e'.
Proof.
  unfold release. destruct (pushCLI e) as [e1|] eqn:E1; [|done]. cbn [mbind outcome_bind].
  destruct (popCLI e1) as [e2|] eqn:E2; [|done]. intros [= _ <-]. by eapply push_pop_steady.
Qed.

(** ** The allocator *)

Lemma lock_if_used_steady s s' : lock_if_used s = Done s' → steady (env s) (env s').
Proof.
  unfold lock_if_used. destruct (usingLock _); [|by intros [= <-]].
  destruct (acquire _ _) as [[l e]|] eqn:E; [|done]. intros [= <-]. by eapply acquire_steady.
Qed.

Lemma unlock_if_used_steady s s' : unlock_if_used s = Done s' → steady (env s) (env s').
Proof.
  unfold unlock_if_used. destruct (usingLock _); [|by intros [= <-]].
  destruct (release _ _) as [[l e]|] eqn:E; [|done]. intros [= <-]. by eapply release_steady.
Qed.

Lemma allocate_loop_steady fuel chunk n s a s' :
  allocate_loop fuel chunk n s = Done (a, s') → steady (env s) (env s').
Proof.
  revert chunk; induction fuel as [|fuel IH]; intros chunk; cbn [allocate_loop].
  all: destruct (_ =? 0); [destruct (unlock_if_used s) as [s1|] eqn:E; [|done];
    intros [= _ <-]; by apply unlock_if_used_steady|].
  all: destruct (_ <=? _); [|try done].
  all: try (destruct (take_pages _ _ _ _) as [m free]; destruct (unlock_if_used _) as [s1|] eqn:E; [|done];
    intros [= _ <-]; exact (unlock_if_used_steady _ _ E)).
  by apply IH.
Qed.

Lemma allocatePages_steady fuel n s a s' :
  allocatePages fuel n s = Done (a, s') → steady (env s) (env s').
Proof.
  unfold allocatePages. destruct (lock_if_used s) as [s1|] eqn:E; [|done]. cbn [mbind outcome_bind].
  intros H. etrans; [by apply lock_if_used_steady|by eapply allocate_loop_steady].
Qed.

Lemma freePages_steady fuel base n s s' :
  freePages fuel base n s = Done s' → steady (env s) (env s').
Proof.
  unfold freePages. destruct (lock_if_used s) as [s1|] eqn:E; [|done]. cbn [mbind outcome_bind].
  intros H. etrans; [by apply lock_if_used_steady|].
  destruct (_ =? 0); [by apply unlock_if_used_steady in H|].
  destruct (find_place _ _ _ _ _) as [[pv nx]|]; [|done]. by apply unlock_if_used_steady in H.
Qed.

Definition env_ready (s : machine) : Prop := cpu_ready (env s).
End ready.

(** ** A lock that is not in use *)

Definition lock_idle (e : cpu_env) (s : machine) : Prop :=
  usingLock (Memory s) = false ∧ m_held (Memory s) = 0 ∧ env s = e.

Section idle.
Context (e : cpu_env).

Lemma lock_idle_ready s l : lock_idle e s → free_list s l → lock_ready s.
Proof using.
  intros (Hu & _) Hl. split; [by apply (free_list_head_range _ l)|congruence].
Qed.

Lemma allocate_loop_idle fuel chunk n s a s' :
  lock_idle e s → allocate_loop fuel chunk n s = Done (a, s') → lock_idle e s'.
Proof using.
  intros Hi. revert chunk; induction fuel as [|fuel IH]; intros chunk; cbn [allocate_loop];
    unfold unlock_if_used.
  all: destruct (_ =? 0); [rewrite (proj1 Hi); by intros [= _ <-]|].
  all: destruct (_ <=? _); [|try done].
  all: try (destruct (take_pages _ _ _ _) as [m free]; simpl; rewrite (proj1 Hi); by intros [= _ <-]).
  by apply IH.
Qed.

Lemma allocatePages_idle fuel n s a s' :
  lock_idle e s → allocatePages fuel n s = Done (a, s') → lock_idle e s'.
Proof using.
  intros Hi. unfold allocatePages, lock_if_used. rewrite (proj1 Hi). cbn [mbind outcome_bind].
  by apply allocate_loop_idle.
Qed.

Lemma freePages_idle fuel base n s s' :
  lock_idle e s → freePages fuel base n s = Done s' → lock_idle e s'.
Proof using.
  intros Hi. unfold freePages, lock_if_used. rewrite (proj1 Hi). cbn [mbind outcome_bind].
  unfold unlock_if_used. destruct (_ =? 0); [simpl; rewrite (proj1 Hi); by intros [= <-]|].
  destruct (find_place _ _ _ _ _) as [[pv nx]|]; [|done]. cbn [mbind outcome_bind Memory set_ram].
  rewrite (proj1 Hi). by intros [= <-].
Qed.
End idle.
