(* ===== verification/PhysPages.v ===== *)
(** The free-list allocator of [PhysMem] offers the interface of [PageAlloc]. *)

From S2P Require Import Prelude Mem GDT Cpu Spinlock ChunkList PhysMem PageAlloc.

Section instance.
(** A bound on the number of chunks, which is the fuel of the list traversals: allocation never
    adds a chunk, so a bound for one state bounds all later ones. *)
Context (fuel : nat).

#[export] Instance phys_pages : PageAllocator machine := {
  pa_ram := ram;
  pa_set_ram := set_ram;
  pa_offset := HigherHalfDirectMapOffset;
  pa_allocatePage := allocatePage fuel;
  pa_freePage := freePage fuel;
}.

Definition aligned (l : list chunk) : Prop := Forall (λ c, c.1 mod 4096 = 0) l.

Definition phys_ok (s : machine) : Prop :=
  lock_ready s ∧ ∃ l, free_list s l ∧ aligned l ∧ (length l ≤ fuel)%nat.
Definition phys_owned (s : machine) (x : Z) : Prop := ∃ l, free_list s l ∧ free_bytes l x.
Definition phys_pages_left (s : machine) (n : Z) : Prop := ∃ l, free_list s l ∧ total_pages l = n.

Lemma dseg_unique m lo pv p l1 l2 last1 last2 :
  chunks_wf lo l1 → chunks_wf lo l2 → 1 ≤ lo →
  dseg m pv p l1 last1 0 → dseg m pv p l2 last2 0 → l1 = l2.
Proof.
  revert lo pv p l2; induction l1 as [|[b k] l1 IH]; intros lo pv p l2 W1 W2 Hlo D1 D2.
  - destruct D1 as [-> _]. destruct l2 as [|[b k] l2]; [done|].
    destruct D2 as [<- _]. destruct W2. lia.
  - destruct D1 as (-> & _ & N1 & D1), W1 as (B1 & K1 & _ & W1).
    destruct l2 as [|[b' k'] l2]; [destruct D2; lia|].
    destruct D2 as (<- & _ & N2 & D2), W2 as (_ & _ & _ & W2).
    rewrite N1 in N2. subst k'. f_equal. change PageSize with 4096 in *.
    eapply IH; [exact W1|exact W2|lia|exact D1|exact D2].
Qed.

Lemma free_list_unique s l1 l2 : free_list s l1 → free_list s l2 → l1 = l2.
Proof. intros (? & ? & ?) (? & ? & ?). by eapply (dseg_unique _ 1). Qed.

Lemma phys_owned_iff s l x : free_list s l → phys_owned s x ↔ free_bytes l x.
Proof.
  intros Hl. split; [|by exists l]. intros (l' & Hl' & Hx). by rewrite (free_list_unique s l l').
Qed.

Lemma headers_free lo l x : chunks_wf lo l → headers l x → free_bytes l x.
Proof.
  intros Hw (b & n & Hin & Hx). exists b, n. split; [done|].
  destruct (chunks_wf_elem _ _ _ _ Hw Hin). change PageSize with 4096. lia.
Qed.

(** The allocator reads nothing but the headers of its chunks. *)
Lemma free_list_headers m s l :
  free_list s l → agree (headers l) m (ram s) → free_list (set_ram m s) l.
Proof.
  intros (Hw & last & Hd) HA. split; [done|]. exists last. simpl. by eapply dseg_agree.
Qed.

Lemma free_list_set_ram m s l :
  free_list s l → agree (free_bytes l) m (ram s) → free_list (set_ram m s) l.
Proof.
  intros Hl HA. apply free_list_headers; [done|]. eapply agree_weaken; [|exact HA].
  intros x. by apply (headers_free 1), Hl.
Qed.

Lemma take_first_aligned n l a l' :
  aligned l → take_first n l = Some (a, l') →
  a mod 4096 = 0 ∧ aligned l' ∧ (length l' ≤ length l)%nat.
Proof.
  revert a l'; induction l as [|[b k] l IH]; intros a l' Hal Ht; [done|].
  apply Forall_cons in Hal as [Hb Hal]. simpl in Hb. cbn [take_first] in Ht.
  change PageSize with 4096 in Ht. destruct (n <=? k).
  - injection Ht as <- <-. split; [rewrite Z.mul_comm; by rewrite Z.mod_add|].
    destruct (_ =? 0); (split; [|simpl; lia]); [done|]. by apply Forall_cons.
  - destruct (take_first n l) as [[a1 l1]|]; [|done]. injection Ht as <- <-.
    destruct (IH a1 l1 Hal eq_refl) as (? & ? & ?). simpl.
    split; [done|]. split; [by apply Forall_cons|simpl; lia].
Qed.

Lemma alloc_rest_bounded n l :
  aligned l → (length l ≤ fuel)%nat →
  aligned (alloc_rest n l) ∧ (length (alloc_rest n l) ≤ fuel)%nat.
Proof.
  unfold alloc_rest. intros Hal Hl. destruct (take_first n l) as [[a l']|] eqn:E; [|done].
  destruct (take_first_aligned _ _ _ _ Hal E) as (_ & ? & ?). split; [done|lia].
Qed.

(** When no chunk is large enough there are few pages. *)
Lemma take_first_None_total k l :
  1 ≤ k → take_first k l = None → total_pages l ≤ (k - 1) * Z.of_nat (length l).
Proof.
  intros Hk. induction l as [|[b q] l IH]; [simpl; lia|]. intros Ht.
  pose proof (take_first_None _ _ _ _ Ht (list_elem_of_here _ _)).
  cbn [take_first] in Ht. destruct (k <=? q); [done|].
  destruct (take_first k l) as [[a l']|]; [done|]. simpl. specialize (IH eq_refl). nia.
Qed.

(** Allocating [k] pages: it succeeds when there are more pages than chunks too small for [k] can
    hold. *)
Lemma phys_alloc_block k s :
  phys_ok s → 1 ≤ k →
  ∃ a s', allocatePages fuel k s = Done (a, s') ∧ phys_ok s' ∧
    HigherHalfDirectMapOffset s' = HigherHalfDirectMapOffset s ∧
    agree (λ x, ¬ phys_owned s x) (ram s') (ram s) ∧
    (∀ x, phys_owned s' x → phys_owned s x) ∧
    (a ≠ 0 → a mod 4096 = 0 ∧ 0 < a ∧ a + 4096 * k ≤ 2 ^ 64 ∧
      ∀ x, a ≤ x < a + 4096 * k → phys_owned s x ∧ ¬ phys_owned s' x) ∧
    (∀ n, phys_pages_left s n → (k - 1) * Z.of_nat fuel < n → a ≠ 0 ∧ phys_pages_left s' (n - k)).
Proof.
  intros (Hr & l & Hl & Hal & Hlen) Hk.
  destruct (allocatePages_spec fuel k s l Hl Hr Hlen ltac:(lia)) as (s' & E & Hl' & Hu & Ho & HA).
  destruct (alloc_rest_bounded k l Hal Hlen) as [Hal' Hlen'].
  exists (alloc_result k l), s'. split; [done|]. split.
  { split; [split; [by apply (free_list_head_range _ (alloc_rest k l))|congruence]|]. eauto. }
  split; [done|]. pose proof (proj1 Hl) as Hw. split.
  { eapply agree_weaken; [|exact HA]. intros x Hx Hh. apply Hx, (phys_owned_iff s l); [done|].
    by apply (headers_free 1). }
  unfold alloc_rest, alloc_result in *.
  destruct (take_first k l) as [[a l']|] eqn:Et.
  - destruct (take_first_Some k l 1 a l' Hw ltac:(lia) Et) as (F1 & F2 & F3 & F4 & F5).
    change PageSize with 4096 in *.
    split; [|split].
    + intros x. rewrite (phys_owned_iff s' l'), (phys_owned_iff s l), F1 by done. tauto.
    + intros _. split; [by apply (take_first_aligned k l a l')|]. split; [lia|]. split; [lia|].
      intros x Hx. rewrite (phys_owned_iff s' l'), (phys_owned_iff s l) by done.
      split; [apply F1; by right|by apply F2].
    + intros n (l0 & H0 & <-) Hn. rewrite (free_list_unique s l0 l) in * by done.
      split; [lia|]. exists l'. done.
  - split; [|split].
    + intros x. by rewrite (phys_owned_iff s' l), (phys_owned_iff s l).
    + done.
    + intros n (l0 & H0 & <-) Hn. rewrite (free_list_unique s l0 l) in * by done.
      pose proof (take_first_None_total k l Hk Et). nia.
Qed.

Lemma phys_alloc s :
  phys_ok s →
  ∃ a s', allocatePage fuel s = Done (a, s') ∧ phys_ok s' ∧
    HigherHalfDirectMapOffset s' = HigherHalfDirectMapOffset s ∧
    agree (λ x, ¬ phys_owned s x) (ram s') (ram s) ∧
    (∀ x, phys_owned s' x → phys_owned s x) ∧
    (a ≠ 0 → a mod 4096 = 0 ∧ 0 < a ∧ a + 4096 ≤ 2 ^ 64 ∧
      ∀ x, a ≤ x < a + 4096 → phys_owned s x ∧ ¬ phys_owned s' x) ∧
    (∀ n, phys_pages_left s n → 0 < n → a ≠ 0 ∧ phys_pages_left s' (n - 1)).
Proof. intros H. exact (phys_alloc_block 1 s H ltac:(lia)). Qed.

(** The allocator does not care about the processors' records or about a lock it can take. *)
Lemma phys_same s s' :
  phys_ok s → same_but_lock s s' → lock_ready s' →
  phys_ok s' ∧ (∀ x, phys_owned s' x ↔ phys_owned s x) ∧
  (∀ n, phys_pages_left s n → phys_pages_left s' n).
Proof.
  intros (_ & l & Hl & Hal & Hlen) Hs Hr. pose proof (free_list_same _ _ _ Hs Hl) as Hl'.
  split; [split; [done|]; eauto|]. split.
  - intros x. by rewrite (phys_owned_iff s l), (phys_owned_iff s' l).
  - intros n (l0 & H0 & <-). rewrite (free_list_unique s l0 l) by done. by exists l.
Qed.

Lemma phys_frame m s :
  phys_ok s → agree (phys_owned s) m (ram s) →
  phys_ok (set_ram m s) ∧ (∀ x, phys_owned (set_ram m s) x ↔ phys_owned s x) ∧
  (∀ n, phys_pages_left s n → phys_pages_left (set_ram m s) n).
Proof.
  intros (Hr & l & Hl & Hal & Hlen) HA.
  assert (Hl' : free_list (set_ram m s) l).
  { apply free_list_set_ram; [done|]. eapply agree_weaken; [|exact HA].
    intros x. by apply phys_owned_iff. }
  split; [split; [done|]; eauto|]. split.
  - intros x. by rewrite (phys_owned_iff s l), (phys_owned_iff _ l).
  - intros n (l0 & H0 & <-). rewrite (free_list_unique s l0 l) by done. by exists l.
Qed.

#[export] Instance phys_pages_laws : PageAllocatorLaws machine.
Proof.
  refine {| pa_ok := phys_ok; pa_owned := phys_owned; pa_pages := phys_pages_left |}.
  - done.
  - done.
  - apply phys_frame.
  - apply phys_alloc.
Defined.
End instance.
