(* ===== verification/PhysTrace.v ===== *)
(** The page allocator over time: any sequence of allocations, releases and writes by clients
    that obey the rules.

    [PhysMem] says what one call does; here calls follow each other in any order.  The world is
    the machine and the blocks that are in clients' hands. *)

From Stdlib Require Import Sorting.Permutation.
From S2P Require Import Prelude Mem GDT Cpu Spinlock ChunkList PhysMem PageAlloc PhysPages.

Definition world : Type := machine * list chunk.

(** A block fits between the chunks of a free list without touching them, and not below all of
    them: the cases in which [freePages] inserts it ([freePages_adjacent_overlap] and
    [freePages_below_lost] show the others). *)
Definition fits_between (l1 l2 : list chunk) (a n : Z) : Prop :=
  (l1 = [] → l2 = []) ∧
  (∀ b k, (b, k) ∈ l1 → b + PageSize * k < a) ∧ (∀ b k, (b, k) ∈ l2 → a + PageSize * n < b).

Definition block_bytes (live : list chunk) (x : Z) : Prop :=
  ∃ a n, (a, n) ∈ live ∧ a ≤ x < a + PageSize * n.

(** What clients may do: ask for pages, give back a block they hold, write to blocks they hold.
    [fuel] bounds the list traversals of the one call. *)
Inductive client_step : world → world → Prop :=
  | step_allocate fuel n s a s' live :
      0 < n → (∀ l, free_list s l → (length l ≤ fuel)%nat) →
      allocatePages fuel n s = Done (a, s') → a ≠ 0 →
      client_step (s, live) (s', (a, n) :: live)
  | step_no_memory fuel n s s' live :
      0 < n → (∀ l, free_list s l → (length l ≤ fuel)%nat) →
      allocatePages fuel n s = Done (0, s') →
      client_step (s, live) (s', live)
  | step_free fuel a n s s' live live' l1 l2 :
      live ≡ₚ (a, n) :: live' → free_list s (l1 ++ l2) → fits_between l1 l2 a n →
      (length l1 ≤ fuel)%nat → freePages fuel a n s = Done s' →
      client_step (s, live) (s', live')
  | step_write m s live :
      agree (λ x, ¬ block_bytes live x) m (ram s) →
      client_step (s, live) (set_ram m s, live).

(** ** The invariant *)

Definition apart (b c : chunk) : Prop := disj b.1 (PageSize * b.2) c.1 (PageSize * c.2).

Record world_ok (total : Z) (w : world) : Prop := {
  wo_lock : lock_ready w.1;
  wo_blocks b : b ∈ w.2 → 1 ≤ b.1 ∧ 0 < b.2 ∧ b.1 + PageSize * b.2 ≤ 2 ^ 64;
  wo_apart : ForallOrdPairs apart w.2;
  wo_free : ∃ l, free_list w.1 l ∧ (∀ x, block_bytes w.2 x → ¬ free_bytes l x) ∧
    total_pages l + total_pages w.2 = total;
}.

#[export] Instance apart_symmetric : Symmetric apart.
Proof. unfold apart, disj. intros b c. lia. Qed.

Lemma apart_perm l1 l2 : l1 ≡ₚ l2 → ForallOrdPairs apart l1 → ForallOrdPairs apart l2.
Proof.
  induction 1 as [|b l1 l2 Hp IH|b c l|l1 l2 l3 _ IH1 _ IH2]; intros H; [done| | |by auto].
  - inversion H as [|? ? Hb Hl]; subst. constructor; [|by apply IH]. by rewrite <- Hp.
  - inversion H as [|? ? Hb Hl]; subst. inversion Hl as [|? ? Hc Hl']; subst.
    apply Forall_cons in Hb as [Hbc Hb]. constructor; [|by constructor].
    apply Forall_cons. split; [by symmetry|done].
Qed.

Lemma total_pages_perm l1 l2 : l1 ≡ₚ l2 → total_pages l1 = total_pages l2.
Proof. induction 1; simpl in *; lia. Qed.

Lemma lock_ready_unlocked s l : free_list s l → usingLock (Memory s) = false → lock_ready s.
Proof. intros Hl Hu. split; [by apply (free_list_head_range s l)|congruence]. Qed.

Lemma block_bytes_cons a n live x :
  block_bytes ((a, n) :: live) x ↔ a ≤ x < a + PageSize * n ∨ block_bytes live x.
Proof.
  unfold block_bytes. split.
  - intros (b & k & [[= -> ->]|Hin]%elem_of_cons & Hx); [by left|right; eauto].
  - intros [Hx|(b & k & Hin & Hx)]; [exists a, n|exists b, k]; (split; [apply elem_of_cons|done]);
      [by left|by right].
Qed.

(** A block and blocks none of whose bytes it contains. *)
Lemma apart_of_bytes a n live :
  0 < n → (∀ b, b ∈ live → 0 < b.2) → (∀ x, a ≤ x < a + PageSize * n → ¬ block_bytes live x) →
  Forall (apart (a, n)) live.
Proof.
  intros Hn Hpos Hout. apply Forall_forall. intros [b k] Hin. unfold apart, disj. cbn [fst snd].
  specialize (Hpos _ Hin). simpl in Hpos. change PageSize with 4096 in *.
  destruct (Z.le_gt_cases (a + 4096 * n) b); [by left|].
  destruct (Z.le_gt_cases (b + 4096 * k) a); [by right|]. exfalso.
  apply (Hout (Z.max a b)); [lia|]. exists b, k. change PageSize with 4096. split; [done|lia].
Qed.

Lemma free_bytes_insert l1 l2 a n x :
  free_bytes (l1 ++ (a, n) :: l2) x ↔ a ≤ x < a + PageSize * n ∨ free_bytes (l1 ++ l2) x.
Proof.
  unfold free_bytes. split.
  - intros (b & k & Hin & Hx). apply elem_of_app in Hin as [Hin|[[= -> ->]|Hin]%elem_of_cons];
      [right|by left|right]; exists b, k; (split; [apply elem_of_app|done]); [by left|by right].
  - intros [Hx|(b & k & Hin & Hx)]; [exists a, n|exists b, k]; (split; [|done]); apply elem_of_app.
    + right. apply list_elem_of_here.
    + apply elem_of_app in Hin as [?|?]; [by left|right; by apply list_elem_of_further].
Qed.

Lemma step_allocate_ok total fuel n s a s' live :
  world_ok total (s, live) → 0 < n → (∀ l, free_list s l → (length l ≤ fuel)%nat) →
  allocatePages fuel n s = Done (a, s') →
  world_ok total (s', if decide (a = 0) then live else (a, n) :: live).
Proof.
  intros [Hr Hbl Hap (l & Hl & Hd & Ht)] Hn Hf E. cbn [fst snd] in *.
  destruct (allocatePages_spec fuel n s l Hl Hr (Hf l Hl) Hn) as (s1 & E1 & Hl1 & Hu & _ & _).
  rewrite E in E1. injection E1 as Ea <-. unfold alloc_result, alloc_rest in *.
  destruct (take_first n l) as [[a1 l']|] eqn:Et; cbn in Ea; subst a.
  - destruct (take_first_Some n l 1 a1 l' (proj1 Hl) Hn Et) as (F1 & F2 & F3 & F4 & F5).
    rewrite decide_False by lia. split; cbn [fst snd].
    + by eapply lock_ready_unlocked.
    + intros b [->|Hb]%elem_of_cons; [simpl; lia|by apply Hbl].
    + constructor; [|done]. apply apart_of_bytes; [done|intros b Hb; by apply Hbl|].
      intros x Hx Hb. apply (Hd x Hb), F1. by right.
    + exists l'. split; [done|]. split; [|simpl; lia].
      intros x [Hx|Hx]%block_bytes_cons Hfx; [by apply (F2 x)|].
      apply (Hd x Hx), F1. by left.
  - rewrite decide_True by done. split; [by eapply lock_ready_unlocked|done|done|by exists l].
Qed.

Lemma step_free_ok total fuel a n s s' live live' l1 l2 :
  world_ok total (s, live) → live ≡ₚ (a, n) :: live' → free_list s (l1 ++ l2) →
  fits_between l1 l2 a n → (length l1 ≤ fuel)%nat → freePages fuel a n s = Done s' →
  world_ok total (s', live').
Proof.
  intros [Hr Hbl Hap (l & Hl & Hd & Ht)] Hp Hfl (Hnil & Hb1 & Hb2) Hf E. cbn [fst snd] in *.
  assert (l = l1 ++ l2) as -> by (by eapply free_list_unique).
  destruct (Hbl (a, n)) as (G1 & G2 & G3); [rewrite Hp; apply list_elem_of_here|].
  cbn [fst snd] in G1, G2, G3.
  destruct (freePages_insert_spec fuel a n s l1 l2) as (s1 & E1 & Hl1 & Hu & _ & _); try done.
  rewrite E in E1. injection E1 as <-.
  apply (apart_perm _ _ Hp) in Hap. inversion_clear Hap as [|? ? Ha Hap'].
  split; cbn [fst snd].
  - by eapply lock_ready_unlocked.
  - intros b Hb. apply Hbl. rewrite Hp. by apply list_elem_of_further.
  - done.
  - exists (l1 ++ (a, n) :: l2). split; [done|]. split.
    + intros x (b & k & Hin & Hx) [Hx'|Hx']%free_bytes_insert.
      * rewrite Forall_forall in Ha. specialize (Ha _ Hin). unfold apart, disj in Ha. simpl in Ha. lia.
      * apply (Hd x); [|done]. exists b, k. split; [|done]. rewrite Hp. by apply list_elem_of_further.
    + rewrite (total_pages_perm _ _ Hp) in Ht. rewrite total_pages_app in *. simpl in *. lia.
Qed.

Lemma client_step_ok total w w' : world_ok total w → client_step w w' → world_ok total w'.
Proof.
  intros Hw Hs. destruct Hs as [fuel n s a s' live Hn Hf E Ha|fuel n s s' live Hn Hf E
                               |fuel a n s s' live live' l1 l2 Hp Hfl Hb Hf E|m s live HA].
  - pose proof (step_allocate_ok _ _ _ _ _ _ _ Hw Hn Hf E) as H. by rewrite decide_False in H.
  - exact (step_allocate_ok _ _ _ _ _ _ _ Hw Hn Hf E).
  - by eapply step_free_ok.
  - destruct Hw as [Hr Hbl Hap (l & Hl & Hd & Ht)]. cbn [fst snd] in *. split; try done.
    exists l. split; [|done]. apply free_list_set_ram; [done|]. eapply agree_weaken; [|exact HA].
    intros x Hx Hb. by apply (Hd x).
Qed.


(** ** A concrete run: an allocation, a write into the block, its release *)

Lemma free_list_length s l k : free_list s l → (length l ≤ k)%nat → ∀ l', free_list s l' → (length l' ≤ k)%nat.
Proof. intros Hl Hk l' Hl'. by rewrite (free_list_unique s l' l). Qed.

