(* ===== verification/AllocRace.v ===== *)
(** [PhysicalMemoryManagement.cpp] on several processors: [allocatePages] and [freePages] cut at their
    accesses to the list and to the lock.

    [alloc_point] and [free_point] say where in a call a processor is; [alloc_visit] and [free_visit]
    are what it does next.  A visit is one test or one assignment of the C++ (unlinking a chunk takes
    three); where [allocatePages] decreases a page count, reading it and writing it back are two. *)

From S2P Require Import Prelude Mem GDT Cpu Spinlock ChunkList PhysMem.

(** ** What processors share, and where they are *)

Record pool := { p_ram : mem; p_Memory : Memory_t }.
Definition pool_of (s : machine) : pool := {| p_ram := ram s; p_Memory := Memory s |}.
Definition set_pool_ram (m : mem) (s : pool) : pool := {| p_ram := m; p_Memory := p_Memory s |}.
Definition set_pool_held (h : Z) (s : pool) : pool :=
  {| p_ram := p_ram s;
     p_Memory := {| m_held := h; usingLock := usingLock (p_Memory s); freeList := freeList (p_Memory s) |} |}.
Definition set_head (p : Z) (s : pool) : pool :=
  {| p_ram := p_ram s;
     p_Memory := {| m_held := m_held (p_Memory s); usingLock := usingLock (p_Memory s); freeList := p |} |}.

(** [Memory.lock.release()] *)
Definition release_pool (s : pool) : pool :=
  {| p_ram := p_ram s; p_Memory := Memory_of_image (movl_zero (Memory_image (p_Memory s))) |}.

Inductive alloc_point :=
  | AllocStart                    (* before the test of [usingLock] *)
  | AllocLocking                  (* in [acquire] *)
  | AllocHead                     (* before [chunk = Memory.freeList] *)
  | AllocLook (chunk : Z)         (* at the loop's condition and the test of the page count *)
  | AllocNext (chunk : Z)         (* before [chunk = chunk->next] *)
  | AllocLoad (chunk : Z)         (* before the page count is read to be decreased *)
  | AllocStore (chunk v : Z)      (* before it is written back *)
  | AllocEmpty (chunk : Z)        (* before the test whether the chunk is empty *)
  | AllocUnlinkPrev (chunk : Z) | AllocUnlinkNext (chunk : Z) | AllocUnlinkHead (chunk : Z)
  | AllocUnlock (chunk : Z)       (* before the second test of [usingLock] *)
  | AllocRelease (chunk : Z)      (* in [release] *)
  | AllocReturn (chunk : Z)       (* before the address is computed *)
  | AllocFail | AllocFailRelease  (* the same when no chunk is large enough *)
  | Allocated (a : Z).

Definition alloc_visit (n : Z) (p : alloc_point) (s : pool) : alloc_point * pool :=
  let m := p_ram s in
  match p with
  | AllocStart => (if usingLock (p_Memory s) then AllocLocking else AllocHead, s)
  | AllocLocking =>
      let '(old, held) := test_and_set (m_held (p_Memory s)) in
      (if old =? 0 then AllocHead else AllocLocking, set_pool_held held s)
  | AllocHead => (AllocLook (freeList (p_Memory s)), s)
  | AllocLook chunk =>
      (if chunk =? 0 then AllocFail
       else if n <=? numPages m chunk then AllocLoad chunk else AllocNext chunk, s)
  | AllocNext chunk => (AllocLook (next m chunk), s)
  | AllocLoad chunk => (AllocStore chunk (numPages m chunk), s)
  | AllocStore chunk v => (AllocEmpty chunk, set_pool_ram (set_numPages m chunk (u64 (v - n))) s)
  | AllocEmpty chunk => (if numPages m chunk =? 0 then AllocUnlinkPrev chunk else AllocUnlock chunk, s)
  | AllocUnlinkPrev chunk =>
      (AllocUnlinkNext chunk,
       if prev m chunk =? 0 then s else set_pool_ram (set_next m (prev m chunk) (next m chunk)) s)
  | AllocUnlinkNext chunk =>
      (AllocUnlinkHead chunk,
       if next m chunk =? 0 then s else set_pool_ram (set_prev m (next m chunk) (prev m chunk)) s)
  | AllocUnlinkHead chunk =>
      (AllocUnlock chunk, if chunk =? freeList (p_Memory s) then set_head (next m chunk) s else s)
  | AllocUnlock chunk => (if usingLock (p_Memory s) then AllocRelease chunk else AllocReturn chunk, s)
  | AllocRelease chunk => (AllocReturn chunk, release_pool s)
  | AllocReturn chunk => (Allocated (u64 (chunk + u64 (PageSize * numPages m chunk))), s)
  | AllocFail => (if usingLock (p_Memory s) then AllocFailRelease else Allocated 0, s)
  | AllocFailRelease => (Allocated 0, release_pool s)
  | Allocated a => (Allocated a, s)
  end.

(** *** [freePages] *)

Inductive free_point :=
  | FreeStart | FreeLocking
  | FreeFill                      (* before [memset] *)
  | FreeCount                     (* before [self->numPages = numPages] *)
  | FreeTest | FreeFirst | FreeHead
  | FreeLook (pv nx : Z) | FreeWalk (nx : Z)
  | FreeNext (pv nx : Z)          (* before [self->next = next] *)
  | FreeTestNext (pv : Z) | FreeBack (pv : Z) | FreeAdjoinsNext (pv : Z)
  | FreeMergeCount (pv : Z) | FreeMergeLink (pv : Z)
  | FreePrev (pv : Z)             (* before [self->prev = prev] *)
  | FreeTestPrev (pv : Z) | FreeForward (pv : Z) | FreeAdjoinsPrev (pv : Z) | FreeMergePrev (pv : Z)
  | FreeUnlock | FreeRelease
  | Freed.

Definition free_visit (base n : Z) (p : free_point) (s : pool) : free_point * pool :=
  let m := p_ram s in
  match p with
  | FreeStart => (if usingLock (p_Memory s) then FreeLocking else FreeFill, s)
  | FreeLocking =>
      let '(old, held) := test_and_set (m_held (p_Memory s)) in
      (if old =? 0 then FreeFill else FreeLocking, set_pool_held held s)
  | FreeFill => (FreeCount, set_pool_ram (memset m base 0 (u64 (PageSize * n))) s)
  | FreeCount => (FreeTest, set_pool_ram (set_numPages m base n) s)
  | FreeTest => (if freeList (p_Memory s) =? 0 then FreeFirst else FreeHead, s)
  | FreeFirst => (FreeUnlock, set_head base s)
  | FreeHead => (FreeLook 0 (freeList (p_Memory s)), s)
  | FreeLook pv nx =>
      (if nx =? 0 then FreeNext pv nx else if base <? nx then FreeNext pv nx else FreeWalk nx, s)
  | FreeWalk nx => (FreeLook nx (next m nx), s)
  | FreeNext pv nx => (FreeTestNext pv, set_pool_ram (set_next m base nx) s)
  | FreeTestNext pv => (if next m base =? 0 then FreePrev pv else FreeBack pv, s)
  | FreeBack pv => (FreeAdjoinsNext pv, set_pool_ram (set_prev m (next m base) base) s)
  | FreeAdjoinsNext pv =>
      (if u64 (base + PageSize * n) =? next m base then FreeMergeCount pv else FreePrev pv, s)
  | FreeMergeCount pv =>
      (FreeMergeLink pv,
       set_pool_ram (set_numPages m base (u64 (numPages m base + numPages m (next m base)))) s)
  | FreeMergeLink pv => (FreePrev pv, set_pool_ram (set_next m base (next m (next m base))) s)
  | FreePrev pv => (FreeTestPrev pv, set_pool_ram (set_prev m base pv) s)
  | FreeTestPrev pv => (if prev m base =? 0 then FreeUnlock else FreeForward pv, s)
  | FreeForward pv => (FreeAdjoinsPrev pv, set_pool_ram (set_next m (prev m base) base) s)
  | FreeAdjoinsPrev pv =>
      (if u64 (prev m base + PageSize * numPages m (prev m base)) =? base then FreeMergePrev pv
       else FreeUnlock, s)
  | FreeMergePrev pv => (FreeUnlock, set_pool_ram (set_numPages m pv (u64 (numPages m pv + n))) s)
  | FreeUnlock => (if usingLock (p_Memory s) then FreeRelease else Freed, s)
  | FreeRelease => (Freed, release_pool s)
  | Freed => (Freed, s)
  end.

(** *** Processors, each in a call of one of the two *)

Inductive caller := Allocating (n : Z) (p : alloc_point) | Freeing (base n : Z) (p : free_point).
Definition call_visit (c : caller) (s : pool) : caller * pool :=
  match c with
  | Allocating n p => let '(p, s) := alloc_visit n p s in (Allocating n p, s)
  | Freeing base n p => let '(p, s) := free_visit base n p s in (Freeing base n p, s)
  end.

Record allocators := { callers : list caller; shared_pool : pool }.
Definition pool_turn (s : allocators) (i : nat) : allocators :=
  match callers s !! i with
  | Some c =>
      let '(c, sh) := call_visit c (shared_pool s) in
      {| callers := <[i := c]> (callers s); shared_pool := sh |}
  | None => s
  end.
Definition pool_run (l : list nat) (s : allocators) : allocators := foldl pool_turn s l.

(** Before the lock, and at it; between the two ends of the critical section. *)
Definition before (c : caller) : Prop :=
  match c with
  | Allocating _ AllocStart | Allocating _ AllocLocking => True
  | Freeing _ _ FreeStart | Freeing _ _ FreeLocking => True
  | _ => False
  end.
Definition in_section (c : caller) : bool :=
  match c with
  | Allocating _ p =>
      match p with
      | AllocStart | AllocLocking | AllocReturn _ | Allocated _ => false
      | _ => true
      end
  | Freeing _ _ p => match p with FreeStart | FreeLocking | Freed => false | _ => true end
  end.

(** ** One processor on its own *)

Definition alone (k : nat) (c : caller) (s : pool) : caller * pool :=
  Nat.iter k (λ '(c, s), call_visit c s) (c, s).
Definition leads (x x' : caller * pool) : Prop := ∃ k, alone k x.1 x.2 = x'.

Lemma leads_refl x : leads x x.
Proof. exists 0%nat. by destruct x. Qed.
Lemma leads_step c s x : leads (call_visit c s) x → leads (c, s) x.
Proof.
  intros [k H]. exists (S k). unfold alone in *. rewrite Nat.iter_succ_r. simpl.
  by destruct (call_visit c s).
Qed.
Lemma leads_trans x1 x2 x3 : leads x1 x2 → leads x2 x3 → leads x1 x3.
Proof.
  intros [j H1] [k H2]. exists (k + j)%nat. unfold alone in *. rewrite Nat.iter_add, H1. by destruct x2.
Qed.

(** One visit whose result is known, and the part of the state it is computed from. *)
Ltac visit := apply leads_step; cbn [call_visit alloc_visit free_visit p_ram pool_of set_pool_ram p_Memory].

Lemma lock_if_used_visits s s1 (from locking to : caller) :
  (∀ u, call_visit from u = (if usingLock (p_Memory u) then locking else to, u)) →
  (∀ u, call_visit locking u =
     (if m_held (p_Memory u) =? 0 then to else locking, set_pool_held 1 u)) →
  lock_if_used s = Done s1 → leads (from, pool_of s) (to, pool_of s1).
Proof.
  intros H1 H2. unfold lock_if_used, acquire. intros E. apply leads_step. rewrite H1.
  cbn [pool_of p_Memory]. destruct (usingLock (Memory s)) eqn:U; [|injection E as <-; apply leads_refl].
  destruct (pushCLI (env s)) as [e1|]; [|done]. simpl in E. apply leads_step. rewrite H2.
  cbn [p_Memory]. destruct (Z.eqb_spec (m_held (Memory s)) 0) as [Hh|]; [|done].
  destruct (popCLI e1) as [e2|]; [|done]. injection E as <-. unfold pool_of, set_pool_held. simpl.
  rewrite U, Hh.
  apply leads_refl.
Qed.

Lemma unlock_if_used_visits s s1 (from released to : caller) :
  (∀ u, call_visit from u = (if usingLock (p_Memory u) then released else to, u)) →
  (∀ u, call_visit released u = (to, release_pool u)) →
  unlock_if_used s = Done s1 → leads (from, pool_of s) (to, pool_of s1).
Proof.
  intros H1 H2. unfold unlock_if_used, release. intros E. apply leads_step. rewrite H1.
  cbn [pool_of p_Memory]. destruct (usingLock (Memory s)); [|injection E as <-; apply leads_refl].
  destruct (pushCLI (env s)) as [e1|]; [|done]. cbn [mbind outcome_bind] in E.
  destruct (popCLI e1) as [e2|]; [|done]. injection E as <-. apply leads_step. rewrite H2. apply leads_refl.
Qed.

(** [if c then x else y] in the place of a point. *)
Lemma call_if {A B} (f : A → B) (b : bool) (x y : A) : f (if b then x else y) = if b then f x else f y.
Proof. by destruct b. Qed.
Ltac visits_as := intros u; cbn; rewrite ?(call_if (Allocating _)), ?(call_if (Freeing _ _)); done.

Lemma take_pages_visits n chunk s m free :
  take_pages (ram s) (freeList (Memory s)) chunk n = (m, free) →
  leads (Allocating n (AllocLoad chunk), pool_of s)
    (Allocating n (AllocUnlock chunk), pool_of (set_freeList free (set_ram m s))).
Proof.
  unfold take_pages. intros E. do 3 visit. set (m1 := set_numPages _ _ _) in *.
  destruct (numPages m1 chunk =? 0).
  - do 3 visit. injection E as <- <-. unfold set_pool_ram. simpl.
    destruct (prev m1 chunk =? 0); simpl;
    match goal with |- context [next ?m chunk =? 0] => destruct (next m chunk =? 0) end; simpl;
    destruct (chunk =? freeList (Memory s)); simpl; unfold pool_of, set_head; simpl;
      destruct (Memory s); apply leads_refl.
  - injection E as <- <-. unfold pool_of, set_pool_ram. simpl. destruct (Memory s). apply leads_refl.
Qed.

Lemma allocate_loop_visits fuel chunk n s a s' :
  allocate_loop fuel chunk n s = Done (a, s') →
  leads (Allocating n (AllocLook chunk), pool_of s) (Allocating n (Allocated a), pool_of s').
Proof.
  revert chunk; induction fuel as [|fuel IH]; intros chunk E; cbn [allocate_loop] in E; visit;
    (destruct (chunk =? 0);
      [apply outcome_bind_Done in E as (s1 & E1 & [= <- <-]);
       apply (unlock_if_used_visits s s1 _ (Allocating n AllocFailRelease)); [visits_as..|done]|]);
    (destruct (n <=? numPages (ram s) chunk);
      [destruct (take_pages (ram s) (freeList (Memory s)) chunk n) as [m free] eqn:Et;
       apply outcome_bind_Done in E as (s1 & E1 & [= <- <-]);
       eapply leads_trans; [apply (take_pages_visits _ _ _ _ _ Et)|];
       eapply leads_trans;
         [apply (unlock_if_used_visits _ s1 _ (Allocating n (AllocRelease chunk))
            (Allocating n (AllocReturn chunk))); [visits_as..|done]|];
       visit; apply leads_refl|]).
  - done.
  - visit. by apply IH.
Qed.

Lemma find_place_visits fuel m base n pv nx pv' nx' u :
  p_ram u = m → find_place fuel m base pv nx = Done (pv', nx') →
  leads (Freeing base n (FreeLook pv nx), u) (Freeing base n (FreeNext pv' nx'), u).
Proof.
  intros Hm. revert pv nx; induction fuel as [|fuel IH]; intros pv nx E; cbn [find_place] in E; visit;
    (destruct (nx =? 0); [injection E as <- <-; apply leads_refl|]);
    (destruct (base <? nx); [injection E as <- <-; apply leads_refl|]); [done|].
  visit. rewrite Hm. by apply IH.
Qed.

Lemma link_next_visits base n pv nx u :
  leads (Freeing base n (FreeNext pv nx), u)
    (Freeing base n (FreePrev pv), set_pool_ram (link_next (p_ram u) base base n nx) u).
Proof.
  unfold link_next. do 2 visit. destruct (next _ base =? 0); [apply leads_refl|]. do 2 visit.
  destruct (u64 _ =? _); [|apply leads_refl]. do 2 visit. apply leads_refl.
Qed.

Lemma link_prev_visits base n pv u :
  leads (Freeing base n (FreePrev pv), u)
    (Freeing base n FreeUnlock, set_pool_ram (link_prev (p_ram u) base base n pv) u).
Proof.
  unfold link_prev. do 2 visit. destruct (prev _ base =? 0); [apply leads_refl|]. do 2 visit.
  destruct (u64 _ =? _); [|apply leads_refl]. visit. apply leads_refl.
Qed.

Lemma freePages_visits fuel base n s s' :
  freePages fuel base n s = Done s' →
  leads (Freeing base n FreeStart, pool_of s) (Freeing base n Freed, pool_of s').
Proof.
  intros (s1 & E1 & E)%outcome_bind_Done. cbv zeta in E.
  eapply leads_trans; [apply (lock_if_used_visits s s1 _ (Freeing base n FreeLocking)
    (Freeing base n FreeFill)); [visits_as..|done]|].
  do 3 visit. set (m := set_numPages _ base n) in *.
  assert (Hend : ∀ s2, unlock_if_used s2 = Done s' →
    leads (Freeing base n FreeUnlock, pool_of s2) (Freeing base n Freed, pool_of s')).
  { intros s2 E2. apply (unlock_if_used_visits s2 s' _ (Freeing base n FreeRelease)); [visits_as..|done]. }
  destruct (freeList (Memory s1) =? 0).
  - visit. exact (Hend _ E).
  - apply outcome_bind_Done in E as ([pv nx] & Ef & E). visit.
    eapply leads_trans; [exact (find_place_visits _ m _ n _ _ _ _ (set_pool_ram m (pool_of s1)) eq_refl Ef)|].
    eapply leads_trans; [apply link_next_visits|]. eapply leads_trans; [apply link_prev_visits|].
    exact (Hend _ E).
Qed.

(** ** All processors *)

Lemma pool_run_cons i l s : pool_run (i :: l) s = pool_run l (pool_turn s i).
Proof. done. Qed.
Lemma pool_run_app l1 l2 s : pool_run (l1 ++ l2) s = pool_run l2 (pool_run l1 s).
Proof. apply foldl_app. Qed.

(** Turns of one caller are its visits. *)
Lemma pool_run_replicate k i c sh cs :
  cs !! i = Some c →
  pool_run (replicate k i) {| callers := cs; shared_pool := sh |} =
    {| callers := <[i := (alone k c sh).1]> cs; shared_pool := (alone k c sh).2 |}.
Proof.
  revert c sh cs; induction k as [|k IH]; intros c sh cs Hi; cbn [replicate].
  - unfold alone. simpl. by rewrite list_insert_id.
  - rewrite pool_run_cons. unfold pool_turn. cbn [callers shared_pool]. rewrite Hi.
    unfold alone. rewrite Nat.iter_succ_r. fold (alone k). destruct (call_visit c sh) as [c1 sh1].
    rewrite (IH c1 sh1), list_insert_insert_eq; [done|].
    apply list_lookup_insert_eq. by eapply lookup_lt_Some.
Qed.

(** While the lock is in use one caller at most is past it, and none has returned. *)
Definition exclusive (s : allocators) : Prop :=
  usingLock (p_Memory (shared_pool s)) = true →
  (∀ i c, callers s !! i = Some c → in_section c = true → m_held (p_Memory (shared_pool s)) ≠ 0) ∧
  (∀ i j c c', callers s !! i = Some c → in_section c = true →
     callers s !! j = Some c' → in_section c' = true → i = j) ∧
  (∀ i c, callers s !! i = Some c → in_section c = false → before c).

(** What a visit does to the lock, to the flag, and to where the caller is. *)
Lemma call_visit_lock c s c' s' :
  call_visit c s = (c', s') → usingLock (p_Memory s') = true →
  usingLock (p_Memory s) = true ∧
  match in_section c with
  | true => in_section c' = true ∧ m_held (p_Memory s') = m_held (p_Memory s)
  | false =>
      before c →
       (in_section c' = false ∧ before c' ∧ (m_held (p_Memory s) ≠ 0 → m_held (p_Memory s') ≠ 0)) ∨
       (in_section c' = true ∧ m_held (p_Memory s) = 0 ∧ m_held (p_Memory s') ≠ 0)
  end.
Proof.
  intros E U. destruct c as [n p|base n p]; destruct p; simpl in *;
    repeat case_match; simplify_eq/=; try (split; [done|]); try done;
    try congruence; try (by intros []); intros _; try (left; by split); try (by left);
    rewrite ?Z.eqb_eq, ?Z.eqb_neq in *; try (by right); by left.
Qed.

Lemma exclusive_start cs sh : Forall before cs → exclusive {| callers := cs; shared_pool := sh |}.
Proof.
  intros Hb _. cbn [callers]. assert (H : ∀ i c, cs !! i = Some c → before c ∧ in_section c = false).
  { intros i c Hi. pose proof (Forall_lookup_1 _ _ _ _ Hb Hi) as Hc. split; [done|].
    by destruct c as [? []|? ? []]. }
  split; [|split].
  - intros i c Hi Hc. destruct (H i c Hi). congruence.
  - intros i j c c' Hi Hc. destruct (H i c Hi). congruence.
  - intros i c Hi _. by apply (H i).
Qed.

Lemma exclusive_turn s i : exclusive s → exclusive (pool_turn s i).
Proof.
  intros He. unfold pool_turn. destruct (callers s !! i) as [c|] eqn:Ei; [|done].
  destruct (call_visit c (shared_pool s)) as [c' sh'] eqn:Ev. intros U. cbn [shared_pool callers] in *.
  destruct (call_visit_lock _ _ _ _ Ev U) as [U0 V]. destruct (He U0) as (Hheld & Huniq & Hout).
  assert (Hl : (i < length (callers s))%nat) by (by eapply lookup_lt_Some).
  assert (Hat : ∀ j d, <[i:=c']> (callers s) !! j = Some d →
    (j = i ∧ d = c') ∨ (j ≠ i ∧ callers s !! j = Some d)).
  { intros j d Hj. destruct (decide (j = i)) as [->|Hne].
    - rewrite list_lookup_insert_eq in Hj by done. left. by simplify_eq.
    - rewrite list_lookup_insert_ne in Hj by done. by right. }
  destruct (in_section c) eqn:Ec; [destruct V as [Hc' Hh]|destruct (V (Hout i c Ei Ec)) as [(Hc' & Hb & Hh)|(Hc' & H0 & H1)]].
  - (* it goes on in the section *)
    assert (Hone : ∀ j d, <[i:=c']> (callers s) !! j = Some d → in_section d = true → j = i).
    { intros j d [(-> & _)|(_ & Hj)]%Hat Hd; [done|]. by eapply Huniq. }
    split; [|split].
    + intros j d Hj Hd. rewrite Hh. by eapply Hheld.
    + intros j k d d' Hj Hd Hk Hd'. by rewrite (Hone j d), (Hone k d').
    + intros j d [(_ & ->)|(_ & Hj)]%Hat Hd; [congruence|]. by eapply Hout.
  - (* it stays before the section *)
    split; [|split].
    + intros j d [(_ & ->)|(_ & Hj)]%Hat Hd; [congruence|]. apply Hh. by eapply Hheld.
    + intros j k d d' [(_ & ->)|(_ & Hj)]%Hat Hd; [congruence|].
      intros [(_ & ->)|(_ & Hk)]%Hat Hd'; [congruence|]. by eapply Huniq.
    + intros j d [(_ & ->)|(_ & Hj)]%Hat Hd; [done|]. by eapply Hout.
  - (* it enters *)
    assert (Hnone : ∀ j d, <[i:=c']> (callers s) !! j = Some d → in_section d = true → j = i).
    { intros j d [(-> & _)|(_ & Hj)]%Hat Hd; [done|]. by destruct (Hheld _ _ Hj Hd). }
    split; [done|]. split.
    + intros j k d d' Hj Hd Hk Hd'. by rewrite (Hnone j d), (Hnone k d').
    + intros j d [(_ & ->)|(_ & Hj)]%Hat Hd; [congruence|]. by eapply Hout.
Qed.

Lemma exclusive_run t s : exclusive s → exclusive (pool_run t s).
Proof. revert s; induction t as [|i t IH]; intros s He; [done|]. by apply IH, exclusive_turn. Qed.

(** ** Three allocations *)

(** A chunk with more pages than a caller wants, the lock not in use: what the visits of that
    caller up to its store, and from its store to the end, come to. *)
Lemma alone_to_store n s c :
  usingLock (p_Memory s) = false → freeList (p_Memory s) = c → c ≠ 0 → n ≤ numPages (p_ram s) c →
  alone 4 (Allocating n AllocStart) s = (Allocating n (AllocStore c (numPages (p_ram s) c)), s).
Proof.
  intros Hu <- Hc Hn. unfold alone. simpl. rewrite Hu. simpl.
  destruct (Z.eqb_spec (freeList (p_Memory s)) 0); [done|].
  by destruct (Z.leb_spec n (numPages (p_ram s) (freeList (p_Memory s)))); [|lia].
Qed.

Lemma alone_from_store n s c v :
  usingLock (p_Memory s) = false → 0 < v - n < 2 ^ 64 →
  alone 4 (Allocating n (AllocStore c v)) s =
    (Allocating n (Allocated (u64 (c + u64 (PageSize * (v - n))))),
     set_pool_ram (set_numPages (p_ram s) c (v - n)) s).
Proof.
  intros Hu Hv. unfold alone. simpl. rewrite (uw_small 64 (v - n)) by lia.
  assert (E : numPages (set_numPages (p_ram s) c (v - n)) c = v - n).
  { destruct (header_words (p_ram s) c (v - n)) as (_&_&_&_&_&_&_&_& ->). apply uw_small. lia. }
  rewrite E. destruct (Z.eqb_spec (v - n) 0); [lia|]. simpl. rewrite Hu. simpl. by rewrite E.
Qed.

Lemma alone_locked n s c :
  usingLock (p_Memory s) = true → m_held (p_Memory s) = 0 → freeList (p_Memory s) = c →
  0 < c < 2 ^ 64 → 0 < numPages (p_ram s) c - n < 2 ^ 64 → 0 < n →
  alone 10 (Allocating n AllocStart) s =
    (Allocating n (Allocated (u64 (c + u64 (PageSize * (numPages (p_ram s) c - n))))),
     {| p_ram := set_numPages (p_ram s) c (numPages (p_ram s) c - n);
        p_Memory := {| m_held := 0; usingLock := false; freeList := c |} |}).
Proof.
  intros Hu Hh <- Hc Hv Hn. set (c := freeList (p_Memory s)) in *. unfold alone. simpl.
  rewrite Hu. simpl. rewrite Hh. simpl. fold c. destruct (Z.eqb_spec c 0); [lia|].
  destruct (Z.leb_spec n (numPages (p_ram s) c)); [|lia]. simpl.
  set (v := numPages (p_ram s) c) in *. rewrite (uw_small 64 (v - n)) by lia.
  assert (E : numPages (set_numPages (p_ram s) c (v - n)) c = v - n).
  { destruct (header_words (p_ram s) c (v - n)) as (_&_&_&_&_&_&_&_& ->). apply uw_small. lia. }
  rewrite E. destruct (Z.eqb_spec (v - n) 0); [lia|]. simpl. rewrite Hu. simpl. rewrite E. unfold release_pool.
  rewrite Memory_release_image by (cbn [set_pool_ram set_pool_held p_Memory freeList]; fold c; lia). done.
Qed.

(** The first caller runs to its end; the second stops before it writes the page count back; the
    third runs to its end; the second goes on. *)
Definition overlapping_turns : list nat :=
  replicate 10 0%nat ++ replicate 4 1%nat ++ replicate 8 2%nat ++ replicate 4 1%nat.

Lemma alone_add j k c s : alone (j + k) c s = alone k (alone j c s).1 (alone j c s).2.
Proof. unfold alone. rewrite Nat.add_comm, Nat.iter_add. by destruct (Nat.iter j _ _). Qed.

(** Three processors, each about to call [allocatePages]. *)
Definition three_calls (n0 n1 n2 : Z) (s : machine) : allocators :=
  {| callers := [Allocating n0 AllocStart; Allocating n1 AllocStart; Allocating n2 AllocStart];
     shared_pool := pool_of s |}.

Lemma overlapping_run n0 n1 n2 s c k l :
  free_list s ((c, k) :: l) → usingLock (Memory s) = true → m_held (Memory s) = 0 →
  0 < n0 → 0 < n1 → 0 < n2 → n0 + n1 < k → n0 + n2 < k →
  let end_ := c + PageSize * (k - n0) in
  callers (pool_run overlapping_turns (three_calls n0 n1 n2 s)) =
    [Allocating n0 (Allocated end_); Allocating n1 (Allocated (end_ - PageSize * n1));
     Allocating n2 (Allocated (end_ - PageSize * n2))].
Proof.
  intros [(H1 & Hk & He & _) (last & (Hc & _ & HN & _))] Hu Hh Hn0 Hn1 Hn2 Hk1 Hk2 end_.
  change PageSize with 4096 in *.
  unfold overlapping_turns, three_calls. rewrite !pool_run_app.
  rewrite (pool_run_replicate 10 0 (Allocating n0 AllocStart)) by done.
  rewrite (alone_locked n0 (pool_of s) c)
    by (try done; cbn [pool_of p_ram p_Memory]; rewrite ?HN; lia).
  cbn [fst snd pool_of p_ram p_Memory]. rewrite HN. cbn [insert list_insert].
  set (s1 := {| p_ram := _; p_Memory := _ |}).
  assert (E1 : numPages (p_ram s1) c = k - n0).
  { destruct (header_words (ram s) c (k - n0)) as (_&_&_&_&_&_&_&_& E).
    unfold s1. cbn [p_ram]. rewrite E. apply uw_small. lia. }
  rewrite (pool_run_replicate 4 1 (Allocating n1 AllocStart)) by done.
  rewrite (alone_to_store n1 s1 c) by (done || lia). rewrite E1. cbn [fst snd insert list_insert].
  rewrite (pool_run_replicate 8 2 (Allocating n2 AllocStart)) by done.
  rewrite (alone_add 4 4), (alone_to_store n2 s1 c) by (done || lia).
  rewrite E1. cbn [fst snd]. rewrite (alone_from_store n2 s1 c) by (done || lia).
  cbn [fst snd insert list_insert].
  rewrite (pool_run_replicate 4 1 (Allocating n1 (AllocStore c (k - n0)))) by done.
  rewrite alone_from_store by (done || lia). cbn [fst snd insert list_insert callers].
  change PageSize with 4096. rewrite !(uw_small 64) by (rewrite ?(uw_small 64); lia).
  unfold end_. repeat f_equal; lia.
Qed.

(** ** Theorems *)

(** C7. Run by one processor without interruption, the visits are [allocatePages] and [freePages]: the
    same address or null, the same memory, list, lock and flag. *)
Theorem allocator_visits fuel n s :
  (∀ a s', allocatePages fuel n s = Done (a, s') →
     ∃ k, alone k (Allocating n AllocStart) (pool_of s) = (Allocating n (Allocated a), pool_of s')) ∧
  (∀ base s', freePages fuel base n s = Done s' →
     ∃ k, alone k (Freeing base n FreeStart) (pool_of s) = (Freeing base n Freed, pool_of s')).
Proof.
  split.
  - intros a s' (s1 & E1 & E)%outcome_bind_Done.
    apply (leads_trans (Allocating n AllocStart, pool_of s) (Allocating n AllocHead, pool_of s1)).
    + apply (lock_if_used_visits s s1 _ (Allocating n AllocLocking)); [visits_as..|done].
    + visit. by eapply allocate_loop_visits.
  - intros base s'. apply freePages_visits.
Qed.

(** C6. The lock protects the first call only.  While the lock is in use, at any time one processor at
    most is between [acquire] and [release], in whatever order the processors take their turns and
    whichever of the two functions they call, and no other is past its call.  But letting go of the
    lock switches it off: with three allocations that find it in use and free, and a chunk with
    enough pages for all of them, there is an order of turns after which the blocks given to the
    second and to the third caller end at the same address. *)
Theorem lock_protects_first_call_only n0 n1 n2 s c k l :
  free_list s ((c, k) :: l) → usingLock (Memory s) = true → m_held (Memory s) = 0 →
  0 < n0 → 0 < n1 → 0 < n2 → n0 + n1 < k → n0 + n2 < k →
  (∀ cs t i j d d', let s' := pool_run t {| callers := cs; shared_pool := pool_of s |} in
     Forall before cs → usingLock (p_Memory (shared_pool s')) = true →
     callers s' !! i = Some d → in_section d = true → callers s' !! j = Some d' →
     if in_section d' then i = j else before d') ∧
  (∃ t a1 a2, let s' := pool_run t (three_calls n0 n1 n2 s) in
     callers s' !! 1%nat = Some (Allocating n1 (Allocated a1)) ∧
     callers s' !! 2%nat = Some (Allocating n2 (Allocated a2)) ∧
     0 < a1 ∧ 0 < a2 ∧ a1 + PageSize * n1 = a2 + PageSize * n2).
Proof.
  intros Hl Hu Hh H0 H1 H2 Hk1 Hk2. split.
  - intros cs t i j d d' s' Hb U Hi Hd Hj.
    destruct (exclusive_run t _ (exclusive_start cs (pool_of s) Hb) U) as (_ & X1 & X2).
    destruct (in_section d') eqn:E; [by eapply X1|by eapply X2].
  - exists overlapping_turns, (c + PageSize * (k - n0) - PageSize * n1),
      (c + PageSize * (k - n0) - PageSize * n2). intros s'.
    pose proof (overlapping_run n0 n1 n2 s c k l Hl Hu Hh H0 H1 H2 Hk1 Hk2) as E. cbv zeta in E. fold s' in E.
    rewrite !E. destruct Hl as [(Hc & _) _]. change PageSize with 4096 in *.
    repeat (split; [done || lia|]). lia.
Qed.

(** ** Concrete runs *)

(** A free list of one chunk of seven pages, the lock in use. *)
Definition example_one : machine :=
  thereIsNowMoreThanOneProcessor
    (set_env {| CPUs := [zero_cpu]; this_hw := zero_hw |} (done_or blank (freePages 4 page0 7 blank))).

Lemma example_one_free_list : free_list example_one [(page0, 7)].
Proof.
  split; [|eexists]; vm_compute; [by repeat split|]. repeat (split; [reflexivity|]). split; reflexivity.
Qed.

Lemma allocator_visits_witness :
  ∃ k, alone k (Allocating 3 AllocStart) (pool_of example_smp) =
    (Allocating 3 (Allocated (page0 + 0x10000)), pool_of (done_or (0, blank) (allocatePages 2 3 example_smp)).2).
Proof.
  apply (proj1 (allocator_visits 2 3 example_smp)). apply done_fst. vm_compute. reflexivity.
Defined.

Lemma lock_protects_first_call_only_witness :
  ∃ t a1 a2, let s' := pool_run t (three_calls 1 2 3 example_one) in
  callers s' !! 1%nat = Some (Allocating 2 (Allocated a1)) ∧
    callers s' !! 2%nat = Some (Allocating 3 (Allocated a2)) ∧
    0 < a1 ∧ 0 < a2 ∧ a1 + PageSize * 2 = a2 + PageSize * 3.
Proof.
  apply (lock_protects_first_call_only 1 2 3 example_one page0 7 []).
  - apply example_one_free_list.
  - reflexivity.
  - reflexivity.
  - lia.
  - lia.
  - lia.
  - lia.
  - lia.
Defined.
