(* ===== verification/Paging.v ===== *)
(** [Paging.h]: page-table entries, and the processor's page walk as the specification of what
    the kernel's page tables mean.

    An entry is its 64-bit word; a field of [PageTableEntry::hl] is a bit offset and a width. *)

From S2P Require Import Prelude Mem.

Record bitfield := { bf_off : Z; bf_width : Z }.
Definition get (f : bitfield) (e : Z) : Z := bf_get (bf_off f) (bf_width f) e.
Definition set (f : bitfield) (v e : Z) : Z := bf_set (bf_off f) (bf_width f) v e.

Definition isPresent : bitfield := {| bf_off := 0; bf_width := 1 |}.
Definition isWritable : bitfield := {| bf_off := 1; bf_width := 1 |}.
Definition isUserAccessible : bitfield := {| bf_off := 2; bf_width := 1 |}.
Definition writeThrough : bitfield := {| bf_off := 3; bf_width := 1 |}.
Definition cacheDisabled : bitfield := {| bf_off := 4; bf_width := 1 |}.
Definition hasBeenAccessed : bitfield := {| bf_off := 5; bf_width := 1 |}.
Definition _available1 : bitfield := {| bf_off := 6; bf_width := 1 |}.
Definition pageSize : bitfield := {| bf_off := 7; bf_width := 1 |}.
Definition isGlobal : bitfield := {| bf_off := 8; bf_width := 1 |}.
Definition _available2 : bitfield := {| bf_off := 9; bf_width := 3 |}.
Definition physicalAddress : bitfield := {| bf_off := 12; bf_width := 28 |}.
Definition _reserved : bitfield := {| bf_off := 40; bf_width := 12 |}.
Definition _available3 : bitfield := {| bf_off := 52; bf_width := 11 |}.
Definition executionDisabled : bitfield := {| bf_off := 63; bf_width := 1 |}.

Definition PTE_fields : list bitfield :=
  [isPresent; isWritable; isUserAccessible; writeThrough; cacheDisabled; hasBeenAccessed;
   _available1; pageSize; isGlobal; _available2; physicalAddress; _reserved; _available3;
   executionDisabled].

(** The value of the C++ expression [p.hl.physicalAddress << PageShift].  A 28-bit bit-field is
    promoted to [int], so the shift is a 32-bit signed one and wraps. *)
Definition physicalAddress_shl (e : Z) : Z := s32 (Z.shiftl (get physicalAddress e) 12).

(** ** The processor's walk (specification)

    Four levels of 512 entries; the frame number of an entry is bits 12 to 51.  Table [t] of the
    walk is at kernel address [off + physical address].  Entries with the page-size bit are not
    followed: the kernel makes none. *)

Definition present (e : Z) : bool := Z.testbit e 0.
Definition hw_large (e : Z) : bool := Z.testbit e 7.
Definition hw_frame (e : Z) : Z := bf_get 12 40 e.

Definition entry (m : mem) (t i : Z) : Z := load64 m (t + 8 * i).

Definition walk_step (off : Z) (m : mem) (t i : Z) : option Z :=
  let e := entry m t i in
  if present e && negb (hw_large e) then Some (off + 4096 * hw_frame e) else None.

(** The table a path of indices leads to from table [t]. *)
Fixpoint walk (off : Z) (m : mem) (t : Z) (path : list Z) : option Z :=
  match path with
  | [] => Some t
  | i :: path => t ← walk_step off m t i; walk off m t path
  end.

Definition va_index (level va : Z) : Z := bf_get (12 + 9 * (level - 1)) 9 va.
Definition va_path (va : Z) : list Z := [va_index 4 va; va_index 3 va; va_index 2 va].

Definition translate (off : Z) (m : mem) (root va : Z) : option Z :=
  t ← walk off m root (va_path va);
  let e := entry m t (va_index 1 va) in
  if present e then Some (4096 * hw_frame e + va mod 4096) else None.

(** ** Fields *)

Fixpoint fields_cover (at_ : Z) (fs : list bitfield) : bool :=
  match fs with
  | [] => at_ =? 64
  | f :: fs => (bf_off f =? at_) && (0 <? bf_width f) && fields_cover (at_ + bf_width f) fs
  end.

(** The fields tile the 64-bit word. *)
Lemma PTE_fields_cover : fields_cover 0 PTE_fields = true.
Proof. done. Qed.

Definition field_ok (f : bitfield) : Prop := 0 ≤ bf_off f ∧ 0 < bf_width f.
Definition fields_apart (f g : bitfield) : Prop :=
  bf_off f + bf_width f ≤ bf_off g ∨ bf_off g + bf_width g ≤ bf_off f.

Lemma get_set f v e : field_ok f → get f (set f v e) = uw (bf_width f) v.
Proof. intros [Ha Hb]. apply bf_get_set; lia. Qed.

Lemma get_set_other f g v e :
  field_ok f → field_ok g → fields_apart f g → get g (set f v e) = get g e.
Proof. intros [Ha Hb] [Hc Hd] Hap. apply bf_get_set_other; unfold fields_apart in Hap; lia. Qed.

Lemma set_range f v e :
  field_ok f → bf_off f + bf_width f ≤ 64 → 0 ≤ e < 2 ^ 64 → 0 ≤ set f v e < 2 ^ 64.
Proof. intros [Ha Hb] Hn. apply bf_set_range; lia. Qed.

Lemma testbit_set f v e i :
  field_ok f → 0 ≤ i →
  Z.testbit (set f v e) i =
    if (bf_off f <=? i) && (i <? bf_off f + bf_width f) then Z.testbit v (i - bf_off f)
    else Z.testbit e i.
Proof. intros [Ha Hb] Hi. apply testbit_bf_set; lia. Qed.

(** [pte_simpl]: fields of an entry after assignments to fields. *)
Create Rewrite HintDb pte.
#[export] Hint Rewrite get_set using (split; simpl; lia) : pte.
#[export] Hint Rewrite get_set_other
  using first [ split; simpl; lia | unfold fields_apart; simpl; lia ] : pte.
Ltac pte_simpl := autorewrite with pte.

Lemma get_bit k e : 0 ≤ k → get {| bf_off := k; bf_width := 1 |} e = Z.b2z (Z.testbit e k).
Proof.
  intros Hk. unfold get, bf_get, uw. simpl. change (2 ^ 1) with 2.
  by rewrite <- Z.bit0_mod, Z.shiftr_spec.
Qed.

Lemma present_get e : present e = negb (get isPresent e =? 0).
Proof. unfold present. rewrite (get_bit 0) by done. by destruct (Z.testbit e 0). Qed.

Lemma hw_large_get e : hw_large e = negb (get pageSize e =? 0).
Proof. unfold hw_large. rewrite (get_bit 7) by done. by destruct (Z.testbit e 7). Qed.

(** An entry the walk can follow or end in: no reserved bits, not a large page. *)
Definition entry_ok (e : Z) : Prop := get _reserved e = 0 ∧ hw_large e = false.

Lemma hw_frame_split e : hw_frame e = get physicalAddress e + 2 ^ 28 * get _reserved e.
Proof.
  unfold hw_frame, get, bf_get, uw. simpl. rewrite !Z.shiftr_div_pow2 by lia.
  change 40 with (28 + 12) at 2. replace (2 ^ 40) with (2 ^ 28 * 2 ^ 12) by lia.
  rewrite Z.rem_mul_r by lia. f_equal. f_equal. f_equal.
  rewrite Z.div_div by lia. f_equal.
Qed.

Lemma hw_frame_ok e : entry_ok e → hw_frame e = get physicalAddress e.
Proof. intros [H _]. rewrite hw_frame_split, H. lia. Qed.

Lemma entry_ok_0 : entry_ok 0.
Proof. done. Qed.

(** The shift agrees with the frame's byte address below 2 GiB, and only there. *)
Theorem physicalAddress_shl_exact e :
  physicalAddress_shl e = 4096 * get physicalAddress e ↔ get physicalAddress e < 2 ^ 19.
Proof.
  unfold physicalAddress_shl. rewrite Z.shiftl_mul_pow2 by lia.
  assert (0 ≤ get physicalAddress e < 2 ^ 28) as H by (apply (bf_get_range _ 28); lia).
  change (2 ^ 28) with 268435456 in H. change (2 ^ 19) with 524288. change (2 ^ 12) with 4096.
  wrap_lia.
Qed.

(** ** Walks *)

Lemma walk_app off m t p q : walk off m t (p ++ q) = (t ← walk off m t p; walk off m t q).
Proof.
  revert t; induction p as [|i p IH]; intros t; [done|]. cbn [walk app].
  destruct (walk_step off m t i); [|done]. simpl. apply IH.
Qed.

Lemma walk_snoc off m t p i : walk off m t (p ++ [i]) = (t ← walk off m t p; walk_step off m t i).
Proof. rewrite walk_app. destruct (walk off m t p); [|done]. simpl. by destruct (walk_step _ _ _ _). Qed.

Lemma va_index_range level va : 0 ≤ va_index level va < 512.
Proof. apply (bf_get_range _ 9); lia. Qed.

Lemma entry_range m t i : 0 ≤ entry m t i < 2 ^ 64.
Proof. apply load64_range. Qed.

(** Two addresses with the same four indices lie in the same page of the 48-bit space. *)
Definition same_page (va va' : Z) : Prop :=
  Z.shiftr (uw 48 va) 12 = Z.shiftr (uw 48 va') 12.

#[export] Instance same_page_dec va va' : Decision (same_page va va') := Z.eq_dec _ _.

Lemma page_number_indices va :
  Z.shiftr (uw 48 va) 12 =
    va_index 1 va + 2 ^ 9 * va_index 2 va + 2 ^ 18 * va_index 3 va + 2 ^ 27 * va_index 4 va.
Proof.
  unfold va_index, bf_get, uw. simpl Z.sub. rewrite !Z.shiftr_div_pow2 by lia.
  change (12 + 9 * 0) with 12. change (12 + 9 * 1) with 21. change (12 + 9 * 2) with 30.
  change (12 + 9 * 3) with 39. change (2 ^ 48) with 281474976710656. change (2 ^ 12) with 4096.
  change (2 ^ 21) with 2097152. change (2 ^ 30) with 1073741824. change (2 ^ 39) with 549755813888.
  change (2 ^ 9) with 512. change (2 ^ 18) with 262144. change (2 ^ 27) with 134217728.
  Z.div_mod_to_equations. lia.
Qed.

Lemma same_page_indices va va' :
  same_page va va' ↔ va_path va = va_path va' ∧ va_index 1 va = va_index 1 va'.
Proof.
  unfold same_page, va_path. rewrite !page_number_indices.
  pose proof (va_index_range 1 va). pose proof (va_index_range 1 va').
  pose proof (va_index_range 2 va). pose proof (va_index_range 2 va').
  pose proof (va_index_range 3 va). pose proof (va_index_range 3 va').
  pose proof (va_index_range 4 va). pose proof (va_index_range 4 va').
  split.
  - intros Heq. change (2 ^ 9) with 512 in *. change (2 ^ 18) with 262144 in *.
    change (2 ^ 27) with 134217728 in *.
    assert (va_index 1 va = va_index 1 va') by lia. assert (va_index 2 va = va_index 2 va') by lia.
    assert (va_index 3 va = va_index 3 va') by lia. assert (va_index 4 va = va_index 4 va') by lia.
    split; congruence.
  - intros ([= -> -> ->] & ->). done.
Qed.

(** Addresses whose page numbers are less than 2^36 apart. *)
Lemma same_page_near x y :
  Z.abs (x / 4096 - y / 4096) < 2 ^ 36 → same_page x y ↔ x / 4096 = y / 4096.
Proof.
  intros H. unfold same_page, uw. rewrite !Z.shiftr_div_pow2 by lia.
  change (2 ^ 12) with 4096. change (2 ^ 48) with 281474976710656. change (2 ^ 36) with 68719476736 in *.
  Z.div_mod_to_equations. lia.
Qed.

Lemma frame_of_page p : 0 ≤ p < 2 ^ 40 → p mod 4096 = 0 → 4096 * uw 28 (Z.shiftr p 12) = p.
Proof.
  intros Hp Ha. rewrite Z.shiftr_div_pow2 by lia. change (2 ^ 12) with 4096.
  rewrite uw_small; [Z.div_mod_to_equations; lia|].
  change (2 ^ 40) with (2 ^ 28 * 4096) in Hp. Z.div_mod_to_equations. lia.
Qed.
