(* ===== verification/PageTables.v ===== *)
(** Well-formed page tables: the tables reachable from a root are distinct aligned pages of the
    direct map below 2 GiB of physical memory, and their entries are ones the walk understands.
    Two changes keep this: hanging a fresh zeroed table into an empty slot, which changes no
    translation, and writing one leaf entry, which changes the translation of one page. *)

From S2P Require Import Prelude Mem Paging.

Definition idx_ok (path : list Z) : Prop := Forall (λ i, 0 ≤ i < 512) path.

Definition is_table (off : Z) (m : mem) (root t : Z) : Prop :=
  ∃ path, (length path ≤ 3)%nat ∧ idx_ok path ∧ walk off m root path = Some t.

Definition table_bytes (off : Z) (m : mem) (root x : Z) : Prop :=
  ∃ t, is_table off m root t ∧ t ≤ x < t + 4096.

Definition table_page (off t : Z) : Prop :=
  t mod 4096 = 0 ∧ off ≤ t < off + 2 ^ 31 ∧ 0 < t ∧ t + 4096 ≤ 2 ^ 64.

Record pt_wf (off : Z) (m : mem) (root : Z) : Prop := {
  ptw_page t : is_table off m root t → table_page off t;
  ptw_inj p q t : (length p ≤ 3)%nat → (length q ≤ 3)%nat → idx_ok p → idx_ok q →
    walk off m root p = Some t → walk off m root q = Some t → p = q;
  ptw_entry t i : is_table off m root t → 0 ≤ i < 512 → entry_ok (entry m t i);
}.

Lemma va_path_ok va : (length (va_path va) ≤ 3)%nat ∧ idx_ok (va_path va).
Proof. split; [simpl; lia|]. repeat constructor; apply va_index_range. Qed.

Lemma idx_ok_snoc p i : idx_ok (p ++ [i]) ↔ idx_ok p ∧ 0 ≤ i < 512.
Proof. unfold idx_ok. rewrite Forall_app. by rewrite Forall_singleton. Qed.

Lemma walk_step_ext off m m' t i :
  entry m' t i = entry m t i → walk_step off m' t i = walk_step off m t i.
Proof. unfold walk_step. by intros ->. Qed.

Lemma is_table_walk off m root path t :
  (length path ≤ 3)%nat → idx_ok path → walk off m root path = Some t → is_table off m root t.
Proof. intros. by exists path. Qed.

Lemma entry_agree off m m' root t i :
  agree (table_bytes off m root) m' m → is_table off m root t → 0 ≤ i < 512 →
  entry m' t i = entry m t i.
Proof.
  intros HA Ht Hi. eapply load_agree; [exact HA|]. unfold range. intros x Hx. exists t.
  split; [done|lia].
Qed.

Lemma walk_same off m m' root path :
  (∀ t j, is_table off m root t → 0 ≤ j < 512 → entry m' t j = entry m t j) →
  (length path ≤ 4)%nat → idx_ok path → walk off m' root path = walk off m root path.
Proof.
  intros He. induction path as [|i path IH] using rev_ind; intros Hl Hok; [done|].
  rewrite length_app in Hl. simpl in Hl. apply idx_ok_snoc in Hok as [Hok Hi].
  rewrite !walk_snoc, IH by (done || lia).
  destruct (walk off m root path) as [t|] eqn:E; [|done]. simpl.
  apply walk_step_ext, He; [|done]. apply (is_table_walk off m root path); [lia|done|done].
Qed.

(** Nothing changes when the tables do not. *)
Lemma pt_wf_agree off m m' root :
  pt_wf off m root → agree (table_bytes off m root) m' m →
  pt_wf off m' root ∧ (∀ t, is_table off m' root t ↔ is_table off m root t) ∧
  (∀ va, translate off m' root va = translate off m root va).
Proof.
  intros Hwf HA.
  assert (He : ∀ t j, is_table off m root t → 0 ≤ j < 512 → entry m' t j = entry m t j)
    by (intros; by eapply entry_agree).
  assert (Hw : ∀ path, (length path ≤ 3)%nat → idx_ok path → walk off m' root path = walk off m root path).
  { intros. apply walk_same; [done|lia|done]. }
  assert (Ht : ∀ t, is_table off m' root t ↔ is_table off m root t).
  { intros t. split; intros (p & H1 & H2 & H3); exists p; (split; [done|split; [done|]]);
      [by rewrite <- Hw|by rewrite Hw]. }
  split; [|split; [done|]].
  - destruct Hwf as [W1 W2 W3]. split.
    + intros t H%Ht. by apply W1.
    + intros p q t Hp Hq Op Oq. rewrite !Hw by done. by apply W2.
    + intros t i H%Ht Hi. rewrite He by done. by apply W3.
  - intros va. unfold translate. destruct (va_path_ok va) as [V1 V2]. rewrite Hw by done.
    destruct (walk off m root (va_path va)) as [t|] eqn:E; [|done]. simpl.
    rewrite He; [done| |apply va_index_range]. by apply (is_table_walk off m root (va_path va)).
Qed.

(** ** Hanging a fresh table into an empty slot *)

Section link.
Context (off : Z) (m m' : mem) (root : Z) (p : list Z) (b i f : Z).
Context (Hwf : pt_wf off m root)
  (Hp : (length p ≤ 2)%nat) (Hpok : idx_ok p) (Hi : 0 ≤ i < 512)
  (Hb : walk off m root p = Some b)
  (Hempty : present (entry m b i) = false)
  (Hfresh : ¬ is_table off m root f)
  (Hlink : walk_step off m' b i = Some f)
  (Hzero : ∀ j, 0 ≤ j < 512 → entry m' f j = 0)
  (Hrest : ∀ t j, is_table off m root t → 0 ≤ j < 512 → (t, j) ≠ (b, i) →
             entry m' t j = entry m t j).

Lemma walk_step_zero j : 0 ≤ j < 512 → walk_step off m' f j = None.
Proof using Hzero. intros Hj. unfold walk_step. by rewrite Hzero. Qed.

Lemma link_walk q :
  (length q ≤ 3)%nat → idx_ok q →
  (∀ r, q = p ++ i :: r → walk off m' root q = match r with [] => Some f | _ => None end) ∧
  ((∀ r, q ≠ p ++ i :: r) → walk off m' root q = walk off m root q).
Proof using All.
  induction q as [|j q IH] using rev_ind; intros Hl Hok.
  { split; [intros r Hr; by destruct p|done]. }
  rewrite length_app in Hl. simpl in Hl. apply idx_ok_snoc in Hok as [Hok Hj].
  destruct (IH ltac:(lia) Hok) as [IH1 IH2].
  rewrite !walk_snoc. split.
  - intros r Hr. destruct (list_snoc_inv r) as [->|(r' & j' & ->)].
    + apply app_inj_tail in Hr as [-> ->]. rewrite IH2, Hb; [done|].
      intros r Hr. apply (f_equal length) in Hr. rewrite length_app in Hr. simpl in Hr. lia.
    + assert (q = p ++ i :: r' ∧ j = j') as [Hq ->].
      { apply app_inj_tail. by rewrite Hr, <- app_assoc. }
      rewrite (IH1 r' Hq). destruct r' as [|? r']; simpl; [by apply walk_step_zero|].
      by destruct (r' ++ [j']).
  - intros Hne.
    rewrite IH2 by (intros r ->; apply (Hne (r ++ [j])); by rewrite <- app_assoc).
    destruct (walk off m root q) as [t|] eqn:E; [|done]. simpl.
    apply walk_step_ext, Hrest; [apply (is_table_walk off m root q); [lia|done|done]|done|].
    intros [= -> ->]. apply (Hne []).
    rewrite (ptw_inj _ _ _ Hwf q p b); [done|lia|lia|done|done|done|done].
Qed.

Lemma link_old_none r : walk off m root (p ++ i :: r) = None.
Proof using Hb Hempty.
  rewrite walk_app, Hb. simpl. unfold walk_step. by rewrite Hempty.
Qed.

(** Tables that were reachable stay where they were. *)
Lemma link_keep q t :
  (length q ≤ 3)%nat → idx_ok q → walk off m root q = Some t → walk off m' root q = Some t.
Proof using All.
  intros Hq Hok Hw. destruct (link_walk q Hq Hok) as [_ L]. rewrite L; [done|].
  intros r ->. by rewrite link_old_none in Hw.
Qed.

(** The slot's path is extended by [q] or it is not. *)
Lemma link_cases q : (∃ r, q = p ++ i :: r) ∨ (∀ r, q ≠ p ++ i :: r).
Proof using.
  clear. destruct (decide (p ++ [i] `prefix_of` q)) as [[r ->]|Hn].
  - left. exists r. by rewrite <- app_assoc.
  - right. intros r ->. apply Hn. exists r. by rewrite <- app_assoc.
Qed.

Lemma link_tables t : is_table off m' root t ↔ t = f ∨ is_table off m root t.
Proof using All.
  split.
  - intros (q & Hq & Hok & Hw). destruct (link_walk q Hq Hok) as [L1 L2].
    destruct (link_cases q) as [[r ->]|Hn].
    + rewrite (L1 r eq_refl) in Hw. destruct r; [|done]. injection Hw as ->. by left.
    + right. exists q. by rewrite <- L2.
  - intros [->|(q & Hq & Hok & Hw)].
    + exists (p ++ [i]). rewrite length_app. simpl. split; [lia|]. split.
      * by apply idx_ok_snoc.
      * destruct (link_walk (p ++ [i])) as [L1 _]; [rewrite length_app; simpl; lia| |].
        { by apply idx_ok_snoc. }
        by rewrite (L1 []).
    + exists q. split; [done|]. split; [done|]. destruct (link_walk q Hq Hok) as [_ L2].
      rewrite L2; [done|]. intros r ->. by rewrite link_old_none in Hw.
Qed.

Lemma link_wf : table_page off f → entry_ok (entry m' b i) → pt_wf off m' root.
Proof using All.
  intros Hf He. split.
  - intros t [->|Ht]%link_tables; [done|]. by apply (ptw_page _ _ _ Hwf).
  - intros q1 q2 t H1 H2 O1 O2 W1 W2.
    destruct (link_walk q1 H1 O1) as [A1 A2]. destruct (link_walk q2 H2 O2) as [B1 B2].
    destruct (link_cases q1) as [[r1 ->]|N1], (link_cases q2) as [[r2 ->]|N2].
    + rewrite (A1 r1 eq_refl) in W1. rewrite (B1 r2 eq_refl) in W2. by destruct r1, r2.
    + rewrite (A1 r1 eq_refl) in W1. rewrite (B2 N2) in W2. destruct r1; [|done].
      injection W1 as <-. destruct Hfresh. by apply (is_table_walk off m root q2).
    + rewrite (B1 r2 eq_refl) in W2. rewrite (A2 N1) in W1. destruct r2; [|done].
      injection W2 as <-. destruct Hfresh. by apply (is_table_walk off m root q1).
    + rewrite (A2 N1) in W1. rewrite (B2 N2) in W2. by eapply (ptw_inj _ _ _ Hwf).
  - intros t j [->|Ht]%link_tables Hj; [by rewrite Hzero|].
    destruct (decide ((t, j) = (b, i))) as [[= -> ->]|Hne]; [done|].
    rewrite Hrest by done. by apply (ptw_entry _ _ _ Hwf).
Qed.

Lemma link_translate va : translate off m' root va = translate off m root va.
Proof using All.
  unfold translate. destruct (va_path_ok va) as [V1 V2].
  destruct (link_walk (va_path va) V1 V2) as [L1 L2].
  destruct (link_cases (va_path va)) as [[r Hr]|Hn].
  - rewrite (L1 r Hr), Hr, link_old_none. destruct r; [|done]. simpl.
    rewrite Hzero by apply va_index_range. done.
  - rewrite (L2 Hn). destruct (walk off m root (va_path va)) as [t|] eqn:E; [|done]. simpl.
    assert (is_table off m root t) as Ht by (by apply (is_table_walk off m root (va_path va))).
    rewrite Hrest; [done|done|apply va_index_range|]. intros [= -> _].
    assert (va_path va = p) as Heq by (eapply (ptw_inj _ _ _ Hwf); (done || lia)).
    rewrite <- Heq in Hp. simpl in Hp. lia.
Qed.
End link.

(** ** Writing a leaf entry *)

Section leaf.
Context (off : Z) (m m' : mem) (root : Z) (p : list Z) (t i : Z).
Context (Hwf : pt_wf off m root)
  (Hp : length p = 3%nat) (Hpok : idx_ok p) (Hi : 0 ≤ i < 512)
  (Ht : walk off m root p = Some t)
  (Hok : entry_ok (entry m' t i))
  (Hrest : ∀ t' j, is_table off m root t' → 0 ≤ j < 512 → (t', j) ≠ (t, i) →
             entry m' t' j = entry m t' j).

Lemma leaf_walk q : (length q ≤ 3)%nat → idx_ok q → walk off m' root q = walk off m root q.
Proof using Hwf Hp Hpok Ht Hrest.
  induction q as [|j q IH] using rev_ind; intros Hl Hqok; [done|].
  rewrite length_app in Hl. simpl in Hl. apply idx_ok_snoc in Hqok as [Hqok Hj].
  rewrite !walk_snoc, IH by (done || lia).
  destruct (walk off m root q) as [t'|] eqn:E; [|done]. simpl.
  apply walk_step_ext, Hrest; [apply (is_table_walk off m root q); [lia|done|done]|done|].
  intros [= -> ->]. assert (q = p) by (eapply (ptw_inj _ _ _ Hwf); (done || lia)).
  subst q. lia.
Qed.

Lemma leaf_tables t' : is_table off m' root t' ↔ is_table off m root t'.
Proof using Hwf Hp Hpok Ht Hrest.
  split; intros (q & H1 & H2 & H3); exists q; (split; [done|split; [done|]]);
    [by rewrite <- leaf_walk|by rewrite leaf_walk].
Qed.

Lemma leaf_wf : pt_wf off m' root.
Proof using All.
  split.
  - intros t' H%leaf_tables. by apply (ptw_page _ _ _ Hwf).
  - intros q1 q2 t' H1 H2 O1 O2. rewrite !leaf_walk by done. by apply (ptw_inj _ _ _ Hwf).
  - intros t' j H%leaf_tables Hj. destruct (decide ((t', j) = (t, i))) as [[= -> ->]|Hne]; [done|].
    rewrite Hrest by done. by apply (ptw_entry _ _ _ Hwf).
Qed.

Lemma leaf_translate va :
  translate off m' root va =
    if decide (va_path va = p ∧ va_index 1 va = i) then
      if present (entry m' t i) then Some (4096 * hw_frame (entry m' t i) + va mod 4096) else None
    else translate off m root va.
Proof using Hwf Hp Hpok Ht Hrest.
  unfold translate. destruct (va_path_ok va) as [V1 V2]. rewrite leaf_walk by done.
  case_decide as Hd.
  - destruct Hd as [-> ->]. rewrite Ht. done.
  - destruct (walk off m root (va_path va)) as [t'|] eqn:E; [|done]. simpl.
    rewrite Hrest; [done|by apply (is_table_walk off m root (va_path va))|apply va_index_range|].
    intros [= -> H]. apply Hd. split; [|done]. eapply (ptw_inj _ _ _ Hwf); try done; lia.
Qed.
End leaf.

(** ** Copying a root table *)

Section copy.
Context (off : Z) (m : mem) (root a : Z).
Context (Hwf : pt_wf off m root) (Hpage : table_page off a) (Hnew : ¬ is_table off m root a)
  (Hent : ∀ i, 0 ≤ i < 512 → entry m a i = entry m root i).

Lemma copy_walk i p : 0 ≤ i < 512 → walk off m a (i :: p) = walk off m root (i :: p).
Proof using Hent. clear Hpage Hnew Hwf. intros Hi. simpl. unfold walk_step. by rewrite Hent. Qed.

Lemma copy_tables t : is_table off m a t → t = a ∨ is_table off m root t.
Proof using Hent.
  clear Hpage Hnew Hwf. intros ([|i p] & Hl & Hok & Hw); [left; by injection Hw as ->|].
  right. exists (i :: p). pose proof Hok as [Hi _]%Forall_cons. by rewrite <- copy_walk.
Qed.

Lemma copy_path_root i p t :
  (length (i :: p) ≤ 3)%nat → idx_ok (i :: p) → walk off m a (i :: p) = Some t →
  walk off m root (i :: p) = Some t ∧ t ≠ a.
Proof using Hent Hnew.
  clear Hpage Hwf. intros Hl Hok Hw. pose proof Hok as [Hi _]%Forall_cons. rewrite copy_walk in Hw by done.
  split; [done|]. intros ->. apply Hnew. by exists (i :: p).
Qed.

Lemma copy_wf : pt_wf off m a.
Proof using All.
  split.
  - intros t [->|Ht]%copy_tables; [done|]. by apply (ptw_page _ _ _ Hwf).
  - intros [|i p] [|j q] t Hp Hq Op Oq Wp Wq.
    + done.
    + destruct (copy_path_root j q t Hq Oq Wq) as [_ Hne]. by injection Wp as ->.
    + destruct (copy_path_root i p t Hp Op Wp) as [_ Hne]. by injection Wq as ->.
    + apply (ptw_inj _ _ _ Hwf _ _ t); try done; by apply copy_path_root.
  - intros t i [->|Ht]%copy_tables Hi; [|by apply (ptw_entry _ _ _ Hwf)].
    rewrite Hent by done. apply (ptw_entry _ _ _ Hwf); [|done].
    exists []. split; [simpl; lia|]. by split; [apply Forall_nil_2|].
Qed.
End copy.
