(* ===== verification/VirtMem.v ===== *)
(** [VirtualMemoryManagement.cpp]: building page tables.

    The operations are written over any page allocator [S] with the interface of [PageAlloc];
    an entry of type [PageTableEntry*] is the entry's address. *)

From S2P Require Import Prelude Mem GDT Cpu Spinlock PhysMem PageAlloc PhysPages Paging PageTables.

Section operations.
Context {S : Type} {PA : PageAllocator S}.

(** A sequence of assignments to fields of the entry at [p]. *)
Definition update_entry (p : Z) (f : Z → Z) (s : S) : S :=
  pa_set_ram (store64 (pa_ram s) p (f (load64 (pa_ram s) p))) s.
Definition entry_at (s : S) (p : Z) : Z := load64 (pa_ram s) p.

(** [&table[i]]: entries are 8 bytes apart. *)
Definition entry_ptr (table i : Z) : Z := u64 (table + 8 * i).

Definition set_table_entry (frame_number : Z) (e : Z) : Z :=
  let e := set physicalAddress frame_number e in
  let e := set pageSize 0 e in
  let e := set isPresent 1 e in
  let e := set isWritable 1 e in
  let e := set isUserAccessible 1 e in
  let e := set cacheDisabled 0 e in
  let e := set writeThrough 0 e in
  set executionDisabled 0 e.

Definition allocatePageForTableEntry (p : Z) (s : S) : outcome (bool * S) :=
  '(frame, s) ← pa_allocatePage s;
  if frame =? 0 then Done (false, s)
  else
    let number := Z.shiftr (u64 (frame - pa_offset s)) 12 in
    Done (true, update_entry p (set_table_entry number) s).

Definition freePageForTableEntry (p : Z) (s : S) : outcome S :=
  s ← pa_freePage (u64 (physicalAddress_shl (entry_at s p))) s;
  let s := update_entry p (set physicalAddress 0) s in
  Done (update_entry p (set isPresent 0) s).

Definition allocateRootPageTable (s : S) : outcome (Z * S) :=
  '(frame, s) ← pa_allocatePage s;
  if frame =? 0 then Done (0, s)
  else Done (frame, pa_set_ram (memset (pa_ram s) frame 0 4096) s).

Definition allocatePageTableForTableEntry (p : Z) (s : S) : outcome (bool * S) :=
  '(ok, s) ← allocatePageForTableEntry p s;
  if ok : bool then
    let addr := u64 (Z.shiftl (get physicalAddress (entry_at s p)) 12 + pa_offset s) in
    Done (true, pa_set_ram (memset (pa_ram s) addr 0 4096) s)
  else Done (false, s).

(** The lambda [pe2v] of [map]. *)
Definition pe2v (s : S) (e : Z) : Z := u64 (physicalAddress_shl e + pa_offset s).

(** [if (!entry->hl.isPresent) allocatePageTableForTableEntry(entry)]; the result of the
    allocation is not looked at. *)
Definition ensure_table (p : Z) (s : S) : outcome S :=
  if get isPresent (entry_at s p) =? 0 then
    '(_, s) ← allocatePageTableForTableEntry p s; Done s
  else Done s.

Definition set_leaf_entry (toPhysical : Z) (e : Z) : Z :=
  let e := set physicalAddress (Z.shiftr toPhysical 12) e in
  let e := set isPresent 1 e in
  let e := set isWritable 1 e in
  set isUserAccessible 1 e.

Definition map (root virtualAddress toPhysical : Z) (s : S) : outcome S :=
  let pageAddress := Z.shiftr (Z.land virtualAddress 0xFFFFffffFFFF) 12 in
  let level4Index := Z.land (Z.shiftr pageAddress 27) 0x1FF in
  let level3Index := Z.land (Z.shiftr pageAddress 18) 0x1FF in
  let level2Index := Z.land (Z.shiftr pageAddress 9) 0x1FF in
  let level1Index := Z.land pageAddress 0x1FF in
  s ← ensure_table (entry_ptr root level4Index) s;
  let level3Address := pe2v s (entry_at s (entry_ptr root level4Index)) in
  s ← ensure_table (entry_ptr level3Address level3Index) s;
  let level2Address := pe2v s (entry_at s (entry_ptr level3Address level3Index)) in
  s ← ensure_table (entry_ptr level2Address level2Index) s;
  let level1Address := pe2v s (entry_at s (entry_ptr level2Address level2Index)) in
  Done (update_entry (entry_ptr level1Address level1Index) (set_leaf_entry toPhysical) s).

Definition shallowCopy (root : Z) (s : S) : outcome (Z * S) :=
  '(addr, s) ← pa_allocatePage s;
  Done (addr, pa_set_ram (memcpy (pa_ram s) addr root 4096) s).
End operations.

(** ** Lemmas: entries *)

Lemma set_table_entry_spec number e :
  0 ≤ number < 2 ^ 28 → get _reserved e = 0 → 0 ≤ e < 2 ^ 64 →
  let e' := set_table_entry number e in
  present e' = true ∧ entry_ok e' ∧ get physicalAddress e' = number ∧ 0 ≤ e' < 2 ^ 64.
Proof.
  intros Hn Hr He e'. unfold e', set_table_entry.
  rewrite present_get. unfold entry_ok. rewrite hw_large_get. pte_simpl. simpl.
  rewrite (uw_small 28) by done. repeat split; try done.
  all: repeat (apply set_range; [by split; simpl; lia|simpl; lia|]); lia.
Qed.

Lemma set_leaf_entry_spec pa e :
  get _reserved e = 0 → hw_large e = false → 0 ≤ e < 2 ^ 64 →
  let e' := set_leaf_entry pa e in
  present e' = true ∧ entry_ok e' ∧ hw_frame e' = uw 28 (Z.shiftr pa 12) ∧ 0 ≤ e' < 2 ^ 64.
Proof.
  intros Hr Hl He e'. rewrite hw_large_get in Hl. apply negb_false_iff, Z.eqb_eq in Hl.
  assert (Hok : entry_ok e').
  { unfold e', set_leaf_entry, entry_ok. rewrite hw_large_get. pte_simpl. rewrite Hl. done. }
  split; [|split; [done|split]].
  - unfold e', set_leaf_entry. rewrite present_get. by pte_simpl.
  - rewrite hw_frame_ok by done. unfold e', set_leaf_entry. by pte_simpl.
  - unfold e', set_leaf_entry.
    repeat (apply set_range; [by split; simpl; lia|simpl; lia|]); lia.
Qed.

Lemma pages_apart a b : a mod 4096 = 0 → b mod 4096 = 0 → a ≠ b → a + 4096 ≤ b ∨ b + 4096 ≤ a.
Proof. intros. Z.div_mod_to_equations. lia. Qed.

(** ** The invariant of page tables under construction *)

Section proofs.
Context {S : Type} {PA : PageAllocator S} {PAL : PageAllocatorLaws S}.

Definition off_ok (off : Z) : Prop := off mod 4096 = 0 ∧ 0 ≤ off ∧ off + 2 ^ 31 ≤ 2 ^ 64.

(** The tables are well formed and none of their bytes is free; the allocator's pages lie in
    the first 2 GiB of physical memory. *)
Record vm_ok (root : Z) (s : S) : Prop := {
  vm_pa : pa_ok s;
  vm_off : off_ok (pa_offset s);
  vm_wf : pt_wf (pa_offset s) (pa_ram s) root;
  vm_apart x : table_bytes (pa_offset s) (pa_ram s) root x → ¬ pa_owned s x;
  vm_low x : pa_owned s x → pa_offset s ≤ x < pa_offset s + 2 ^ 31;
}.

Definition translate_in (root : Z) (s : S) : Z → option Z :=
  translate (pa_offset s) (pa_ram s) root.
Definition table_at (root : Z) (s : S) (path : list Z) : option Z :=
  walk (pa_offset s) (pa_ram s) root path.
Definition at_least (n : Z) (s : S) : Prop := ∃ k, pa_pages s k ∧ n ≤ k.

(** Tables reachable in [s] are in the same place in [s']. *)
Definition tables_kept (root : Z) (s s' : S) : Prop :=
  ∀ q t, (length q ≤ 3)%nat → idx_ok q → table_at root s q = Some t → table_at root s' q = Some t.

(** Whether the table at the end of a path has to be made. *)
Definition missing (root : Z) (s : S) (q : list Z) : Z :=
  match table_at root s q with Some _ => 0 | None => 1 end.

Lemma missing_range root s q : 0 ≤ missing root s q ≤ 1.
Proof. unfold missing. case_match; lia. Qed.

Lemma missing_prefix root s p q : missing root s p ≤ missing root s (p ++ q).
Proof.
  unfold missing, table_at. rewrite walk_app. destruct (walk _ _ root p); [|simpl; lia].
  case_match; lia.
Qed.

Lemma missing_kept root s s' q :
  (length q ≤ 3)%nat → idx_ok q → tables_kept root s s' → missing root s' q ≤ missing root s q.
Proof.
  intros Hl Hok Hk. unfold missing. destruct (table_at root s q) as [t|] eqn:E.
  - by rewrite (Hk _ _ Hl Hok E).
  - case_match; lia.
Qed.

(** The bytes building page tables under [root] may change: the tables and the free pages. *)
Definition touched (root : Z) (s : S) (x : Z) : Prop :=
  table_bytes (pa_offset s) (pa_ram s) root x ∨ pa_owned s x.
Definition vm_frame (root : Z) (s s' : S) : Prop :=
  (∀ x, touched root s' x → touched root s x) ∧
  agree (λ x, ¬ touched root s x) (pa_ram s') (pa_ram s).

Lemma vm_frame_refl root s : vm_frame root s s.
Proof. split; [done|apply agree_refl]. Qed.

Lemma vm_frame_trans root s1 s2 s3 : vm_frame root s1 s2 → vm_frame root s2 s3 → vm_frame root s1 s3.
Proof.
  intros [F1 A1] [F2 A2]. split; [auto|]. eapply agree_trans; [|exact A1].
  eapply agree_weaken; [|exact A2]. intros x Hx Ht. by apply Hx, F1.
Qed.

Lemma at_least_weaken n n' s : n' ≤ n → at_least n s → at_least n' s.
Proof. intros ? (k & ? & ?). exists k. split; [done|lia]. Qed.

Lemma entry_ptr_small off t i :
  table_page off t → 0 ≤ i < 512 → entry_ptr t i = t + 8 * i.
Proof. intros (_ & _ & ? & ?) Hi. apply uw_small. lia. Qed.

(** The pointer the code follows is the one the processor follows. *)
Lemma pe2v_walk_step s root path t i :
  vm_ok root s → (length path ≤ 2)%nat → idx_ok path → 0 ≤ i < 512 →
  table_at root s path = Some t → present (entry (pa_ram s) t i) = true →
  table_at root s (path ++ [i]) = Some (pe2v s (entry (pa_ram s) t i)).
Proof.
  intros Hvm Hl Hok Hi Ht Hp. destruct Hvm as [_ (_ & Ho1 & Ho2) Hwf _ _].
  unfold table_at in *. rewrite walk_snoc, Ht. simpl. unfold walk_step. rewrite Hp.
  assert (Htab : is_table (pa_offset s) (pa_ram s) root t)
    by (apply (is_table_walk _ _ _ path); [lia|done|done]).
  destruct (ptw_entry _ _ _ Hwf t i Htab Hi) as [He1 He2]. rewrite He2. simpl. f_equal.
  set (e := entry (pa_ram s) t i) in *.
  assert (Hnext : table_page (pa_offset s) (pa_offset s + 4096 * hw_frame e)).
  { apply (ptw_page _ _ _ Hwf). apply (is_table_walk _ _ _ (path ++ [i])).
    - rewrite length_app. simpl. lia.
    - by apply idx_ok_snoc.
    - rewrite walk_snoc, Ht. simpl. unfold walk_step. fold e. by rewrite Hp, He2. }
  destruct Hnext as (_ & Hr & _ & Hr2). rewrite hw_frame_ok in * by done.
  unfold pe2v. rewrite (proj2 (physicalAddress_shl_exact e)).
  - rewrite uw_small; lia.
  - change (2 ^ 31) with 2147483648 in Hr. change (2 ^ 19) with 524288. lia.
Qed.

(** The state a successful [allocatePageTableForTableEntry] ends in. *)
Definition linked (s1 : S) (ptr a : Z) : S :=
  let s2 := update_entry ptr (set_table_entry (Z.shiftr (a - pa_offset s1) 12)) s1 in
  pa_set_ram (memset (pa_ram s2) a 0 4096) s2.

Lemma pa_ram_linked s1 ptr a :
  pa_ram (linked s1 ptr a) =
    memset (store64 (pa_ram s1) ptr
      (set_table_entry (Z.shiftr (a - pa_offset s1) 12) (load64 (pa_ram s1) ptr))) a 0 4096.
Proof. unfold linked, update_entry. by rewrite !pa_ram_set. Qed.

Lemma pa_offset_linked s1 ptr a : pa_offset (linked s1 ptr a) = pa_offset s1.
Proof. unfold linked, update_entry. by rewrite !pa_offset_set. Qed.

Lemma frame_number_small off a :
  off_ok off → a mod 4096 = 0 → off ≤ a → a + 4096 ≤ off + 2 ^ 31 →
  u64 (a - off) = a - off ∧ 0 ≤ Z.shiftr (a - off) 12 < 2 ^ 19 ∧
  off + 4096 * Z.shiftr (a - off) 12 = a.
Proof.
  intros (Ho & ? & ?) Ha H1 H2. rewrite Z.shiftr_div_pow2 by lia. change (2 ^ 12) with 4096.
  change (2 ^ 31) with 2147483648 in *. change (2 ^ 19) with 524288.
  assert ((a - off) mod 4096 = 0) as Hm by (Z.div_mod_to_equations; lia).
  split; [apply uw_small; lia|]. Z.div_mod_to_equations. lia.
Qed.

Lemma allocatePageTable_run s s1 ptr a :
  pa_allocatePage s = Done (a, s1) → a ≠ 0 → off_ok (pa_offset s1) → a mod 4096 = 0 →
  pa_offset s1 ≤ a → a + 4096 ≤ pa_offset s1 + 2 ^ 31 → get _reserved (entry_at s1 ptr) = 0 →
  allocatePageTableForTableEntry ptr s = Done (true, linked s1 ptr a).
Proof.
  intros Ha Hz Ho Hm H1 H2 Hr. destruct (frame_number_small _ _ Ho Hm H1 H2) as (F1 & F2 & F3).
  unfold allocatePageTableForTableEntry, allocatePageForTableEntry. rewrite Ha.
  cbn [mbind outcome_bind]. apply Z.eqb_neq in Hz. rewrite Hz, F1. cbn [mbind outcome_bind].
  assert (0 ≤ entry_at s1 ptr < 2 ^ 64) as He by apply load64_range.
  assert (0 ≤ Z.shiftr (a - pa_offset s1) 12 < 2 ^ 28) as F2'
    by (change (2 ^ 28) with 268435456; change (2 ^ 19) with 524288 in F2; lia).
  destruct (set_table_entry_spec _ _ F2' Hr He) as (E1 & E2 & E3 & E4).
  unfold linked. set (s2 := update_entry _ _ s1).
  assert (Hs2 : entry_at s2 ptr = set_table_entry (Z.shiftr (a - pa_offset s1) 12) (entry_at s1 ptr)).
  { unfold s2, update_entry, entry_at. rewrite pa_ram_set. by apply load64_store64. }
  rewrite Hs2, E3. do 3 f_equal. unfold s2, update_entry. rewrite pa_offset_set.
  rewrite Z.shiftl_mul_pow2 by lia. destruct Ho as (_ & ? & ?). f_equal. rewrite uw_small; lia.
Qed.

(** What linking does to memory, in the terms of [PageTables]. *)
Lemma linked_memory s s1 root path t i a :
  vm_ok root s → pa_offset s1 = pa_offset s →
  agree (λ x, ¬ pa_owned s x) (pa_ram s1) (pa_ram s) →
  (length path ≤ 2)%nat → idx_ok path → 0 ≤ i < 512 → table_at root s path = Some t →
  present (entry (pa_ram s) t i) = false →
  a mod 4096 = 0 → a + 4096 ≤ 2 ^ 64 → (∀ x, a ≤ x < a + 4096 → pa_owned s x) →
  let m' := pa_ram (linked s1 (t + 8 * i) a) in
  ¬ is_table (pa_offset s) (pa_ram s) root a ∧
  present (entry m' t i) = true ∧ entry_ok (entry m' t i) ∧
  walk_step (pa_offset s) m' t i = Some a ∧
  (∀ j, 0 ≤ j < 512 → entry m' a j = 0) ∧
  (∀ t' j, is_table (pa_offset s) (pa_ram s) root t' → 0 ≤ j < 512 → (t', j) ≠ (t, i) →
     entry m' t' j = entry (pa_ram s) t' j).
Proof.
  intros Hvm Ho HA Hl Hok Hi Ht He Ham Hahi Hown. destruct Hvm as [_ Hoff Hwf Hapart Hlow].
  assert (Htab : ∀ t', is_table (pa_offset s) (pa_ram s) root t' →
            table_page (pa_offset s) t' ∧ (t' + 4096 ≤ a ∨ a + 4096 ≤ t')).
  { intros t' Ht'. pose proof (ptw_page _ _ _ Hwf _ Ht') as Hp. split; [done|].
    apply pages_apart; [apply Hp|done|]. intros <-.
    apply (Hapart t'); [exists t'; split; [done|lia]|]. apply Hown. lia. }
  assert (Htt : is_table (pa_offset s) (pa_ram s) root t)
    by (apply (is_table_walk _ _ _ path); [lia|done|done]).
  destruct (Htab _ Htt) as [Htp Hta].
  assert (Hent : ∀ t' j, is_table (pa_offset s) (pa_ram s) root t' → 0 ≤ j < 512 →
            entry (pa_ram s1) t' j = entry (pa_ram s) t' j).
  { intros t' j Ht' Hj. eapply load_agree; [exact HA|]. intros x Hx. unfold range in Hx.
    apply Hapart. exists t'. split; [done|lia]. }
  set (e := set_table_entry (Z.shiftr (a - pa_offset s1) 12) (load64 (pa_ram s1) (t + 8 * i))).
  assert (Hlowa := Hlow a ltac:(apply Hown; lia)). assert (Hlowa' := Hlow (a + 4095) ltac:(apply Hown; lia)).
  destruct (frame_number_small (pa_offset s) a Hoff Ham) as (F1 & F2 & F3); [lia|lia|].
  assert (Hold : load64 (pa_ram s1) (t + 8 * i) = entry (pa_ram s) t i) by (by apply Hent).
  destruct (set_table_entry_spec (Z.shiftr (a - pa_offset s1) 12) (load64 (pa_ram s1) (t + 8 * i)))
    as (E1 & E2 & E3 & E4); [rewrite Ho; lia| |apply load64_range|].
  { rewrite Hold. by apply (ptw_entry _ _ _ Hwf). }
  fold e in E1, E2, E3, E4.
  rewrite pa_ram_linked. fold e.
  assert (Hnew : entry (memset (store64 (pa_ram s1) (t + 8 * i) e) a 0 4096) t i = e).
  { unfold entry. rewrite load_memset_disj by (unfold disj; lia). by apply load64_store64. }
  split; [|split; [by rewrite Hnew|split; [by rewrite Hnew|split; [|split]]]].
  - intros Hf. destruct (Htab _ Hf). lia.
  - unfold walk_step. rewrite Hnew, E1, (proj2 E2). simpl. rewrite hw_frame_ok, E3, Ho by done.
    by rewrite F3.
  - intros j Hj. unfold entry. rewrite load_memset0 by lia. done.
  - intros t' j Ht' Hj Hne. destruct (Htab _ Ht') as [Htp' Hta'].
    rewrite <- (Hent t' j Ht' Hj). unfold entry.
    rewrite load_memset_disj by (unfold disj; lia). rewrite load_store_disj; [done|].
    unfold disj. destruct (decide (t' = t)) as [->|Hn].
    + assert (j ≠ i) by congruence. lia.
    + destruct (pages_apart t' t); [apply Htp'|apply Htp|done|lia|lia].
Qed.

(** Linking disturbs the allocator only in pages it no longer owns. *)
Lemma linked_allocator s1 ptr a :
  pa_ok s1 → (∀ x, range ptr 8 x → ¬ pa_owned s1 x) → (∀ x, range a 4096 x → ¬ pa_owned s1 x) →
  pa_ok (linked s1 ptr a) ∧ (∀ x, pa_owned (linked s1 ptr a) x ↔ pa_owned s1 x) ∧
  (∀ n, pa_pages s1 n → pa_pages (linked s1 ptr a) n).
Proof.
  intros Hok Hp Ha. unfold linked, update_entry.
  set (m1 := store64 (pa_ram s1) ptr _).
  destruct (pa_frame m1 s1) as (K1 & K2 & K3); [done| |].
  { apply store_agree. intros x Hx Hr. by apply (Hp x). }
  set (s2 := pa_set_ram m1 s1) in *.
  destruct (pa_frame (memset (pa_ram s2) a 0 4096) s2) as (L1 & L2 & L3); [done| |].
  { apply memset_agree. intros x Hx%K2 Hr. by apply (Ha x). }
  split; [done|]. split; [intros x; by rewrite L2|]. auto.
Qed.

Lemma present_entry_at s t i :
  table_page (pa_offset s) t → 0 ≤ i < 512 →
  entry_at s (entry_ptr t i) = entry (pa_ram s) t i.
Proof. intros Ht Hi. unfold entry_at. by rewrite (entry_ptr_small _ _ _ Ht Hi). Qed.

(** The state after a new table was hung into an empty slot of the table [t]. *)
Lemma linked_spec s s1 root path t i a :
  vm_ok root s → pa_ok s1 → pa_offset s1 = pa_offset s →
  agree (λ x, ¬ pa_owned s x) (pa_ram s1) (pa_ram s) →
  (∀ x, pa_owned s1 x → pa_owned s x) →
  (length path ≤ 2)%nat → idx_ok path → 0 ≤ i < 512 → table_at root s path = Some t →
  present (entry (pa_ram s) t i) = false →
  a mod 4096 = 0 → 0 < a → a + 4096 ≤ 2 ^ 64 →
  (∀ x, a ≤ x < a + 4096 → pa_owned s x ∧ ¬ pa_owned s1 x) →
  let s' := linked s1 (t + 8 * i) a in
  vm_ok root s' ∧ (∀ n, pa_pages s1 n → pa_pages s' n) ∧
  tables_kept root s s' ∧ present (entry (pa_ram s') t i) = true ∧
  vm_frame root s s' ∧
  (∀ va, translate_in root s' va = translate_in root s va).
Proof.
  intros Hvm Hok1 Ho HA Hsub Hl Hok Hi Ht Hpres Ham Ha0 Hahi Hown s'.
  destruct (linked_memory s s1 root path t i a) as (M1 & M2 & M3 & M4 & M5 & M6); try done.
  { intros x Hx. by apply Hown. }
  fold s' in M2, M3, M4, M5, M6.
  assert (Htt : is_table (pa_offset s) (pa_ram s) root t)
    by (apply (is_table_walk _ _ _ path); [lia|done|done]).
  assert (Htb : ∀ x, range (t + 8 * i) 8 x → ¬ pa_owned s x).
  { intros x Hx. unfold range in Hx. apply (vm_apart _ _ Hvm). exists t. split; [done|lia]. }
  destruct (linked_allocator s1 (t + 8 * i) a) as (L1 & L2 & L3); [done| | |].
  { intros x Hx Hx'. by apply (Htb x Hx), Hsub. }
  { intros x Hx. by apply Hown. }
  fold s' in L1, L2, L3.
  assert (Ho' : pa_offset s' = pa_offset s) by (unfold s'; by rewrite pa_offset_linked).
  assert (Hlo := vm_low _ _ Hvm a ltac:(apply Hown; lia)).
  assert (Hapage : table_page (pa_offset s) a) by (repeat split; (done || lia)).
  destruct (link_wf _ _ (pa_ram s') _ _ _ _ _ (vm_wf _ _ Hvm) Hl Hok Hi Ht Hpres M1 M4 M5 M6 Hapage M3) as [Wp Wi We].
  pose proof (link_tables _ _ _ _ _ _ _ _ (vm_wf _ _ Hvm) Hl Hok Hi Ht Hpres M1 M4 M5 M6) as Htabs.
  pose proof (link_keep _ _ _ _ _ _ _ _ (vm_wf _ _ Hvm) Hl Hok Hi Ht Hpres M1 M4 M5 M6) as Hkeep.
  split; [|split; [done|split; [|split; [done|split]]]].
  - destruct Hvm as [V1 V2 V3 V4 V5]. split; rewrite ?Ho'; try done.
    + intros x (t' & [->|Ht']%Htabs & Hx) Hx'%L2; [by apply (Hown x Hx)|].
      apply (V4 x); [by exists t'|by apply Hsub].
    + intros x Hx%L2. apply V5, Hsub, Hx.
  - intros q t'. unfold table_at. rewrite Ho'. apply Hkeep.
  - split.
    + intros x [(t' & Ht' & Hx)|Hx%L2]; [|right; by apply Hsub].
      rewrite Ho' in Ht'. apply Htabs in Ht' as [->|Ht']; [right; by apply Hown|].
      left. by exists t'.
    + eapply agree_trans; [|eapply agree_weaken; [|exact HA]; unfold touched; tauto].
      unfold s'. rewrite pa_ram_linked. eapply agree_trans; [apply memset_agree|apply store_agree].
      * intros x Hx Hr. apply Hx. right. by apply Hown.
      * intros x Hx Hr. apply Hx. left. exists t. split; [done|]. unfold range in Hr. lia.
  - intros va. unfold translate_in. rewrite Ho'.
    by apply (link_translate _ _ _ _ _ _ _ _ (vm_wf _ _ Hvm) Hl Hok Hi Ht Hpres M1 M4 M5 M6).
Qed.

(** Making sure a slot holds a table: afterwards it does, the invariant and every translation
    are kept, and a page was used only when the table was missing. *)
Lemma ensure_table_spec n root path t i s :
  vm_ok root s → at_least n s → missing root s (path ++ [i]) ≤ n →
  (length path ≤ 2)%nat → idx_ok path → 0 ≤ i < 512 → table_at root s path = Some t →
  ∃ s', ensure_table (entry_ptr t i) s = Done s' ∧ vm_ok root s' ∧
    at_least (n - missing root s (path ++ [i])) s' ∧
    pa_offset s' = pa_offset s ∧
    tables_kept root s s' ∧ vm_frame root s s' ∧
    table_at root s' (path ++ [i]) = Some (pe2v s' (entry_at s' (entry_ptr t i))) ∧
    (∀ va, translate_in root s' va = translate_in root s va).
Proof.
  intros Hvm (k & Hk & Hnk) Hn Hl Hok Hi Ht.
  assert (Htt : is_table (pa_offset s) (pa_ram s) root t)
    by (apply (is_table_walk _ _ _ path); [lia|done|done]).
  assert (Htp : table_page (pa_offset s) t) by (by apply (ptw_page _ _ _ (vm_wf _ _ Hvm))).
  unfold ensure_table. rewrite (present_entry_at s t i Htp Hi).
  pose proof (present_get (entry (pa_ram s) t i)) as Hpres.
  destruct (get isPresent (entry (pa_ram s) t i) =? 0) eqn:Eg; simpl in Hpres.
  - assert (missing root s (path ++ [i]) = 1) as Hmiss.
    { unfold missing, table_at in *. rewrite walk_snoc, Ht. simpl. unfold walk_step. by rewrite Hpres. }
    rewrite Hmiss in *.
    destruct (pa_alloc s (vm_pa _ _ Hvm)) as (a & s1 & Ha & Hok1 & Ho & HA & Hsub & Hpage & Hcnt).
    destruct (Hcnt k Hk ltac:(lia)) as [Hz Hk1]. destruct (Hpage Hz) as (Ham & Ha0 & Hahi & Hown).
    assert (Hlo := vm_low _ _ Hvm a ltac:(apply Hown; lia)).
    assert (Hlo' := vm_low _ _ Hvm (a + 4095) ltac:(apply Hown; lia)).
    rewrite (entry_ptr_small _ _ _ Htp Hi).
    rewrite (allocatePageTable_run s s1 _ a Ha Hz);
      [|rewrite Ho; apply (vm_off _ _ Hvm)|done|lia|lia|].
    2: { unfold entry_at. rewrite (load_agree 8 _ _ _ _ HA).
         - by apply (ptw_entry _ _ _ (vm_wf _ _ Hvm)).
         - intros x Hx. unfold range in Hx. apply (vm_apart _ _ Hvm). exists t. split; [done|lia]. }
    cbn [mbind outcome_bind].
    destruct (linked_spec s s1 root path t i a) as (S1 & S2 & S3 & S4 & SF & S5); try done.
    set (s' := linked s1 (t + 8 * i) a) in *. exists s'.
    split; [done|]. split; [done|]. split; [exists (k - 1); split; [auto|lia]|].
    split; [unfold s'; by rewrite pa_offset_linked|]. split; [done|]. split; [done|]. split; [|done].
    assert (entry_at s' (t + 8 * i) = entry (pa_ram s') t i) as -> by done.
    apply pe2v_walk_step; try done. by apply S3; [lia|..].
  - pose proof (pe2v_walk_step s root path t i Hvm Hl Hok Hi Ht Hpres) as Hw.
    exists s. split; [done|]. split; [done|].
    split; [exists k; split; [done|]; unfold missing; rewrite Hw; lia|].
    split; [done|]. split; [by intros q t'|]. split; [apply vm_frame_refl|]. split; [|done].
    by rewrite (present_entry_at s t i Htp Hi).
Qed.

Lemma map_indices va :
  let page := Z.shiftr (Z.land va 0xFFFFffffFFFF) 12 in
  Z.land (Z.shiftr page 27) 0x1FF = va_index 4 va ∧ Z.land (Z.shiftr page 18) 0x1FF = va_index 3 va ∧
  Z.land (Z.shiftr page 9) 0x1FF = va_index 2 va ∧ Z.land page 0x1FF = va_index 1 va.
Proof.
  change 0xFFFFffffFFFF with (Z.ones 48). change 0x1FF with (Z.ones 9).
  unfold va_index, bf_get. repeat split; zbits.
Qed.

(** The final assignments to the level-1 entry. *)
Lemma leaf_spec root path t i pa s :
  vm_ok root s → length path = 3%nat → idx_ok path → 0 ≤ i < 512 → table_at root s path = Some t →
  let s' := update_entry (entry_ptr t i) (set_leaf_entry pa) s in
  vm_ok root s' ∧ pa_offset s' = pa_offset s ∧ (∀ n, at_least n s → at_least n s') ∧
  tables_kept root s s' ∧ vm_frame root s s' ∧
  ∀ va, translate_in root s' va =
    if decide (va_path va = path ∧ va_index 1 va = i)
    then Some (4096 * uw 28 (Z.shiftr pa 12) + va mod 4096) else translate_in root s va.
Proof.
  intros Hvm Hl Hok Hi Ht s'. pose proof Hvm as [V1 V2 V3 V4 V5].
  assert (Htt : is_table (pa_offset s) (pa_ram s) root t)
    by (apply (is_table_walk _ _ _ path); [lia|done|done]).
  assert (Htp : table_page (pa_offset s) t) by (by apply (ptw_page _ _ _ V3)).
  assert (Ho : pa_offset s' = pa_offset s) by apply pa_offset_set.
  destruct (ptw_entry _ _ _ V3 t i Htt Hi) as [He1 He2].
  destruct (set_leaf_entry_spec pa _ He1 He2 (entry_range _ _ _)) as (E1 & E2 & E3 & E4).
  set (e := set_leaf_entry pa (entry (pa_ram s) t i)) in *.
  assert (Hram : pa_ram s' = store64 (pa_ram s) (t + 8 * i) e).
  { unfold s', update_entry. rewrite pa_ram_set. by rewrite (entry_ptr_small _ _ _ Htp Hi). }
  assert (Hnew : entry (pa_ram s') t i = e) by (rewrite Hram; by apply load64_store64).
  assert (Hrest : ∀ t' j, is_table (pa_offset s) (pa_ram s) root t' → 0 ≤ j < 512 →
            (t', j) ≠ (t, i) → entry (pa_ram s') t' j = entry (pa_ram s) t' j).
  { intros t' j Ht' Hj Hne. rewrite Hram. apply load_store_disj. unfold disj.
    destruct (decide (t' = t)) as [->|Hn]; [assert (j ≠ i) by congruence; lia|].
    destruct (pages_apart t' t); [by apply (ptw_page _ _ _ V3)|apply Htp|done|lia|lia]. }
  destruct (pa_frame (pa_ram s') s V1) as (F1 & F2 & F3).
  { rewrite Hram. apply store_agree. intros x Hx Hr. apply (V4 x); [|done].
    exists t. split; [done|]. unfold range in Hr. lia. }
  assert (Hs' : s' = pa_set_ram (pa_ram s') s).
  { unfold s', update_entry. by rewrite pa_ram_set. }
  rewrite <- Hs' in F1, F2, F3.
  rewrite <- Hnew in E1, E2, E3.
  split; [|split; [done|split; [|split; [|split]]]].
  - split; rewrite ?Ho; try done.
    + by apply (leaf_wf _ (pa_ram s) _ _ path t i).
    + intros x (t' & Ht'%(leaf_tables _ (pa_ram s) _ _ path t i V3 Hl Hok Ht Hrest) & Hx) Hx'%F2.
      by apply (V4 x); [exists t'|].
    + intros x Hx%F2. by apply V5.
  - intros n (k & Hk & Hnk). exists k. auto.
  - intros q t' Hql Hqok. unfold table_at. rewrite Ho.
    by rewrite (leaf_walk _ (pa_ram s) _ _ path t i V3 Hl Hok Ht Hrest q Hql Hqok).
  - split.
    + intros x [(t' & Ht' & Hx)|Hx%F2]; [|by right]. rewrite Ho in Ht'.
      left. exists t'. split; [|done].
      by apply (leaf_tables _ (pa_ram s) _ _ path t i V3 Hl Hok Ht Hrest).
    + rewrite Hram. apply store_agree. intros x Hx Hr. apply Hx. left. exists t. split; [done|].
      unfold range in Hr. lia.
  - intros va. unfold translate_in. rewrite Ho.
    rewrite (leaf_translate _ (pa_ram s) _ _ path t i V3 Hl Hok Ht Hrest).
    case_decide; [|done]. by rewrite E1, E3.
Qed.

(** The pages [map] may need: none when the address's tables are there. *)
Definition map_cost (root va : Z) (s : S) : Z := 3 * missing root s (va_path va).

Lemma map_spec n root virtualAddress toPhysical s :
  vm_ok root s → at_least n s → map_cost root virtualAddress s ≤ n →
  ∃ s', map root virtualAddress toPhysical s = Done s' ∧ vm_ok root s' ∧
    at_least (n - map_cost root virtualAddress s) s' ∧
    pa_offset s' = pa_offset s ∧ tables_kept root s s' ∧ vm_frame root s s' ∧
    missing root s' (va_path virtualAddress) = 0 ∧
    ∀ va, translate_in root s' va =
      if decide (same_page va virtualAddress)
      then Some (4096 * uw 28 (Z.shiftr toPhysical 12) + va mod 4096)
      else translate_in root s va.
Proof.
  intros Hvm Hc Hn. unfold map. destruct (map_indices virtualAddress) as (-> & -> & -> & ->).
  set (va := virtualAddress) in *. unfold map_cost in *.
  pose proof (va_index_range 4 va) as R4. pose proof (va_index_range 3 va) as R3.
  pose proof (va_index_range 2 va) as R2. pose proof (va_index_range 1 va) as R1.
  destruct (va_path_ok va) as [VL VO].
  assert (O1 : idx_ok [va_index 4 va]) by (by apply (idx_ok_snoc [] _); split; [apply Forall_nil_2|]).
  assert (O2 : idx_ok [va_index 4 va; va_index 3 va]) by (by apply (idx_ok_snoc [_] _)).
  pose proof (missing_prefix root s [va_index 4 va] [va_index 3 va; va_index 2 va]) as N1.
  pose proof (missing_range root s [va_index 4 va]).
  destruct (ensure_table_spec n root [] root (va_index 4 va) s) as
    (s1 & E1 & V1 & C1 & F1 & K1 & G1 & T1 & X1); [done|done| |simpl; lia|by apply Forall_nil_2|done|done|].
  { cbn [app] in *. unfold va_path in Hn. lia. }
  rewrite E1. cbn [mbind outcome_bind app] in *. fold (va_path va) in N1.
  pose proof (missing_prefix root s1 [va_index 4 va; va_index 3 va] [va_index 2 va]) as N2.
  cbn [app] in N2. fold (va_path va) in N2. pose proof (missing_kept _ _ _ _ VL VO K1) as N2'.
  destruct (ensure_table_spec _ root [va_index 4 va] _ (va_index 3 va) s1 V1 C1
              ltac:(cbn [app]; lia) ltac:(simpl; lia) O1 R3 T1)
    as (s2 & E2 & V2 & C2 & F2 & K2 & G2 & T2 & X2).
  rewrite E2. cbn [mbind outcome_bind app] in *.
  pose proof (missing_kept _ _ _ _ VL VO K2) as N3.
  destruct (ensure_table_spec _ root [va_index 4 va; va_index 3 va] _ (va_index 2 va) s2 V2 C2
              ltac:(cbn [app]; fold (va_path va); lia) ltac:(simpl; lia) O2 R2 T2)
    as (s3 & E3 & V3 & C3 & F3 & K3 & G3 & T3 & X3).
  rewrite E3. cbn [mbind outcome_bind app] in *. fold (va_path va) in T3, C3.
  destruct (leaf_spec root (va_path va) _ (va_index 1 va) toPhysical s3 V3 eq_refl VO R1 T3)
    as (V4 & F4 & C4 & K4 & G4 & X4).
  eexists. split; [reflexivity|]. split; [exact V4|].
  split; [apply C4; eapply at_least_weaken; [|exact C3]; lia|].
  split; [congruence|].
  split; [intros q t Hq Hqo Hw; by apply K4, K3, K2, K1|].
  split; [exact (vm_frame_trans _ _ _ _ (vm_frame_trans _ _ _ _ (vm_frame_trans _ _ _ _ G1 G2) G3) G4)|].
  split; [unfold missing; by rewrite (K4 _ _ VL VO T3)|]. intros va'. rewrite X4, X3, X2, X1.
  assert (same_page va' va ↔ va_path va' = va_path va ∧ va_index 1 va' = va_index 1 va) as Hsp
    by apply same_page_indices.
  repeat case_decide; tauto.
Qed.

(** C8. [map] makes the page of [virtualAddress] translate to the frame of [toPhysical] (its low
    40 bits), leaves the translation of every other page as it was, and keeps the invariant;
    it uses at most three pages, and none when the tables of the address are there already. *)
Theorem map_correct n root virtualAddress toPhysical s :
  vm_ok root s → at_least n s → map_cost root virtualAddress s ≤ n →
  ∃ s', map root virtualAddress toPhysical s = Done s' ∧ vm_ok root s' ∧
    at_least (n - map_cost root virtualAddress s) s' ∧
    pa_offset s' = pa_offset s ∧ tables_kept root s s' ∧
    ∀ va, translate_in root s' va =
      if decide (same_page va virtualAddress)
      then Some (4096 * uw 28 (Z.shiftr toPhysical 12) + va mod 4096)
      else translate_in root s va.
Proof.
  intros Hvm Hc Hn. destruct (map_spec n root virtualAddress toPhysical s Hvm Hc Hn)
    as (s' & ? & ? & ? & ? & ? & _ & _ & ?). by exists s'.
Qed.

Lemma ensure_table_oom p s :
  pa_allocatePage s = Done (0, s) → entry_at s p = 0 → ensure_table p s = Done s.
Proof.
  intros Ha He. unfold ensure_table. rewrite He. simpl.
  unfold allocatePageTableForTableEntry, allocatePageForTableEntry. by rewrite Ha.
Qed.


(** ** Fresh and copied root tables *)

(** An allocator whose pages can hold page tables. *)
Definition vm_base (s : S) : Prop :=
  pa_ok s ∧ off_ok (pa_offset s) ∧
  ∀ x, pa_owned s x → pa_offset s ≤ x < pa_offset s + 2 ^ 31.

(** A page just handed out, and written to. *)
Lemma fresh_page s n :
  vm_base s → at_least n s → 1 ≤ n →
  ∃ a s1, pa_allocatePage s = Done (a, s1) ∧ a ≠ 0 ∧ table_page (pa_offset s) a ∧
    pa_offset s1 = pa_offset s ∧ agree (λ x, ¬ pa_owned s x) (pa_ram s1) (pa_ram s) ∧
    (∀ x, range a 4096 x → pa_owned s x) ∧
    ∀ m, agree (λ x, ¬ range a 4096 x) m (pa_ram s1) →
      let s' := pa_set_ram m s1 in
      vm_base s' ∧ at_least (n - 1) s' ∧ (∀ x, pa_owned s' x → pa_owned s x) ∧
      (∀ x, range a 4096 x → ¬ pa_owned s' x).
Proof.
  intros (Hok & Hoff & Hlow) (k & Hk & Hnk) Hn.
  destruct (pa_alloc s Hok) as (a & s1 & Ha & Hok1 & Ho & HA & Hsub & Hpage & Hcnt).
  destruct (Hcnt k Hk ltac:(lia)) as [Hz Hk1]. destruct (Hpage Hz) as (Ham & Ha0 & Hahi & Hown).
  assert (Hlo := Hlow a ltac:(apply Hown; lia)).
  exists a, s1. split; [done|]. split; [done|]. split; [repeat split; (done || lia)|].
  split; [done|]. split; [done|]. split; [intros x Hx; by apply Hown|].
  intros m Hm s'. destruct (pa_frame m s1 Hok1) as (F1 & F2 & F3).
  { eapply agree_weaken; [|exact Hm]. intros x Hx Hr. by destruct (Hown x Hr). }
  split; [|split; [exists (k - 1); split; [auto|lia]|split]].
  - split; [done|]. unfold s'. rewrite pa_offset_set, Ho. split; [done|].
    intros x Hx%F2. apply Hlow. auto.
  - intros x Hx%F2. auto.
  - intros x Hr Hx%F2. by destruct (Hown x Hr).
Qed.

(** An address space survives whatever leaves its tables alone and gives nothing to the
    allocator. *)
Lemma vm_ok_kept root s s' :
  vm_ok root s → vm_base s' → pa_offset s' = pa_offset s →
  agree (table_bytes (pa_offset s) (pa_ram s) root) (pa_ram s') (pa_ram s) →
  (∀ x, pa_owned s' x → pa_owned s x) →
  vm_ok root s' ∧ (∀ va, translate_in root s' va = translate_in root s va) ∧
  (∀ x, touched root s' x → touched root s x).
Proof.
  intros [V1 V2 V3 V4 V5] (B1 & B2 & B3) Ho HA Hsub.
  destruct (pt_wf_agree (pa_offset s) (pa_ram s) (pa_ram s') root V3 HA) as (W1 & W2 & W3).
  split; [|split; [intros va; unfold translate_in; by rewrite Ho|]].
  - split; try done; rewrite ?Ho; try done.
    intros x (t & Ht%W2 & Hx) Hx'. apply (V4 x); [by exists t|auto].
  - intros x [(t & Ht & Hx)|Hx]; [|right; auto]. rewrite Ho in Ht. left. exists t.
    split; [by apply W2|done].
Qed.

(** In particular when only free pages change. *)
Lemma vm_ok_agree root s s' :
  vm_ok root s → vm_base s' → pa_offset s' = pa_offset s →
  agree (λ x, ¬ pa_owned s x) (pa_ram s') (pa_ram s) →
  (∀ x, pa_owned s' x → pa_owned s x) →
  vm_ok root s' ∧ (∀ va, translate_in root s' va = translate_in root s va) ∧
  (∀ x, touched root s' x → touched root s x).
Proof.
  intros Hvm Hb Ho HA Hsub. apply vm_ok_kept; try done.
  eapply agree_weaken; [|exact HA]. intros x Hx. by apply (vm_apart _ _ Hvm).
Qed.

(** The address space of [root] in [s'] was made from pages free in [s]. *)
Definition made_from (s : S) (root : Z) (s' : S) : Prop :=
  agree (λ x, ¬ pa_owned s x) (pa_ram s') (pa_ram s) ∧ ∀ x, touched root s' x → pa_owned s x.

Lemma made_from_frame s root s1 s2 :
  made_from s root s1 → vm_frame root s1 s2 → made_from s root s2.
Proof.
  intros [A1 T1] [T2 A2]. split; [|intros x Hx; by apply T1, T2].
  eapply agree_trans; [|exact A1]. eapply agree_weaken; [|exact A2].
  intros x Hx Ht. by apply Hx, T1.
Qed.

Lemma walk_zero off m a path :
  (∀ j, 0 ≤ j < 512 → entry m a j = 0) → idx_ok path → path ≠ [] → walk off m a path = None.
Proof.
  intros Hz Hok Hne. destruct path as [|i path]; [done|]. apply Forall_cons in Hok as [Hi _].
  simpl. unfold walk_step. by rewrite Hz.
Qed.

(** A zeroed page outside the allocator's is a root table that translates nothing. *)
Lemma zero_root s a :
  vm_base s → table_page (pa_offset s) a → (∀ x, range a 4096 x → ¬ pa_owned s x) →
  (∀ j, 0 ≤ j < 512 → entry (pa_ram s) a j = 0) →
  vm_ok a s ∧ (∀ va, translate_in a s va = None) ∧
  (∀ x, table_bytes (pa_offset s) (pa_ram s) a x → range a 4096 x).
Proof.
  intros (B1 & B2 & B3) Hp Hown Hzero.
  assert (Hw : ∀ path t, idx_ok path → walk (pa_offset s) (pa_ram s) a path = Some t →
            path = [] ∧ t = a).
  { intros path t Hok Hw. destruct path as [|i path]; [by injection Hw as ->|].
    by rewrite walk_zero in Hw. }
  assert (Hbytes : ∀ x, table_bytes (pa_offset s) (pa_ram s) a x → range a 4096 x)
    by (by intros x (t & (path & _ & Hok & [_ ->]%Hw) & Hx)).
  split; [|split; [|done]].
  - split; try done.
    + split.
      * by intros t (path & _ & Hok & [_ ->]%Hw).
      * intros p q t _ _ Op Oq Wp Wq. destruct (Hw p t Op Wp), (Hw q t Oq Wq). by subst.
      * intros t i (path & _ & Hok & [_ ->]%Hw) Hi; [|done]. by rewrite Hzero.
    + intros x Hx%Hbytes. by apply Hown.
  - intros va. unfold translate_in, translate. by rewrite walk_zero by (done || apply va_path_ok).
Qed.

Lemma allocateRootPageTable_spec n s :
  vm_base s → at_least n s → 1 ≤ n →
  ∃ root s', allocateRootPageTable s = Done (root, s') ∧ root ≠ 0 ∧ pa_offset s' = pa_offset s ∧
    vm_ok root s' ∧ at_least (n - 1) s' ∧ made_from s root s' ∧ ∀ va, translate_in root s' va = None.
Proof.
  intros Hb Hc Hn. destruct (fresh_page s n Hb Hc Hn) as (a & s1 & Ha & Hz & Hp & Ho & HA & Hown & Hset).
  unfold allocateRootPageTable. rewrite Ha. cbn [mbind outcome_bind].
  destruct (Z.eqb_spec a 0); [done|]. set (m := memset (pa_ram s1) a 0 4096).
  assert (Hm : agree (λ x, ¬ range a 4096 x) m (pa_ram s1)) by (apply memset_agree; tauto).
  destruct (Hset m Hm) as (B & C & E & D).
  set (s' := pa_set_ram m s1) in *.
  assert (Ho' : pa_offset s' = pa_offset s) by (unfold s'; by rewrite pa_offset_set).
  destruct (zero_root s' a B) as (V & X & T); [by rewrite Ho'|done| |].
  { intros j Hj. unfold s'. rewrite pa_ram_set. unfold entry, m. by rewrite load_memset0 by lia. }
  exists a, s'. do 5 (split; [done|]). split; [|done]. split.
  - unfold s'. rewrite pa_ram_set. eapply agree_trans; [|exact HA].
    eapply agree_weaken; [|exact Hm]. intros x Hx Hr. by apply Hx, Hown.
  - intros x [Hx%T|Hx%E]; [by apply Hown|done].
Qed.

(** A new root table translates nothing. *)
Theorem allocateRootPageTable_empty n s :
  vm_base s → at_least n s → 1 ≤ n →
  ∃ root s', allocateRootPageTable s = Done (root, s') ∧ root ≠ 0 ∧ pa_offset s' = pa_offset s ∧
    vm_ok root s' ∧ at_least (n - 1) s' ∧ made_from s root s' ∧ ∀ va, translate_in root s' va = None.
Proof. apply allocateRootPageTable_spec. Qed.

Lemma root_is_table root s : is_table (pa_offset s) (pa_ram s) root root.
Proof. exists []. split; [simpl; lia|]. by split; [apply Forall_nil_2|]. Qed.

(** A page taken for other use, written to at will: the address space of [root] does not notice,
    and the page is no longer one its tables may come to use. *)
Lemma vm_fresh_page root s n :
  vm_ok root s → at_least n s → 1 ≤ n →
  ∃ a s1, pa_allocatePage s = Done (a, s1) ∧ a ≠ 0 ∧ table_page (pa_offset s) a ∧
    (∀ x, range a 4096 x → pa_owned s x) ∧
    agree (λ x, ¬ pa_owned s x) (pa_ram s1) (pa_ram s) ∧
    ∀ m, agree (λ x, ¬ range a 4096 x) m (pa_ram s1) →
      let s' := pa_set_ram m s1 in
      vm_ok root s' ∧ pa_offset s' = pa_offset s ∧ at_least (n - 1) s' ∧ vm_frame root s s' ∧
      (∀ x, range a 4096 x → ¬ touched root s' x) ∧
      (∀ va, translate_in root s' va = translate_in root s va).
Proof.
  intros Hvm Hc Hn.
  assert (Hb : vm_base s) by (split; [apply Hvm|split; apply Hvm]).
  destruct (fresh_page s n Hb Hc Hn) as (a & s1 & Ha & Hz & Hp & Ho & HA & Hown & Hset).
  exists a, s1. do 5 (split; [done|]). intros m Hm s'. destruct (Hset m Hm) as (B & C & E & D).
  assert (Ho' : pa_offset s' = pa_offset s) by (unfold s'; by rewrite pa_offset_set).
  assert (HA' : agree (λ x, ¬ pa_owned s x) (pa_ram s') (pa_ram s)).
  { unfold s'. rewrite pa_ram_set. eapply agree_trans; [|exact HA].
    eapply agree_weaken; [|exact Hm]. intros x Hx Hr. by apply Hx, Hown. }
  destruct (vm_ok_agree root s s' Hvm B Ho' HA' E) as (V & X & T).
  split; [done|]. split; [done|]. split; [done|]. split; [split; [done|]|split; [|done]].
  - eapply agree_weaken; [|exact HA']. unfold touched. tauto.
  - intros x Hr [Hx|Hx]; [|by apply (D x)]. rewrite Ho' in Hx.
    destruct (pt_wf_agree (pa_offset s) (pa_ram s) (pa_ram s') root (vm_wf _ _ Hvm)) as (_ & W & _).
    { eapply agree_weaken; [|exact HA']. intros y Hy. by apply (vm_apart _ _ Hvm). }
    apply (vm_apart _ _ Hvm x); [|by apply Hown]. destruct Hx as (t & Ht & Hx). exists t.
    split; [by apply W|done].
Qed.

Lemma shallowCopy_spec n root s :
  vm_ok root s → at_least n s → 1 ≤ n →
  ∃ copy s', shallowCopy root s = Done (copy, s') ∧ copy ≠ 0 ∧ pa_offset s' = pa_offset s ∧
    vm_ok root s' ∧ vm_ok copy s' ∧ at_least (n - 1) s' ∧
    (∀ va, translate_in root s' va = translate_in root s va) ∧
    (∀ va, translate_in copy s' va = translate_in root s va) ∧
    (∀ i path, idx_ok (i :: path) → table_at copy s' (i :: path) = table_at root s' (i :: path)) ∧
    (∀ x, touched copy s' x → touched root s x) ∧
    agree (λ x, ¬ pa_owned s x) (pa_ram s') (pa_ram s).
Proof.
  intros Hvm Hc Hn.
  destruct (vm_fresh_page root s n Hvm Hc Hn) as (a & s1 & Ha & Hz & Hp & Hown & HA & Hset).
  unfold shallowCopy. rewrite Ha. cbn [mbind outcome_bind].
  assert (Hrp := ptw_page _ _ _ (vm_wf _ _ Hvm) _ (root_is_table root s)).
  assert (Hdisj : a + 4096 ≤ root ∨ root + 4096 ≤ a).
  { apply pages_apart; [apply Hp|apply Hrp|]. intros ->. apply (vm_apart _ _ Hvm root).
    - exists root. split; [apply root_is_table|lia].
    - apply Hown. unfold range. lia. }
  set (m := memcpy (pa_ram s1) a root 4096).
  assert (Hm : agree (λ x, ¬ range a 4096 x) m (pa_ram s1)).
  { intros x Hx. unfold m. rewrite memcpy_spec by (unfold disj; lia). unfold range in Hx.
    zcases; (done || lia). }
  destruct (Hset m Hm) as (V & Ho & C & F & D & X). set (s' := pa_set_ram m s1) in *.
  assert (Hram : pa_ram s' = m) by apply pa_ram_set.
  assert (Hent : ∀ i, 0 ≤ i < 512 → entry (pa_ram s') a i = entry (pa_ram s') root i).
  { intros i Hi. rewrite Hram. unfold entry, m.
    rewrite load_memcpy by (unfold disj; lia).
    symmetry. apply (load_agree 8 _ _ _ _ Hm). unfold range. lia. }
  clearbody s' m.
  assert (Hnew : ¬ is_table (pa_offset s') (pa_ram s') root a).
  { intros Ht. apply (D a); [unfold range; lia|]. left. exists a. split; [done|lia]. }
  assert (Hpath : ∀ i path, idx_ok (i :: path) →
            table_at a s' (i :: path) = table_at root s' (i :: path)).
  { intros i path Hok%Forall_cons. apply (copy_walk _ _ root a Hent). apply Hok. }
  assert (Htab : ∀ x, table_bytes (pa_offset s') (pa_ram s') a x →
            range a 4096 x ∨ table_bytes (pa_offset s') (pa_ram s') root x).
  { intros x (t & [->|Ht]%(copy_tables _ _ root a Hent) & Hx); [left; done|right; by exists t]. }
  exists a, s'. split; [done|]. split; [done|]. split; [done|]. split; [done|]. split.
  - split; try apply V.
    + apply (copy_wf _ _ root a (vm_wf _ _ V)); [by rewrite Ho|done|done].
    + intros x [Hx|Hx]%Htab; [|by apply (vm_apart _ _ V x)]. intros Hx'. apply (D x Hx). by right.
  - split; [done|]. split; [done|]. split; [|split; [done|split]].
    + intros va. rewrite <- X. unfold translate_in, translate.
      pose proof (Hpath _ _ (proj2 (va_path_ok va))) as Hva. unfold table_at in Hva.
      fold (va_path va) in Hva. by rewrite Hva.
    + intros x [[Hx|Hx]%Htab|Hx]; [right; by apply Hown|apply F; by left|apply F; by right].
    + rewrite Hram. eapply agree_trans; [|exact HA]. eapply agree_weaken; [|exact Hm].
      intros x Hx Hr. by apply Hx, Hown.
Qed.

(** C30. A shallow copy translates every address as the table it was copied from, which itself is
    not disturbed; both are well-formed address spaces, and they share every table below the
    root. *)
Theorem shallowCopy_translates n root s :
  vm_ok root s → at_least n s → 1 ≤ n →
  ∃ copy s', shallowCopy root s = Done (copy, s') ∧ copy ≠ 0 ∧
    vm_ok root s' ∧ vm_ok copy s' ∧ at_least (n - 1) s' ∧
    (∀ va, translate_in root s' va = translate_in root s va) ∧
    (∀ va, translate_in copy s' va = translate_in root s va) ∧
    (∀ i path, idx_ok (i :: path) → table_at copy s' (i :: path) = table_at root s' (i :: path)).
Proof.
  intros Hvm Hc Hn. destruct (shallowCopy_spec n root s Hvm Hc Hn)
    as (copy & s' & ? & ? & _ & ? & ? & ? & ? & ? & ? & _). by exists copy, s'.
Qed.
End proofs.

(** Properties of the state that neither writing memory nor allocating a page disturbs survive all
    operations. *)
Section preserved.
Context {S : Type} {PA : PageAllocator S} (Q : S → Prop).
Context (Hram : ∀ m s, Q s → Q (pa_set_ram m s))
  (Halloc : ∀ s a s', Q s → pa_allocatePage s = Done (a, s') → Q s').

Lemma ensure_table_preserves p s s' : Q s → ensure_table p s = Done s' → Q s'.
Proof using Hram Halloc.
  intros Hs. unfold ensure_table, allocatePageTableForTableEntry, allocatePageForTableEntry.
  destruct (_ =? 0); [|by intros [= <-]].
  destruct (pa_allocatePage s) as [[a s1]|] eqn:E; [|done]. cbn [mbind outcome_bind].
  destruct (a =? 0); cbn [mbind outcome_bind]; intros [= <-]; [by eapply Halloc|].
  apply Hram. unfold update_entry. apply Hram. by eapply Halloc.
Qed.

Lemma map_preserves root va pa s s' : Q s → map root va pa s = Done s' → Q s'.
Proof using Hram Halloc.
  intros Hs. unfold map.
  destruct (ensure_table _ s) as [s1|] eqn:E1; [|done]. cbn [mbind outcome_bind].
  destruct (ensure_table _ s1) as [s2|] eqn:E2; [|done]. cbn [mbind outcome_bind].
  destruct (ensure_table _ s2) as [s3|] eqn:E3; [|done]. cbn [mbind outcome_bind].
  intros [= <-]. unfold update_entry. apply Hram.
  by eapply ensure_table_preserves; [|exact E3]; eapply ensure_table_preserves; [|exact E2];
    eapply ensure_table_preserves; [|exact E1].
Qed.

Lemma allocateRootPageTable_preserves s root s' :
  Q s → allocateRootPageTable s = Done (root, s') → Q s'.
Proof using Hram Halloc.
  intros Hs. unfold allocateRootPageTable. destruct (pa_allocatePage s) as [[a s1]|] eqn:E; [|done].
  cbn [mbind outcome_bind]. destruct (a =? 0); intros [= <- <-]; [|apply Hram]; by eapply Halloc.
Qed.

Lemma shallowCopy_preserves root s copy s' : Q s → shallowCopy root s = Done (copy, s') → Q s'.
Proof using Hram Halloc.
  intros Hs. unfold shallowCopy. destruct (pa_allocatePage s) as [[a s1]|] eqn:E; [|done].
  intros [= <- <-]. apply Hram. by eapply Halloc.
Qed.
End preserved.

(** ** Concrete runs over the free-list allocator *)

#[local] Instance example_pages : PageAllocator machine := phys_pages 2.
#[local] Instance example_laws : PageAllocatorLaws machine := phys_pages_laws 2.

Definition example_root : Z := page0 - 0x10000.

Lemma example_owned x :
  phys_owned example x ↔ page0 ≤ x < page0 + 8192 ∨ page0 + 0x10000 ≤ x < page0 + 0x13000.
Proof.
  rewrite (phys_owned_iff _ _ _ example_free_list). unfold free_bytes. change PageSize with 4096.
  split.
  - intros (b & n & Hin & Hx). rewrite !elem_of_cons in Hin.
    destruct Hin as [[= -> ->]|[[= -> ->]|[]%not_elem_of_nil]]; lia.
  - intros [H|H]; do 2 eexists; (split; [rewrite !elem_of_cons|]).
    + by left.
    + simpl. lia.
    + by right; left.
    + simpl. lia.
Qed.

Lemma example_vm_base : vm_base example.
Proof.
  split; [|split].
  - split; [apply example_ready|]. eexists. split; [apply example_free_list|].
    split; [|simpl; lia]. repeat (apply Forall_cons; split; [done|]). by apply Forall_nil_2.
  - by vm_compute.
  - intros x Hx%example_owned.
    change (pa_offset example) with 0xffff800000000000. unfold page0 in Hx.
    change (2 ^ 31) with 0x80000000. lia.
Qed.

Lemma example_five_pages : at_least 5 example.
Proof. exists 5. split; [|lia]. eexists. split; [apply example_free_list|done]. Qed.

Lemma example_root_zero j : 0 ≤ j < 512 → entry (ram example) example_root j = 0.
Proof.
  intros Hj.
  assert (forallb (λ i : nat, entry (ram example) example_root (Z.of_nat i) =? 0) (seq 0 512) = true)
    as H by (vm_compute; reflexivity).
  rewrite forallb_forall in H. apply Z.eqb_eq.
  rewrite <- (Z2Nat.id j) by lia. apply H, in_seq. lia.
Qed.

Lemma example_zero_root :
  vm_ok example_root example ∧ (∀ va, translate_in example_root example va = None) ∧
  (∀ x, table_bytes (pa_offset example) (pa_ram example) example_root x → range example_root 4096 x).
Proof.
  apply zero_root.
  - apply example_vm_base.
  - by vm_compute.
  - intros x Hx Hx'%example_owned. unfold range, example_root in Hx. lia.
  - apply example_root_zero.
Qed.

Lemma map_correct_witness :
  ∃ s', map example_root 0x1234567000 0x89000 example = Done s' ∧
        translate_in example_root s' 0x1234567abc = Some 0x89abc ∧ at_least 2 s'.
Proof.
  destruct (map_correct 5 example_root 0x1234567000 0x89000 example (proj1 example_zero_root) example_five_pages)
    as (s' & E & _ & C & _ & _ & X); [by vm_compute|].
  exists s'. split; [exact E|]. split; [|exact C]. rewrite X. vm_compute. reflexivity.
Defined.

Lemma allocateRootPageTable_empty_witness :
  ∃ root s', allocateRootPageTable example = Done (root, s') ∧ translate_in root s' 0x1000 = None.
Proof.
  destruct (allocateRootPageTable_empty 5 example example_vm_base example_five_pages)
    as (root & s' & E & _ & _ & _ & _ & _ & X); [lia|].
  exists root, s'. split; [exact E|apply X].
Defined.

Lemma shallowCopy_translates_witness :
  ∃ copy s', shallowCopy example_root example = Done (copy, s') ∧ translate_in copy s' 0x1000 = None.
Proof.
  destruct (shallowCopy_translates 5 example_root example (proj1 example_zero_root) example_five_pages)
    as (copy & s' & E & _ & _ & _ & _ & _ & X & _); [lia|].
  exists copy, s'. split; [exact E|]. rewrite X. apply (proj1 (proj2 example_zero_root)).
Defined.

