(* ===== verification/MachineSpace.v ===== *)
(** Address spaces over the free-list allocator: what the allocator's lock, the processors'
    records and allocations for other use leave of them. *)

From S2P Require Import Prelude Mem GDT Cpu Spinlock PhysMem PageAlloc CpuReady PhysPages Paging PageTables VirtMem.

Section machine.
Context (fuel : nat).
#[local] Hint Extern 0 (PageAllocator machine) => exact (phys_pages fuel) : typeclass_instances.
#[local] Hint Extern 0 (PageAllocatorLaws machine) => exact (phys_pages_laws fuel) : typeclass_instances.

Lemma vm_ok_base root (s : machine) : vm_ok root s → vm_base s.
Proof. intros H. split; [|split]; apply H. Qed.

(** Only the lock or the records differ. *)
Lemma vm_ok_same root (s s' : machine) :
  vm_ok root s → same_but_lock s s' → lock_ready s' →
  vm_ok root s' ∧ (∀ n, at_least n s → at_least n s') ∧
  (∀ va, translate_in root s' va = translate_in root s va) ∧ vm_frame root s s'.
Proof.
  intros Hvm Hs Hr. destruct (phys_same fuel s s' (vm_pa _ _ Hvm) Hs Hr) as (P1 & P2 & P3).
  pose proof Hs as (Hm & _ & Ho).
  assert (HA : ∀ P, agree P (ram s') (ram s)) by (rewrite Hm; intros P; apply agree_refl).
  destruct (vm_ok_kept root s s' Hvm) as (V & X & T).
  - destruct (vm_ok_base _ _ Hvm) as (_ & B2 & B3). split; [exact P1|].
    change (pa_offset s') with (HigherHalfDirectMapOffset s'). rewrite Ho. split; [exact B2|].
    intros x Hx%P2. by apply B3.
  - exact Ho.
  - apply HA.
  - intros x Hx. by apply P2.
  - split; [done|]. split; [intros n (k & Hk & Hn); exists k; split; [by apply P3|done]|].
    split; [done|]. split; [done|apply HA].
Qed.

Lemma lock_ready_set_env depth e s : lock_ready s → cpu_ready depth e → lock_ready (set_env e s).
Proof.
  intros (H1 & H2) He. split; [done|]. intros Hu. split; [by apply H2|].
  by apply (cpu_ready_record depth).
Qed.

Lemma vm_ok_set_env depth root e (s : machine) :
  vm_ok root s → cpu_ready depth e →
  vm_ok root (set_env e s) ∧ (∀ n, at_least n s → at_least n (set_env e s)) ∧
  (∀ va, translate_in root (set_env e s) va = translate_in root s va) ∧
  vm_frame root s (set_env e s).
Proof.
  intros Hvm He. apply vm_ok_same; [done|by split|].
  eapply lock_ready_set_env; [apply (proj1 (vm_pa _ _ Hvm))|exact He].
Qed.

(** Writing where neither tables nor free pages are. *)
Lemma vm_write root m (s : machine) :
  vm_ok root s → agree (touched root s) m (ram s) →
  vm_ok root (set_ram m s) ∧ (∀ va, translate_in root (set_ram m s) va = translate_in root s va) ∧
  (∀ x, touched root (set_ram m s) x → touched root s x).
Proof.
  intros Hvm HA.
  destruct (pa_frame m s (vm_pa _ _ Hvm)) as (F1 & F2 & _).
  { eapply agree_weaken; [|exact HA]. intros x Hx. by right. }
  apply vm_ok_kept; [done| |done| |intros x Hx; by apply F2].
  - destruct (vm_ok_base _ _ Hvm) as (_ & B2 & B3). split; [exact F1|]. split; [exact B2|].
    intros x Hx%F2. by apply B3.
  - eapply agree_weaken; [|exact HA]. intros x Hx. by left.
Qed.

(** [k] pages in a row for other use. *)
Lemma vm_block root k n (s : machine) :
  vm_ok root s → at_least n s → 1 ≤ k → (k - 1) * Z.of_nat fuel < n →
  ∃ a s', allocatePages fuel k s = Done (a, s') ∧ a ≠ 0 ∧ 0 < a ∧ a + 4096 * k ≤ 2 ^ 64 ∧
    vm_ok root s' ∧ HigherHalfDirectMapOffset s' = HigherHalfDirectMapOffset s ∧
    at_least (n - k) s' ∧ vm_frame root s s' ∧
    agree (λ x, ¬ pa_owned s x) (ram s') (ram s) ∧ (∀ x, pa_owned s' x → pa_owned s x) ∧
    (∀ x, range a (4096 * k) x → pa_owned s x ∧ ¬ touched root s' x) ∧
    (∀ va, translate_in root s' va = translate_in root s va).
Proof.
  intros Hvm (q & Hq & Hqn) Hk Hn.
  destruct (phys_alloc_block fuel k s (vm_pa _ _ Hvm) Hk) as (a & s' & E & Hok & Ho & HA & Hsub & Hpage & Hcnt).
  destruct (Hcnt q Hq ltac:(lia)) as [Hz Hq']. destruct (Hpage Hz) as (_ & H0 & H64 & Hown).
  assert (HAt : agree (table_bytes (pa_offset s) (pa_ram s) root) (pa_ram s') (pa_ram s)).
  { eapply agree_weaken; [|exact HA]. intros x Hx. by apply (vm_apart _ _ Hvm). }
  destruct (vm_ok_kept root s s' Hvm) as (V & X & T); try done.
  { destruct (vm_ok_base _ _ Hvm) as (_ & B2 & B3). split; [exact Hok|].
    change (pa_offset s') with (HigherHalfDirectMapOffset s'). rewrite Ho. split; [exact B2|].
    intros x Hx%Hsub. by apply B3. }
  destruct (pt_wf_agree _ _ _ _ (vm_wf _ _ Hvm) HAt) as (_ & W & _).
  exists a, s'. do 6 (split; [done|]). split; [exists (q - k); split; [done|lia]|].
  split; [split; [exact T|]; eapply agree_weaken; [|exact HA]; intros x Hx Hr; apply Hx; by right|].
  do 2 (split; [done|]). split; [|exact X]. intros x Hx. destruct (Hown x Hx) as [O1 O2].
  split; [done|]. intros [(t & Ht & Hxt)|Hx']; [|by apply O2].
  apply (vm_apart _ _ Hvm x); [|done]. exists t. split; [|done]. apply W.
  change (pa_offset s') with (HigherHalfDirectMapOffset s') in Ht. by rewrite Ho in Ht.
Qed.
End machine.

(** ** Processors' records across the operations on page tables *)

Section records.
Context (fuel : nat) (depth : Z).

Lemma env_ready_set_ram m s : env_ready depth s → env_ready depth (@pa_set_ram _ (phys_pages fuel) m s).
Proof. intros H. exact H. Qed.

Lemma env_ready_alloc s a s' :
  env_ready depth s → @pa_allocatePage _ (phys_pages fuel) s = Done (a, s') → env_ready depth s'.
Proof. intros He E. by apply (allocatePages_steady _ _ _ _ _ _ E). Qed.
End records.
