(* ===== verification/PrintfCore.v ===== *)
(** [printf.c], part 1: the output functions, the string helpers and integer conversion.

    A character is its byte value.  Every function that produces output takes, like the code, an
    output function [out] with [buffer] and [maxlen], and threads the position [idx] with the
    state [out] works on (memory, the console, whatever a caller's function changes).  The
    position is a [size_t] and wraps. *)

From Stdlib Require Import Ascii String.
From S2P Require Import Prelude Mem.

Definition ch (c : ascii) : Z := Z.of_nat (nat_of_ascii c).
Definition str (s : string) : list Z := ch <$> list_ascii_of_string s.

(** ** Configuration and flags *)

Definition PRINTF_NTOA_BUFFER_SIZE : Z := 32.

Definition FLAGS_ZEROPAD : Z := Z.shiftl 1 0.
Definition FLAGS_LEFT : Z := Z.shiftl 1 1.
Definition FLAGS_PLUS : Z := Z.shiftl 1 2.
Definition FLAGS_SPACE : Z := Z.shiftl 1 3.
Definition FLAGS_HASH : Z := Z.shiftl 1 4.
Definition FLAGS_UPPERCASE : Z := Z.shiftl 1 5.
Definition FLAGS_CHAR : Z := Z.shiftl 1 6.
Definition FLAGS_SHORT : Z := Z.shiftl 1 7.
Definition FLAGS_LONG : Z := Z.shiftl 1 8.
Definition FLAGS_LONG_LONG : Z := Z.shiftl 1 9.
Definition FLAGS_PRECISION : Z := Z.shiftl 1 10.
Definition FLAGS_ADAPT_EXP : Z := Z.shiftl 1 11.

(** [flags & F] as a condition, [flags |= F] and [flags &= ~F]. *)
Definition has (flags F : Z) : bool := negb (Z.land flags F =? 0).
Definition add_flag (flags F : Z) : Z := Z.lor flags F.
Definition drop_flag (flags F : Z) : Z := Z.ldiff flags F.

(** ** Output functions *)

(** A function of a character, a buffer, an index and a limit that acts on a state. *)
Definition out_fct_type (St : Type) : Type := Z → Z → Z → Z → St → St.

Definition _out_buffer : out_fct_type mem :=
  λ character buffer idx maxlen m,
    if idx <? maxlen then store 1 m (buffer + idx) character else m.

Definition _out_null {St} : out_fct_type St := λ _ _ _ _ st, st.

(** [putchar] is the program's [_putchar]. *)
Definition _out_char {St} (putchar : Z → St → St) : out_fct_type St :=
  λ character _ _ _ st, if character =? 0 then st else putchar character st.

(** [fct] is the caller's function applied to its argument. *)
Definition _out_fct {St} (fct : Z → St → St) : out_fct_type St :=
  λ character _ _ _ st, if character =? 0 then st else fct character st.

(** ** Strings *)

(** A C string is the list of its characters; what a pointer into it points at is the first
    character left, or the terminator. *)
Definition cur (s : list Z) : Z := match s with c :: _ => c | [] => 0 end.

Fixpoint _strnlen_s (s : list Z) (maxsize : Z) : Z :=
  match s with
  | c :: s => if (c =? 0) || (maxsize =? 0) then 0 else 1 + _strnlen_s s (maxsize - 1)
  | [] => 0
  end.

Definition _is_digit (c : Z) : bool := (ch "0" <=? c) && (c <=? ch "9").

(** The value read and the rest of the string; [unsigned int] arithmetic wraps. *)
Fixpoint atoi_loop (i : Z) (s : list Z) : Z * list Z :=
  match s with
  | c :: s' => if _is_digit c then atoi_loop (u32 (u32 (i * 10) + u32 (c - ch "0"))) s' else (i, s)
  | [] => (i, [])
  end.
Definition _atoi (s : list Z) : Z * list Z := atoi_loop 0 s.

(** ** Producing output *)

Section output.
Context {St : Type} (out : out_fct_type St) (buffer maxlen : Z).

(** [out(c, buffer, idx++, maxlen)] *)
Definition putc (c : Z) (o : Z * St) : Z * St :=
  let '(idx, st) := o in (u64 (idx + 1), out c buffer idx maxlen st).

Fixpoint put_n (n : nat) (c : Z) (o : Z * St) : Z * St :=
  match n with O => o | S n => put_n n c (putc c o) end.

(** [buf] holds the [len] characters that are in use. *)
Definition _out_rev (o : Z * St) (buf : list Z) (width flags : Z) : Z * St :=
  let start_idx := o.1 in
  let len := Z.of_nat (length buf) in
  let o :=
    if negb (has flags FLAGS_LEFT) && negb (has flags FLAGS_ZEROPAD)
    then put_n (Z.to_nat (width - len)) (ch " ") o       (* for (i = len; i < width; i++) *)
    else o in
  let o := foldl (λ o c, putc c o) o (rev buf) in
  if has flags FLAGS_LEFT
  then put_n (Z.to_nat (width - u64 (o.1 - start_idx))) (ch " ") o   (* while (idx - start_idx < width) *)
  else o.

(** [while ((len < limit) && (len < size)) buf[len++] = c] *)
Definition fill (size limit c : Z) (buf : list Z) : list Z :=
  buf ++ replicate (Z.to_nat (Z.min limit size - Z.of_nat (length buf))) c.

(** [if (len < size) buf[len++] = c] *)
Definition push (size c : Z) (buf : list Z) : list Z :=
  if Z.of_nat (length buf) <? size then buf ++ [c] else buf.

(** The sign character, if any. *)
Definition push_sign (size : Z) (negative : bool) (flags : Z) (buf : list Z) : list Z :=
  if negative then push size (ch "-") buf
  else if has flags FLAGS_PLUS then push size (ch "+") buf
  else if has flags FLAGS_SPACE then push size (ch " ") buf
  else buf.

(** The prefix of the [#] flag; when padding filled the precision or the width exactly, up to two
    characters are given back first. *)
Definition push_hash (base prec width flags : Z) (buf : list Z) : list Z :=
  let size := PRINTF_NTOA_BUFFER_SIZE in
  let len := Z.of_nat (length buf) in
  let buf :=
    if negb (has flags FLAGS_PRECISION) && negb (len =? 0) && ((len =? prec) || (len =? width)) then
      let buf := removelast buf in
      if negb (Z.of_nat (length buf) =? 0) && (base =? 16) then removelast buf else buf
    else buf in
  let room := Z.of_nat (length buf) <? size in
  let buf :=
    if (base =? 16) && negb (has flags FLAGS_UPPERCASE) && room then buf ++ [ch "x"]
    else if (base =? 16) && has flags FLAGS_UPPERCASE && room then buf ++ [ch "X"]
    else if (base =? 2) && room then buf ++ [ch "b"]
    else buf in
  push size (ch "0") buf.

(** The buffer [_ntoa_format] reverses, and the width it pads to. *)
Definition ntoa_layout (buf : list Z) (negative : bool) (base prec width flags : Z)
    : list Z * Z :=
  let size := PRINTF_NTOA_BUFFER_SIZE in
  let '(buf, width) :=
    if negb (has flags FLAGS_LEFT) then
      let width :=
        if negb (width =? 0) && has flags FLAGS_ZEROPAD
           && (negative || has flags (Z.lor FLAGS_PLUS FLAGS_SPACE))
        then width - 1 else width in
      let buf := fill size prec (ch "0") buf in
      let buf := if has flags FLAGS_ZEROPAD then fill size width (ch "0") buf else buf in
      (buf, width)
    else (buf, width) in
  let buf := if has flags FLAGS_HASH then push_hash base prec width flags buf else buf in
  (push_sign size negative flags buf, width).

Definition _ntoa_format (o : Z * St) (buf : list Z) (negative : bool)
    (base prec width flags : Z) : Z * St :=
  let '(buf, width) := ntoa_layout buf negative base prec width flags in
  _out_rev o buf width flags.

Definition digit_char (flags digit : Z) : Z :=
  if digit <? 10 then ch "0" + digit
  else (if has flags FLAGS_UPPERCASE then ch "A" else ch "a") + digit - 10.

(** The [do ... while (value && (len < PRINTF_NTOA_BUFFER_SIZE))] loop, least significant digit
    first; [room] is what is left of the buffer. *)
Fixpoint ntoa_digits (room : nat) (value base flags : Z) : list Z :=
  match room with
  | O => []
  | S room =>
      digit_char flags (value mod base) ::
        (if value / base =? 0 then [] else ntoa_digits room (value / base) base flags)
  end.

Definition ntoa_buf (value base flags : Z) : list Z :=
  if negb (has flags FLAGS_PRECISION) || negb (value =? 0)
  then ntoa_digits (Z.to_nat PRINTF_NTOA_BUFFER_SIZE) value base flags else [].

Definition _ntoa_long (o : Z * St) (value : Z) (negative : bool)
    (base prec width flags : Z) : Z * St :=
  let flags := if value =? 0 then drop_flag flags FLAGS_HASH else flags in
  _ntoa_format o (ntoa_buf value base flags) negative base prec width flags.

(** The same text as [_ntoa_long]; [long] and [long long] are both 64 bits wide. *)
Definition _ntoa_long_long (o : Z * St) (value : Z) (negative : bool)
    (base prec width flags : Z) : Z * St :=
  let flags := if value =? 0 then drop_flag flags FLAGS_HASH else flags in
  _ntoa_format o (ntoa_buf value base flags) negative base prec width flags.
End output.

(** ** Lemmas: every output is a sequence of characters *)

(** Writing the characters [cs] one after the other. *)
Definition emit {St} (out : out_fct_type St) (buffer maxlen : Z) (cs : list Z) (o : Z * St) : Z * St :=
  foldl (λ o c, putc out buffer maxlen c o) o cs.

Definition idx_range {St} (o : Z * St) : Prop := 0 ≤ o.1 < 2 ^ 64.

Section emit.
Context {St : Type} (out : out_fct_type St) (buffer maxlen : Z).
Local Abbreviation emit := (emit out buffer maxlen).

Lemma emit_app l1 l2 o : emit (l1 ++ l2) o = emit l2 (emit l1 o).
Proof using. apply foldl_app. Qed.

Lemma emit_idx l o : idx_range o → (emit l o).1 = u64 (o.1 + Z.of_nat (length l)).
Proof using.
  revert o; induction l as [|c l IH]; intros [idx st] Ho; simpl.
  { rewrite Z.add_0_r. symmetry. by apply uw_small. }
  fold (emit l (u64 (idx + 1), out c buffer idx maxlen st)).
  rewrite IH by (apply uw_range; lia). simpl.
  unfold uw. rewrite Zplus_mod_idemp_l. f_equal. lia.
Qed.

Lemma emit_range l o : idx_range o → idx_range (emit l o).
Proof using. intros Ho. unfold idx_range. rewrite emit_idx by done. apply uw_range. lia. Qed.

Lemma put_n_emit n c o : put_n out buffer maxlen n c o = emit (replicate n c) o.
Proof using. revert o; induction n as [|n IH]; intros o; [done|]. simpl. apply IH. Qed.

(** The characters [_out_rev] writes. *)
Definition rev_text (buf : list Z) (width flags : Z) : list Z :=
  let pad := replicate (Z.to_nat (width - Z.of_nat (length buf))) (ch " ") in
  (if negb (has flags FLAGS_LEFT) && negb (has flags FLAGS_ZEROPAD) then pad else [])
  ++ rev buf ++ (if has flags FLAGS_LEFT then pad else []).

Lemma out_rev_emit o buf width flags :
  idx_range o → Z.of_nat (length buf) < 2 ^ 64 →
  _out_rev out buffer maxlen o buf width flags = emit (rev_text buf width flags) o.
Proof using.
  intros Ho Hl. unfold _out_rev, rev_text.
  destruct (has flags FLAGS_LEFT) eqn:EL; simpl.
  - fold (emit (rev buf) o). rewrite put_n_emit, emit_app. do 2 f_equal.
    rewrite emit_idx by done. rewrite length_rev.
    replace (u64 (u64 (o.1 + Z.of_nat (length buf)) - o.1)) with (Z.of_nat (length buf)); [done|].
    unfold uw. rewrite Zminus_mod_idemp_l, Z.add_simpl_l. symmetry. apply Z.mod_small. lia.
  - rewrite !app_nil_r. destruct (has flags FLAGS_ZEROPAD); simpl; [done|].
    by rewrite put_n_emit, emit_app.
Qed.
End emit.

(** ** Integer conversion as text *)

(** The characters of [_ntoa_format] and of [_ntoa_long]. *)
Definition format_text (buf : list Z) (negative : bool) (base prec width flags : Z) : list Z :=
  let '(buf, width) := ntoa_layout buf negative base prec width flags in rev_text buf width flags.
Definition ntoa_text (value : Z) (negative : bool) (base prec width flags : Z) : list Z :=
  let flags := if value =? 0 then drop_flag flags FLAGS_HASH else flags in
  format_text (ntoa_buf value base flags) negative base prec width flags.

Lemma fill_length size limit c buf :
  Z.of_nat (length (fill size limit c buf)) = Z.max (Z.of_nat (length buf)) (Z.min limit size).
Proof. unfold fill. rewrite length_app, length_replicate. lia. Qed.

Lemma push_length size c buf :
  Z.of_nat (length (push size c buf)) =
    if Z.of_nat (length buf) <? size then Z.of_nat (length buf) + 1 else Z.of_nat (length buf).
Proof. unfold push. destruct (_ <? _); [rewrite length_app; simpl; lia|done]. Qed.

Lemma push_le size c buf :
  Z.of_nat (length buf) ≤ size → Z.of_nat (length (push size c buf)) ≤ size.
Proof. rewrite push_length. destruct (Z.ltb_spec (Z.of_nat (length buf)) size); lia. Qed.

Lemma push_sign_le size negative flags buf :
  Z.of_nat (length buf) ≤ size → Z.of_nat (length (push_sign size negative flags buf)) ≤ size.
Proof. unfold push_sign. repeat case_match; auto using push_le. Qed.

Lemma removelast_le {A} (l : list A) : (length (removelast l) ≤ length l)%nat.
Proof. destruct l as [|a l] using rev_ind; [done|]. rewrite removelast_last, length_app. lia. Qed.

Lemma push_hash_le base prec width flags buf :
  Z.of_nat (length buf) ≤ 32 → Z.of_nat (length (push_hash base prec width flags buf)) ≤ 32.
Proof.
  intros Hl. unfold push_hash. change PRINTF_NTOA_BUFFER_SIZE with 32.
  set (b1 := if _ && _ && _ then _ else buf).
  assert (Z.of_nat (length b1) ≤ 32) as H1.
  { subst b1. destruct (_ && _ && _); [|done]. pose proof (removelast_le buf).
    pose proof (removelast_le (removelast buf)). destruct (_ && _); lia. }
  clearbody b1. apply push_le.
  destruct (Z.ltb_spec (Z.of_nat (length b1)) 32); rewrite ?andb_false_r, ?andb_true_r; [|done].
  repeat case_match; rewrite ?length_app; simpl; lia.
Qed.

Lemma ntoa_layout_le buf negative base prec width flags :
  Z.of_nat (length buf) ≤ 32 →
  Z.of_nat (length (ntoa_layout buf negative base prec width flags).1) ≤ 32.
Proof.
  intros Hl. unfold ntoa_layout. change PRINTF_NTOA_BUFFER_SIZE with 32.
  destruct (negb (has flags FLAGS_LEFT)); simpl; apply push_sign_le;
    (destruct (has flags FLAGS_HASH); [apply push_hash_le|]);
    repeat case_match; rewrite ?fill_length; lia.
Qed.

Lemma ntoa_digits_length room value base flags :
  (length (ntoa_digits room value base flags) ≤ room)%nat.
Proof.
  revert value; induction room as [|room IH]; intros value; [done|]. simpl.
  destruct (_ =? 0); simpl; [lia|]. specialize (IH (value / base)). lia.
Qed.

(** A value below [base^k] has at most [k] digits, but always one. *)
Lemma ntoa_digits_short room value base flags k :
  2 ≤ base → 0 ≤ value < base ^ Z.of_nat k → (1 ≤ k)%nat →
  (length (ntoa_digits room value base flags) ≤ k)%nat.
Proof.
  intros Hb. revert value room; induction k as [|k IH]; intros value room Hv Hk; [lia|].
  destruct room as [|room]; simpl; [lia|].
  destruct (Z.eqb_spec (value / base) 0) as [|Hn]; simpl; [lia|].
  rewrite Nat2Z.inj_succ, Z.pow_succ_r in Hv by lia.
  assert (0 ≤ value / base < base ^ Z.of_nat k) as Hd
    by (split; [apply Z.div_pos; lia|apply Z.div_lt_upper_bound; lia]).
  assert (1 ≤ k)%nat by (destruct k; [simpl in Hd; lia|lia]).
  specialize (IH (value / base) room Hd ltac:(done)). lia.
Qed.

Lemma ntoa_buf_le value base flags : Z.of_nat (length (ntoa_buf value base flags)) ≤ 32.
Proof.
  unfold ntoa_buf. destruct (_ || _); [|simpl; lia].
  pose proof (ntoa_digits_length (Z.to_nat PRINTF_NTOA_BUFFER_SIZE) value base flags) as H.
  change PRINTF_NTOA_BUFFER_SIZE with 32 in *. lia.
Qed.

(** No conversion fills more than the 32 characters of its local buffer, whatever value, base,
    precision, width and flags it is given. *)
Theorem ntoa_buffer_bound value negative base prec width flags :
  let flags := if value =? 0 then drop_flag flags FLAGS_HASH else flags in
  Z.of_nat (length (ntoa_layout (ntoa_buf value base flags) negative base prec width flags).1)
    ≤ PRINTF_NTOA_BUFFER_SIZE.
Proof. apply ntoa_layout_le, ntoa_buf_le. Qed.

Lemma ntoa_long_emit {St} (out : out_fct_type St) buffer maxlen o value negative base prec width flags :
  idx_range o →
  _ntoa_long out buffer maxlen o value negative base prec width flags =
    emit out buffer maxlen (ntoa_text value negative base prec width flags) o.
Proof.
  intros Ho. unfold _ntoa_long, ntoa_text, _ntoa_format, format_text.
  set (fl := if value =? 0 then _ else flags).
  pose proof (ntoa_layout_le (ntoa_buf value base fl) negative base prec width fl
                (ntoa_buf_le _ _ _)) as Hl.
  destruct (ntoa_layout _ _ _ _ _ _) as [buf w]. simpl in Hl. apply out_rev_emit; [done|lia].
Qed.

(** ** Digits *)

(** The value of one digit character, either case, and of a digit sequence, least significant
    first. *)
Definition char_value (c : Z) : Z :=
  if c <? ch "A" then c - ch "0" else if c <? ch "a" then c - ch "A" + 10 else c - ch "a" + 10.
Definition digits_value (base : Z) (ds : list Z) : Z :=
  foldr (λ c acc, char_value c + base * acc) 0 ds.

Lemma char_value_digit flags d : 0 ≤ d < 16 → char_value (digit_char flags d) = d.
Proof.
  intros Hd. unfold char_value, digit_char.
  change (ch "A") with 65. change (ch "a") with 97. change (ch "0") with 48.
  destruct (Z.ltb_spec d 10); [destruct (Z.ltb_spec (48 + d) 65); lia|].
  destruct (has flags FLAGS_UPPERCASE);
    repeat match goal with |- context [?a <? ?b] => destruct (Z.ltb_spec a b) end; lia.
Qed.

Lemma ntoa_digits_value room value base flags :
  0 ≤ value → 2 ≤ base ≤ 16 →
  digits_value base (ntoa_digits room value base flags) = value mod base ^ Z.of_nat room.
Proof.
  intros Hv Hb. revert value Hv; induction room as [|room IH]; intros value Hv.
  { simpl. by rewrite Z.mod_1_r. }
  cbn [ntoa_digits digits_value foldr].
  rewrite char_value_digit by (pose proof (Z.mod_pos_bound value base); lia).
  rewrite Nat2Z.inj_succ, Z.pow_succ_r by lia.
  rewrite Z.rem_mul_r by (try lia; apply Z.pow_nonzero; lia).
  f_equal. f_equal. destruct (Z.eqb_spec (value / base) 0) as [->|].
  - symmetry. apply Z.mod_0_l. apply Z.pow_nonzero; lia.
  - apply IH. apply Z.div_pos; lia.
Qed.

(** The digits converted are those of the value, as long as there are at most 32 of them: a
    value of 2^32 or more printed in binary loses its upper digits. *)
Theorem ntoa_digits_mod value base flags :
  0 ≤ value → 2 ≤ base ≤ 16 → has flags FLAGS_PRECISION = false →
  digits_value base (ntoa_buf value base flags) = value mod base ^ 32.
Proof. intros Hv Hb Hf. unfold ntoa_buf. rewrite Hf. by apply (ntoa_digits_value 32). Qed.

Lemma ntoa_digits_mod_witness : digits_value 2 (ntoa_buf (2 ^ 40 + 5) 2 0) = 5.
Proof. rewrite ntoa_digits_mod; [done|lia|lia|done]. Defined.

(** ** Integer conversion, as specified *)

Lemma has_lor flags F G : has flags (Z.lor F G) = has flags F || has flags G.
Proof.
  unfold has. rewrite Z.land_lor_distr_r.
  destruct (Z.eqb_spec (Z.land flags F) 0) as [->|HF], (Z.eqb_spec (Z.land flags G) 0) as [->|HG]; [done| | |];
    simpl; apply negb_true_iff, Z.eqb_neq; rewrite Z.lor_eq_0_iff; tauto.
Qed.

Lemma drop_absent flags F : has flags F = false → drop_flag flags F = flags.
Proof.
  unfold has, drop_flag. intros H%negb_false_iff%Z.eqb_eq. apply Z.bits_inj'. intros i Hi.
  rewrite Z.ldiff_spec. apply (f_equal (λ x, Z.testbit x i)) in H.
  rewrite Z.land_spec, Z.bits_0 in H. by destruct (Z.testbit flags i), (Z.testbit F i).
Qed.

Definition sign_text (negative : bool) (flags : Z) : list Z :=
  if negative then [ch "-"] else if has flags FLAGS_PLUS then [ch "+"]
  else if has flags FLAGS_SPACE then [ch " "] else [].
Definition spaces (n : Z) : list Z := replicate (Z.to_nat n) (ch " ").
Definition zeros (n : Z) : list Z := replicate (Z.to_nat n) (ch "0").

(** What the C standard asks of a conversion without [#] and without [-]: the digits are padded
    with zeros to the precision, and the result to the width, with zeros between the sign and
    the digits or with spaces on the left. *)
Definition right_spec (digits : list Z) (negative : bool) (prec width flags : Z) : list Z :=
  let sign := sign_text negative flags in
  let len := Z.of_nat (length digits) in
  let n := Z.of_nat (length sign) in
  if has flags FLAGS_ZEROPAD then sign ++ zeros (Z.max prec (width - n) - len) ++ digits
  else spaces (width - n - Z.max prec len) ++ sign ++ zeros (prec - len) ++ digits.

Lemma push_sign_app size negative flags buf :
  Z.of_nat (length buf) < size ∨ sign_text negative flags = [] →
  push_sign size negative flags buf = buf ++ sign_text negative flags.
Proof.
  unfold push_sign, sign_text, push. intros [H|H].
  - destruct (Z.ltb_spec (Z.of_nat (length buf)) size); [|lia].
    repeat case_match; rewrite ?app_nil_r; done.
  - repeat case_match; try done; by rewrite app_nil_r.
Qed.

Lemma format_right buf negative base prec width flags :
  has flags FLAGS_LEFT = false → has flags FLAGS_HASH = false →
  Z.of_nat (length buf) < 32 → 0 ≤ prec < 32 → 0 ≤ width →
  (has flags FLAGS_ZEROPAD = true → width ≤ 32) →
  format_text buf negative base prec width flags = right_spec (rev buf) negative prec width flags.
Proof.
  intros HL HH Hb Hp Hw Hz. unfold format_text, ntoa_layout, right_spec.
  rewrite HL, HH, has_lor. cbn [negb]. change PRINTF_NTOA_BUFFER_SIZE with 32.
  set (w := if _ && _ && _ then width - 1 else width).
  assert (Hn : length (sign_text negative flags) =
            if negative || (has flags FLAGS_PLUS || has flags FLAGS_SPACE) then 1%nat else 0%nat).
  { unfold sign_text. destruct negative, (has flags FLAGS_PLUS), (has flags FLAGS_SPACE); done. }
  rewrite length_rev. destruct (has flags FLAGS_ZEROPAD) eqn:EZ; cbn [andb] in *.
  - assert (Hw' : w = if negb (width =? 0) then width - Z.of_nat (length (sign_text negative flags)) else 0).
    { subst w. rewrite Hn. rewrite andb_true_r.
      destruct (Z.eqb_spec width 0) as [->|]; [done|]. simpl.
      destruct (negative || _); simpl; lia. }
    clearbody w. rewrite push_sign_app.
    + unfold rev_text. rewrite HL, EZ. simpl. rewrite app_nil_r, !rev_app_distr, <- rev_app_distr.
      unfold fill. rewrite <- !app_assoc, !rev_app_distr, !rev_replicate.
      assert (rev (sign_text negative flags) = sign_text negative flags) as ->
        by (unfold sign_text; by repeat case_match).
      rewrite <- !app_assoc. f_equal. rewrite app_assoc. f_equal. unfold zeros.
      rewrite <- replicate_add. f_equal. rewrite length_app, length_replicate.
      destruct (Z.eqb_spec width 0); simpl in *; lia.
    + destruct (sign_text negative flags) eqn:Es; [by right|]. left. rewrite !fill_length.
      destruct (Z.eqb_spec width 0); simpl in *; lia.
  - assert (w = width) as -> by (subst w; by rewrite andb_false_r). clear Hz.
    rewrite push_sign_app by (left; rewrite fill_length; lia).
    unfold rev_text. rewrite HL, EZ. simpl. rewrite app_nil_r, rev_app_distr.
    unfold fill. rewrite rev_app_distr, rev_replicate, !length_app, length_replicate.
    assert (rev (sign_text negative flags) = sign_text negative flags) as ->
      by (unfold sign_text; by repeat case_match).
    unfold spaces, zeros. f_equal; [f_equal; lia|]. f_equal. f_equal. f_equal. lia.
Qed.

Lemma ntoa_buf_short value base flags :
  0 ≤ value < 2 ^ 64 → 8 ≤ base ≤ 16 → Z.of_nat (length (ntoa_buf value base flags)) ≤ 22.
Proof.
  intros Hv Hb. unfold ntoa_buf. destruct (_ || _); [|simpl; lia].
  assert (8 ^ 22 ≤ base ^ Z.of_nat 22) by (apply Z.pow_le_mono_l; lia).
  assert (2 ^ 64 ≤ 8 ^ 22) by (by vm_compute).
  pose proof (ntoa_digits_short (Z.to_nat PRINTF_NTOA_BUFFER_SIZE) value base flags 22
    ltac:(lia) ltac:(lia) ltac:(lia)). lia.
Qed.



(** Left-adjusted conversion leaves the precision out of account: the digits are not padded with
    zeros to it. *)
Theorem ntoa_left_ignores_precision value negative base prec width flags :
  0 ≤ value < 2 ^ 64 → 8 ≤ base ≤ 16 →
  has flags FLAGS_LEFT = true → has flags FLAGS_HASH = false →
  let digits := rev (ntoa_buf value base flags) in
  let text := sign_text negative flags ++ digits in
  ntoa_text value negative base prec width flags =
    text ++ spaces (width - Z.of_nat (length text)).
Proof.
  intros Hv Hb HL HH digits text. unfold ntoa_text. rewrite drop_absent by done.
  assert ((if value =? 0 then flags else flags) = flags) as -> by (by destruct (_ =? 0)).
  pose proof (ntoa_buf_short value base flags Hv Hb) as Hl.
  unfold format_text, ntoa_layout. rewrite HL, HH. cbn [negb].
  change PRINTF_NTOA_BUFFER_SIZE with 32. rewrite push_sign_app by (left; lia).
  unfold rev_text. rewrite HL. cbn [negb andb]. rewrite rev_app_distr, app_nil_l.
  assert (rev (sign_text negative flags) = sign_text negative flags) as ->
    by (unfold sign_text; by repeat case_match).
  subst text digits. unfold spaces. by rewrite !length_app, length_rev, Nat.add_comm.
Qed.

Lemma ntoa_left_ignores_precision_witness :
  ntoa_text 5 false 10 3 6 (Z.lor FLAGS_LEFT FLAGS_PRECISION) = str "5     ".
Proof. rewrite ntoa_left_ignores_precision; [by vm_compute|lia|lia|done|done]. Defined.

(** ** Writing into a buffer *)

(** The characters land at consecutive addresses from the current position on, as far as they
    lie below [maxlen]; nothing else changes. *)
Lemma emit_buffer buffer maxlen cs idx m a :
  0 ≤ idx → idx + Z.of_nat (length cs) < 2 ^ 64 →
  load8 (emit _out_buffer buffer maxlen cs (idx, m)).2 a =
    let i := a - buffer in
    if (idx <=? i) && (i <? Z.min (idx + Z.of_nat (length cs)) maxlen)
    then u8 (nth (Z.to_nat (i - idx)) cs 0) else load8 m a.
Proof.
  revert idx m; induction cs as [|c cs IH]; intros idx m Hi Hl; simpl in Hl.
  { cbv zeta. change (length []) with 0%nat. destruct (Z.leb_spec idx (a - buffer)); simpl; [|done].
    destruct (a - buffer <? _) eqn:E; [|done]. apply Z.ltb_lt in E. lia. }
  change (emit _out_buffer buffer maxlen (c :: cs) (idx, m))
    with (emit _out_buffer buffer maxlen cs (u64 (idx + 1), _out_buffer c buffer idx maxlen m)).
  rewrite (uw_small 64 (idx + 1)) by lia. rewrite IH by lia. cbv zeta.
  unfold _out_buffer. cbn [length]. rewrite Nat2Z.inj_succ.
  assert (Hst : load8 (if idx <? maxlen then store 1 m (buffer + idx) c else m) a =
            if (a - buffer =? idx) && (idx <? maxlen) then u8 c else load8 m a).
  { destruct (Z.ltb_spec idx maxlen); [|by rewrite andb_false_r]. rewrite load8_store, andb_true_r.
    change (Z.of_nat 1) with 1.
    destruct (Z.eqb_spec (a - buffer) idx) as [E|E].
    - replace (a - (buffer + idx)) with 0 by lia. rewrite Z.mul_0_r, Z.shiftr_0_r.
      destruct (Z.leb_spec (buffer + idx) a), (Z.ltb_spec a (buffer + idx + 1)); try lia.
      done.
    - destruct (Z.leb_spec (buffer + idx) a), (Z.ltb_spec a (buffer + idx + 1)); try lia; done. }
  rewrite Hst.
  destruct (Z.eqb_spec (a - buffer) idx) as [E|E].
  - rewrite E. replace (idx - idx) with 0 by lia. simpl nth.
    destruct (Z.leb_spec (idx + 1) idx), (Z.leb_spec idx idx), (Z.ltb_spec idx maxlen),
      (Z.ltb_spec idx (Z.min (idx + Z.succ (Z.of_nat (length cs))) maxlen)); simpl; done || lia.
  - replace (idx + 1 + Z.of_nat (length cs)) with (idx + Z.succ (Z.of_nat (length cs))) by lia.
    destruct (Z.leb_spec (idx + 1) (a - buffer)), (Z.leb_spec idx (a - buffer)),
      (Z.ltb_spec (a - buffer) (Z.min (idx + Z.succ (Z.of_nat (length cs))) maxlen));
      simpl; try done; try lia.
    replace (Z.to_nat (a - buffer - idx)) with (S (Z.to_nat (a - buffer - (idx + 1)))) by lia. done.
Qed.

(** ** Reading numbers back *)

Definition is_digit_char (c : Z) : Prop := 48 ≤ c ≤ 57.

Lemma is_digit_spec c : _is_digit c = true ↔ is_digit_char c.
Proof. unfold _is_digit, is_digit_char. change (ch "0") with 48. change (ch "9") with 57. lia. Qed.

Definition decimal_value (ds : list Z) : Z := foldl (λ acc c, acc * 10 + (c - 48)) 0 ds.

Lemma atoi_loop_digits acc ds rest :
  Forall is_digit_char ds → _is_digit (cur rest) = false → 0 ≤ acc →
  foldl (λ acc c, acc * 10 + (c - 48)) acc ds < 2 ^ 32 →
  atoi_loop acc (ds ++ rest) = (foldl (λ acc c, acc * 10 + (c - 48)) acc ds, rest).
Proof.
  intros Hds Hr. revert acc; induction Hds as [|c ds Hc Hds IH]; intros acc Ha Hv.
  - simpl in *. destruct rest as [|r rest]; [done|]. simpl in *. by rewrite Hr.
  - cbn [app atoi_loop]. rewrite (proj2 (is_digit_spec c) Hc). unfold is_digit_char in Hc.
    assert (Hmono : ∀ l a, Forall is_digit_char l → 0 ≤ a → a ≤ foldl (λ acc c, acc * 10 + (c - 48)) a l).
    { clear. induction l as [|x l IHl]; intros a Hl H0; simpl; [lia|].
      apply Forall_cons in Hl as [Hx Hl]. unfold is_digit_char in Hx.
      specialize (IHl (a * 10 + (x - 48)) Hl ltac:(lia)). lia. }
    simpl in Hv. pose proof (Hmono ds (acc * 10 + (c - 48)) Hds ltac:(lia)) as Hm.
    change (ch "0") with 48.
    rewrite (uw_small 32 (acc * 10)), (uw_small 32 (c - 48)), uw_small by lia.
    apply IH; [lia|done].
Qed.

Lemma ntoa_digits_decimal room value flags :
  Forall is_digit_char (ntoa_digits room value 10 flags).
Proof.
  revert value; induction room as [|room IH]; intros value; [by apply Forall_nil_2|].
  cbn [ntoa_digits]. apply Forall_cons. split.
  - pose proof (Z.mod_pos_bound value 10). unfold digit_char, is_digit_char.
    change (ch "0") with 48. destruct (Z.ltb_spec (value mod 10) 10); lia.
  - destruct (_ =? 0); [by apply Forall_nil_2|apply IH].
Qed.

Lemma decimal_rev ds :
  Forall is_digit_char ds → decimal_value (rev ds) = digits_value 10 ds.
Proof.
  unfold decimal_value. induction 1 as [|c ds Hc _ IH]; [done|]. simpl.
  rewrite foldl_app, IH. simpl. unfold char_value, is_digit_char in *.
  change (ch "A") with 65. change (ch "0") with 48. destruct (Z.ltb_spec c 65); lia.
Qed.

(** What the conversion prints in decimal, [_atoi] reads back. *)
Theorem atoi_ntoa value rest :
  0 ≤ value < 2 ^ 32 → _is_digit (cur rest) = false →
  _atoi (ntoa_text value false 10 0 0 0 ++ rest) = (value, rest).
Proof.
  intros Hv Hr. unfold _atoi.
  assert (ntoa_text value false 10 0 0 0 = rev (ntoa_digits 32 value 10 0)) as ->.
  { unfold ntoa_text. rewrite drop_absent by done.
    assert ((if value =? 0 then 0 else 0) = 0) as -> by (by destruct (_ =? 0)).
    assert (ntoa_buf value 10 0 = ntoa_digits 32 value 10 0) as -> by done.
    assert (length (ntoa_digits 32 value 10 0) ≤ 10)%nat as Hl.
    { apply ntoa_digits_short; [lia| |lia]. change (10 ^ Z.of_nat 10) with 10000000000. lia. }
    rewrite format_right; [|done|done|lia|lia|lia|done].
    unfold right_spec, spaces, zeros. rewrite length_rev. change (sign_text false 0) with (@nil Z).
    assert (has 0 FLAGS_ZEROPAD = false) as -> by done.
    cbn [length]. rewrite !Z2Nat.nonpos by lia. done. }
  pose proof (ntoa_digits_decimal 32 value 0) as Hd.
  assert (Hval : decimal_value (rev (ntoa_digits 32 value 10 0)) = value).
  { rewrite decimal_rev, ntoa_digits_value by (done || lia).
    apply Z.mod_small. change (10 ^ Z.of_nat 32) with 100000000000000000000000000000000. lia. }
  unfold decimal_value in Hval. rewrite atoi_loop_digits; [by rewrite Hval| |done|lia|lia].
  by apply Forall_rev.
Qed.

Lemma atoi_ntoa_witness : _atoi (ntoa_text 4096 false 10 0 0 0 ++ str "kB") = (4096, str "kB").
Proof. apply atoi_ntoa; [lia|done]. Defined.

(** ** Printing functions, independently of where they print to *)

(** [f] writes the characters [r] whatever output function, buffer and limit it is run with. *)
Definition printer : Type := ∀ St : Type, out_fct_type St → Z → Z → Z * St → outcome (Z * St).
Definition prints (f : printer) (r : outcome (list Z)) : Prop :=
  ∀ St (out : out_fct_type St) buffer maxlen o, idx_range o →
    f St out buffer maxlen o = (cs ← r; Done (emit out buffer maxlen cs o)).

(** The characters themselves, read off a run that collects them. *)
Definition log_out : out_fct_type (list Z) := λ c _ _ _ l, l ++ [c].
Definition text_of (f : printer) : outcome (list Z) := snd <$> f (list Z) log_out 0 0 (0, []).

Lemma emit_log cs i l : (emit log_out 0 0 cs (i, l)).2 = l ++ cs.
Proof.
  revert i l; induction cs as [|c cs IH]; intros i l; [by rewrite app_nil_r|].
  change (emit log_out 0 0 (c :: cs) (i, l)) with (emit log_out 0 0 cs (u64 (i + 1), l ++ [c])).
  by rewrite IH, <- app_assoc.
Qed.

Lemma prints_text f r : prints f r → text_of f = r.
Proof.
  intros H. unfold text_of. rewrite H by (split; simpl; lia).
  destruct r as [cs|w]; [|done]. simpl. by rewrite emit_log.
Qed.

Lemma prints_self f : (∃ r, prints f r) → prints f (text_of f).
Proof. intros [r H]. by rewrite (prints_text f r H). Qed.

Lemma prints_done f cs : 
  (∀ St (out : out_fct_type St) buffer maxlen o, idx_range o →
     f St out buffer maxlen o = Done (emit out buffer maxlen cs o)) → ∃ r, prints f r.
Proof. intros H. by exists (Done cs). Qed.
Lemma prints_stuck (f : printer) w :
  (∀ St (out : out_fct_type St) buffer maxlen o, idx_range o → f St out buffer maxlen o = Stuck w) →
  ∃ r, prints f r.
Proof. intros H. by exists (Stuck w). Qed.

(** One printer after another. *)
Lemma prints_bind f (k : printer) :
  (∃ r, prints f r) → (∃ r, prints k r) →
  ∃ r, prints (λ St out buffer maxlen o, o ← f St out buffer maxlen o; k St out buffer maxlen o) r.
Proof.
  intros [rf Hf] [rk Hk]. exists (a ← rf; b ← rk; Done (a ++ b)). intros St out buffer maxlen o Ho.
  rewrite Hf by done. destruct rf as [a|]; [|done]. cbn [mbind outcome_bind].
  rewrite Hk by (by apply emit_range). destruct rk as [b|]; [|done]. cbn [mbind outcome_bind].
  by rewrite emit_app.
Qed.
