(* ===== verification/PrintfFloat.v ===== *)
(** [printf.c], part 2: floating-point conversion.

    A [double] is an IEEE-754 binary64 number of the Standard Library's [SpecFloat]; every
    operation of the code rounds to nearest even.  A cast of a value outside the integer type's
    range, and a read beyond the table [pow10], are undefined and get stuck. *)

From Stdlib Require Import Ascii String SpecFloat.
From S2P Require Import Prelude Mem PrintfCore.

Abbreviation double := spec_float.

Definition fadd : double → double → double := SFadd 53 1024.
Definition fsub : double → double → double := SFsub 53 1024.
Definition fmul : double → double → double := SFmul 53 1024.
Definition fdiv : double → double → double := SFdiv 53 1024.
Definition of_Z (n : Z) : double := binary_normalize 53 1024 n 0 false.
(** A decimal literal [n / 10^k]; both parts are exact, so this is the nearest double. *)
Definition lit (n : Z) (k : Z) : double := fdiv (of_Z n) (of_Z (10 ^ k)).

Definition DBL_MAX : double := S754_finite false 9007199254740991 971.
Definition half : double := lit 5 1.

(** Truncation towards zero, and the casts to [int] and [unsigned long]. *)
Definition ftrunc (x : double) : option Z :=
  match x with
  | S754_zero _ => Some 0
  | S754_finite s m e =>
      let v := if 0 <=? e then Z.pos m * 2 ^ e else Z.pos m / 2 ^ (- e) in
      Some (if s then - v else v)
  | _ => None
  end.
Definition to_int (x : double) : outcome Z :=
  match ftrunc x with
  | Some v => if (- 2 ^ 31 <=? v) && (v <? 2 ^ 31) then Done v else Stuck BadCast
  | None => Stuck BadCast
  end.
Definition to_ulong (x : double) : outcome Z :=
  match ftrunc x with
  | Some v => if (0 <=? v) && (v <? 2 ^ 64) then Done v else Stuck BadCast
  | None => Stuck BadCast
  end.

(** The bits of a finite non-negative number: the exponent field and the fraction. *)
Definition exponent_bits (x : double) : Z :=
  match x with
  | S754_finite _ m e => if Z.pos m <? 2 ^ 52 then 0 else e + 1075
  | S754_infinity _ | S754_nan => 2047
  | S754_zero _ => 0
  end.
Definition fraction_bits (x : double) : Z :=
  match x with S754_finite _ m e => Z.pos m mod 2 ^ 52 | _ => 0 end.
(** The number with the exponent field of 1 and the given fraction, in [1,2). *)
Definition in_1_2 (fraction : Z) : double := S754_finite false (Z.to_pos (2 ^ 52 + fraction)) (-52).
(** The number whose bits are [(uint64_t)(e + 1023) << 52]. *)
Definition power_bits (e : Z) : double :=
  let b := (e + 1023) mod 2 ^ 12 in
  let s := Z.testbit b 11 in
  let field := b mod 2 ^ 11 in
  if field =? 0 then S754_zero s
  else if field =? 2047 then S754_infinity s
  else S754_finite s 4503599627370496 (field - 1075).

Definition PRINTF_FTOA_BUFFER_SIZE : Z := 32.
Definition PRINTF_MAX_FLOAT : double := of_Z 1000000000.
Definition PRINTF_DEFAULT_FLOAT_PRECISION : Z := 6.

Definition pow10 : list double :=
  of_Z <$> [1; 10; 100; 1000; 10000; 100000; 1000000; 10000000; 100000000; 1000000000].

(** ** [_ftoa] *)

(** The loops over the fractional and the whole digits; the first counts the digits down. *)
Fixpoint frac_digits (room : nat) (frac count : Z) (buf : list Z) : list Z * Z :=
  match room with
  | O => (buf, count)
  | S room =>
      let count := u32 (count - 1) in
      let buf := buf ++ [48 + frac mod 10] in
      if frac / 10 =? 0 then (buf, count) else frac_digits room (frac / 10) count buf
  end.
Fixpoint whole_digits (room : nat) (whole : Z) (buf : list Z) : list Z :=
  match room with
  | O => buf
  | S room =>
      let buf := buf ++ [48 + whole mod 10] in
      if whole / 10 =? 0 then buf else whole_digits room (whole / 10) buf
  end.

Definition room (buf : list Z) : nat := Z.to_nat (PRINTF_FTOA_BUFFER_SIZE - Z.of_nat (length buf)).

(** The rounded fractional part and the whole part it carries into. *)
Definition ftoa_round (diff p10 : double) (frac whole : Z) : Z * Z :=
  if SFltb half diff then
    let frac := u64 (frac + 1) in
    if SFleb p10 (of_Z frac) then (0, whole + 1) else (frac, whole)
  else if SFltb diff half then (frac, whole)
  else if (frac =? 0) || Z.odd frac then (u64 (frac + 1), whole)
  else (frac, whole).

(** The buffer built for a finite value not larger than [PRINTF_MAX_FLOAT], and the width. *)
Definition ftoa_layout (value : double) (prec width flags : Z) : outcome (list Z * Z) :=
  let size := PRINTF_FTOA_BUFFER_SIZE in
  let negative := SFltb value (S754_zero false) in
  let value := if negative then fsub (S754_zero false) value else value in
  let prec := if has flags FLAGS_PRECISION then prec else PRINTF_DEFAULT_FLOAT_PRECISION in
  (* while ((len < size) && (prec > 9)) { buf[len++] = '0'; prec--; } *)
  let n := Z.max 0 (Z.min size (prec - 9)) in
  let buf := zeros n in
  let prec := prec - n in
  whole ← to_int value;
  match pow10 !! Z.to_nat prec with
  | None => Stuck PastEnd
  | Some p10 =>
      let tmp := fmul (fsub value (of_Z whole)) p10 in
      frac ← to_ulong tmp;
      let diff := fsub tmp (of_Z frac) in
      let '(frac, whole) := ftoa_round diff p10 frac whole in
      let '(buf, whole) :=
        if prec =? 0 then
          let diff := fsub value (of_Z whole) in
          (buf, if (negb (SFltb diff half) || SFltb half diff) && Z.odd whole then whole + 1 else whole)
        else
          let '(buf, count) := frac_digits (room buf) frac prec buf in
          let buf := fill size (Z.of_nat (length buf) + count) (ch "0") buf in
          (push size (ch ".") buf, whole) in
      let buf := whole_digits (room buf) whole buf in
      let '(buf, width) :=
        if negb (has flags FLAGS_LEFT) && has flags FLAGS_ZEROPAD then
          let width :=
            if negb (width =? 0) && (negative || has flags (Z.lor FLAGS_PLUS FLAGS_SPACE))
            then width - 1 else width in
          (fill size width (ch "0") buf, width)
        else (buf, width) in
      Done (push_sign size negative flags buf, width)
  end.

(** ** [_etoa] *)

(** The decimal exponent and the power of ten the value is divided by. *)
Definition etoa_exponent (value : double) : outcome (Z * double) :=
  let exp2 := exponent_bits value - 1023 in
  let F := in_1_2 (fraction_bits value) in
  expval ← to_int (fadd (fadd (lit 1760912590558 13) (fmul (of_Z exp2) (lit 301029995663981 15)))
                        (fmul (fsub F (lit 15 1)) (lit 289529654602168 15)));
  exp2 ← to_int (fadd (fmul (of_Z expval) (lit 3321928094887362 15)) half);
  let z := fsub (fmul (of_Z expval) (lit 2302585092994046 15))
                (fmul (of_Z exp2) (lit 6931471805599453 16)) in
  let z2 := fmul z z in
  let F := fmul (power_bits exp2)
             (fadd (of_Z 1)
                (fdiv (fmul (of_Z 2) z)
                   (fadd (fsub (of_Z 2) z)
                      (fdiv z2 (fadd (of_Z 6) (fdiv z2 (fadd (of_Z 10) (fdiv z2 (of_Z 14))))))))) in
  if SFltb value F then Done (expval - 1, fdiv F (of_Z 10)) else Done (expval, F).

Record etoa_plan := {
  ep_expval : Z; ep_minwidth : Z; ep_prec : Z; ep_flags : Z;
}.

(** [%g]: fixed notation for moderate values, one significant digit less otherwise. *)
Definition etoa_adapt (value : double) (expval prec flags : Z) : etoa_plan :=
  let minwidth := if (expval <? 100) && (-100 <? expval) then 4 else 5 in
  if has flags FLAGS_ADAPT_EXP then
    if SFleb (lit 1 4) value && SFltb value (of_Z 1000000) then
      {| ep_expval := 0; ep_minwidth := 0;
         ep_prec := if expval <? s32 prec then u32 (s32 prec - expval - 1) else 0;
         ep_flags := add_flag flags FLAGS_PRECISION |}
    else
      {| ep_expval := expval; ep_minwidth := minwidth;
         ep_prec := if (0 <? prec) && has flags FLAGS_PRECISION then prec - 1 else prec;
         ep_flags := flags |}
  else {| ep_expval := expval; ep_minwidth := minwidth; ep_prec := prec; ep_flags := flags |}.

Definition is_special (value : double) : bool :=
  negb (SFeqb value value) || SFltb DBL_MAX value || SFltb value (SFopp DBL_MAX).

Section float.
Context {St : Type} (out : out_fct_type St) (buffer maxlen : Z).

(** The exponent part of [_etoa]. *)
Definition etoa_tail (start_idx width expval minwidth flags : Z) (o : Z * St) : Z * St :=
  let o := putc out buffer maxlen (if has flags FLAGS_UPPERCASE then ch "E" else ch "e") o in
  let o := _ntoa_long out buffer maxlen o (if expval <? 0 then - expval else expval) (expval <? 0)
             10 0 (minwidth - 1) (Z.lor FLAGS_ZEROPAD FLAGS_PLUS) in
  if has flags FLAGS_LEFT
  then put_n out buffer maxlen (Z.to_nat (width - u64 (o.1 - start_idx))) (ch " ") o else o.

(** [_ftoa] hands large values to [_etoa] (declared before it in the source, a parameter here). *)
Definition ftoa_body (etoa : Z * St → double → Z → Z → Z → outcome (Z * St))
    (o : Z * St) (value : double) (prec width flags : Z) : outcome (Z * St) :=
  if negb (SFeqb value value) then Done (_out_rev out buffer maxlen o (str "nan") width flags)
  else if SFltb value (SFopp DBL_MAX) then
    Done (_out_rev out buffer maxlen o (str "fni-") width flags)
  else if SFltb DBL_MAX value then
    Done (_out_rev out buffer maxlen o (if has flags FLAGS_PLUS then str "fni+" else str "fni") width flags)
  else if SFltb PRINTF_MAX_FLOAT value || SFltb value (SFopp PRINTF_MAX_FLOAT) then
    etoa o value prec width flags
  else
    '(buf, width) ← ftoa_layout value prec width flags;
    Done (_out_rev out buffer maxlen o buf width flags).

(** [_etoa] hands the scaled value, or a special one, back to [_ftoa]: [fuel] bounds the calls. *)
Fixpoint _etoa (fuel : nat) (o : Z * St) (value : double) (prec width flags : Z) : outcome (Z * St) :=
  match fuel with
  | O => Stuck OutOfFuel
  | S fuel =>
    if is_special value then ftoa_body (_etoa fuel) o value prec width flags
    else
      let negative := SFltb value (S754_zero false) in
      let value := if negative then SFopp value else value in
      let prec := if has flags FLAGS_PRECISION then prec else PRINTF_DEFAULT_FLOAT_PRECISION in
      '(expval, F) ← etoa_exponent value;
      let p := etoa_adapt value expval prec flags in
      let fwidth := if ep_minwidth p <? width then width - ep_minwidth p else 0 in
      let fwidth := if has (ep_flags p) FLAGS_LEFT && negb (ep_minwidth p =? 0) then 0 else fwidth in
      let value := if ep_expval p =? 0 then value else fdiv value F in
      let start_idx := o.1 in
      o ← ftoa_body (_etoa fuel) o (if negative then SFopp value else value) (ep_prec p) fwidth
            (drop_flag (ep_flags p) FLAGS_ADAPT_EXP);
      Done (if ep_minwidth p =? 0 then o
            else etoa_tail start_idx width (ep_expval p) (ep_minwidth p) (ep_flags p) o)
  end.

Definition _ftoa (fuel : nat) : Z * St → double → Z → Z → Z → outcome (Z * St) :=
  ftoa_body (_etoa fuel).
End float.

(** ** The buffer bound *)

Lemma frac_digits_length n frac count buf :
  (length (frac_digits n frac count buf).1 ≤ length buf + n)%nat.
Proof.
  revert frac count buf; induction n as [|n IH]; intros frac count buf; simpl; [lia|].
  destruct (_ =? 0); simpl; [rewrite length_app; simpl; lia|].
  etrans; [apply IH|]. rewrite length_app. simpl. lia.
Qed.

Lemma whole_digits_length n whole buf : (length (whole_digits n whole buf) ≤ length buf + n)%nat.
Proof.
  revert whole buf; induction n as [|n IH]; intros whole buf; simpl; [lia|].
  destruct (_ =? 0); simpl; [rewrite length_app; simpl; lia|].
  etrans; [apply IH|]. rewrite length_app. simpl. lia.
Qed.

Definition fits (buf : list Z) : Prop := Z.of_nat (length buf) ≤ PRINTF_FTOA_BUFFER_SIZE.

Lemma room_fits buf n : fits buf → (n ≤ length buf + room buf)%nat → Z.of_nat n ≤ PRINTF_FTOA_BUFFER_SIZE.
Proof. unfold fits, room. lia. Qed.

Lemma frac_digits_fits frac count buf :
  fits buf → fits (frac_digits (room buf) frac count buf).1.
Proof. intros H. eapply room_fits; [exact H|]. apply frac_digits_length. Qed.
Lemma whole_digits_fits whole buf : fits buf → fits (whole_digits (room buf) whole buf).
Proof. intros H. eapply room_fits; [exact H|]. apply whole_digits_length. Qed.
Lemma fill_fits limit c buf : fits buf → fits (fill PRINTF_FTOA_BUFFER_SIZE limit c buf).
Proof. unfold fits. rewrite fill_length. lia. Qed.
Lemma push_fits c buf : fits buf → fits (push PRINTF_FTOA_BUFFER_SIZE c buf).
Proof. apply push_le. Qed.
Lemma push_sign_fits negative flags buf :
  fits buf → fits (push_sign PRINTF_FTOA_BUFFER_SIZE negative flags buf).
Proof. apply push_sign_le. Qed.

Create HintDb fitsdb.
#[export] Hint Resolve frac_digits_fits whole_digits_fits fill_fits push_fits push_sign_fits : fitsdb.

Lemma ftoa_layout_fits value prec width flags buf w :
  ftoa_layout value prec width flags = Done (buf, w) → fits buf.
Proof.
  unfold ftoa_layout. set (v := if SFltb value _ then _ else value). set (p := if has _ _ then _ else _).
  intros (whole & _ & H)%outcome_bind_Done. case_match; [|done].
  apply outcome_bind_Done in H as (frac & _ & H). destruct (ftoa_round _ _ _ _) as [fr wh].
  set (n := Z.max 0 _) in H.
  assert (Hz : fits (zeros n)).
  { unfold fits, zeros. rewrite length_replicate. subst n. change PRINTF_FTOA_BUFFER_SIZE with 32. lia. }
  destruct (p - n =? 0).
  - destruct (negb (has flags FLAGS_LEFT) && _); injection H as <- <-; auto 10 with fitsdb.
  - destruct (frac_digits _ _ _ _) as [b c] eqn:Ef.
    assert (fits b) by (change b with (b, c).1; rewrite <- Ef; auto with fitsdb).
    destruct (negb (has flags FLAGS_LEFT) && _); injection H as <- <-; auto 10 with fitsdb.
Qed.

(** C34. Fixed conversion never fills more than its 32-character buffer. *)
Theorem ftoa_buffer_bound value prec width flags buf w :
  ftoa_layout value prec width flags = Done (buf, w) →
  Z.of_nat (length buf) ≤ PRINTF_FTOA_BUFFER_SIZE.
Proof. apply ftoa_layout_fits. Qed.

Lemma ftoa_buffer_bound_witness :
  ∃ buf w, ftoa_layout (lit 95 2) 1 0 FLAGS_PRECISION = Done (buf, w) ∧ length buf = 32%nat ∧ Z.of_nat (length buf) ≤ 32.
Proof.
  eexists _, _.
  assert (ftoa_layout (lit 95 2) 1 0 FLAGS_PRECISION = Done (str "01000000000000000000000000000000", 0))
    as E by (vm_compute; reflexivity).
  split; [exact E|]. split; [done|]. exact (ftoa_buffer_bound _ _ _ _ _ _ E).
Defined.

(** ** Where the characters go does not matter *)

Lemma out_rev_prints buf width flags :
  Z.of_nat (length buf) ≤ 32 →
  ∃ r, prints (λ St out buffer maxlen o, Done (_out_rev out buffer maxlen o buf width flags)) r.
Proof.
  intros Hl. apply (prints_done _ (rev_text buf width flags)). intros. f_equal.
  apply out_rev_emit; [done|lia].
Qed.

Lemma etoa_tail_text width expval minwidth flags :
  ∃ cs, ∀ St (out : out_fct_type St) buffer maxlen (o : Z * St) pre,
    idx_range o →
    etoa_tail out buffer maxlen o.1 width expval minwidth flags (emit out buffer maxlen pre o) =
      emit out buffer maxlen (cs (Z.of_nat (length pre))) (emit out buffer maxlen pre o).
Proof.
  set (e := if has flags FLAGS_UPPERCASE then ch "E" else ch "e").
  set (num := ntoa_text (if expval <? 0 then - expval else expval) (expval <? 0) 10 0 (minwidth - 1)
                (Z.lor FLAGS_ZEROPAD FLAGS_PLUS)).
  exists (λ n, e :: num ++ if has flags FLAGS_LEFT
                then spaces (width - u64 (n + 1 + Z.of_nat (length num))) else []).
  intros St out buffer maxlen o pre Ho. unfold etoa_tail. fold e.
  set (o1 := emit out buffer maxlen pre o).
  assert (Ho1 : idx_range o1) by (by apply emit_range).
  change (putc out buffer maxlen e o1) with (emit out buffer maxlen [e] o1).
  rewrite ntoa_long_emit by (by apply emit_range). fold num.
  change (e :: num ++ ?x) with ([e] ++ num ++ x). rewrite !emit_app.
  set (o2 := emit out buffer maxlen num _).
  assert (H2 : o2.1 = u64 (o.1 + (Z.of_nat (length pre) + 1 + Z.of_nat (length num)))).
  { unfold o2, o1. rewrite <- !emit_app, emit_idx, !length_app by done. simpl length. f_equal. lia. }
  destruct (has flags FLAGS_LEFT); [|done]. rewrite put_n_emit. unfold spaces. do 4 f_equal.
  rewrite H2. unfold uw. rewrite Zminus_mod_idemp_l. f_equal. lia.
Qed.

Lemma ftoa_body_print (etoa : ∀ St, out_fct_type St → Z → Z → Z * St → double → Z → Z → Z → outcome (Z * St))
    value prec width flags :
  (∃ r, prints (λ St out buffer maxlen o, etoa St out buffer maxlen o value prec width flags) r) →
  ∃ r, prints (λ St out buffer maxlen o,
                 ftoa_body out buffer maxlen (etoa St out buffer maxlen) o value prec width flags) r.
Proof.
  intros He. unfold ftoa_body.
  destruct (negb (SFeqb value value)); [by apply out_rev_prints|].
  destruct (SFltb value (SFopp DBL_MAX)); [by apply out_rev_prints|].
  destruct (SFltb DBL_MAX value).
  { apply out_rev_prints. by destruct (has flags FLAGS_PLUS). }
  destruct (SFltb PRINTF_MAX_FLOAT value || SFltb value (SFopp PRINTF_MAX_FLOAT)); [done|].
  destruct (ftoa_layout value prec width flags) as [[buf w]|] eqn:E; [|by eapply prints_stuck].
  apply out_rev_prints. by eapply ftoa_layout_fits.
Qed.

Lemma etoa_print fuel value prec width flags :
  ∃ r, prints (λ St out buffer maxlen o, _etoa out buffer maxlen fuel o value prec width flags) r.
Proof.
  revert value prec width flags; induction fuel as [|fuel IH]; intros value prec width flags.
  { by eapply prints_stuck. }
  cbn [_etoa].
  destruct (is_special value); [by apply (ftoa_body_print (λ St out b m, _etoa out b m fuel))|].
  destruct (etoa_exponent _) as [[expval F]|]; [|by eapply prints_stuck]. cbn [mbind outcome_bind].
  set (p := etoa_adapt _ _ _ _). set (fw := if has (ep_flags p) _ && _ then 0 else _).
  set (v := if SFltb value _ then SFopp (if ep_expval p =? 0 then _ else _) else _).
  destruct (ftoa_body_print (λ St out b m, _etoa out b m fuel) v (ep_prec p) fw
              (drop_flag (ep_flags p) FLAGS_ADAPT_EXP)) as [r Hr]; [apply IH|].
  destruct (ep_minwidth p =? 0).
  { exists r. intros St out buffer maxlen o Ho. rewrite Hr by done. by destruct r. }
  destruct r as [cs|w]; [|eapply prints_stuck; intros; rewrite Hr by done; done].
  destruct (etoa_tail_text width (ep_expval p) (ep_minwidth p) (ep_flags p)) as [tail Ht].
  eapply (prints_done _ (cs ++ tail (Z.of_nat (length cs)))). intros.
  rewrite Hr by done. cbn [mbind outcome_bind]. rewrite Ht by done. by rewrite <- emit_app.
Qed.

Lemma ftoa_print fuel value prec width flags :
  ∃ r, prints (λ St out buffer maxlen o, _ftoa out buffer maxlen fuel o value prec width flags) r.
Proof. apply (ftoa_body_print (λ St out b m, _etoa out b m fuel)), etoa_print. Qed.

(** ** Behaviour *)

(** Not-a-number and the infinities print as words, padded like a string; no call of [_etoa] is
    needed. *)
Theorem ftoa_special {St} (out : out_fct_type St) buffer maxlen fuel o prec width flags :
  idx_range o →
  let print := λ value, _ftoa out buffer maxlen fuel o value prec width flags in
  let text := λ s, Done (emit out buffer maxlen (rev_text (rev s) width flags) o) in
  print S754_nan = text (str "nan") ∧
  print (S754_infinity true) = text (str "-inf") ∧
  print (S754_infinity false) = text (if has flags FLAGS_PLUS then str "+inf" else str "inf").
Proof.
  intros Ho print text. unfold print, text, _ftoa, ftoa_body.
  assert (SFeqb S754_nan S754_nan = false) as -> by reflexivity.
  assert (∀ s, SFeqb (S754_infinity s) (S754_infinity s) = true) as E by (by intros []).
  rewrite !E. cbn [negb].
  assert (SFltb (S754_infinity true) (SFopp DBL_MAX) = true) as -> by reflexivity.
  assert (SFltb (S754_infinity false) (SFopp DBL_MAX) = false) as -> by reflexivity.
  assert (SFltb DBL_MAX (S754_infinity false) = true) as -> by reflexivity.
  split; [|split]; (rewrite out_rev_emit; [|done|]); try done;
    destruct (has flags FLAGS_PLUS); done.
Qed.

(** The string is stored reversed in the source, as the buffer is. *)
Lemma ftoa_special_witness :
  _ftoa log_out 0 0 0 (0, []) S754_nan 0 5 0 = Done (5, str "  nan").
Proof.
  destruct (ftoa_special log_out 0 0 0 (0, []) 0 5 0) as (E & _); [by split|]. exact E.
Defined.

Lemma pow10_lookup n : pow10 !! n = None ↔ (10 ≤ n)%nat.
Proof.
  unfold pow10. rewrite list_lookup_fmap. rewrite fmap_None.
  rewrite lookup_ge_None. simpl. lia.
Qed.

(** A precision above 41 makes [_ftoa] read beyond its table of powers of ten: the loop that
    limits the precision stops when its buffer is full.  Up to 41 it never does. *)
Theorem ftoa_precision_past_table value prec width flags whole :
  has flags FLAGS_PRECISION = true → SFltb value (S754_zero false) = false →
  to_int value = Done whole → 0 ≤ prec →
  (ftoa_layout value prec width flags = Stuck PastEnd ↔ 41 < prec).
Proof.
  intros Hf Hneg Hw Hp. unfold ftoa_layout. rewrite Hf, Hneg, Hw. cbn [mbind outcome_bind].
  change PRINTF_FTOA_BUFFER_SIZE with 32. set (k := prec - Z.max 0 (Z.min 32 (prec - 9))).
  pose proof (pow10_lookup (Z.to_nat k)) as Hk.
  destruct (pow10 !! Z.to_nat k) as [p10|] eqn:E.
  - assert (¬ (10 ≤ Z.to_nat k)%nat) by (rewrite <- Hk; done). split; [|lia]. intros H0. exfalso.
    destruct (to_ulong _) as [frac|u] eqn:Eu; cbn [mbind outcome_bind] in H0.
    + destruct (ftoa_round _ _ _ _). destruct (k =? 0); [|destruct (frac_digits _ _ _ _)];
        destruct (negb (has flags FLAGS_LEFT) && _); done.
    + injection H0 as ->. unfold to_ulong in Eu. destruct (ftrunc _); [destruct (_ && _)|]; done.
  - split; [|done]. intros _. assert (10 ≤ Z.to_nat k)%nat by (by apply Hk). lia.
Qed.

Lemma ftoa_precision_past_table_witness :
  ftoa_layout (lit 15 1) 50 0 FLAGS_PRECISION = Stuck PastEnd.
Proof.
  apply (proj2 (ftoa_precision_past_table (lit 15 1) 50 0 FLAGS_PRECISION 1
                  eq_refl eq_refl eq_refl ltac:(lia))). lia.
Defined.

(** 0.95 with one decimal: the scaled value is exactly halfway, it is rounded up to 10 without a
    carry into the whole part, the digit count wraps below zero, and the buffer fills with
    zeros before the decimal point and the whole part are reached. *)
Theorem ftoa_halfway_no_carry :
  (λ p, p.2) <$> _ftoa log_out 0 0 0 (0, []) (lit 95 2) 1 0 FLAGS_PRECISION =
    Done (str "00000000000000000000000000000010").
Proof. by vm_compute. Qed.

(** Zero in exponential notation shows the exponent of the smallest normal number. *)
Theorem etoa_zero :
  (λ p, p.2) <$> _etoa log_out 0 0 1 (0, []) (of_Z 0) 3 0 FLAGS_PRECISION = Done (str "0.000e-308").
Proof. by vm_compute. Qed.
