(* ===== verification/PrintfFormat.v ===== *)
(** [printf.c], part 3: the format interpreter [_vsnprintf] and the functions built on it.

    The variable arguments are a list of tagged values: an [AInt] is the 64-bit slot an integer
    or a pointer is passed in, read back at the width the conversion asks for.  Reading an
    argument at the wrong kind is undefined and gets stuck, as does reading the format beyond
    its terminator. *)

From Stdlib Require Import Ascii String SpecFloat.
From S2P Require Import Prelude Mem PrintfCore PrintfFloat.

Inductive arg :=
  | AInt (slot : Z)
  | ADouble (d : double)
  | AStr (s : list Z).

Definition va_slot (va : list arg) : outcome (Z * list arg) :=
  match va with AInt v :: va => Done (v, va) | _ => Stuck BadArg end.
Definition va_int (va : list arg) : outcome (Z * list arg) :=
  '(v, va) ← va_slot va; Done (s32 v, va).
Definition va_double (va : list arg) : outcome (double * list arg) :=
  match va with ADouble d :: va => Done (d, va) | _ => Stuck BadArg end.
Definition va_str (va : list arg) : outcome (list Z * list arg) :=
  match va with AStr s :: va => Done (s, va) | _ => Stuck BadArg end.

(** [format++] *)
Definition advance (f : list Z) : outcome (list Z) :=
  if cur f =? 0 then Stuck PastEnd else Done (tl f).

(** ** The parts of a conversion specification *)

Fixpoint parse_flags (f : list Z) (flags : Z) : Z * list Z :=
  match f with
  | c :: f' =>
      if c =? ch "0" then parse_flags f' (add_flag flags FLAGS_ZEROPAD)
      else if c =? ch "-" then parse_flags f' (add_flag flags FLAGS_LEFT)
      else if c =? ch "+" then parse_flags f' (add_flag flags FLAGS_PLUS)
      else if c =? ch " " then parse_flags f' (add_flag flags FLAGS_SPACE)
      else if c =? ch "#" then parse_flags f' (add_flag flags FLAGS_HASH)
      else (flags, f)
  | [] => (flags, [])
  end.

(** What has been read of a specification, with the rest of the format and of the arguments. *)
Record spec := {
  sp_flags : Z; sp_width : Z; sp_precision : Z; sp_format : list Z; sp_va : list arg;
}.

Definition parse_width (flags : Z) (f : list Z) (va : list arg) : outcome spec :=
  if _is_digit (cur f) then
    let '(width, f) := _atoi f in
    Done {| sp_flags := flags; sp_width := width; sp_precision := 0; sp_format := f; sp_va := va |}
  else if cur f =? ch "*" then
    '(w, va) ← va_int va;
    Done (if w <? 0
          then {| sp_flags := add_flag flags FLAGS_LEFT; sp_width := u32 (s32 (- w));
                  sp_precision := 0; sp_format := tl f; sp_va := va |}
          else {| sp_flags := flags; sp_width := u32 w; sp_precision := 0; sp_format := tl f;
                  sp_va := va |})
  else
    Done {| sp_flags := flags; sp_width := 0; sp_precision := 0; sp_format := f; sp_va := va |}.

Definition parse_precision (s : spec) : outcome spec :=
  if cur (sp_format s) =? ch "." then
    let flags := add_flag (sp_flags s) FLAGS_PRECISION in
    let f := tl (sp_format s) in
    if _is_digit (cur f) then
      let '(precision, f) := _atoi f in
      Done {| sp_flags := flags; sp_width := sp_width s; sp_precision := precision;
              sp_format := f; sp_va := sp_va s |}
    else if cur f =? ch "*" then
      '(prec, va) ← va_int (sp_va s);
      Done {| sp_flags := flags; sp_width := sp_width s;
              sp_precision := if 0 <? prec then u32 prec else 0;
              sp_format := tl f; sp_va := va |}
    else
      Done {| sp_flags := flags; sp_width := sp_width s; sp_precision := 0;
              sp_format := f; sp_va := sp_va s |}
  else Done s.

(** [long], [ptrdiff_t], [intmax_t] and [size_t] all have the size of [long] here. *)
Definition parse_length (s : spec) : spec :=
  let with_ flags f :=
    {| sp_flags := flags; sp_width := sp_width s; sp_precision := sp_precision s;
       sp_format := f; sp_va := sp_va s |} in
  let flags := sp_flags s in
  let f := sp_format s in
  if cur f =? ch "l" then
    let flags := add_flag flags FLAGS_LONG in
    if cur (tl f) =? ch "l" then with_ (add_flag flags FLAGS_LONG_LONG) (tl (tl f))
    else with_ flags (tl f)
  else if cur f =? ch "h" then
    let flags := add_flag flags FLAGS_SHORT in
    if cur (tl f) =? ch "h" then with_ (add_flag flags FLAGS_CHAR) (tl (tl f))
    else with_ flags (tl f)
  else if cur f =? ch "t" then with_ (add_flag flags FLAGS_LONG) (tl f)
  else if cur f =? ch "j" then with_ (add_flag flags FLAGS_LONG) (tl f)
  else if cur f =? ch "z" then with_ (add_flag flags FLAGS_LONG) (tl f)
  else s.

Definition parse_spec (f : list Z) (va : list arg) : outcome spec :=
  let '(flags, f) := parse_flags f 0 in
  s ← parse_width flags f va;
  s ← parse_precision s;
  Done (parse_length s).

(** ** Integer conversions: what is converted, and with which flags *)

Definition int_base (c : Z) : Z :=
  if (c =? ch "x") || (c =? ch "X") then 16
  else if c =? ch "o" then 8
  else if c =? ch "b" then 2
  else 10.

Definition is_signed (c : Z) : bool := (c =? ch "i") || (c =? ch "d").

Definition int_flags (c flags : Z) : Z :=
  let flags := if int_base c =? 10 then drop_flag flags FLAGS_HASH else flags in
  let flags := if c =? ch "X" then add_flag flags FLAGS_UPPERCASE else flags in
  let flags := if negb (is_signed c) then drop_flag flags (Z.lor FLAGS_PLUS FLAGS_SPACE) else flags in
  if has flags FLAGS_PRECISION then drop_flag flags FLAGS_ZEROPAD else flags.

(** The magnitude handed to the conversion ([value > 0 ? value : 0 - value], at the width of the
    type) and the sign. *)
Definition magnitude (w value : Z) : Z := uw w (if 0 <? value then value else sw w (0 - value)).
Definition int_value (c flags slot : Z) : Z * bool :=
  if is_signed c then
    if has flags FLAGS_LONG_LONG then (magnitude 64 (sw 64 slot), sw 64 slot <? 0)
    else if has flags FLAGS_LONG then (magnitude 64 (sw 64 slot), sw 64 slot <? 0)
    else
      let value := if has flags FLAGS_CHAR then sw 8 slot
                   else if has flags FLAGS_SHORT then sw 16 slot else s32 slot in
      (magnitude 32 value, value <? 0)
  else
    if has flags FLAGS_LONG_LONG then (u64 slot, false)
    else if has flags FLAGS_LONG then (u64 slot, false)
    else (if has flags FLAGS_CHAR then u8 slot
          else if has flags FLAGS_SHORT then u16 slot else u32 slot, false).

(** [_etoa] and [_ftoa] call each other at most this deep (see the header). *)
Definition float_fuel : nat := 4.

Section format.
Context {St : Type} (out : out_fct_type St) (buffer maxlen : Z).
Local Abbreviation putc := (putc out buffer maxlen).
Local Abbreviation put_n := (put_n out buffer maxlen).

Definition conv_int (c : Z) (s : spec) (o : Z * St) : outcome (Z * St * list arg) :=
  let flags := int_flags c (sp_flags s) in
  '(slot, va) ← va_slot (sp_va s);
  let '(value, negative) := int_value c flags slot in
  let print := if has flags FLAGS_LONG_LONG then _ntoa_long_long out buffer maxlen
               else _ntoa_long out buffer maxlen in
  Done (print o value negative (int_base c) (sp_precision s) (sp_width s) flags, va).

Definition conv_fixed (c : Z) (s : spec) (o : Z * St) : outcome (Z * St * list arg) :=
  let flags := if c =? ch "F" then add_flag (sp_flags s) FLAGS_UPPERCASE else sp_flags s in
  '(d, va) ← va_double (sp_va s);
  o ← _ftoa out buffer maxlen float_fuel o d (sp_precision s) (sp_width s) flags;
  Done (o, va).

Definition conv_exp (c : Z) (s : spec) (o : Z * St) : outcome (Z * St * list arg) :=
  let flags := sp_flags s in
  let flags := if (c =? ch "g") || (c =? ch "G") then add_flag flags FLAGS_ADAPT_EXP else flags in
  let flags := if (c =? ch "E") || (c =? ch "G") then add_flag flags FLAGS_UPPERCASE else flags in
  '(d, va) ← va_double (sp_va s);
  o ← _etoa out buffer maxlen float_fuel o d (sp_precision s) (sp_width s) flags;
  Done (o, va).

(** [while (l++ < width) out(' ', ...)] *)
Definition pad_from (l width : Z) (o : Z * St) : Z * St := put_n (Z.to_nat (width - l)) (ch " ") o.

Definition conv_char (s : spec) (o : Z * St) : outcome (Z * St * list arg) :=
  let o := if negb (has (sp_flags s) FLAGS_LEFT) then pad_from 1 (sp_width s) o else o in
  '(v, va) ← va_int (sp_va s);
  let o := putc (u8 v) o in
  Done (if has (sp_flags s) FLAGS_LEFT then pad_from 1 (sp_width s) o else o, va).

(** [while (( *p != 0) && (!(flags & FLAGS_PRECISION) || precision--))] *)
Fixpoint put_string (p : list Z) (limited : bool) (precision : Z) (o : Z * St) : Z * St :=
  match p with
  | [] => o
  | c :: p =>
      if (c =? 0) || (limited && (precision =? 0)) then o
      else put_string p limited (precision - 1) (putc c o)
  end.

Definition conv_str (s : spec) (o : Z * St) : outcome (Z * St * list arg) :=
  let flags := sp_flags s in
  let precision := sp_precision s in
  '(p, va) ← va_str (sp_va s);
  let l := u32 (_strnlen_s p (if precision =? 0 then 2 ^ 64 - 1 else precision)) in
  let l := if has flags FLAGS_PRECISION then Z.min l precision else l in
  let o := if negb (has flags FLAGS_LEFT) then pad_from l (sp_width s) o else o in
  let o := put_string p (has flags FLAGS_PRECISION) precision o in
  Done (if has flags FLAGS_LEFT then pad_from l (sp_width s) o else o, va).

Definition conv_ptr (s : spec) (o : Z * St) : outcome (Z * St * list arg) :=
  let width := 16 in
  let flags := add_flag (sp_flags s) (Z.lor FLAGS_ZEROPAD FLAGS_UPPERCASE) in
  '(v, va) ← va_slot (sp_va s);
  Done (_ntoa_long_long out buffer maxlen o (u64 v) false 16 (sp_precision s) width flags, va).

Definition is_int_conv (c : Z) : bool :=
  (c =? ch "d") || (c =? ch "i") || (c =? ch "u") || (c =? ch "x") || (c =? ch "X")
  || (c =? ch "o") || (c =? ch "b").
Definition is_exp_conv (c : Z) : bool :=
  (c =? ch "e") || (c =? ch "E") || (c =? ch "g") || (c =? ch "G").

(** The switch on the conversion character. *)
Definition convert (s : spec) (o : Z * St) : outcome (Z * St * list arg) :=
  let c := cur (sp_format s) in
  if is_int_conv c then conv_int c s o
  else if (c =? ch "f") || (c =? ch "F") then conv_fixed c s o
  else if is_exp_conv c then conv_exp c s o
  else if c =? ch "c" then conv_char s o
  else if c =? ch "s" then conv_str s o
  else if c =? ch "p" then conv_ptr s o
  else if c =? ch "%" then Done (putc (ch "%") o, sp_va s)
  else Done (putc c o, sp_va s).

(** [while ( *format )]; every turn consumes at least one character. *)
Fixpoint format_loop (fuel : nat) (f : list Z) (va : list arg) (o : Z * St) : outcome (Z * St) :=
  if cur f =? 0 then Done o
  else match fuel with
  | O => Stuck OutOfFuel
  | S fuel =>
      if negb (cur f =? ch "%") then format_loop fuel (tl f) va (putc (cur f) o)
      else
        s ← parse_spec (tl f) va;
        '(o, va) ← convert s o;
        f ← advance (sp_format s);
        format_loop fuel f va o
  end.
End format.

Definition _vsnprintf {St} (out : out_fct_type St) (buffer maxlen : Z) (format : list Z)
    (va : list arg) (st : St) : outcome (Z * St) :=
  let out := if buffer =? 0 then _out_null else out in
  '(idx, st) ← format_loop out buffer maxlen (length format) format va (0, st);
  let st := out 0 buffer (if idx <? maxlen then idx else u64 (maxlen - 1)) maxlen st in
  Done (s32 idx, st).

(** [(size_t)-1], and the address of the unused local buffer of the printing functions. *)
Definition SIZE_MAX : Z := 2 ^ 64 - 1.
Definition local_buffer : Z := 1.

Definition printf_ {St} (putchar : Z → St → St) (format : list Z) (va : list arg) : St → outcome (Z * St) :=
  _vsnprintf (_out_char putchar) local_buffer SIZE_MAX format va.
Definition vprintf_ {St} (putchar : Z → St → St) (format : list Z) (va : list arg) : St → outcome (Z * St) :=
  _vsnprintf (_out_char putchar) local_buffer SIZE_MAX format va.
Definition sprintf_ (buffer : Z) (format : list Z) (va : list arg) : mem → outcome (Z * mem) :=
  _vsnprintf _out_buffer buffer SIZE_MAX format va.
Definition snprintf_ (buffer count : Z) (format : list Z) (va : list arg) : mem → outcome (Z * mem) :=
  _vsnprintf _out_buffer buffer count format va.
Definition vsnprintf_ (buffer count : Z) (format : list Z) (va : list arg) : mem → outcome (Z * mem) :=
  _vsnprintf _out_buffer buffer count format va.
Definition fctprintf {St} (fct : Z → St → St) (format : list Z) (va : list arg) : St → outcome (Z * St) :=
  _vsnprintf (_out_fct fct) local_buffer SIZE_MAX format va.

(** ** What is printed does not depend on where it goes *)

Definition converter : Type :=
  ∀ St : Type, out_fct_type St → Z → Z → Z * St → outcome (Z * St * list arg).
Definition converts (f : converter) : Prop :=
  ∃ r : outcome (list Z * list arg), ∀ St (out : out_fct_type St) buffer maxlen o, idx_range o →
    f St out buffer maxlen o = ('(cs, va) ← r; Done (emit out buffer maxlen cs o, va)).

Lemma converts_done (f : converter) cs va :
  (∀ St (out : out_fct_type St) buffer maxlen o, idx_range o →
     f St out buffer maxlen o = Done (emit out buffer maxlen cs o, va)) → converts f.
Proof. intros H. by exists (Done (cs, va)). Qed.
Lemma converts_stuck (f : converter) w :
  (∀ St (out : out_fct_type St) buffer maxlen o, idx_range o → f St out buffer maxlen o = Stuck w) →
  converts f.
Proof. intros H. by exists (Stuck w). Qed.
Lemma converts_prints (f : printer) va :
  (∃ r, prints f r) → converts (λ St out buffer maxlen o, o ← f St out buffer maxlen o; Done (o, va)).
Proof.
  intros [r Hr]. exists (cs ← r; Done (cs, va)). intros. rewrite Hr by done. by destruct r.
Qed.

(** The characters of a string conversion without its padding. *)
Fixpoint string_text (p : list Z) (limited : bool) (precision : Z) : list Z :=
  match p with
  | [] => []
  | c :: p =>
      if (c =? 0) || (limited && (precision =? 0)) then []
      else c :: string_text p limited (precision - 1)
  end.

Lemma put_string_emit {St} (out : out_fct_type St) buffer maxlen p limited precision o :
  put_string out buffer maxlen p limited precision o =
    emit out buffer maxlen (string_text p limited precision) o.
Proof.
  revert precision o; induction p as [|c p IH]; intros precision o; [done|]. simpl.
  destruct (_ || _); [done|]. apply IH.
Qed.

(** A field of [text] padded to [width]; [l] is the length the code pads from. *)
Definition field (text : list Z) (l width flags : Z) : list Z :=
  if has flags FLAGS_LEFT then text ++ spaces (width - l) else spaces (width - l) ++ text.

Lemma conv_int_converts c s : converts (λ St out b m o, conv_int out b m c s o).
Proof.
  unfold conv_int. destruct (va_slot (sp_va s)) as [[slot va]|w]; [|by eapply converts_stuck].
  cbn [mbind outcome_bind]. destruct (int_value _ _ _) as [v neg]. eapply converts_done. intros.
  destruct (has _ FLAGS_LONG_LONG); f_equal; f_equal; by apply ntoa_long_emit.
Qed.

Lemma conv_str_text s p va :
  va_str (sp_va s) = Done (p, va) →
  let limited := has (sp_flags s) FLAGS_PRECISION in
  let n := u32 (_strnlen_s p (if sp_precision s =? 0 then 2 ^ 64 - 1 else sp_precision s)) in
  let l := if limited then Z.min n (sp_precision s) else n in
  ∀ St (out : out_fct_type St) buffer maxlen o,
    conv_str out buffer maxlen s o =
      Done (emit out buffer maxlen
              (field (string_text p limited (sp_precision s)) l (sp_width s) (sp_flags s)) o, va).
Proof.
  intros Hv limited n l St out buffer maxlen o. unfold conv_str, field, pad_from. rewrite Hv.
  cbn [mbind outcome_bind].
  fold limited n. fold l. destruct (has (sp_flags s) FLAGS_LEFT); cbn [negb];
    rewrite !put_n_emit, put_string_emit, <- emit_app; done.
Qed.

Lemma convert_converts s : converts (λ St out b m o, convert out b m s o).
Proof.
  unfold convert. set (c := cur (sp_format s)).
  destruct (is_int_conv c); [apply conv_int_converts|].
  destruct ((c =? ch "f") || (c =? ch "F")).
  { unfold conv_fixed. destruct (va_double (sp_va s)) as [[d va]|]; [|by eapply converts_stuck].
    apply (converts_prints (λ St out b m o, _ftoa out b m float_fuel o d _ _ _)), ftoa_print. }
  destruct (is_exp_conv c).
  { unfold conv_exp. destruct (va_double (sp_va s)) as [[d va]|]; [|by eapply converts_stuck].
    apply (converts_prints (λ St out b m o, _etoa out b m float_fuel o d _ _ _)), etoa_print. }
  destruct (c =? ch "c").
  { unfold conv_char, va_int. destruct (va_slot (sp_va s)) as [[v va]|]; [|by eapply converts_stuck].
    eapply (converts_done _ (field [u8 (s32 v)] 1 (sp_width s) (sp_flags s))). intros.
    cbn [mbind outcome_bind]. unfold pad_from, field.
    destruct (has (sp_flags s) FLAGS_LEFT); cbn [negb]; by rewrite put_n_emit, emit_app. }
  destruct (c =? ch "s").
  { destruct (va_str (sp_va s)) as [[p va]|w] eqn:E.
    - eapply converts_done. intros. apply (conv_str_text s p va E).
    - eapply (converts_stuck _ w). intros. unfold conv_str. by rewrite E. }
  destruct (c =? ch "p").
  { unfold conv_ptr. destruct (va_slot (sp_va s)) as [[v va]|]; [|by eapply converts_stuck].
    eapply converts_done. intros. cbn [mbind outcome_bind]. f_equal. f_equal. by apply ntoa_long_emit. }
  destruct (c =? ch "%"); by eapply (converts_done _ [_]).
Qed.

Lemma format_loop_prints fuel f va :
  ∃ r, prints (λ St out b m o, format_loop out b m fuel f va o) r.
Proof.
  revert f va; induction fuel as [|fuel IH]; intros f va; cbn [format_loop].
  - destruct (cur f =? 0); [by eapply (prints_done _ [])|by eapply prints_stuck].
  - destruct (cur f =? 0); [by eapply (prints_done _ [])|].
    destruct (negb (cur f =? ch "%")).
    { apply (prints_bind (λ St out b m o, Done (putc out b m (cur f) o))
               (λ St out b m o, format_loop out b m fuel (tl f) va o)); [|apply IH].
      by apply (prints_done _ [cur f]). }
    destruct (parse_spec (tl f) va) as [s|]; [|by eapply prints_stuck]. cbn [mbind outcome_bind].
    destruct (convert_converts s) as [[[cs va']|w] Hc];
      [|eapply (prints_stuck _ w); intros; by rewrite Hc].
    destruct (advance (sp_format s)) as [f'|w];
      [|eapply (prints_stuck _ w); intros; by rewrite Hc].
    destruct (IH f' va') as [r Hr]. exists (x ← r; Done (cs ++ x)).
    intros St out buffer maxlen o Ho. rewrite Hc by done. cbn [mbind outcome_bind].
    rewrite Hr by (by apply emit_range). destruct r; [|done]. cbn [mbind outcome_bind].
    by rewrite emit_app.
Qed.

(** The text a format and its arguments stand for. *)
Definition printed (format : list Z) (va : list arg) : outcome (list Z) :=
  text_of (λ St out b m o, format_loop out b m (length format) format va o).

Lemma format_loop_text St (out : out_fct_type St) buffer maxlen format va o :
  idx_range o →
  format_loop out buffer maxlen (length format) format va o =
    (cs ← printed format va; Done (emit out buffer maxlen cs o)).
Proof. apply (prints_self _ (format_loop_prints _ _ _)). Qed.

Lemma vsnprintf_text {St} (out : out_fct_type St) buffer maxlen format va st cs :
  buffer ≠ 0 → printed format va = Done cs →
  _vsnprintf out buffer maxlen format va st =
    let n := u64 (Z.of_nat (length cs)) in
    let st := (emit out buffer maxlen cs (0, st)).2 in
    Done (s32 n, out 0 buffer (if n <? maxlen then n else u64 (maxlen - 1)) maxlen st).
Proof.
  intros Hb Ht. unfold _vsnprintf. apply Z.eqb_neq in Hb. rewrite Hb.
  rewrite format_loop_text by (split; simpl; lia). rewrite Ht. cbn [mbind outcome_bind].
  pose proof (emit_idx out buffer maxlen cs (0, st) ltac:(split; simpl; lia)) as Hi.
  destruct (emit out buffer maxlen cs (0, st)) as [idx st']. simpl in *. by rewrite Hi.
Qed.

(** ** Fuel *)

Lemma parse_flags_length f flags : (length (parse_flags f flags).2 ≤ length f)%nat.
Proof.
  revert flags; induction f as [|c f IH]; intros flags; [done|]. cbn [parse_flags].
  repeat (case_match; [etrans; [apply IH|simpl; lia]|]). done.
Qed.

Lemma atoi_loop_length i f : (length (atoi_loop i f).2 ≤ length f)%nat.
Proof.
  revert i; induction f as [|c f IH]; intros i; [done|]. cbn [atoi_loop].
  destruct (_is_digit c); [|done]. etrans; [apply IH|]. simpl. lia.
Qed.

Lemma tl_length {A} (f : list A) : (length (tl f) ≤ length f)%nat.
Proof. destruct f; simpl; lia. Qed.

Lemma parse_width_length flags f va s :
  parse_width flags f va = Done s → (length (sp_format s) ≤ length f)%nat.
Proof.
  unfold parse_width. destruct (_is_digit (cur f)).
  { unfold _atoi. pose proof (atoi_loop_length 0 f) as H. destruct (atoi_loop 0 f). simpl in H.
    by intros [= <-]. }
  destruct (cur f =? ch "*"); [|by intros [= <-]].
  intros ([w va'] & _ & [= <-])%outcome_bind_Done. pose proof (tl_length f). by destruct (w <? 0).
Qed.

Lemma parse_precision_length s s' :
  parse_precision s = Done s' → (length (sp_format s') ≤ length (sp_format s))%nat.
Proof.
  unfold parse_precision. destruct (cur (sp_format s) =? ch "."); [|by intros [= <-]].
  pose proof (tl_length (sp_format s)) as H1. set (f := tl (sp_format s)) in *.
  destruct (_is_digit (cur f)).
  { unfold _atoi. pose proof (atoi_loop_length 0 f) as H. destruct (atoi_loop 0 f). simpl in H.
    intros [= <-]. simpl. lia. }
  destruct (cur f =? ch "*"); [|intros [= <-]; simpl; lia].
  intros ([w va'] & _ & [= <-])%outcome_bind_Done. pose proof (tl_length f). simpl. lia.
Qed.

Lemma parse_length_length s : (length (sp_format (parse_length s)) ≤ length (sp_format s))%nat.
Proof.
  unfold parse_length. pose proof (tl_length (sp_format s)). pose proof (tl_length (tl (sp_format s))).
  repeat case_match; simpl; lia.
Qed.

Lemma parse_spec_length f va s :
  parse_spec f va = Done s → (length (sp_format s) ≤ length f)%nat.
Proof.
  unfold parse_spec. pose proof (parse_flags_length f 0) as H. destruct (parse_flags f 0) as [fl f'].
  intros (s1 & H1%parse_width_length & H2)%outcome_bind_Done.
  apply outcome_bind_Done in H2 as (s2 & H2%parse_precision_length & [= <-]).
  pose proof (parse_length_length s2). simpl in H. lia.
Qed.

Lemma cur_nonzero f : cur f ≠ 0 → ∃ c f', f = c :: f' ∧ c ≠ 0.
Proof. destruct f as [|c f]; simpl; [done|eauto]. Qed.

(** Fuel for every character of the format is enough. *)
Lemma format_loop_fuel {St} (out : out_fct_type St) buffer maxlen n1 n2 f va o :
  (length f ≤ n1)%nat → (length f ≤ n2)%nat →
  format_loop out buffer maxlen n1 f va o = format_loop out buffer maxlen n2 f va o.
Proof.
  revert n2 f va o; induction n1 as [|n1 IH]; intros [|n2] f va o H1 H2; try done.
  1,2: by (destruct f; [|simpl in *; lia]).
  cbn [format_loop]. destruct (Z.eqb_spec (cur f) 0) as [|Hf]; [done|].
  destruct (cur_nonzero f Hf) as (c & f' & -> & _). simpl in H1, H2. cbn [tl cur].
  destruct (negb (c =? ch "%")); [apply IH; lia|].
  destruct (parse_spec f' va) as [s|] eqn:E; [|done]. cbn [mbind outcome_bind].
  apply parse_spec_length in E. destruct (convert out buffer maxlen s o) as [[o' va']|]; [|done].
  cbn [mbind outcome_bind]. unfold advance.
  destruct (Z.eqb_spec (cur (sp_format s)) 0); [done|]. cbn [mbind outcome_bind].
  pose proof (tl_length (sp_format s)). apply IH; lia.
Qed.

Definition no_double (va : list arg) : Prop := ∀ d, ADouble d ∉ va.

Lemma no_double_tl a va : no_double (a :: va) → no_double va.
Proof. intros H d Hd. apply (H d). by apply list_elem_of_further. Qed.

(** A run that ends in [P], or gets stuck otherwise than for want of fuel. *)
Definition runs_to {A} (P : A → Prop) (o : outcome A) : Prop :=
  match o with Done a => P a | Stuck w => w ≠ OutOfFuel end.

Lemma runs_bind {A B} (P : A → Prop) (Q : B → Prop) (o : outcome A) (k : A → outcome B) :
  runs_to P o → (∀ a, P a → runs_to Q (k a)) → runs_to Q (o ≫= k).
Proof. destruct o; simpl; auto. Qed.

Lemma va_slot_runs va : no_double va → runs_to (λ p, no_double p.2) (va_slot va).
Proof. destruct va as [|[] va]; simpl; try done. apply no_double_tl. Qed.
Lemma va_int_runs va : no_double va → runs_to (λ p, no_double p.2) (va_int va).
Proof. intros H. eapply runs_bind; [by apply va_slot_runs|]. by intros []. Qed.
Lemma va_str_runs va : no_double va → runs_to (λ p, no_double p.2) (va_str va).
Proof. destruct va as [|[] va]; simpl; try done. apply no_double_tl. Qed.
Lemma va_double_runs va : no_double va → runs_to (λ p, False) (va_double va).
Proof. intros H. destruct va as [|[] va]; simpl; try done. eapply H, list_elem_of_here. Qed.

Lemma parse_spec_runs f va : no_double va → runs_to (λ s, no_double (sp_va s)) (parse_spec f va).
Proof.
  intros H. unfold parse_spec. destruct (parse_flags f 0) as [flags f'].
  eapply (runs_bind (λ s, no_double (sp_va s))); [|intros s1 H1; eapply (runs_bind (λ s, no_double (sp_va s)))].
  - unfold parse_width. destruct (_is_digit (cur f')); [by destruct (_atoi f')|].
    destruct (cur f' =? ch "*"); [|done]. eapply runs_bind; [by apply va_int_runs|].
    intros [w va'] Hv. simpl in *. by destruct (w <? 0).
  - unfold parse_precision. destruct (cur (sp_format s1) =? ch "."); [|done].
    destruct (_is_digit _); [by destruct (_atoi _)|]. destruct (cur _ =? ch "*"); [|done].
    eapply runs_bind; [by apply va_int_runs|]. by intros [w va'] Hv.
  - intros s2 H2. simpl. unfold parse_length. by repeat case_match.
Qed.

Lemma convert_runs {St} (out : out_fct_type St) buffer maxlen s o :
  no_double (sp_va s) → runs_to (λ p, no_double p.2) (convert out buffer maxlen s o).
Proof.
  intros H. unfold convert.
  repeat match goal with |- runs_to _ (if ?b then _ else _) => destruct b end; try done.
  - eapply runs_bind; [by apply va_slot_runs|]. intros [v va] Hv. by destruct (int_value _ _ _).
  - eapply runs_bind; [by apply va_double_runs|]. done.
  - eapply runs_bind; [by apply va_double_runs|]. done.
  - eapply runs_bind; [by apply va_int_runs|]. by intros [v va] Hv.
  - eapply runs_bind; [by apply va_str_runs|]. by intros [v va] Hv.
  - eapply runs_bind; [by apply va_slot_runs|]. by intros [v va] Hv.
Qed.

Lemma format_loop_runs {St} (out : out_fct_type St) buffer maxlen fuel f va o :
  (length f ≤ fuel)%nat → no_double va →
  runs_to (λ _, True) (format_loop out buffer maxlen fuel f va o).
Proof.
  revert f va o; induction fuel as [|fuel IH]; intros f va o Hl Hv; cbn [format_loop].
  { destruct f; [done|simpl in Hl; lia]. }
  destruct (Z.eqb_spec (cur f) 0) as [|Hf]; [done|].
  destruct (cur_nonzero f Hf) as (c & f' & -> & _). simpl in Hl. cbn [tl cur].
  destruct (negb (c =? ch "%")); [apply IH; [lia|done]|].
  pose proof (parse_spec_runs f' va Hv) as Hr.
  destruct (parse_spec f' va) as [s|] eqn:E; [|exact Hr]. cbn [mbind outcome_bind].
  apply parse_spec_length in E.
  eapply runs_bind; [by apply convert_runs|]. intros [o' va'] Hv'. unfold advance.
  destruct (Z.eqb_spec (cur (sp_format s)) 0); [done|]. cbn [mbind outcome_bind].
  pose proof (tl_length (sp_format s)). apply IH; [lia|done].
Qed.



(** ** What formats mean *)

Lemma printed_loop fuel f va :
  (length f ≤ fuel)%nat →
  text_of (λ St out b m o, format_loop out b m fuel f va o) = printed f va.
Proof. intros H. unfold printed, text_of. by rewrite (format_loop_fuel _ _ _ fuel (length f)). Qed.

Lemma printed_step c f va :
  c ≠ 0 →
  printed (c :: f) va =
    if negb (c =? ch "%") then cs ← printed f va; Done (c :: cs)
    else
      s ← parse_spec f va;
      '(cs, va) ← (λ r, (r.1.2, r.2)) <$> convert log_out 0 0 s (0, []);
      f ← advance (sp_format s);
      cs' ← printed f va; Done (cs ++ cs').
Proof.
  intros Hc. apply prints_text. intros St out buffer maxlen o Ho. cbn [length format_loop cur tl].
  apply Z.eqb_neq in Hc. rewrite Hc. destruct (negb (c =? ch "%")).
  - change (putc out buffer maxlen c o) with (emit out buffer maxlen [c] o).
    rewrite format_loop_text by (by apply emit_range). destruct (printed f va); [|done].
    cbn [mbind outcome_bind]. by rewrite <- emit_app.
  - destruct (parse_spec f va) as [s|] eqn:E; [|done]. apply parse_spec_length in E.
    cbn [mbind outcome_bind].
    destruct (convert_converts s) as [r Hr]. rewrite Hr by done.
    rewrite (Hr _ log_out) by (split; simpl; lia).
    destruct r as [[cs va']|]; [|done]. cbn [mbind outcome_bind fmap outcome_fmap fst snd].
    rewrite emit_log. cbn [app].
    unfold advance. destruct (cur (sp_format s) =? 0); [done|]. cbn [mbind outcome_bind].
    pose proof (tl_length (sp_format s)).
    rewrite (format_loop_fuel _ _ _ _ (length (tl (sp_format s)))) by lia.
    rewrite format_loop_text by (by apply emit_range).
    destruct (printed _ va'); [|done]. cbn [mbind outcome_bind]. by rewrite emit_app.
Qed.

(** The contents of a C string: what precedes its first null character. *)
Definition c_string (p : list Z) : list Z := string_text p false 0.
(** A number in decimal, without leading zeros. *)
Definition decimal (n : Z) : list Z :=
  (if n <? 0 then [ch "-"] else []) ++ rev (ntoa_digits 32 (Z.abs n) 10 0).

Lemma string_text_unlimited p k : string_text p false k = c_string p.
Proof.
  unfold c_string. generalize 0. revert k; induction p as [|c p IH]; intros k k'; [done|]. simpl.
  destruct (c =? 0); [done|]. simpl. f_equal. apply IH.
Qed.


Lemma magnitude_abs v : - 2 ^ 31 ≤ v < 2 ^ 31 → magnitude 32 v = Z.abs v.
Proof. intros H. unfold magnitude. destruct (Z.ltb_spec 0 v); wrap_lia. Qed.

Lemma text_decimal n flags :
  0 ≤ n < 2 ^ 64 → flags = 0 → ntoa_buf n 10 flags = ntoa_digits 32 n 10 0.
Proof. by intros _ ->. Qed.

(** [%d] without modifiers converts the low 32 bits of its argument. *)
Lemma ntoa_text_decimal n negative :
  0 ≤ n < 2 ^ 64 →
  ntoa_text n negative 10 0 0 0 =
    (if negative then [ch "-"] else []) ++ rev (ntoa_digits 32 n 10 0).
Proof.
  intros Hn. unfold ntoa_text. rewrite drop_absent by done.
  assert ((if n =? 0 then 0 else 0) = 0) as -> by (by destruct (_ =? 0)).
  pose proof (ntoa_buf_short n 10 0 Hn ltac:(lia)) as Hl.
  rewrite text_decimal in * by done.
  rewrite format_right; [|done|done|lia|lia|lia|done].
  unfold right_spec, spaces, zeros. rewrite length_rev.
  assert (has 0 FLAGS_ZEROPAD = false) as -> by done.
  rewrite !Z2Nat.nonpos by lia. by destruct negative.
Qed.

Lemma printed_decimal f va v :
  printed (str "%d" ++ f) (AInt v :: va) = (cs ← printed f va; Done (decimal (s32 v) ++ cs)).
Proof.
  change (str "%d" ++ f) with (ch "%" :: ch "d" :: f). rewrite printed_step by done.
  set (s := {| sp_flags := 0; sp_width := 0; sp_precision := 0; sp_format := ch "d" :: f;
               sp_va := AInt v :: va |}).
  change (parse_spec (ch "d" :: f) (AInt v :: va)) with (Done s).
  cbn [mbind outcome_bind negb].
  change (convert log_out 0 0 s (0, [])) with
    (Done (_ntoa_long log_out 0 0 (0, []) (magnitude 32 (s32 v)) (s32 v <? 0) 10 0 0 0, va)).
  rewrite ntoa_long_emit by (split; simpl; lia).
  cbn [fmap outcome_fmap fst snd mbind outcome_bind]. rewrite emit_log.
  change (ch "%" =? ch "%") with true. cbn [negb mbind outcome_bind].
  assert (- 2 ^ 31 ≤ s32 v < 2 ^ 31) as Hv by (unfold sw; pose proof (Z.mod_pos_bound (v + 2 ^ (32 - 1)) (2 ^ 32)); lia).
  rewrite magnitude_abs, ntoa_text_decimal by lia. done.
Qed.

(** What a format prints, piece by piece: other characters stand for themselves, [%%] for a
    percent sign, [%s] for its string and [%d] for its number in decimal. *)
Theorem printed_equations f va :
  (printed [] va = Done []) ∧
  (∀ c, c ≠ 0 → c ≠ ch "%" → printed (c :: f) va = (cs ← printed f va; Done (c :: cs))) ∧
  (printed (str "%%" ++ f) va = (cs ← printed f va; Done (ch "%" :: cs))) ∧
  (∀ p, printed (str "%s" ++ f) (AStr p :: va) = (cs ← printed f va; Done (c_string p ++ cs))) ∧
  (∀ v, printed (str "%d" ++ f) (AInt v :: va) = (cs ← printed f va; Done (decimal (s32 v) ++ cs))).
Proof.
  split; [done|]. split; [|split; [|split]].
  - intros c Hc Hp. rewrite printed_step by done. by destruct (Z.eqb_spec c (ch "%")).
  - change (str "%%" ++ f) with (ch "%" :: ch "%" :: f). rewrite printed_step by done. done.
  - intros p. change (str "%s" ++ f) with (ch "%" :: ch "s" :: f). rewrite printed_step by done.
    set (s := {| sp_flags := 0; sp_width := 0; sp_precision := 0; sp_format := ch "s" :: f;
                 sp_va := AStr p :: va |}).
    change (parse_spec (ch "s" :: f) (AStr p :: va)) with (Done s).
    cbn [mbind outcome_bind negb]. change (convert log_out 0 0 s (0, [])) with (conv_str log_out 0 0 s (0, [])).
    rewrite (conv_str_text s p va eq_refl). cbn [fmap outcome_fmap fst snd mbind outcome_bind].
    rewrite emit_log. change (ch "%" =? ch "%") with true. cbn [negb mbind outcome_bind].
    unfold field, spaces. subst s. cbn [sp_flags sp_width sp_precision sp_format].
    change (has 0 FLAGS_LEFT) with false. change (has 0 FLAGS_PRECISION) with false. cbv iota.
    set (l := _strnlen_s p _). pose proof (uw_range 32 l ltac:(lia)). rewrite Z2Nat.nonpos by lia.
    cbn [replicate app]. by rewrite string_text_unlimited.
  - intros v. apply printed_decimal.
Qed.

(** [%llx] and [%#llx] convert their whole argument. *)
Definition hex_text (flags v : Z) : list Z :=
  ntoa_text (u64 v) false 16 0 0 (int_flags (ch "x") (Z.lor flags (Z.lor FLAGS_LONG FLAGS_LONG_LONG))).
Definition hex (v : Z) : list Z := hex_text 0 v.
Definition hash_hex (v : Z) : list Z := hex_text FLAGS_HASH v.

Lemma printed_hex_at f v va flags format :
  flags = 0 ∧ format = str "llx" ++ f ∨ flags = FLAGS_HASH ∧ format = str "#llx" ++ f →
  printed (ch "%" :: format) (AInt v :: va) = (cs ← printed f va; Done (hex_text flags v ++ cs)).
Proof.
  set (all := Z.lor flags (Z.lor FLAGS_LONG FLAGS_LONG_LONG)).
  set (s := {| sp_flags := all; sp_width := 0; sp_precision := 0; sp_format := ch "x" :: f;
               sp_va := AInt v :: va |}).
  intros H. rewrite printed_step by done.
  assert (parse_spec format (AInt v :: va) = Done s) as ->.
  { destruct H as [[-> ->]|[-> ->]]; reflexivity. }
  assert (convert log_out 0 0 s (0, []) =
    Done (_ntoa_long log_out 0 0 (0, []) (u64 v) false 16 0 0 (int_flags (ch "x") all), va)) as E.
  { destruct H as [[-> _]|[-> _]]; reflexivity. }
  change (negb (ch "%" =? ch "%")) with false. cbn [mbind outcome_bind]. rewrite E.
  rewrite ntoa_long_emit by (split; simpl; lia).
  cbn [fmap outcome_fmap fst snd mbind outcome_bind]. rewrite emit_log. done.
Qed.

Lemma printed_hex f v va :
  printed (str "%llx" ++ f) (AInt v :: va) = (cs ← printed f va; Done (hex v ++ cs)).
Proof. apply (printed_hex_at f v va 0). by left. Qed.

Lemma printed_hash_hex f v va :
  printed (str "%#llx" ++ f) (AInt v :: va) = (cs ← printed f va; Done (hash_hex v ++ cs)).
Proof. apply (printed_hex_at f v va FLAGS_HASH). by right. Qed.

(** The text of a format made of characters, [%d], [%llx] and [%#llx], when it fits its
    arguments. *)
Fixpoint simple_text (f : list Z) (vs : list Z) : option (list Z) :=
  match f with
  | [] => match vs with [] => Some [] | _ => None end
  | c :: f =>
      if c =? ch "%" then
        match f, vs with
        | d :: f1, v :: vs =>
            if d =? ch "d" then (decimal (s32 v) ++.) <$> simple_text f1 vs
            else if d =? ch "l" then
              match f1 with
              | e :: x :: f2 =>
                  if (e =? ch "l") && (x =? ch "x") then (hex v ++.) <$> simple_text f2 vs else None
              | _ => None
              end
            else if d =? ch "#" then
              match f1 with
              | l :: e :: x :: f2 =>
                  if (l =? ch "l") && (e =? ch "l") && (x =? ch "x") then (hash_hex v ++.) <$> simple_text f2 vs
                  else None
              | _ => None
              end
            else None
        | _, _ => None
        end
      else if c =? 0 then None else (c ::.) <$> simple_text f vs
  end.

Lemma simple_text_prints f vs cs : simple_text f vs = Some cs → printed f (AInt <$> vs) = Done cs.
Proof.
  remember (length f) as k eqn:Hk. assert (length f ≤ k)%nat as Hle by lia. clear Hk.
  revert f vs cs Hle; induction k as [|k IH]; intros [|c f] vs cs Hle H; simpl in Hle; try lia.
  1,2: by destruct vs; [injection H as <-|].
  cbn [simple_text] in H. destruct (Z.eqb_spec c (ch "%")) as [->|Hp].
  - destruct f as [|d f1], vs as [|v vs]; try done. cbn [length fmap list_fmap] in H |- *. simpl in Hle.
    destruct (Z.eqb_spec d (ch "d")) as [->|_].
    + apply fmap_Some in H as (cs' & H & ->). pose proof (printed_decimal f1 (AInt <$> vs) v) as E.
      cbn [str fmap list_fmap list_ascii_of_string app] in E. rewrite E.
      by rewrite (IH f1 vs cs' ltac:(lia) H).
    + destruct (Z.eqb_spec d (ch "l")) as [->|_]; [|destruct (Z.eqb_spec d (ch "#")) as [->|_]; [|done]].
      * destruct f1 as [|e [|x f2]]; try done. simpl in Hle.
        destruct (Z.eqb_spec e (ch "l")) as [->|]; [|done]. destruct (Z.eqb_spec x (ch "x")) as [->|]; [|done].
        apply fmap_Some in H as (cs' & H & ->). pose proof (printed_hex f2 v (AInt <$> vs)) as E.
        cbn [str fmap list_fmap list_ascii_of_string app] in E. rewrite E.
        by rewrite (IH f2 vs cs' ltac:(lia) H).
      * destruct f1 as [|l [|e [|x f2]]]; try done. simpl in Hle.
        destruct (Z.eqb_spec l (ch "l")) as [->|]; [|done].
        destruct (Z.eqb_spec e (ch "l")) as [->|]; [|done]. destruct (Z.eqb_spec x (ch "x")) as [->|]; [|done].
        apply fmap_Some in H as (cs' & H & ->). pose proof (printed_hash_hex f2 v (AInt <$> vs)) as E.
        cbn [str fmap list_fmap list_ascii_of_string app] in E. rewrite E.
        by rewrite (IH f2 vs cs' ltac:(lia) H).
  - destruct (Z.eqb_spec c 0) as [|Hz]; [done|]. apply fmap_Some in H as (cs' & H & ->).
    rewrite printed_step by done. apply Z.eqb_neq in Hp. rewrite Hp, (IH f vs cs' ltac:(lia) H). done.
Qed.

(** Characters other than [%] stand for themselves. *)
Lemma printed_text l f va :
  Forall (λ c, c ≠ 0 ∧ c ≠ ch "%") l → printed (l ++ f) va = (cs ← printed f va; Done (l ++ cs)).
Proof.
  induction 1 as [|c l [H1 H2] _ IH]; [simpl; by destruct (printed f va)|].
  cbn [app]. rewrite printed_step by done. apply Z.eqb_neq in H2. rewrite H2, IH. cbn [negb].
  by destruct (printed f va).
Qed.

(** A format that ends in a lone [%] makes the interpreter print the terminator and read on
    behind it. *)
Theorem printed_trailing_percent lit_ va :
  Forall (λ c, c ≠ 0 ∧ c ≠ ch "%") lit_ → printed (lit_ ++ [ch "%"]) va = Stuck PastEnd.
Proof.
  intros H. rewrite printed_text by done. by rewrite printed_step.
Qed.

Lemma printed_trailing_percent_witness : printed (str "100%") [] = Stuck PastEnd.
Proof. apply (printed_trailing_percent (str "100") []). repeat constructor; done. Defined.

(** C27. [snprintf_] writes the text, cut to [count - 1] characters, and a null character behind it;
    it writes nothing else, nothing at all when [count] is 0, and returns the length of the whole
    text. *)
Theorem snprintf_writes buffer count format va m cs :
  buffer ≠ 0 → 0 ≤ count < 2 ^ 64 → printed format va = Done cs → Z.of_nat (length cs) < 2 ^ 31 →
  let n := Z.of_nat (length cs) in
  let kept := Z.min n (count - 1) in
  ∃ m', snprintf_ buffer count format va m = Done (n, m') ∧
    (∀ a, 0 ≤ a - buffer < kept → load8 m' a = u8 (nth (Z.to_nat (a - buffer)) cs 0)) ∧
    (0 < count → load8 m' (buffer + kept) = 0) ∧
    (∀ a, a - buffer < 0 ∨ kept < a - buffer ∨ count = 0 → load8 m' a = load8 m a).
Proof.
  intros Hb Hc Hp Hl n kept. unfold snprintf_.
  rewrite (vsnprintf_text _ buffer count format va m cs Hb Hp). cbv zeta. fold n.
  assert (Hn : 0 ≤ n < 2 ^ 31) by lia.
  rewrite (uw_small 64 n), sw_small by lia. set (m1 := (emit _ _ _ cs (0, m)).2).
  set (t := if n <? count then n else u64 (count - 1)).
  eexists. split; [reflexivity|].
  assert (H1 : ∀ a, load8 m1 a =
    if (0 <=? a - buffer) && (a - buffer <? Z.min n count)
    then u8 (nth (Z.to_nat (a - buffer)) cs 0) else load8 m a).
  { intros a. unfold m1. rewrite emit_buffer by lia. cbv zeta. by rewrite Z.add_0_l, Z.sub_0_r. }
  assert (Ht : (0 < count → t = kept) ∧ (t <? count) = (0 <? count)).
  { subst t kept. destruct (Z.ltb_spec n count).
    - split; [lia|]. destruct (Z.ltb_spec n count), (Z.ltb_spec 0 count); (done || lia).
    - destruct (Z.ltb_spec 0 count).
      + rewrite uw_small by lia. split; [lia|]. destruct (Z.ltb_spec (count - 1) count); (done || lia).
      + assert (count = 0) as -> by lia. split; [lia|done]. }
  destruct Ht as [Ht1 Ht2].
  assert (H2 : ∀ a, load8 (_out_buffer 0 buffer t count m1) a =
    if (0 <? count) && (a - buffer =? kept) then 0 else load8 m1 a).
  { intros a. unfold _out_buffer. rewrite Ht2. destruct (Z.ltb_spec 0 count); [|done]. simpl.
    rewrite load8_store, Ht1, Z.shiftr_0_l by done. change (Z.of_nat 1) with 1. zdecide. }
  split; [|split].
  - intros a Ha. rewrite H2, H1. zdecide.
  - intros H0. rewrite H2. zdecide.
  - intros a Ha. rewrite H2, H1. zdecide.
Qed.

Lemma snprintf_writes_witness :
  ∃ m', snprintf_ 0x1000 6 (str "pid %d!") [AInt 12345] (λ _, 0xAA) = Done (10, m') ∧
    load8 m' 0x1004 = ch "1" ∧ load8 m' 0x1005 = 0 ∧ load8 m' 0x1006 = 0xAA.
Proof.
  destruct (snprintf_writes 0x1000 6 (str "pid %d!") [AInt 12345] (λ _, 0xAA) (str "pid 12345!"))
    as (m' & E & H1 & H2 & H3); [lia|lia|by vm_compute|by vm_compute|].
  exists m'. split; [exact E|]. split; [apply (H1 0x1004); vm_compute; split; congruence|].
  split; [apply H2; lia|]. rewrite H3; [by vm_compute|right; left; by vm_compute].
Defined.

(** [printf_] and [fctprintf] feed the characters of the text that are not null to a function. *)
Definition feed {St} (fct : Z → St → St) (cs : list Z) (st : St) : St :=
  foldl (λ st c, if c =? 0 then st else fct c st) st cs.

Lemma emit_feed {St} (fct : Z → St → St) cs i st :
  (emit (_out_fct fct) local_buffer SIZE_MAX cs (i, st)).2 = feed fct cs st.
Proof. revert i st; induction cs as [|c cs IH]; intros i st; [done|]. apply IH. Qed.

Lemma printf_feed {St} (putchar : Z → St → St) format va cs st :
  printed format va = Done cs →
  printf_ putchar format va st = Done (s32 (u64 (Z.of_nat (length cs))), feed putchar cs st).
Proof.
  intros Hp. unfold printf_. rewrite (vsnprintf_text _ _ _ _ _ _ cs) by done.
  f_equal. f_equal. apply emit_feed.
Qed.



(** ** Deviations *)

(** The [#] flag makes room for its prefix by dropping digits when the number is exactly as wide
    as the field: 0x1234 printed with [%#4x] becomes 0x34. *)
Theorem hash_drops_digits : printed (str "%#4x") [AInt 0x1234] = Done (str "0x34").
Proof. by vm_compute. Qed.
