(* ===== verification/FloatExact.v ===== *)
(** Binary64 arithmetic that is exact.

    The conversions of [printf.c] compute with doubles.  Here is when an operation of [SpecFloat]
    gives the exact result: a non-negative finite number is the integer [a] by which it exceeds zero
    in units of 2^-1074 ([val]), the smallest positive number; sums, differences and products whose
    exact value has at most 53 significant bits are that value. *)

From Stdlib Require Import SpecFloat.
From S2P Require Import Prelude Mem PrintfCore PrintfFloat.

(** ** Digits and shifts *)

Lemma digits2_range p : 2 ^ (Z.pos (digits2_pos p) - 1) ≤ Z.pos p < 2 ^ Z.pos (digits2_pos p).
Proof.
  assert (∀ q n, 2 ^ (Z.pos (digits2_pos q) - 1) ≤ Z.pos q < 2 ^ Z.pos (digits2_pos q) → 0 ≤ n ≤ 1 →
    2 ^ (Z.pos (Pos.succ (digits2_pos q)) - 1) ≤ 2 * Z.pos q + n < 2 ^ Z.pos (Pos.succ (digits2_pos q))) as H.
  { intros q n Hq Hn. rewrite Pos2Z.inj_succ, Z.sub_1_r, Z.pred_succ, Z.pow_succ_r by lia.
    assert (2 ^ Z.pos (digits2_pos q) = 2 * 2 ^ (Z.pos (digits2_pos q) - 1)) as E
      by (rewrite <- Z.pow_succ_r by lia; f_equal; lia). lia. }
  induction p as [p IH|p IH|]; cbn [digits2_pos]; [exact (H p 1 IH ltac:(lia))| |done].
  specialize (H p 0 IH ltac:(lia)). by rewrite Z.add_0_r in H.
Qed.

Lemma digits2_unique p d : 0 < d → 2 ^ (d - 1) ≤ Z.pos p < 2 ^ d → Z.pos (digits2_pos p) = d.
Proof.
  intros Hd Hp. pose proof (digits2_range p) as H. set (k := Z.pos (digits2_pos p)) in *.
  assert (2 ^ (d - 1) < 2 ^ k ∧ 2 ^ (k - 1) < 2 ^ d) as [H1 H2] by lia.
  apply Z.pow_lt_mono_r_iff in H1; [|lia..]. apply Z.pow_lt_mono_r_iff in H2; lia.
Qed.

Lemma digits2_shift p k q : 0 ≤ k → Z.pos q = Z.pos p * 2 ^ k →
  Z.pos (digits2_pos q) = Z.pos (digits2_pos p) + k.
Proof.
  intros Hk Hq. apply digits2_unique; [lia|]. rewrite Hq. pose proof (digits2_range p) as H.
  replace (Z.pos (digits2_pos p) + k - 1) with (Z.pos (digits2_pos p) - 1 + k) by lia.
  rewrite !Z.pow_add_r by lia. assert (0 < 2 ^ k) by (apply Z.pow_pos_nonneg; lia). nia.
Qed.

(** Shifting zeros out loses nothing. *)
Lemma shr_1_even m : shr_1 {| shr_m := 2 * Z.pos m; shr_r := false; shr_s := false |} =
  {| shr_m := Z.pos m; shr_r := false; shr_s := false |}.
Proof. done. Qed.

Lemma iter_pos_shr n m :
  SpecFloat.iter_pos shr_1 n {| shr_m := Z.pos (m * 2 ^ n); shr_r := false; shr_s := false |} =
    {| shr_m := Z.pos m; shr_r := false; shr_s := false |}.
Proof.
  revert m; induction n as [n IH|n IH|]; intros m; cbn [SpecFloat.iter_pos].
  - replace (m * 2 ^ n~1)%positive with (2 * (m * 2 ^ n * 2 ^ n))%positive.
    + rewrite Pos2Z.inj_mul, shr_1_even, IH. apply IH.
    + apply Pos2Z.inj. rewrite !Pos2Z.inj_mul, !Pos2Z.inj_pow, (Pos2Z.inj_xI n).
      replace (2 * Z.pos n + 1) with (Z.pos n + Z.pos n + 1) by lia. rewrite !Z.pow_add_r by lia. lia.
  - replace (m * 2 ^ n~0)%positive with (m * 2 ^ n * 2 ^ n)%positive; [by rewrite !IH|].
    apply Pos2Z.inj. rewrite !Pos2Z.inj_mul, !Pos2Z.inj_pow, (Pos2Z.inj_xO n).
    replace (2 * Z.pos n) with (Z.pos n + Z.pos n) by lia. rewrite Z.pow_add_r by lia. lia.
  - rewrite Pos.mul_comm, Pos2Z.inj_mul. apply shr_1_even.
Qed.

Lemma iter_xO m d : Z.pos (Pos.iter xO m d) = Z.pos m * 2 ^ Z.pos d.
Proof.
  induction d as [|d IH] using Pos.peano_ind; [simpl; lia|].
  rewrite Pos.iter_succ, Pos2Z.inj_succ, Z.pow_succ_r, Pos2Z.inj_xO, IH by lia. lia.
Qed.

Lemma shl_align_value m e e' : e' ≤ e →
  Z.pos (shl_align m e e').1 = Z.pos m * 2 ^ (e - e') ∧ (shl_align m e e').2 = e'.
Proof.
  intros H. unfold shl_align. destruct (e' - e) as [|d|d] eqn:E; [|lia|].
  - replace (e - e') with 0 by lia. cbn [fst snd]. lia.
  - replace (e - e') with (Z.pos d) by lia. cbn [fst snd]. by rewrite iter_xO.
Qed.

(** ** Rounding an exact value *)

Definition canonical (m : positive) (e : Z) : Prop := bounded 53 1024 m e = true.

Lemma canonical_spec m e :
  canonical m e ↔ Z.max (Z.pos (digits2_pos m) + e - 53) (-1074) = e ∧ e ≤ 971.
Proof.
  unfold canonical, bounded, canonical_mantissa, fexp, emin.
  rewrite andb_true_iff, Z.eqb_eq, Z.leb_le. done.
Qed.

(** A canonical number, given with [k] more bits, all of them zero. *)
Lemma round_aux_exact s m e n k :
  canonical m e → 0 ≤ k → Z.pos n = Z.pos m * 2 ^ k →
  binary_round_aux 53 1024 s (Z.pos n) (e - k) loc_Exact = S754_finite s m e.
Proof.
  intros [Hc He]%canonical_spec Hk Hn. pose proof (digits2_shift m k n Hk Hn) as Hd.
  assert (shr_fexp 53 1024 (Z.pos n) (e - k) loc_Exact =
    ({| shr_m := Z.pos m; shr_r := false; shr_s := false |}, e)) as E1.
  { unfold shr_fexp, fexp, emin. cbn [Zdigits2 shr_record_of_loc]. rewrite Hd.
    replace (Z.pos (digits2_pos m) + k + (e - k)) with (Z.pos (digits2_pos m) + e) by lia.
    replace (Z.max _ _ - (e - k)) with k by lia.
    destruct k as [|k|k]; [|..|lia]; cbn [shr].
    - replace n with m by lia. by rewrite Z.sub_0_r.
    - replace n with (m * 2 ^ k)%positive by (apply Pos2Z.inj; rewrite Hn, Pos2Z.inj_mul, Pos2Z.inj_pow; done).
      rewrite iter_pos_shr. f_equal. lia. }
  assert (shr_fexp 53 1024 (Z.pos m) e loc_Exact =
    ({| shr_m := Z.pos m; shr_r := false; shr_s := false |}, e)) as E2.
  { unfold shr_fexp, fexp, emin. cbn [Zdigits2 shr_record_of_loc].
    replace (Z.max _ _ - e) with 0 by lia. done. }
  unfold binary_round_aux. rewrite E1. cbn [shr_m loc_of_shr_record round_nearest_even]. rewrite E2. cbn [shr_m].
  destruct (Z.leb_spec e (1024 - 53)); [done|lia].
Qed.

Lemma round_exact s m e n f :
  canonical m e → -1074 ≤ f → Z.pos n * 2 ^ (f + 1074) = Z.pos m * 2 ^ (e + 1074) →
  binary_round 53 1024 s n f = S754_finite s m e.
Proof.
  intros Hc Hf Hv. pose proof (proj1 (canonical_spec m e) Hc) as [Hm He].
  assert (0 < 2 ^ (f + 1074) ∧ 0 < 2 ^ (e + 1074)) as [P1 P2] by (split; apply Z.pow_pos_nonneg; lia).
  unfold binary_round. destruct (Z.le_gt_cases f e) as [Hle|Hgt].
  - assert (Z.pos n = Z.pos m * 2 ^ (e - f)) as Hn.
    { replace (e + 1074) with (e - f + (f + 1074)) in Hv by lia.
      rewrite (Z.pow_add_r 2 (e - f)), Z.mul_assoc in Hv by lia. apply Z.mul_reg_r in Hv; lia. }
    pose proof (digits2_shift m (e - f) n ltac:(lia) Hn) as Hd.
    assert (fexp 53 1024 (Z.pos (digits2_pos n) + f) = e) as ->.
    { unfold fexp, emin. rewrite Hd. replace (Z.pos (digits2_pos m) + (e - f) + f) with (Z.pos (digits2_pos m) + e) by lia. exact Hm. }
    assert (shl_align n f e = (n, f)) as ->.
    { unfold shl_align. destruct (e - f) eqn:E; [done..|lia]. }
    replace f with (e - (e - f)) at 1 by lia. by apply round_aux_exact; [|lia|].
  - assert (Z.pos m = Z.pos n * 2 ^ (f - e)) as Hn.
    { replace (f + 1074) with (f - e + (e + 1074)) in Hv by lia.
      rewrite (Z.pow_add_r 2 (f - e)), Z.mul_assoc in Hv by lia. apply Z.mul_reg_r in Hv; lia. }
    pose proof (digits2_shift n (f - e) m ltac:(lia) Hn) as Hd.
    assert (fexp 53 1024 (Z.pos (digits2_pos n) + f) = e) as ->.
    { unfold fexp, emin. replace (Z.pos (digits2_pos n) + f) with (Z.pos (digits2_pos m) + e) by lia. exact Hm. }
    destruct (shl_align_value n f e ltac:(lia)) as [V1 V2].
    destruct (shl_align n f e) as [n' e']. cbn [fst snd] in V1, V2. subst e'.
    rewrite <- Hn in V1. injection V1 as ->. rewrite <- (Z.sub_0_r e) at 1.
    apply round_aux_exact; [done|lia|]. rewrite Z.pow_0_r. lia.
Qed.

(** ** Values *)

(** A finite number that is not negative, in units of 2^-1074. *)
Definition unit_bits : Z := 1074.
Definition val (x : double) (a : Z) : Prop :=
  match x with
  | S754_zero _ => a = 0
  | S754_finite false m e => canonical m e ∧ a = Z.pos m * 2 ^ (e + unit_bits)
  | _ => False
  end.

(** A value with at most 53 significant bits, in range. *)
Definition short (a : Z) : Prop :=
  0 ≤ a < 2 ^ 2098 ∧ ∃ M j, 0 ≤ M < 2 ^ 53 ∧ 0 ≤ j ∧ a = M * 2 ^ j.

Lemma canonical_of a : 0 < a → short a → ∃ m e, canonical m e ∧ a = Z.pos m * 2 ^ (e + unit_bits).
Proof.
  intros Ha ((_ & Hhi) & M & j & HM & Hj & ->). set (a := M * 2 ^ j) in *.
  assert (∃ p, a = Z.pos p) as [p Hp] by (exists (Z.to_pos a); lia).
  pose proof (digits2_range p) as Hd. set (d := Z.pos (digits2_pos p)) in *. rewrite <- Hp in Hd.
  assert (0 < 2 ^ j) as Pj by (apply Z.pow_pos_nonneg; lia).
  assert (2 ^ (d - 1) < 2 ^ (53 + j)) as H1 by (rewrite Z.pow_add_r by lia; unfold a in *; nia).
  apply Z.pow_lt_mono_r_iff in H1; [|lia..].
  assert (2 ^ (d - 1) < 2 ^ 2098) as H2 by lia. apply Z.pow_lt_mono_r_iff in H2; [|lia..].
  set (q := Z.max 0 (d - 53)). assert (0 ≤ q ≤ j) as Hq by lia.
  assert (a = M * 2 ^ (j - q) * 2 ^ q) as Eq.
  { rewrite <- Z.mul_assoc, <- Z.pow_add_r by lia. unfold a. do 2 f_equal. lia. }
  assert (0 < 2 ^ q) as Pq by (apply Z.pow_pos_nonneg; lia).
  exists (Z.to_pos (M * 2 ^ (j - q))), (q - 1074).
  assert (0 < M * 2 ^ (j - q)) as Hm by nia.
  split; [|rewrite Z2Pos.id by done; rewrite Eq at 1; do 2 f_equal; unfold unit_bits; lia].
  apply canonical_spec. rewrite <- (Z2Pos.id (M * 2 ^ (j - q))) in Eq by done.
  pose proof (digits2_shift (Z.to_pos (M * 2 ^ (j - q))) q p ltac:(lia) ltac:(congruence)) as E. fold d in E. lia.
Qed.

Lemma val_normalize a n e s :
  0 ≤ n → -1074 ≤ e → a = n * 2 ^ (e + unit_bits) → short a →
  val (binary_normalize 53 1024 n e s) a.
Proof.
  intros Hn He Ha Hs. assert (0 < 2 ^ (e + unit_bits)) as P by (apply Z.pow_pos_nonneg; unfold unit_bits; lia).
  destruct n as [|n|n]; [|..|lia]; cbn [binary_normalize val]; [lia|].
  destruct (canonical_of a) as (m' & e' & Hc & Hv); [nia|done|].
  rewrite (round_exact false m' e' n e Hc He) by (unfold unit_bits in *; congruence). done.
Qed.

Lemma short_units n : 0 ≤ n < 2 ^ 53 → short (n * 2 ^ unit_bits).
Proof.
  intros Hn. split; [|by exists n, unit_bits]. unfold unit_bits. split; [lia|].
  apply Z.lt_trans with (2 ^ 53 * 2 ^ 1074).
  - apply Z.mul_lt_mono_pos_r; [by apply Z.pow_pos_nonneg|lia].
  - rewrite <- Z.pow_add_r by lia. apply Z.pow_lt_mono_r; lia.
Qed.

Lemma val_of_Z n : 0 ≤ n < 2 ^ 53 → val (of_Z n) (n * 2 ^ unit_bits).
Proof. intros Hn. apply val_normalize; [lia|lia|done|by apply short_units]. Qed.

Lemma val_nonneg x a : val x a → 0 ≤ a.
Proof.
  destruct x as [| | |[] m e]; cbn [val]; [lia|done..|]. intros [_ ->].
  apply Z.mul_nonneg_nonneg; [lia|]. apply Z.pow_nonneg. lia.
Qed.

(** The finite number with a given value. *)
Lemma val_pos x a : val x a → 0 < a →
  ∃ m e, x = S754_finite false m e ∧ canonical m e ∧ a = Z.pos m * 2 ^ (e + unit_bits) ∧
    -1074 ≤ e ≤ 971 ∧ Z.pos m < 2 ^ 53 ∧ (2 ^ 52 ≤ Z.pos m ∨ e = -1074).
Proof.
  destruct x as [| | |[] m e]; cbn [val]; [lia|done..|]. intros [Hc Ha] _. exists m, e.
  pose proof (proj1 (canonical_spec m e) Hc) as [Hm He]. pose proof (digits2_range m) as Hd.
  split; [done|]. split; [done|]. split; [done|]. split; [lia|]. split.
  - apply Z.lt_le_trans with (2 ^ Z.pos (digits2_pos m)); [lia|]. apply Z.pow_le_mono_r; lia.
  - destruct (Z.eq_dec e (-1074)) as [|Hne]; [by right|left].
    replace 52 with (Z.pos (digits2_pos m) - 1) by lia. lia.
Qed.
Lemma val_zero x : val x 0 → ∃ s, x = S754_zero s.
Proof.
  destruct x as [s| | |[] m e]; cbn [val]; [by exists s|done..|]. intros [Hc H].
  apply canonical_spec in Hc. assert (0 < 2 ^ (e + unit_bits)); [|lia].
  apply Z.pow_pos_nonneg; unfold unit_bits; lia.
Qed.

(** ** Operations *)

Lemma val_sub x y a b : val x a → val y b → b ≤ a → short (a - b) → val (fsub x y) (a - b).
Proof.
  intros Hx Hy Hle Hs. pose proof (val_nonneg _ _ Hx). pose proof (val_nonneg _ _ Hy).
  destruct (Z.eq_dec b 0) as [->|Hb].
  { apply val_zero in Hy as [s ->]. rewrite Z.sub_0_r. destruct x as [[]| | |[] m e]; by destruct s. }
  destruct (val_pos _ _ Hx) as (m1 & e1 & -> & _ & Ha & He1 & _); [lia|].
  destruct (val_pos _ _ Hy) as (m2 & e2 & -> & _ & Hb' & He2 & _); [lia|].
  unfold fsub, SFsub. cbn [cond_Zopp]. set (e := Z.min e1 e2).
  rewrite (proj1 (shl_align_value m1 e1 e ltac:(lia))), (proj1 (shl_align_value m2 e2 e ltac:(lia))).
  assert (∀ m f, e ≤ f → Z.pos m * 2 ^ (f + unit_bits) = Z.pos m * 2 ^ (f - e) * 2 ^ (e + unit_bits)) as E.
  { intros m f Hf. unfold unit_bits. rewrite <- Z.mul_assoc, <- Z.pow_add_r by lia. do 2 f_equal. lia. }
  rewrite (E m1 e1) in Ha by lia. rewrite (E m2 e2) in Hb' by lia.
  assert (0 < 2 ^ (e + unit_bits)) as P by (apply Z.pow_pos_nonneg; unfold unit_bits; lia).
  apply val_normalize; [nia|lia|lia|done].
Qed.

(** Multiplying by an integer. *)
Lemma val_mul x y a c : val x a → val y (c * 2 ^ unit_bits) → 1 ≤ c → short (a * c) →
  val (fmul x y) (a * c).
Proof.
  intros Hx Hy Hc Hs. pose proof (val_nonneg _ _ Hx) as Ha0.
  assert (0 < 2 ^ unit_bits) as Pu by done.
  destruct (val_pos _ _ Hy) as (m2 & e2 & -> & _ & Hb & He2 & _ & Hm2); [nia|].
  destruct (Z.eq_dec a 0) as [->|Ha]; [by apply val_zero in Hx as [s ->]|].
  destruct (val_pos _ _ Hx) as (m1 & e1 & -> & _ & Ha1 & He1 & _); [lia|].
  destruct (canonical_of (a * c)) as (m & e & Hcan & Hv); [nia|done|].
  pose proof (proj1 (canonical_spec m e) Hcan) as [_ _].
  destruct (val_pos (S754_finite false m e) (a * c)) as (? & ? & [= <- <-] & _ & _ & He & Hm & _);
    [by split|nia|].
  unfold fmul, SFmul. cbn [xorb].
  assert (Z.pos (m1 * m2) * 2 ^ (e1 + e2 + 2148) = Z.pos m * 2 ^ (e + 2148)) as E.
  { replace (e1 + e2 + 2148) with ((e1 + unit_bits) + (e2 + unit_bits)) by (unfold unit_bits; lia).
    replace (e + 2148) with ((e + unit_bits) + unit_bits) by (unfold unit_bits; lia).
    rewrite Pos2Z.inj_mul, (Z.pow_add_r 2 (e1 + _)), (Z.pow_add_r 2 (e + _)) by (unfold unit_bits; lia).
    transitivity ((Z.pos m1 * 2 ^ (e1 + unit_bits)) * (Z.pos m2 * 2 ^ (e2 + unit_bits))); [ring|].
    rewrite <- Ha1, <- Hb. transitivity (a * c * 2 ^ unit_bits); [ring|]. rewrite Hv. ring. }
  assert (2 ^ 52 ≤ Z.pos m2) as Hm2'.
  { destruct Hm2 as [|He2']; [done|]. subst e2. change (-1074 + unit_bits) with 0 in Hb.
    rewrite Z.pow_0_r, Z.mul_1_r in Hb. rewrite <- Hb. unfold unit_bits.
    apply Z.le_trans with (1 * 2 ^ 1074); [by apply Z.leb_le|]. apply Z.mul_le_mono_nonneg_r; lia. }
  assert (e1 + e2 ≤ e) as Hle.
  { destruct (Z.le_gt_cases (e1 + e2) e) as [|Hgt]; [done|]. exfalso.
    replace (e1 + e2 + 2148) with ((e1 + e2 - e - 1) + 1 + (e + 2148)) in E by lia.
    rewrite (Z.pow_add_r 2 _ (e + 2148)), Z.mul_assoc in E by lia.
    apply Z.mul_reg_r in E; [|apply Z.pow_nonzero; lia].
    rewrite Z.pow_add_r, Pos2Z.inj_mul in E by lia.
    assert (1 ≤ 2 ^ (e1 + e2 - e - 1)) by (apply Z.lt_pred_le, Z.pow_pos_nonneg; lia). nia. }
  replace (e1 + e2) with (e - (e - (e1 + e2))) by lia.
  rewrite (round_aux_exact false m e); [by split|done|lia|].
  replace (e + 2148) with (e - (e1 + e2) + (e1 + e2 + 2148)) in E by lia.
  rewrite (Z.pow_add_r 2 (e - _)), Z.mul_assoc in E by lia.
  apply Z.mul_reg_r in E; [done|]. apply Z.pow_nonzero; lia.
Qed.

(** ** Casts and comparisons *)

Lemma val_ftrunc x a : val x a → ftrunc x = Some (a / 2 ^ unit_bits).
Proof.
  intros Hx. pose proof (val_nonneg _ _ Hx). destruct (Z.eq_dec a 0) as [->|Ha].
  { by apply val_zero in Hx as [s ->]. }
  destruct (val_pos _ _ Hx) as (m & e & -> & _ & -> & He & _); [lia|]. cbn [ftrunc]. f_equal.
  assert (2 ^ unit_bits ≠ 0) by done.
  destruct (Z.leb_spec 0 e).
  - rewrite Z.pow_add_r by (unfold unit_bits; lia). by rewrite Z.mul_assoc, Z.div_mul.
  - replace (2 ^ unit_bits) with (2 ^ (- e) * 2 ^ (e + unit_bits)).
    + rewrite Z.div_mul_cancel_r; [done|apply Z.pow_nonzero; lia|].
      apply Z.pow_nonzero; unfold unit_bits; lia.
    + rewrite <- Z.pow_add_r by (unfold unit_bits; lia). f_equal. lia.
Qed.

Lemma val_compare x y a b : val x a → val y b → SFcompare x y = Some (a ?= b).
Proof.
  intros Hx Hy. pose proof (val_nonneg _ _ Hx). pose proof (val_nonneg _ _ Hy).
  destruct (Z.eq_dec a 0) as [->|Ha], (Z.eq_dec b 0) as [->|Hb].
  - apply val_zero in Hx as [s ->], Hy as [t ->]. done.
  - apply val_zero in Hx as [s ->]. destruct (val_pos _ _ Hy) as (m & e & -> & _); [lia|].
    cbn [SFcompare]. by rewrite (proj2 (Z.compare_lt_iff 0 b)) by lia.
  - apply val_zero in Hy as [s ->]. destruct (val_pos _ _ Hx) as (m & e & -> & _); [lia|].
    cbn [SFcompare]. by rewrite (proj2 (Z.compare_gt_iff a 0)) by lia.
  - destruct (val_pos _ _ Hx) as (m1 & e1 & -> & _ & -> & He1 & Hm1 & Hn1); [lia|].
    destruct (val_pos _ _ Hy) as (m2 & e2 & -> & _ & -> & He2 & Hm2 & Hn2); [lia|].
    assert (∀ m e m' e', e < e' → -1074 ≤ e → Z.pos m < 2 ^ 53 → (2 ^ 52 ≤ Z.pos m' ∨ e' = -1074) →
      Z.pos m * 2 ^ (e + unit_bits) < Z.pos m' * 2 ^ (e' + unit_bits)) as Hlt.
    { intros m e m' e' Hee Hlo Hm [Hm'|]; [|lia].
      replace (e' + unit_bits) with ((e' - e - 1) + 1 + (e + unit_bits)) by lia.
      rewrite (Z.pow_add_r 2 _ (e + _)), Z.mul_assoc by (unfold unit_bits; lia).
      apply Z.mul_lt_mono_pos_r; [apply Z.pow_pos_nonneg; unfold unit_bits; lia|].
      rewrite Z.pow_add_r by lia.
      assert (1 ≤ 2 ^ (e' - e - 1)) by (apply Z.lt_pred_le, Z.pow_pos_nonneg; lia). nia. }
    cbn [SFcompare]. f_equal. destruct (Z.compare_spec e1 e2) as [->|Hc|Hc].
    + rewrite <- Zmult_compare_compat_r by (apply Z.lt_gt, Z.pow_pos_nonneg; unfold unit_bits; lia). done.
    + symmetry. apply Z.compare_lt_iff. apply Hlt; (done || lia).
    + symmetry. apply Z.compare_gt_iff. apply Hlt; (done || lia).
Qed.

Lemma val_ltb x y a b : val x a → val y b → SFltb x y = (a <? b).
Proof. intros Hx Hy. unfold SFltb. rewrite (val_compare x y a b) by done. by unfold Z.ltb. Qed.

(** What is left of a number when its whole part is taken off. *)
Lemma short_fraction x a :
  val x a → short (a - a / 2 ^ unit_bits * 2 ^ unit_bits).
Proof.
  intros Hx. pose proof (val_nonneg _ _ Hx). set (U := 2 ^ unit_bits). assert (0 < U) as HU by done.
  assert (a - a / U * U = a mod U) as -> by (rewrite (Z.mod_eq a U); lia).
  pose proof (Z.mod_pos_bound a U HU). split.
  { split; [lia|]. apply Z.lt_trans with U; [lia|]. apply Z.pow_lt_mono_r; unfold unit_bits; lia. }
  destruct (Z.eq_dec a 0) as [->|Ha]; [by exists 0, 0|].
  destruct (val_pos _ _ Hx) as (m & e & -> & _ & Ea & He & Hm & _); [lia|].
  destruct (Z.le_gt_cases 0 e) as [Hpos|Hneg].
  - exists 0, 0. split; [lia|]. split; [lia|]. rewrite Ea, Z.pow_add_r, Z.mul_assoc by (unfold unit_bits; lia).
    fold U. by rewrite Z.mod_mul by lia.
  - assert (U = 2 ^ (- e) * 2 ^ (e + unit_bits)) as EU.
    { unfold U. rewrite <- Z.pow_add_r by (unfold unit_bits; lia). f_equal. lia. }
    exists (Z.pos m mod 2 ^ (- e)), (e + unit_bits).
    assert (0 < 2 ^ (- e)) by (apply Z.pow_pos_nonneg; lia).
    pose proof (Z.mod_pos_bound (Z.pos m) (2 ^ (- e)) ltac:(done)).
    split; [split; [lia|]|split; [unfold unit_bits; lia|]].
    + apply Z.le_lt_trans with (Z.pos m); [apply Z.mod_le; lia|done].
    + rewrite EU, Ea. apply Z.mul_mod_distr_r; [lia|]. apply Z.pow_nonzero; unfold unit_bits; lia.
Qed.
