(* ===== verification/PrintfExact.v ===== *)
(** [printf.c]: floating-point numbers that [%f] prints exactly.

    [_ftoa] computes the digits with doubles.  A number that has the precision's number of decimals,
    or fewer, is printed without error: its digits are those of the exact value ([FloatExact]). *)

From Stdlib Require Import Ascii String SpecFloat.
From S2P Require Import Prelude Mem PrintfCore PrintfFloat PrintfFormat FloatExact.

(** ** The text *)

(** The last [n] decimal digits of [v], and [N / 10^prec] with its decimals. *)
Fixpoint fixed_digits (n : nat) (v : Z) : list Z :=
  match n with O => [] | S n => fixed_digits n (v / 10) ++ [48 + v mod 10] end.
Definition decimal_text (N prec : Z) : list Z :=
  decimal (N / 10 ^ prec) ++
  if prec =? 0 then [] else ch "." :: fixed_digits (Z.to_nat prec) (N mod 10 ^ prec).

(** [x] is [N / 10^prec], below zero if [negative]. *)
Definition is_decimal (x : double) (negative : bool) (N prec : Z) : Prop :=
  ∃ a, val (SFabs x) a ∧ a * 10 ^ prec = N * 2 ^ unit_bits ∧
    negative = match x with S754_finite s _ _ => s | _ => false end.

(** [-3.125]. *)
Definition minus_25_8 : double := S754_finite true 7036874417766400 (-51).

(** ** The digit loops *)

Lemma ntoa_digits_enough k r1 r2 value :
  0 ≤ value < 10 ^ Z.of_nat k → (1 ≤ k)%nat → (k ≤ r1)%nat → (k ≤ r2)%nat →
  ntoa_digits r1 value 10 0 = ntoa_digits r2 value 10 0.
Proof.
  revert r1 r2 value; induction k as [|k IH]; intros r1 r2 value Hv Hk H1 H2; [lia|].
  destruct r1 as [|r1]; [lia|]. destruct r2 as [|r2]; [lia|]. cbn [ntoa_digits]. f_equal.
  destruct (Z.eqb_spec (value / 10) 0); [done|]. rewrite Nat2Z.inj_succ, Z.pow_succ_r in Hv by lia.
  assert (0 ≤ value / 10 < 10 ^ Z.of_nat k) as Hd
    by (split; [apply Z.div_pos; lia|apply Z.div_lt_upper_bound; lia]).
  apply IH; [done| |lia|lia]. destruct k; [simpl in Hd; lia|lia].
Qed.

Lemma whole_digits_ntoa r whole buf :
  whole_digits r whole buf = buf ++ ntoa_digits r whole 10 0.
Proof.
  revert whole buf; induction r as [|r IH]; intros whole buf; [by rewrite app_nil_r|].
  cbn [whole_digits ntoa_digits]. unfold digit_char.
  destruct (Z.ltb_spec (whole mod 10) 10); [|pose proof (Z.mod_pos_bound whole 10); lia].
  change (ch "0") with 48. destruct (whole / 10 =? 0); [done|]. by rewrite IH, <- app_assoc.
Qed.

Lemma fixed_digits_zero n : fixed_digits n 0 = replicate n 48.
Proof.
  induction n as [|n IH]; [done|]. cbn [fixed_digits]. change (0 / 10) with 0. rewrite IH.
  change (48 + 0 mod 10) with 48. by rewrite <- replicate_S_end.
Qed.

Lemma frac_digits_fixed n r frac buf :
  0 ≤ frac < 10 ^ Z.of_nat n → (1 ≤ n)%nat → (n ≤ r)%nat → (length buf + n ≤ 32)%nat →
  let '(b, count) := frac_digits r frac (Z.of_nat n) buf in
  fill 32 (Z.of_nat (length b) + count) (ch "0") b = buf ++ rev (fixed_digits n frac).
Proof.
  revert r frac buf; induction n as [|n IH]; intros r frac buf Hf Hn Hr Hl; [lia|].
  destruct r as [|r]; [lia|]. cbn [frac_digits fixed_digits].
  replace (u32 (Z.of_nat (S n) - 1)) with (Z.of_nat n) by (rewrite uw_small; lia).
  rewrite rev_app_distr. cbn [rev app]. rewrite Nat2Z.inj_succ, Z.pow_succ_r in Hf by lia.
  destruct (Z.eqb_spec (frac / 10) 0) as [->|Hd].
  - rewrite fixed_digits_zero, rev_replicate. unfold fill. rewrite length_app. cbn [length].
    rewrite <- app_assoc. do 3 f_equal. change (ch "0") with 48. f_equal. lia.
  - assert (0 ≤ frac / 10 < 10 ^ Z.of_nat n) as Hq
      by (split; [apply Z.div_pos; lia|apply Z.div_lt_upper_bound; lia]).
    assert (1 ≤ n)%nat by (destruct n; [simpl in Hq; lia|lia]).
    specialize (IH r (frac / 10) (buf ++ [48 + frac mod 10]) Hq ltac:(done) ltac:(lia)).
    rewrite length_app in IH. cbn [length] in IH. specialize (IH ltac:(lia)).
    destruct (frac_digits _ _ _ _) as [b count]. by rewrite IH, <- app_assoc.
Qed.

Lemma fixed_digits_length n v : length (fixed_digits n v) = n.
Proof. revert v; induction n as [|n IH]; intros v; [done|]. cbn. rewrite length_app, IH. simpl. lia. Qed.

(** ** The arithmetic *)

(** The scaled fraction of an exact decimal is an integer, and nothing is left to round. *)
Lemma exact_fraction x a N prec p10 :
  val x a → a * 10 ^ prec = N * 2 ^ unit_bits → 0 ≤ prec ≤ 9 → N ≤ 10 ^ 9 * 10 ^ prec →
  val p10 (10 ^ prec * 2 ^ unit_bits) →
  let whole := N / 10 ^ prec in
  let tmp := fmul (fsub x (of_Z whole)) p10 in
  to_int x = Done whole ∧ to_ulong tmp = Done (N mod 10 ^ prec) ∧
  (∃ s, fsub tmp (of_Z (N mod 10 ^ prec)) = S754_zero s) ∧
  (prec = 0 → ∃ s, fsub x (of_Z whole) = S754_zero s).
Proof.
  intros Hx HN Hp HNmax Hp10 whole tmp. set (P := 10 ^ prec) in *. set (U := 2 ^ unit_bits) in *.
  assert (1 ≤ P ≤ 10 ^ 9) as HP by (split; [apply Z.lt_pred_le, Z.pow_pos_nonneg; lia|apply Z.pow_le_mono_r; lia]).
  assert (0 < U) as HU by done. pose proof (val_nonneg _ _ Hx) as Ha.
  assert (0 ≤ N) as HN0 by nia.
  assert (a / U = whole) as Hw.
  { unfold whole. rewrite <- (Z.div_mul_cancel_r a U P), HN, (Z.mul_comm U P) by lia.
    apply Z.div_mul_cancel_r; lia. }
  assert (0 ≤ whole ≤ 10 ^ 9) as Hwr by (split; [apply Z.div_pos; lia|apply Z.div_le_upper_bound; lia]).
  pose proof (Z.mod_pos_bound N P ltac:(lia)) as Hf.
  assert ((a - whole * U) * P = N mod P * U) as HF.
  { rewrite Z.mod_eq by lia. fold whole. rewrite Z.mul_sub_distr_r, HN. ring. }
  assert (val (fsub x (of_Z whole)) (a - whole * U)) as Vd.
  { apply val_sub; [done|apply val_of_Z; lia| |].
    - rewrite <- Hw, Z.mul_comm. apply Z.mul_div_le. lia.
    - rewrite <- Hw. by apply (short_fraction x). }
  assert (val tmp (N mod P * U)) as Vt.
  { rewrite <- HF. apply val_mul; [done|done|lia|]. rewrite HF. apply short_units. lia. }
  split; [|split; [|split]].
  - unfold to_int. rewrite (val_ftrunc x a) by done. fold U. rewrite Hw.
    destruct (Z.leb_spec (- 2 ^ 31) whole); [|lia]. by destruct (Z.ltb_spec whole (2 ^ 31)); [|lia].
  - unfold to_ulong. rewrite (val_ftrunc tmp _ Vt). fold U. rewrite Z.div_mul by lia.
    destruct (Z.leb_spec 0 (N mod P)); [|lia]. by destruct (Z.ltb_spec (N mod P) (2 ^ 64)); [|lia].
  - apply val_zero. rewrite <- (Z.sub_diag (N mod P * U)).
    apply val_sub; [done|apply val_of_Z; lia|lia|]. rewrite Z.sub_diag. by apply (short_units 0).
  - intros ->. change (10 ^ 0) with 1 in P. apply val_zero.
    replace 0 with (a - whole * U); [done|]. unfold whole, P in *. rewrite Z.div_1_r. lia.
Qed.

Lemma pow10_val prec : 0 ≤ prec ≤ 9 →
  ∃ p10, pow10 !! Z.to_nat prec = Some p10 ∧ val p10 (10 ^ prec * 2 ^ unit_bits).
Proof.
  intros Hp. exists (of_Z (10 ^ prec)).
  assert (prec ∈ [0; 1; 2; 3; 4; 5; 6; 7; 8; 9]) as Hin.
  { rewrite !elem_of_cons. lia. }
  split; [|apply val_of_Z; split; [apply Z.pow_nonneg; lia|apply Z.le_lt_trans with (10 ^ 9); [apply Z.pow_le_mono_r; lia|done]]].
  clear Hp. repeat (apply elem_of_cons in Hin as [->|Hin]; [done|]). by apply not_elem_of_nil in Hin.
Qed.

Lemma nothing_to_round s p10 frac whole : ftoa_round (S754_zero s) p10 frac whole = (frac, whole).
Proof.
  unfold ftoa_round. assert (SFltb half (S754_zero s) = false) as -> by (by destruct s).
  by assert (SFltb (S754_zero s) half = true) as -> by (by destruct s).
Qed.

(** ** The layout *)

(** The digits of the fraction with the point, and then the whole part, last digit first. *)
Lemma layout_digits frac whole prec :
  0 ≤ prec ≤ 9 → 0 ≤ frac < 10 ^ prec → 0 ≤ whole ≤ 10 ^ 9 →
  let buf :=
    if prec =? 0 then [] else
      let '(buf, count) := frac_digits 32 frac prec [] in
      push 32 (ch ".") (fill 32 (Z.of_nat (length buf) + count) (ch "0") buf) in
  whole_digits (room buf) whole buf =
    rev (decimal whole ++ if prec =? 0 then [] else ch "." :: fixed_digits (Z.to_nat prec) frac) ∧
  (length (whole_digits (room buf) whole buf) ≤ 20)%nat.
Proof.
  intros Hp Hf Hw buf. set (F := if prec =? 0 then [] else ch "." :: fixed_digits (Z.to_nat prec) frac).
  assert (buf = rev F ∧ (length F ≤ 10)%nat) as [-> HF].
  { unfold buf, F. destruct (Z.eqb_spec prec 0); [simpl; split; [done|lia]|].
    pose proof (frac_digits_fixed (Z.to_nat prec) 32 frac []) as H. rewrite Z2Nat.id in H by lia.
    specialize (H Hf ltac:(lia) ltac:(lia) ltac:(simpl; lia)).
    destruct (frac_digits 32 frac prec []) as [b count]. rewrite H. unfold push.
    cbn [app length]. rewrite length_rev, fixed_digits_length.
    destruct (Z.ltb_spec (Z.of_nat (Z.to_nat prec)) 32); [|lia]. split; [done|lia]. }
  assert (ntoa_digits (room (rev F)) whole 10 0 = ntoa_digits 32 whole 10 0) as E.
  { apply (ntoa_digits_enough 10); [|lia| |lia].
    - split; [lia|]. apply Z.le_lt_trans with (10 ^ 9); [lia|done].
    - unfold room. change PRINTF_FTOA_BUFFER_SIZE with 32. rewrite length_rev. lia. }
  rewrite whole_digits_ntoa, E. split.
  - unfold decimal. destruct (Z.ltb_spec whole 0); [lia|]. rewrite Z.abs_eq by lia. cbn [app].
    by rewrite rev_app_distr, rev_involutive.
  - rewrite length_app, length_rev.
    assert (length (ntoa_digits 32 whole 10 0) ≤ 10)%nat; [|lia].
    apply ntoa_digits_short; [lia| |lia]. split; [lia|]. apply Z.le_lt_trans with (10 ^ 9); [lia|done].
Qed.

(** The sign is taken off first. *)
Lemma magnitude_value x a :
  val (SFabs x) a →
  let negative := SFltb x (S754_zero false) in
  val (if negative then fsub (S754_zero false) x else x) a ∧
  negative = match x with S754_finite s _ _ => s | _ => false end.
Proof. by destruct x as [[]| | |[] m e]. Qed.

Lemma rev_sign negative flags : rev (sign_text negative flags) = sign_text negative flags.
Proof. unfold sign_text. by repeat case_match. Qed.

Lemma ftoa_layout_exact x negative N prec width flags :
  has flags FLAGS_ZEROPAD = false →
  let p := if has flags FLAGS_PRECISION then prec else PRINTF_DEFAULT_FLOAT_PRECISION in
  0 ≤ p ≤ 9 → is_decimal x negative N p → N ≤ 10 ^ 9 * 10 ^ p →
  ftoa_layout x prec width flags = Done (rev (sign_text negative flags ++ decimal_text N p), width).
Proof.
  intros Hz p Hp (a & Hx & HN & ->) Hmax. destruct (magnitude_value x a Hx) as [Hv Hneg].
  unfold ftoa_layout. fold p. set (neg := SFltb x (S754_zero false)) in *. rewrite <- Hneg.
  set (v := if neg then fsub (S754_zero false) x else x) in *.
  change PRINTF_FTOA_BUFFER_SIZE with 32. replace (Z.max 0 (Z.min 32 (p - 9))) with 0 by lia.
  rewrite Z.sub_0_r. destruct (pow10_val p Hp) as (p10 & -> & Hp10).
  destruct (exact_fraction v a N p p10 Hv HN Hp Hmax Hp10) as (-> & E & (s & Es) & E0).
  cbn [mbind outcome_bind]. rewrite E. cbn [mbind outcome_bind]. rewrite Es, nothing_to_round.
  pose proof (val_nonneg _ _ Hv) as Ha.
  assert (1 ≤ 10 ^ p) as HP by (apply Z.lt_pred_le, Z.pow_pos_nonneg; lia).
  assert (0 < 2 ^ unit_bits) as HU by done. assert (0 ≤ N) by nia.
  destruct (layout_digits (N mod 10 ^ p) (N / 10 ^ p) p Hp) as [HD HL];
    [apply Z.mod_pos_bound; lia|split; [apply Z.div_pos; lia|apply Z.div_le_upper_bound; lia]|].
  fold (decimal_text N p) in HD. rewrite Hz, andb_false_r. change (zeros 0) with (@nil Z) in *.
  change (room []) with 32%nat.
  destruct (Z.eqb_spec p 0) as [Ep|Ep].
  - destruct (E0 Ep) as [t ->].
    assert (negb (SFltb (S754_zero t) half) || SFltb half (S754_zero t) = false) as -> by (by destruct t).
    cbn [andb]. rewrite push_sign_app by (left; lia). rewrite HD. by rewrite rev_app_distr, rev_sign.
  - destruct (frac_digits 32 (N mod 10 ^ p) p []) as [b count].
    rewrite push_sign_app by (left; lia). rewrite HD. by rewrite rev_app_distr, rev_sign.
Qed.

(** ** [_ftoa] *)

(** Neither special nor too large. *)
Lemma finite_checks x a :
  val (SFabs x) a → a ≤ 10 ^ 9 * 2 ^ unit_bits →
  SFeqb x x = true ∧ SFltb x (SFopp DBL_MAX) = false ∧ SFltb DBL_MAX x = false ∧
  SFltb PRINTF_MAX_FLOAT x = false ∧ SFltb x (SFopp PRINTF_MAX_FLOAT) = false.
Proof.
  intros Hx Hmax.
  assert (val DBL_MAX (9007199254740991 * 2 ^ (971 + unit_bits))) as HD by (split; [by vm_compute|done]).
  assert (val PRINTF_MAX_FLOAT (10 ^ 9 * 2 ^ unit_bits)) as HM by (by apply val_of_Z).
  assert (10 ^ 9 * 2 ^ unit_bits ≤ 9007199254740991 * 2 ^ (971 + unit_bits)) as Hle by (by apply Z.leb_le).
  assert (∀ y b, val y b → a ≤ b → SFltb y (SFabs x) = false) as Hlt.
  { intros y b Hy Hab. rewrite (val_ltb y (SFabs x) b a) by done. apply Z.ltb_ge. lia. }
  pose proof (Hlt _ _ HD ltac:(lia)) as H1. pose proof (Hlt _ _ HM Hmax) as H2.
  assert (SFeqb x x = true) as H3.
  { destruct x as [| | |[] m e]; [done..| |]; unfold SFeqb; cbn [SFcompare];
      by rewrite Z.compare_refl, Pos.compare_cont_refl. }
  destruct x as [s| | |[] m e]; [|done..| |].
  - by repeat split.
  - split; [done|].
    assert (∀ M E, SFltb (S754_finite true m e) (S754_finite true M E) =
      SFltb (S754_finite false M E) (S754_finite false m e)) as Hopp.
    { intros M E. unfold SFltb. cbn [SFcompare]. rewrite (Z.compare_antisym e E).
      destruct (e ?= E); [|done..]. cbn [CompOpp].
      by rewrite (Pos.compare_cont_antisym m M Eq). }
    destruct (val_pos _ _ HM) as (M & E & EM & _); [done|]. rewrite EM in *.
    unfold DBL_MAX in *. cbn [SFopp SFabs] in *. rewrite !Hopp. by repeat split.
  - by repeat split.
Qed.

Lemma ftoa_exact_spec {St} (out : out_fct_type St) buffer maxlen fuel o x negative N prec width flags :
  idx_range o → has flags FLAGS_ZEROPAD = false →
  let p := if has flags FLAGS_PRECISION then prec else PRINTF_DEFAULT_FLOAT_PRECISION in
  0 ≤ p ≤ 9 → is_decimal x negative N p → N ≤ 10 ^ 9 * 10 ^ p →
  _ftoa out buffer maxlen fuel o x prec width flags =
    Done (emit out buffer maxlen (rev_text (rev (sign_text negative flags ++ decimal_text N p)) width flags) o).
Proof.
  intros Ho Hz p Hp Hx Hmax. pose proof Hx as (a & Va & HN & _).
  assert (a ≤ 10 ^ 9 * 2 ^ unit_bits) as Ha.
  { assert (0 < 10 ^ p) by (apply Z.pow_pos_nonneg; lia).
    apply (Z.mul_le_mono_pos_r _ _ (10 ^ p)); [done|]. rewrite HN.
    replace (10 ^ 9 * 2 ^ unit_bits * 10 ^ p) with (10 ^ 9 * 10 ^ p * 2 ^ unit_bits) by ring.
    apply Z.mul_le_mono_nonneg_r; [by apply Z.pow_nonneg|done]. }
  destruct (finite_checks x a Va Ha) as (C1 & C2 & C3 & C4 & C5).
  pose proof (ftoa_layout_exact x negative N prec width flags Hz Hp Hx Hmax) as E. fold p in E.
  unfold _ftoa, ftoa_body. rewrite C1, C2, C3, C4, C5. cbn [negb orb]. rewrite E.
  cbn [mbind outcome_bind]. rewrite out_rev_emit; [done|done|].
  apply ftoa_layout_fits in E. unfold fits in E. change PRINTF_FTOA_BUFFER_SIZE with 32 in E. lia.
Qed.

(** C33. [%f] and [%F] are exact where they can be: a double that is a decimal number with no more
    decimals than the precision (up to nine), and at most 10^9 in magnitude, is printed with
    exactly its digits, its sign as the flags ask, padded to the width with spaces on the left or,
    left-adjusted, on the right. *)
Theorem ftoa_exact {St} (out : out_fct_type St) buffer maxlen fuel o x negative N prec width flags :
  idx_range o → has flags FLAGS_ZEROPAD = false →
  let p := if has flags FLAGS_PRECISION then prec else PRINTF_DEFAULT_FLOAT_PRECISION in
  0 ≤ p ≤ 9 → is_decimal x negative N p → N ≤ 10 ^ 9 * 10 ^ p →
  _ftoa out buffer maxlen fuel o x prec width flags =
    Done (emit out buffer maxlen (rev_text (rev (sign_text negative flags ++ decimal_text N p)) width flags) o).
Proof. apply ftoa_exact_spec. Qed.

(** [%f] in a format: six decimals. *)
Theorem printed_fixed f va x negative N :
  is_decimal x negative N 6 → N ≤ 10 ^ 15 →
  printed (str "%f" ++ f) (ADouble x :: va) =
    (cs ← printed f va; Done ((if negative then [ch "-"] else []) ++ decimal_text N 6 ++ cs)).
Proof.
  intros Hx HN. change (str "%f" ++ f) with (ch "%" :: ch "f" :: f). rewrite printed_step by done.
  set (s := {| sp_flags := 0; sp_width := 0; sp_precision := 0; sp_format := ch "f" :: f;
               sp_va := ADouble x :: va |}).
  change (parse_spec (ch "f" :: f) (ADouble x :: va)) with (Done s).
  cbn [mbind outcome_bind negb].
  change (convert log_out 0 0 s (0, [])) with
    (o ← _ftoa log_out 0 0 float_fuel (0, []) x 0 0 0; Done (o, va)).
  rewrite (ftoa_exact_spec log_out 0 0 float_fuel (0, []) x negative N 0 0 0); [|split; simpl; lia|done|done|done|].
  2: { change (if has 0 FLAGS_PRECISION then 0 else PRINTF_DEFAULT_FLOAT_PRECISION) with 6. lia. }
  change (if has 0 FLAGS_PRECISION then 0 else PRINTF_DEFAULT_FLOAT_PRECISION) with 6.
  cbn [fmap outcome_fmap fst snd mbind outcome_bind]. rewrite emit_log.
  change (ch "%" =? ch "%") with true. cbn [negb mbind outcome_bind app].
  unfold rev_text. rewrite rev_involutive, Z2Nat.nonpos by lia.
  change (has 0 FLAGS_LEFT) with false. change (has 0 FLAGS_ZEROPAD) with false.
  change (advance (sp_format s)) with (Done f). cbn [negb andb replicate app mbind outcome_bind].
  rewrite app_nil_r. destruct (printed f va); [|done]. cbn [mbind outcome_bind].
  rewrite <- app_assoc. by destruct negative.
Qed.

(** With three decimals in a field of ten, and in [%f]. *)
Lemma minus_25_8_decimal : is_decimal minus_25_8 true 3125 3.
Proof. exists (7036874417766400 * 2 ^ 1023). by vm_compute. Qed.

Lemma ftoa_exact_witness :
  fmap (λ o, o.2) (_ftoa log_out 0 0 float_fuel (0, []) minus_25_8 3 10 FLAGS_PRECISION) =
    Done (str "    -3.125").
Proof.
  rewrite (ftoa_exact log_out 0 0 float_fuel (0, []) minus_25_8 true 3125 3 10 FLAGS_PRECISION);
    [by vm_compute|done|done|done|apply minus_25_8_decimal|done].
Defined.

Example printed_fixed_decimal : printed (str "%f") [ADouble minus_25_8] = Done (str "-3.125000").
Proof.
  change (str "%f") with (str "%f" ++ []).
  rewrite (printed_fixed [] [] minus_25_8 true 3125000); [by vm_compute| |done].
  exists (7036874417766400 * 2 ^ 1023). by vm_compute.
Qed.
