(* ===== verification/PCI.v ===== *)
(** [PCI.h], [PCI.cpp]: configuration space and the bus scan.

    The devices are the parameter [config]: the 32-bit register at a configuration address, as
    the host bridge presents it behind the two ports.  Reading does not change it. *)

From S2P Require Import Prelude.

Inductive Field :=
  | VendorID | DeviceID | Command | Status | RevisionID | ProgIF | Subclass | Class_
  | CacheLineSize | LatencyTimer | HeaderType | Bist | Bar0 | Bar1 | Bar2 | Bar3 | Bar4 | Bar5
  | InterruptLine | InterruptPin | SecondaryBus.
Definition field_offset (f : Field) : Z :=
  match f with
  | VendorID => 0x00 | DeviceID => 0x02 | Command => 0x04 | Status => 0x06 | RevisionID => 0x08
  | ProgIF => 0x09 | Subclass => 0x0A | Class_ => 0x0B | CacheLineSize => 0x0C
  | LatencyTimer => 0x0D | HeaderType => 0x0E | Bist => 0x0F
  | Bar0 => 0x10 | Bar1 => 0x14 | Bar2 => 0x18 | Bar3 => 0x1C | Bar4 => 0x20 | Bar5 => 0x24
  | InterruptLine => 0x3C | InterruptPin => 0x3D | SecondaryBus => 0x19
  end.

Definition Bridge : Z := 0x604.
Definition AddressPort : Z := 0xCF8.
Definition ValuePort : Z := 0xCFC.
Definition PCINull : Z := 0xFFFF.

Definition busOf (device : Z) : Z := u8 (Z.shiftr device 16).
Definition slotOf (device : Z) : Z := u8 (Z.shiftr device 8).
Definition funcOf (device : Z) : Z := u8 device.
Definition addressOf (device field : Z) : Z :=
  Z.lor (Z.lor (Z.lor (Z.lor 0x80000000 (u32 (Z.shiftl (busOf device) 16)))
                      (u32 (Z.shiftl (slotOf device) 11)))
               (u32 (Z.shiftl (funcOf device) 8)))
        (Z.land field 0xFC).
Definition box (bus slot func : Z) : Z := u32 (Z.lor (Z.lor (Z.shiftl bus 16) (Z.shiftl slot 8)) func).

(** ** Ports *)

(** The address register and the writes to configuration space, most recent first. *)
Record pci_io := { address_latch : Z; value_writes : list (Z * Z) }.
Definition outl (port data : Z) (io : pci_io) : pci_io :=
  if port =? AddressPort then {| address_latch := u32 data; value_writes := value_writes io |}
  else if port =? ValuePort then
    {| address_latch := address_latch io;
       value_writes := (address_latch io, u32 data) :: value_writes io |}
  else io.

Definition writeField (device field value : Z) (io : pci_io) : pci_io :=
  outl ValuePort value (outl AddressPort (addressOf device field) io).

Section hardware.
Context (config : Z → Z).

(** Reads of 4, 2 and 1 bytes from the value ports. *)
Definition inl (port : Z) (io : pci_io) : Z := u32 (config (address_latch io)).
Definition ins (port : Z) (io : pci_io) : Z :=
  u16 (Z.shiftr (config (address_latch io)) (8 * (port - ValuePort))).
Definition inb (port : Z) (io : pci_io) : Z :=
  u8 (Z.shiftr (config (address_latch io)) (8 * (port - ValuePort))).

Definition readField (size device field : Z) (io : pci_io) : Z * pci_io :=
  let io := outl AddressPort (addressOf device field) io in
  (if size =? 1 then inb (ValuePort + Z.land field 3) io
   else if size =? 2 then ins (ValuePort + Z.land field 2) io
   else if size =? 4 then inl ValuePort io
   else 0xFFFF, io).

(** The value read; it does not depend on what the address register held before. *)
Definition rd (size device : Z) (f : Field) : Z :=
  (readField size device (field_offset f) {| address_latch := 0; value_writes := [] |}).1.

(** ** The scan *)

Definition findType (dev : Z) : Z := u16 (Z.lor (Z.shiftl (rd 1 dev Class_) 8) (rd 1 dev Subclass)).

Section scan.
Context {St : Type} (cb : Z → Z → Z → St → St) (type : Z).

Definition scanHit (dev : Z) (st : St) : St :=
  let vid := rd 2 dev VendorID in
  let did := rd 2 dev DeviceID in
  cb dev vid did st.

(** [scanBus] is called again for the bus behind a bridge. *)
Definition scanFunc (scanBus : Z → St → outcome St) (bus slot func : Z) (st : St) : outcome St :=
  let dev := box bus slot func in
  let st := if (type =? -1) || (type =? findType dev) then scanHit dev st else st in
  if findType dev =? Bridge then scanBus (rd 1 dev SecondaryBus) st else Done st.

Definition scanSlot (scanBus : Z → St → outcome St) (bus slot : Z) (st : St) : outcome St :=
  let dev := box bus slot 0 in
  if rd 2 dev VendorID =? PCINull then Done st
  else
    st ← scanFunc scanBus bus slot 0 st;
    if rd 1 dev HeaderType =? 0 then Done st
    else
      for_each (Z.of_nat <$> seq 1 7)
        (λ func st,
           let dev := box bus slot func in
           if negb (rd 2 dev VendorID =? PCINull) then scanFunc scanBus bus slot func st
           else Done st) st.

(** [fuel] bounds the nesting of bridges. *)
Fixpoint scanBus (fuel : nat) (bus : Z) (st : St) : outcome St :=
  match fuel with
  | O => Stuck OutOfFuel
  | S fuel => for_each (Z.of_nat <$> seq 0 32) (scanSlot (scanBus fuel) bus) st
  end.

(** The loop over the functions of a host with several buses: it stops at the first absent one,
    and says whether there was any. *)
Fixpoint scan_hosts (fuel : nat) (funcs : list Z) (hit : bool) (st : St) : outcome (bool * St) :=
  match funcs with
  | [] => Done (hit, st)
  | func :: funcs =>
      if negb (rd 2 (box 0 0 func) VendorID =? PCINull) then
        st ← scanBus fuel func st; scan_hosts fuel funcs true st
      else Done (hit, st)
  end.

Definition scan (fuel : nat) (st : St) : outcome St :=
  if Z.land (rd 1 0 HeaderType) 0x80 =? 0 then scanBus fuel 0 st
  else
    '(hit, st) ← scan_hosts fuel (Z.of_nat <$> seq 0 8) false st;
    if negb hit then
      for_each (Z.of_nat <$> seq 0 256)
        (λ bus, for_each (Z.of_nat <$> seq 0 32) (scanSlot (scanBus fuel) bus)) st
    else Done st.
End scan.
End hardware.

(** ** Addresses *)

Lemma box_sum bus slot func :
  0 ≤ bus < 256 → 0 ≤ slot < 256 → 0 ≤ func < 256 →
  box bus slot func = bus * 65536 + slot * 256 + func.
Proof.
  intros Hb Hs Hf. unfold box. change 16 with (8 + 8) at 1.
  rewrite <- Z.shiftl_shiftl, <- Z.shiftl_lor by lia. rewrite lor_low by lia.
  rewrite lor_low by lia. change (2 ^ 8) with 256. rewrite uw_small; lia.
Qed.

Lemma box_fields bus slot func :
  0 ≤ bus < 256 → 0 ≤ slot < 256 → 0 ≤ func < 256 →
  busOf (box bus slot func) = bus ∧ slotOf (box bus slot func) = slot ∧
  funcOf (box bus slot func) = func.
Proof.
  intros Hb Hs Hf. rewrite box_sum by done. unfold busOf, slotOf, funcOf.
  rewrite !Z.shiftr_div_pow2 by lia. change (2 ^ 16) with 65536. change (2 ^ 8) with 256.
  repeat split; wrap_lia.
Qed.

Lemma field_word f : 0 ≤ Z.land (field_offset f) 0xFC < 256.
Proof. destruct f; vm_compute; split; congruence. Qed.

(** The configuration address of a function's register, in the layout of the host bridge: enable
    bit, bus, slot, function and register number. *)
Theorem addressOf_decodes bus slot func f :
  0 ≤ bus < 256 → 0 ≤ slot < 32 → 0 ≤ func < 8 →
  let a := addressOf (box bus slot func) (field_offset f) in
  bf_get 31 1 a = 1 ∧ bf_get 16 8 a = bus ∧ bf_get 11 5 a = slot ∧ bf_get 8 3 a = func ∧
  bf_get 0 8 a = Z.land (field_offset f) 0xFC.
Proof.
  intros Hb Hs Hf a. destruct (box_fields bus slot func) as (E1 & E2 & E3); [lia..|].
  pose proof (field_word f) as Hw. set (w := Z.land (field_offset f) 0xFC) in *.
  assert (a = 2147483648 + bus * 65536 + slot * 2048 + func * 256 + w) as ->.
  { subst a. unfold addressOf. rewrite E1, E2, E3. fold w.
    rewrite !Z.shiftl_mul_pow2 by lia. change (2 ^ 16) with 65536. change (2 ^ 11) with 2048.
    change (2 ^ 8) with 256. rewrite !uw_small by lia.
    change 0x80000000 with (Z.shiftl 32768 16).
    assert (H1 : Z.lor (Z.shiftl 32768 16) (bus * 65536) = Z.shiftl (32768 + bus) 16).
    { change 65536 with (2 ^ 16). rewrite <- Z.shiftl_mul_pow2, <- Z.shiftl_lor by lia. f_equal.
      change 32768 with (Z.shiftl 128 8). rewrite lor_low by lia. done. }
    rewrite H1, lor_low by lia.
    replace ((32768 + bus) * 2 ^ 16 + slot * 2048) with (Z.shiftl ((32768 + bus) * 32 + slot) 11)
      by (rewrite Z.shiftl_mul_pow2; lia).
    rewrite lor_low by lia.
    replace (((32768 + bus) * 32 + slot) * 2 ^ 11 + func * 256)
      with (Z.shiftl (((32768 + bus) * 32 + slot) * 8 + func) 8) by (rewrite Z.shiftl_mul_pow2; lia).
    rewrite lor_low by lia. change (Z.shiftl 32768 16) with 2147483648. lia. }
  unfold bf_get. rewrite !Z.shiftr_div_pow2 by lia.
  change (2 ^ 31) with 2147483648. change (2 ^ 16) with 65536. change (2 ^ 11) with 2048.
  change (2 ^ 8) with 256. change (2 ^ 0) with 1. repeat split; wrap_lia.
Qed.

Lemma addressOf_decodes_witness : bf_get 11 5 (addressOf (box 3 31 7) (field_offset Bar2)) = 31.
Proof. apply (addressOf_decodes 3 31 7 Bar2); lia. Defined.

(** ** The scan *)

Section scan_proofs.
Context (config : Z → Z).
Local Abbreviation rd := (rd config).

(** A function that answers. *)
Definition answers (dev : Z) : Prop := rd 2 dev VendorID ≠ PCINull.

(** The scan leaves alone whatever the callback, applied to functions that answer, leaves alone. *)
Section invariant.
Context {St : Type} (cb : Z → Z → Z → St → St) (type : Z) (I : St → Prop).
Definition hit_keeps : Prop := ∀ bus slot func st,
  0 ≤ slot < 32 → 0 ≤ func < 8 → answers (box bus slot func) →
  (type = -1 ∨ type = findType config (box bus slot func)) → I st →
  I (scanHit config cb (box bus slot func) st).
Context (Hcb : hit_keeps).
Definition keeps (f : St → outcome St) : Prop := ∀ st st', I st → f st = Done st' → I st'.

Lemma for_each_keeps xs (body : Z → St → outcome St) :
  (∀ x, x ∈ xs → keeps (body x)) → keeps (for_each xs body).
Proof using.
  induction xs as [|x xs IH]; intros Hb st st' Hst; [by intros [= <-]|].
  intros (st1 & H1 & H2)%outcome_bind_Done.
  eapply IH; [intros y Hy; apply Hb; by apply list_elem_of_further| |exact H2].
  eapply Hb; [apply list_elem_of_here|exact Hst|exact H1].
Qed.

Lemma scanFunc_keeps (sb : Z → St → outcome St) bus slot func :
  (∀ b, keeps (sb b)) → 0 ≤ slot < 32 → 0 ≤ func < 8 → answers (box bus slot func) →
  keeps (scanFunc config cb type sb bus slot func).
Proof using Hcb.
  intros Hsb Hs Hf Ha st st' Hst. unfold scanFunc.
  set (st1 := if _ || _ then _ else st).
  assert (I st1) as H1.
  { subst st1. destruct (Z.eqb_spec type (-1)); simpl; [apply Hcb; auto|].
    destruct (Z.eqb_spec type (findType config (box bus slot func))); [apply Hcb; auto|done]. }
  destruct (_ =? Bridge); [by apply Hsb|]. by intros [= <-].
Qed.

Lemma scanSlot_keeps (sb : Z → St → outcome St) bus slot :
  (∀ b, keeps (sb b)) → 0 ≤ slot < 32 → keeps (scanSlot config cb type sb bus slot).
Proof using Hcb.
  intros Hsb Hs st st' Hst. unfold scanSlot.
  destruct (Z.eqb_spec (rd 2 (box bus slot 0) VendorID) PCINull) as [|Ha]; [by intros [= <-]|].
  intros (st1 & H1 & H2)%outcome_bind_Done.
  apply scanFunc_keeps in H1; [|done|done|lia|done|done].
  destruct (_ =? 0); [by injection H2 as <-|].
  eapply for_each_keeps; [|exact H1|exact H2]. intros func Hin st2 st3 Hst2.
  apply list_elem_of_fmap in Hin as (k & -> & Hk%elem_of_seq).
  destruct (Z.eqb_spec (rd 2 (box bus slot (Z.of_nat k)) VendorID) PCINull); simpl;
    [by intros [= <-]|]. apply scanFunc_keeps; (done || lia).
Qed.

Lemma scanBus_keeps fuel bus : keeps (scanBus config cb type fuel bus).
Proof using Hcb.
  revert bus; induction fuel as [|fuel IH]; intros bus; [done|].
  apply for_each_keeps. intros slot Hin. apply list_elem_of_fmap in Hin as (k & -> & Hk%elem_of_seq).
  apply scanSlot_keeps; [done|lia].
Qed.

Lemma scan_keeps fuel : keeps (scan config cb type fuel).
Proof using Hcb.
  intros st st' Hst. unfold scan. destruct (_ =? 0); [by apply scanBus_keeps|].
  intros ([hit st1] & H1 & H2)%outcome_bind_Done.
  assert (I st1) as Hst1.
  { revert st Hst H1. generalize false. generalize (Z.of_nat <$> seq 0 8). induction l as [|func l IH];
      intros b st Hst; [by intros [= _ <-]|]. simpl.
    destruct (_ =? PCINull); simpl; [by intros [= _ <-]|].
    intros (st2 & H1 & H3)%outcome_bind_Done. eapply IH; [|exact H3].
    by eapply scanBus_keeps. }
  destruct hit; cbn [negb] in H2; [by injection H2 as <-|].
  eapply for_each_keeps; [|exact Hst1|exact H2]. intros bus _.
  apply for_each_keeps. intros slot Hin. apply list_elem_of_fmap in Hin as (k & -> & Hk%elem_of_seq).
  apply scanSlot_keeps; [apply scanBus_keeps|lia].
Qed.
End invariant.

(** ** Termination *)

(** PCI numbers the bus behind a bridge higher than the bridge's own bus. *)
Definition bridges_ascend : Prop := ∀ bus slot func,
  0 ≤ bus < 256 → 0 ≤ slot < 32 → 0 ≤ func < 8 → answers (box bus slot func) →
  findType config (box bus slot func) = Bridge →
  bus < rd 1 (box bus slot func) SecondaryBus.

Lemma secondary_range dev : 0 ≤ rd 1 dev SecondaryBus < 256.
Proof. apply (uw_range 8). lia. Qed.

Lemma scanSlot_done {St} (cb : Z → Z → Z → St → St) type (sb : Z → St → outcome St) bus slot st :
  bridges_ascend → 0 ≤ bus < 256 → 0 ≤ slot < 32 →
  (∀ b st, bus < b < 256 → ∃ st', sb b st = Done st') →
  ∃ st', scanSlot config cb type sb bus slot st = Done st'.
Proof.
  intros Hasc Hb Hs Hsb.
  assert (Hf : ∀ func st, 0 ≤ func < 8 → answers (box bus slot func) →
            ∃ st', scanFunc config cb type sb bus slot func st = Done st').
  { intros func st0 Hf Ha. unfold scanFunc. destruct (Z.eqb_spec (findType config (box bus slot func)) Bridge);
      [|by eexists]. apply Hsb. pose proof (secondary_range (box bus slot func)).
    pose proof (Hasc bus slot func Hb Hs Hf Ha e). lia. }
  unfold scanSlot. destruct (Z.eqb_spec (rd 2 (box bus slot 0) VendorID) PCINull) as [|Ha]; [by eexists|].
  destruct (Hf 0 st ltac:(lia) Ha) as [st1 ->]. cbn [mbind outcome_bind].
  destruct (_ =? 0); [by eexists|]. apply for_each_done. intros func st2 Hin.
  apply list_elem_of_fmap in Hin as (k & -> & Hk%elem_of_seq).
  destruct (Z.eqb_spec (rd 2 (box bus slot (Z.of_nat k)) VendorID) PCINull); cbn [negb];
    [by eexists|]. apply Hf; [lia|done].
Qed.

Lemma scanBus_done {St} (cb : Z → Z → Z → St → St) type fuel bus st :
  bridges_ascend → 0 ≤ bus < 256 → 256 - bus ≤ Z.of_nat fuel →
  ∃ st', scanBus config cb type fuel bus st = Done st'.
Proof.
  intros Hasc. revert bus st; induction fuel as [|fuel IH]; intros bus st Hb Hf; [lia|].
  cbn [scanBus]. apply for_each_done. intros slot st1 Hin.
  apply list_elem_of_fmap in Hin as (k & -> & Hk%elem_of_seq).
  apply scanSlot_done; [done|done|lia|]. intros b st2 Hb2. apply IH; lia.
Qed.
End scan_proofs.

(** The functions a scan reports, in order. *)
Definition reported (config : Z → Z) (type : Z) (fuel : nat) : outcome (list (Z * Z * Z)) :=
  scan config (λ dev vid did l, l ++ [(dev, vid, did)]) type fuel [].

(** The scan reports only functions that answer, with the identifiers they answer with, and of
    the type asked for. *)
Theorem scan_reports config type fuel l dev vid did :
  reported config type fuel = Done l → (dev, vid, did) ∈ l →
  vid = rd config 2 dev VendorID ∧ did = rd config 2 dev DeviceID ∧ vid ≠ PCINull ∧
  (type = -1 ∨ type = findType config dev) ∧
  ∃ bus slot func, dev = box bus slot func ∧ 0 ≤ slot < 32 ∧ 0 ≤ func < 8.
Proof.
  set (ok := λ r : Z * Z * Z, let '(dev, vid, did) := r in
    vid = rd config 2 dev VendorID ∧ did = rd config 2 dev DeviceID ∧ vid ≠ PCINull ∧
    (type = -1 ∨ type = findType config dev) ∧
    ∃ bus slot func, dev = box bus slot func ∧ 0 ≤ slot < 32 ∧ 0 ≤ func < 8).
  intros H Hin. assert (Forall ok l) as Hl.
  { eapply (scan_keeps config _ type (Forall ok)); [|by apply Forall_nil_2|exact H].
    intros bus slot func st Hs Hf Ha Ht Hst. unfold scanHit. apply Forall_app. split; [done|].
    apply Forall_singleton. unfold ok. repeat (split; [done|]). by exists bus, slot, func. }
  rewrite Forall_forall in Hl. exact (Hl _ Hin).
Qed.

Lemma scan_done config {St} (cb : Z → Z → Z → St → St) type st :
  bridges_ascend config → ∃ st', scan config cb type 256 st = Done st'.
Proof.
  intros Hasc. unfold scan.
  destruct (_ =? 0); [apply scanBus_done; [done|lia|lia]|].
  assert (∀ fs hit st, (∀ f, f ∈ fs → 0 ≤ f < 256) →
            ∃ r, scan_hosts config cb type 256 fs hit st = Done r) as Hh.
  { induction fs as [|f fs IH]; intros hit st0 Hfs; [by eexists|]. cbn [scan_hosts].
    destruct (negb _); [|by eexists].
    destruct (scanBus_done config cb type 256 f st0 Hasc) as [st1 ->];
      [apply Hfs, list_elem_of_here|pose proof (Hfs f (list_elem_of_here _ _)); lia|].
    cbn [mbind outcome_bind]. apply IH. intros g Hg. apply Hfs. by apply list_elem_of_further. }
  destruct (Hh (Z.of_nat <$> seq 0 8) false st) as [[hit st1] ->].
  { intros f (k & -> & Hk%elem_of_seq)%list_elem_of_fmap. lia. }
  cbn [mbind outcome_bind]. destruct hit; cbn [negb]; [by eexists|].
  apply for_each_done. intros bus st2 (k & -> & Hk%elem_of_seq)%list_elem_of_fmap.
  apply for_each_done. intros slot st3 (j & -> & Hj%elem_of_seq)%list_elem_of_fmap.
  apply scanSlot_done; [done|lia|lia|]. intros b st4 Hb. apply scanBus_done; [done|lia|lia].
Qed.

(** C35. On a machine whose bridges lead to higher-numbered buses the scan ends. *)
Theorem scan_terminates config {St} (cb : Z → Z → Z → St → St) type st :
  bridges_ascend config → ∃ st', scan config cb type 256 st = Done st'.
Proof. apply scan_done. Qed.

(** ** A small machine: a host bridge at slot 0 and a display at slot 2 of bus 0. *)

Definition example_config (a : Z) : Z :=
  if a =? 0x80000000 then 0x12378086 else if a =? 0x80001000 then 0x11111234
  else if (a =? 0x80000008) || (a =? 0x8000000C) || (a =? 0x80001008) || (a =? 0x8000100C) then 0
  else 0xFFFFFFFF.

Definition example_found : list (Z * Z * Z) := [(0, 0x8086, 0x1237); (0x200, 0x1234, 0x1111)].

Lemma example_scan : reported example_config (-1) 2 = Done example_found.
Proof. vm_compute. reflexivity. Qed.

Lemma scan_reports_witness : (0x1234 : Z) = rd example_config 2 0x200 VendorID.
Proof.
  apply (scan_reports example_config (-1) 2 example_found 0x200 0x1234 0x1111 example_scan).
  right. left.
Defined.

Definition no_config (a : Z) : Z := 0xFFFFFFFF.
Lemma scan_terminates_witness :
  ∃ n, scan no_config (λ _ _ _ n, S n) (-1) 256 0%nat = Done n.
Proof.
  assert (bridges_ascend no_config) as H.
  { intros bus slot func _ _ _ Ha. exfalso. apply Ha. reflexivity. }
  exact (scan_terminates no_config (λ _ _ _ n, S n) (-1) 0%nat H).
Defined.
