(* ===== verification/Traps.v ===== *)
(** [Traps.h], [Traps.cpp], [Traps.S]: the interrupt descriptor table, the entry and exit paths of
    interrupts and system calls, and the trap handler.

    The addresses of the entry stubs are given by the linker: [isr n] and [irq n] are parameters.
    The processor's part of an interrupt (what it pushes, what [iretq] pops, how it reads a gate)
    is written here as the architecture manuals describe it. *)

From Stdlib Require Import String.
From S2P Require Import Prelude Mem GDT Cpu.

Definition ClockInterrupt : Z := 123.
Definition BadTLBInterrupt : Z := 124.
Definition HaltInterrupt : Z := 125.
Definition NoOpInterrupt : Z := 126.
Definition SyscallInterrupt : Z := 128.
Definition HaltInterrupt2 : Z := 2.
Definition IRQ0 : Z := 32.
Definition IRQTimer : Z := 0.
Definition DoubleFault : Z := 8.
Definition GeneralProtectionFault : Z := 13.
Definition PageFault : Z := 14.

(** ** The descriptor table *)

Definition interruptGate : Z := 0x8E.
Definition trapGate : Z := 0x8F.

Record IDTEntry := {
  e_baseLow : Z; e_selector : Z; e_zero : Z; e_flags : Z;
  e_baseMid : Z; e_baseHigh : Z; e_padding : Z;
}.
Definition IDTEntry_members : list (Z * Z) :=
  [packed 2; packed 2; packed 1; packed 1; packed 2; packed 4; packed 4].
Definition sizeof_IDTEntry : Z := struct_size 1 IDTEntry_members.
Definition zero_IDTEntry : IDTEntry :=
  {| e_baseLow := 0; e_selector := 0; e_zero := 0; e_flags := 0; e_baseMid := 0; e_baseHigh := 0;
     e_padding := 0 |}.

Definition setGate (handler selector gateFlags : Z) (canBeCalledByUserspace : bool) : IDTEntry :=
  {| e_baseLow := Z.land handler 0xFFFF;
     e_baseMid := Z.land (Z.shiftr handler 16) 0xFFFF;
     e_baseHigh := Z.land (Z.shiftr handler 32) 0xFFFFFFFF;
     e_selector := selector;
     e_zero := 0;
     e_padding := 0;
     e_flags := if canBeCalledByUserspace then Z.lor gateFlags 0x60 else gateFlags |}.
Definition getGate (e : IDTEntry) : Z :=
  Z.lor (Z.lor (e_baseLow e) (u64 (Z.shiftl (e_baseMid e) 16))) (u64 (Z.shiftl (e_baseHigh e) 32)).

Section table.
Context (isr irq : Z → Z).

(** The calls of [setupIDTTable], in order: vector, handler, callable from user space. *)
Definition gates : list (Z * Z * bool) :=
  ((λ i : nat, (Z.of_nat i, isr (Z.of_nat i), false)) <$> seq 0 32) ++
  ((λ i : nat, (32 + Z.of_nat i, irq (Z.of_nat i), false)) <$> seq 0 16) ++
  [(123, isr 123, false); (124, isr 124, false); (125, isr 125, false); (126, isr 126, false);
   (SyscallInterrupt, isr SyscallInterrupt, true)].

Definition setupIDTTable (IDTEntries : list IDTEntry) : list IDTEntry :=
  let CodeSelector := off_kernelCode in
  foldl (λ t '(v, handler, user), <[Z.to_nat v := setGate handler CodeSelector interruptGate user]> t)
    IDTEntries gates.
End table.

(** [loadIDTTable]: the limit and the base of the table register. *)
Definition loadIDTTable (IDTEntries_address : Z) : Z * Z :=
  (u16 (256 * sizeof_IDTEntry), IDTEntries_address).

(** How the processor reads a gate. *)
Definition gate_offset (e : IDTEntry) : Z := e_baseLow e + 2 ^ 16 * e_baseMid e + 2 ^ 32 * e_baseHigh e.
Definition gate_type (e : IDTEntry) : Z := bf_get 0 4 (e_flags e).
Definition gate_dpl (e : IDTEntry) : Z := bf_get 5 2 (e_flags e).
Definition gate_present (e : IDTEntry) : bool := Z.testbit (e_flags e) 7.

(** ** Registers and frames *)

Record registers := {
  rax : Z; rbx : Z; rcx : Z; rdx : Z; rsi : Z; rdi : Z; rbp : Z; r8 : Z; r9 : Z; r10 : Z;
  r11 : Z; r12 : Z; r13 : Z; r14 : Z; r15 : Z;
}.
(** What [iretq] restores. *)
Record context := { c_rip : Z; c_cs : Z; c_rflags : Z; c_rsp : Z; c_ss : Z }.

Record InterruptRegisters := {
  ir_regs : registers; interruptNumber : Z; errorCode : Z; ir_context : context;
}.

Definition reg_words (r : registers) : list Z :=
  [r15 r; r14 r; r13 r; r12 r; r11 r; r10 r; r9 r; r8 r; rbp r; rdi r; rsi r; rdx r; rcx r; rbx r; rax r].
Definition context_words (c : context) : list Z := [c_rip c; c_cs c; c_rflags c; c_rsp c; c_ss c].
(** The struct's members in memory order. *)
Definition frame_words (f : InterruptRegisters) : list Z :=
  reg_words (ir_regs f) ++ [interruptNumber f; errorCode f] ++ context_words (ir_context f).
Definition sizeof_InterruptRegisters : Z := 22 * 8.

Definition words_regs (w : nat → Z) : registers :=
  {| r15 := w 0%nat; r14 := w 1%nat; r13 := w 2%nat; r12 := w 3%nat; r11 := w 4%nat;
     r10 := w 5%nat; r9 := w 6%nat; r8 := w 7%nat; rbp := w 8%nat; rdi := w 9%nat;
     rsi := w 10%nat; rdx := w 11%nat; rcx := w 12%nat; rbx := w 13%nat; rax := w 14%nat |}.
Definition words_context (w : nat → Z) : context :=
  {| c_rip := w 0%nat; c_cs := w 1%nat; c_rflags := w 2%nat; c_rsp := w 3%nat; c_ss := w 4%nat |}.

(** The words at an address upwards, and [push] of one word after the other. *)
Definition word (m : mem) (a : Z) (i : nat) : Z := load64 m (a + 8 * Z.of_nat i).
Fixpoint push_all (ws : list Z) (sp : Z) (m : mem) : Z * mem :=
  match ws with
  | [] => (sp, m)
  | w :: ws => push_all ws (sp - 8) (store64 m (sp - 8) w)
  end.

(** ** Interrupt entry and exit *)

(** Exceptions for which the processor pushes an error code. *)
Definition pushes_error (v : Z) : bool :=
  existsb (Z.eqb v) [8; 10; 11; 12; 13; 14; 17; 21; 29; 30].
(** What it pushes on the stack it has chosen. *)
Definition hw_frame (v err : Z) (c : context) : list Z :=
  [c_ss c; c_rsp c; c_rflags c; c_cs c; c_rip c] ++ if pushes_error v then [err] else [].

(** The stubs generated by the macros of [Traps.S], for the vectors that have one. *)
Inductive stub := ISR_NoErrorCode | ISR_WithErrorCode | IRQ_Stub.
Definition stub_of (v : Z) : option stub :=
  if existsb (Z.eqb v) [8; 10; 11; 12; 13; 14] then Some ISR_WithErrorCode
  else if (0 <=? v) && (v <? 32) && negb (v =? HaltInterrupt2) then Some ISR_NoErrorCode
  else if (32 <=? v) && (v <? 48) then Some IRQ_Stub
  else if v =? SyscallInterrupt then Some ISR_NoErrorCode
  else None.
Definition stub_pushes (s : stub) (v : Z) : list Z :=
  match s with
  | ISR_NoErrorCode => [0; v]
  | ISR_WithErrorCode => [v]
  | IRQ_Stub => [0; v]
  end.

(** The pushes of [TrapCommon] and of [SyscallHandler]. *)
Definition common_pushes (r : registers) : list Z :=
  [rax r; rbx r; rcx r; rdx r; rsi r; rdi r; rbp r; r8 r; r9 r; r10 r; r11 r; r12 r; r13 r; r14 r; r15 r].

(** From the interrupt to the call of [TrapHandler]: the stack pointer is its argument. *)
Definition trap_entry (s : stub) (v err : Z) (c : context) (r : registers) (sp : Z) (m : mem) : Z * mem :=
  push_all (hw_frame v err c ++ stub_pushes s v ++ common_pushes r) sp m.

(** [TrapRet]: the registers popped, and the context [iretq] takes after the number and the
    error code were skipped. *)
Definition TrapRet (sp : Z) (m : mem) : registers * context :=
  (words_regs (word m sp), words_context (word m (sp + 15 * 8 + 16))).

Definition read_frame (sp : Z) (m : mem) : InterruptRegisters :=
  {| ir_regs := words_regs (word m sp);
     interruptNumber := word m sp 15%nat; errorCode := word m sp 16%nat;
     ir_context := words_context (word m (sp + 17 * 8)) |}.

(** The hand-written stubs.  All but the halting ones use r12 as scratch: they push it, load the
    controller's address into it, and pop it before anything else. *)
Inductive stub_effect := FlushTLB | EndInterrupt.
Inductive stub_exit := BackToContext (r : registers) (c : context) | IntoHandler (frame : Z) (m : mem).

Definition set_r12 (v : Z) (r : registers) : registers :=
  {| rax := rax r; rbx := rbx r; rcx := rcx r; rdx := rdx r; rsi := rsi r; rdi := rdi r;
     rbp := rbp r; r8 := r8 r; r9 := r9 r; r10 := r10 r; r11 := r11 r; r12 := v; r13 := r13 r;
     r14 := r14 r; r15 := r15 r |}.

(** [pushq %r12; ...; popq %r12]: the registers and the memory afterwards. *)
Definition scratch_r12 (r : registers) (sp : Z) (m : mem) : registers * mem :=
  let '(sp, m) := push_all [r12 r] sp m in (set_r12 (word m sp 0) r, m).

Definition manual_stub (v : Z) (c : context) (r : registers) (sp : Z) (m : mem)
    : outcome (list stub_effect * stub_exit) :=
  let '(sp, m) := push_all (hw_frame v 0 c) sp m in
  let '(r', m') := scratch_r12 r sp m in
  let iretq := BackToContext r' (words_context (word m' sp)) in
  if v =? ClockInterrupt then
    (* the controller's address is computed but nothing is written to it *)
    if word m' sp 1 =? 8 then Done ([], iretq)
    else
      let '(sp, m') := push_all [0] sp m' in
      (* [pushq ClockInterrupt] pushes the word at that address *)
      let number := load64 m' ClockInterrupt in
      let '(frame, m') := push_all (number :: common_pushes r') sp m' in
      Done ([], IntoHandler frame m')
  else if v =? BadTLBInterrupt then Done ([FlushTLB; EndInterrupt], iretq)
  else if v =? NoOpInterrupt then Done ([EndInterrupt], iretq)
  else Stuck Halted.

(** ** System calls

    [sysretq] and [syscall] exchange the stack pointer with nothing: the handler saves it in the
    CPU record and switches to the record's interrupt stack. *)
Definition syscall_entry (r : registers) (cpu : CPUState) (user_rsp : Z) (m : mem) : Z * mem * CPUState :=
  let cpu :=
    {| apicID := apicID cpu; cliCount := cliCount cpu;
       wereInterruptsEnabled := wereInterruptsEnabled cpu; currentProcess := currentProcess cpu;
       interruptStack := interruptStack cpu; table := table cpu; userStack := user_rsp;
       schedulerTask := schedulerTask cpu |} in
  (push_all (common_pushes r) (interruptStack cpu) m, cpu).
(** The registers and the stack pointer user space gets back. *)
Definition syscall_exit (sp : Z) (cpu : CPUState) (m : mem) : registers * Z :=
  (words_regs (word m sp), userStack cpu).

(** ** The trap handler *)

Inductive trap_effect :=
  | Acknowledge | ExitCurrentProcess | Panic (why : string) | LogUnhandled (n : Z) | LogSyscall (n : Z).

(** [KernelSyscallHandler] logs the number in rax and returns its argument. *)
Definition KernelSyscallHandler (r : registers) : list trap_effect := [LogSyscall (rax r)].

(** What [TrapHandler] does before it returns its argument; a panic and the end of a process do not
    come back to it. *)
Definition TrapHandler (e : cpu_env) (f : InterruptRegisters) : outcome (list trap_effect) :=
  let n := interruptNumber f in
  let in_kernel c := (currentProcess c =? 0) || (c_cs (ir_context f) =? off_kernelCode) in
  if n =? SyscallInterrupt then Done []
  else if n =? IRQ0 + IRQTimer then Done [Acknowledge]
  else if n =? DoubleFault then Done [Panic "Double fault"]
  else if n =? GeneralProtectionFault then
    with_this e (λ _ c,
      if in_kernel c then Done [Panic "GPF in kernel code"] else Done [ExitCurrentProcess])
  else if n =? PageFault then
    with_this e (λ _ c,
      if in_kernel c then Done [Panic "Page fault in kernel code"] else Done [ExitCurrentProcess])
  else Done [LogUnhandled n].

(** ** Theorems: the table *)

Lemma setGate_offset handler selector fl user :
  0 ≤ handler < 2 ^ 64 → gate_offset (setGate handler selector fl user) = handler.
Proof.
  intros Hh. unfold gate_offset. simpl.
  rewrite (land_ffff handler), (land_ffff (Z.shiftr handler 16)), land_ffffffff.
  rewrite !Z.shiftr_div_pow2 by lia. change (2 ^ 16) with 65536. change (2 ^ 32) with 4294967296.
  wrap_lia.
Qed.

(** [getGate] gives back the handler [setGate] was given, whatever the other arguments. *)
Theorem gate_roundtrip handler selector fl user :
  0 ≤ handler < 2 ^ 64 → getGate (setGate handler selector fl user) = handler.
Proof.
  intros Hh. rewrite <- (setGate_offset handler selector fl user Hh) at 2.
  set (e := setGate handler selector fl user). unfold getGate, gate_offset.
  assert (0 ≤ e_baseLow e < 2 ^ 16 ∧ 0 ≤ e_baseMid e < 2 ^ 16 ∧ 0 ≤ e_baseHigh e < 2 ^ 32) as (H1 & H2 & H3).
  { subst e. simpl. rewrite (land_ffff handler), (land_ffff (Z.shiftr handler 16)), land_ffffffff.
    repeat split; apply uw_range; lia. }
  rewrite !Z.shiftl_mul_pow2 by lia. rewrite !uw_small by lia.
  rewrite <- !Z.shiftl_mul_pow2 by lia. rewrite (Z.lor_comm (e_baseLow e)), lor_low by lia.
  rewrite Z.lor_comm, lor_low by lia. lia.
Qed.

Lemma gate_roundtrip_witness : getGate (setGate 0xffffffff80001234 8 interruptGate true) = 0xffffffff80001234.
Proof. apply (gate_roundtrip 0xffffffff80001234 8 interruptGate true). lia. Defined.

Definition gate_key (g : Z * Z * bool) : nat := Z.to_nat g.1.1.
Definition gate_val (g : Z * Z * bool) : IDTEntry := setGate g.1.2 off_kernelCode interruptGate g.2.

Lemma setupIDTTable_fold isr irq t :
  setupIDTTable isr irq t = foldl (λ t g, <[gate_key g := gate_val g]> t) t (gates isr irq).
Proof.
  unfold setupIDTTable. generalize (gates isr irq). intros l. revert t.
  induction l as [|[[v h] u] l IH]; intros t; [done|]. simpl. apply IH.
Qed.

Lemma gates_vectors isr irq :
  (λ g : Z * Z * bool, g.1.1) <$> gates isr irq =
    (Z.of_nat <$> seq 0 48) ++ [123; 124; 125; 126; 128].
Proof. reflexivity. Qed.

Lemma gates_keys isr irq : gate_key <$> gates isr irq = seq 0 48 ++ [123; 124; 125; 126; 128]%nat.
Proof. reflexivity. Qed.


(** ** Theorems: saving and restoring *)

Definition words_ok (ws : list Z) : Prop := Forall (λ w, 0 ≤ w < 2 ^ 64) ws.
(** For concrete words. *)
Ltac words_tac := repeat (apply Forall_cons; split; [simpl; lia|]); apply Forall_nil_2.

(** Pushed words lie in memory upwards from the new stack pointer, the last one first; nothing
    else changes. *)
Lemma push_all_spec ws sp m :
  words_ok ws →
  (push_all ws sp m).1 = sp - 8 * Z.of_nat (length ws) ∧
  (∀ i w, rev ws !! i = Some w → word (push_all ws sp m).2 (push_all ws sp m).1 i = w) ∧
  agree (λ x, ¬ (sp - 8 * Z.of_nat (length ws) ≤ x < sp)) (push_all ws sp m).2 m.
Proof.
  intros Hws. revert sp m; induction Hws as [|w ws Hw Hws IH]; intros sp m.
  { simpl. split; [lia|]. split; [intros i w Hi; by rewrite lookup_nil in Hi|done]. }
  cbn [push_all]. destruct (IH (sp - 8) (store64 m (sp - 8) w)) as (H1 & H2 & H3).
  cbn [length]. rewrite Nat2Z.inj_succ.
  split; [lia|]. split.
  - intros i w' Hi. cbn [rev] in Hi. rewrite lookup_app in Hi.
    destruct (rev ws !! i) as [w0|] eqn:E.
    + injection Hi as ->. by apply H2.
    + apply lookup_ge_None in E. rewrite length_rev in *.
      assert (i = length ws ∧ w' = w) as [-> ->].
      { destruct (i - length ws)%nat as [|k] eqn:Ek; simpl in Hi; [|by rewrite lookup_nil in Hi].
        injection Hi as ->. split; [lia|done]. }
      unfold word. rewrite H1. replace (sp - 8 - _ + _) with (sp - 8) by lia.
      rewrite (load_agree 8 _ _ _ _ H3) by (unfold range; lia). by apply load64_store64.
  - eapply agree_trans; [eapply agree_weaken; [|exact H3]; simpl; lia|].
    apply store_agree. unfold range. lia.
Qed.

Lemma words_regs_of w r :
  (∀ i v, reg_words r !! i = Some v → w i = v) → words_regs w = r.
Proof.
  intros H. destruct r. unfold words_regs. f_equal.
  1: exact (H 14%nat _ eq_refl). 1: exact (H 13%nat _ eq_refl). 1: exact (H 12%nat _ eq_refl).
  1: exact (H 11%nat _ eq_refl). 1: exact (H 10%nat _ eq_refl). 1: exact (H 9%nat _ eq_refl).
  1: exact (H 8%nat _ eq_refl). 1: exact (H 7%nat _ eq_refl). 1: exact (H 6%nat _ eq_refl).
  1: exact (H 5%nat _ eq_refl). 1: exact (H 4%nat _ eq_refl). 1: exact (H 3%nat _ eq_refl).
  1: exact (H 2%nat _ eq_refl). 1: exact (H 1%nat _ eq_refl). exact (H 0%nat _ eq_refl).
Qed.

Lemma words_context_of w c :
  (∀ i v, context_words c !! i = Some v → w i = v) → words_context w = c.
Proof.
  intros H. destruct c. unfold words_context. f_equal.
  1: exact (H 0%nat _ eq_refl). 1: exact (H 1%nat _ eq_refl). 1: exact (H 2%nat _ eq_refl).
  1: exact (H 3%nat _ eq_refl). exact (H 4%nat _ eq_refl).
Qed.

(** A frame in memory is read back, by the handler's struct and by the exit path alike. *)
Lemma frame_read m sp f :
  (∀ i w, frame_words f !! i = Some w → word m sp i = w) →
  read_frame sp m = f ∧ TrapRet sp m = (ir_regs f, ir_context f).
Proof.
  intros H.
  assert (Hr : words_regs (word m sp) = ir_regs f).
  { apply words_regs_of. intros i v Hi. apply H. unfold frame_words. by apply lookup_app_l_Some. }
  assert (Hc : words_context (word m (sp + 17 * 8)) = ir_context f).
  { apply words_context_of. intros i v Hi. rewrite <- (H (17 + i)%nat v).
    - unfold word. f_equal. lia.
    - unfold frame_words. by destruct f as [[] n e c]. }
  split.
  - unfold read_frame. rewrite Hr, Hc. destruct f as [r n e c]. simpl. f_equal.
    + apply (H 15%nat). by destruct r.
    + apply (H 16%nat). by destruct r.
  - unfold TrapRet. rewrite Hr. f_equal. rewrite <- Hc. f_equal. f_equal. lia.
Qed.

Lemma stub_error v s :
  stub_of v = Some s → v ∉ [17; 21; 29; 30] →
  (if pushes_error v then s = ISR_WithErrorCode else s ≠ ISR_WithErrorCode).
Proof.
  unfold stub_of, pushes_error. cbn [existsb]. intros Hs Hn.
  rewrite !not_elem_of_cons in Hn. destruct Hn as (N1 & N2 & N3 & N4 & _).
  apply Z.eqb_neq in N1, N2, N3, N4. rewrite N1, N2, N3, N4.
  destruct (v =? 8), (v =? 10), (v =? 11), (v =? 12), (v =? 13), (v =? 14); cbn [orb] in *;
    try (by injection Hs as <-).
  destruct ((0 <=? v) && _ && _); [by injection Hs as <-|].
  destruct ((32 <=? v) && _); [by injection Hs as <-|].
  destruct (v =? SyscallInterrupt); [by injection Hs as <-|done].
Qed.

(** From the interrupt to the handler: the frame holds the registers, the context, the number and
    the error code, and [TrapRet] restores them from it. *)
Lemma trap_entry_spec s v err c r sp m :
  stub_of v = Some s → v ∉ [17; 21; 29; 30] → 0 ≤ v < 256 → 0 ≤ err < 2 ^ 64 →
  words_ok (reg_words r) → words_ok (context_words c) →
  ∃ m', trap_entry s v err c r sp m = (sp - sizeof_InterruptRegisters, m') ∧
    read_frame (sp - sizeof_InterruptRegisters) m' =
      {| ir_regs := r; interruptNumber := v; errorCode := if pushes_error v then err else 0;
         ir_context := c |} ∧
    TrapRet (sp - sizeof_InterruptRegisters) m' = (r, c) ∧
    agree (λ x, ¬ (sp - sizeof_InterruptRegisters ≤ x < sp)) m' m.
Proof.
  intros Hs Hn Hv Herr Hr Hc. pose proof (stub_error v s Hs Hn) as Hse. unfold trap_entry.
  set (ws := hw_frame v err c ++ stub_pushes s v ++ common_pushes r).
  set (f := {| ir_regs := r; interruptNumber := v; errorCode := if pushes_error v then err else 0;
               ir_context := c |}).
  assert (Hrev : rev ws = frame_words f ∧ length ws = 22%nat).
  { unfold ws, f, hw_frame, frame_words. destruct r, c. destruct (pushes_error v), s; done. }
  destruct Hrev as [Hrev Hlen].
  assert (Hok : words_ok ws).
  { unfold words_ok. rewrite <- (rev_involutive ws), Hrev.
    apply Forall_rev. unfold frame_words, f. simpl ir_regs. simpl ir_context.
    rewrite !Forall_app. split; [done|]. split; [|done].
    repeat (apply Forall_cons; split); [simpl; lia|simpl; destruct (pushes_error v); lia|by apply Forall_nil_2]. }
  destruct (push_all_spec ws sp m Hok) as (P1 & P2 & P3). rewrite Hlen in P1, P3.
  rewrite Hrev in P2. destruct (push_all ws sp m) as [sp' m']. simpl in P1, P2, P3.
  destruct (frame_read m' sp' f P2) as [F1 F2].
  change sizeof_InterruptRegisters with 176. replace (sp - 176) with sp' by lia. exists m'.
  split; [done|]. split; [exact F1|]. split; [exact F2|].
  eapply agree_weaken; [|exact P3]. simpl. lia.
Qed.

(** C10. Entering and leaving the kernel through an interrupt: for every vector with a stub, except
    the four discussed below, the handler finds in its argument the registers, the vector, the
    error code (0 if there is none) and the interrupted context, and [TrapRet] restores registers
    and context from it.  Only the 176 bytes below the stack pointer are written. *)
Theorem trap_roundtrip s v err c r sp m :
  stub_of v = Some s → v ∉ [17; 21; 29; 30] → 0 ≤ v < 256 → 0 ≤ err < 2 ^ 64 →
  words_ok (reg_words r) → words_ok (context_words c) →
  let '(sp', m') := trap_entry s v err c r sp m in
  sp' = sp - sizeof_InterruptRegisters ∧
  read_frame sp' m' =
    {| ir_regs := r; interruptNumber := v; errorCode := if pushes_error v then err else 0;
       ir_context := c |} ∧
  TrapRet sp' m' = (r, c) ∧
  agree (λ x, ¬ (sp - sizeof_InterruptRegisters ≤ x < sp)) m' m.
Proof.
  intros H1 H2 H3 H4 H5 H6. destruct (trap_entry_spec s v err c r sp m H1 H2 H3 H4 H5 H6) as (m' & -> & H).
  by split.
Qed.

(** ** Theorems: the hand-written stubs *)

(** The processor's frame and the scratch use of r12. *)
Lemma scratch_spec v c r sp m :
  words_ok (reg_words r) → words_ok (context_words c) → pushes_error v = false →
  ∃ m1 m2, push_all (hw_frame v 0 c) sp m = (sp - 40, m1) ∧
    scratch_r12 r (sp - 40) m1 = (r, m2) ∧
    (∀ i w, context_words c !! i = Some w → word m2 (sp - 40) i = w) ∧
    agree (λ x, x < sp - 48 ∨ sp ≤ x) m2 m.
Proof.
  intros Hr Hc Hv. unfold hw_frame. rewrite Hv, app_nil_r.
  set (ws := [c_ss c; c_rsp c; c_rflags c; c_cs c; c_rip c]).
  assert (words_ok ws) as Hws by exact (List.Forall_rev Hc).
  destruct (push_all_spec ws sp m Hws) as (P1 & P2 & P3).
  destruct (push_all ws sp m) as [sp1 m1]. cbn [fst snd] in *.
  change (8 * Z.of_nat (length ws)) with 40 in *. subst sp1.
  assert (0 ≤ r12 r < 2 ^ 64) as H12.
  { unfold words_ok in Hr. rewrite Forall_forall in Hr. apply Hr. destruct r. simpl.
    do 3 apply list_elem_of_further. apply list_elem_of_here. }
  exists m1, (store64 m1 (sp - 40 - 8) (r12 r)). split; [done|]. split; [|split].
  - unfold scratch_r12. cbn [push_all]. f_equal. unfold word.
    replace (sp - 40 - 8 + 8 * Z.of_nat 0) with (sp - 40 - 8) by lia.
    rewrite load64_store64 by done. by destruct r.
  - intros i w Hi. rewrite <- (P2 i w) by done. unfold word. apply load_store_disj. unfold disj. lia.
  - eapply agree_trans; [apply store_agree; unfold range; lia|].
    eapply agree_weaken; [|exact P3]. simpl. lia.
Qed.

(** Frames pushed on top of a context that lies on the stack. *)
Lemma frame_on_context r n e c sp m :
  words_ok (reg_words r) → 0 ≤ n < 2 ^ 64 → 0 ≤ e < 2 ^ 64 →
  (∀ i w, context_words c !! i = Some w → word m sp i = w) →
  let '(frame, m') := push_all ([e; n] ++ common_pushes r) sp m in
  read_frame frame m' =
    {| ir_regs := r; interruptNumber := n; errorCode := e; ir_context := c |} ∧
  TrapRet frame m' = (r, c).
Proof.
  intros Hr Hn He Hc. set (ws := [e; n] ++ common_pushes r).
  set (f := {| ir_regs := r; interruptNumber := n; errorCode := e; ir_context := c |}).
  assert (Hrev : rev ws = reg_words r ++ [n; e]) by done.
  assert (words_ok ws) as Hws.
  { unfold words_ok. rewrite <- (rev_involutive ws), Hrev. apply List.Forall_rev, Forall_app.
    split; [done|]. repeat (apply Forall_cons; split; [done|]). by apply Forall_nil_2. }
  destruct (push_all_spec ws sp m Hws) as (P1 & P2 & P3). rewrite Hrev in P2.
  destruct (push_all ws sp m) as [frame m']. cbn [fst snd] in *.
  change (length ws) with 17%nat in *. change (8 * Z.of_nat 17) with 136 in *.
  apply (frame_read m' frame f). intros i w Hi.
  assert (Hsplit : frame_words f = (reg_words r ++ [n; e]) ++ context_words c) by done.
  rewrite Hsplit in Hi. apply lookup_app_Some in Hi as [Hi|[Hlen Hi]]; [by apply P2|].
  change (length (reg_words r ++ [n; e])) with 17%nat in *.
  rewrite <- (Hc _ _ Hi). unfold word. rewrite P1.
  replace (sp - 136 + 8 * Z.of_nat i) with (sp + 8 * Z.of_nat (i - 17)) by lia.
  apply (load_agree 8 _ _ _ _ P3). unfold range. lia.
Qed.

(** The stubs of vectors 2 and 123 to 126: the two halting ones never return; the other two
    return to the interrupted code with every register as it was, after flushing the TLB and
    acknowledging; the clock's does so, unacknowledged, when the kernel was interrupted, and
    otherwise enters the handler, with the number found in memory at address 123. *)
Theorem manual_stub_cases c r sp m :
  words_ok (reg_words r) → words_ok (context_words c) → disj ClockInterrupt 8 (sp - 48) 48 →
  (c_cs c = 8 → manual_stub ClockInterrupt c r sp m = Done ([], BackToContext r c)) ∧
  (c_cs c ≠ 8 → ∃ frame m', manual_stub ClockInterrupt c r sp m = Done ([], IntoHandler frame m') ∧
     read_frame frame m' = {| ir_regs := r; interruptNumber := load64 m ClockInterrupt;
                              errorCode := 0; ir_context := c |} ∧
     TrapRet frame m' = (r, c)) ∧
  manual_stub BadTLBInterrupt c r sp m = Done ([FlushTLB; EndInterrupt], BackToContext r c) ∧
  manual_stub NoOpInterrupt c r sp m = Done ([EndInterrupt], BackToContext r c) ∧
  manual_stub HaltInterrupt c r sp m = Stuck Halted ∧
  manual_stub HaltInterrupt2 c r sp m = Stuck Halted.
Proof.
  intros Hr Hc Hd.
  assert (H : ∀ v, pushes_error v = false → ∃ m2,
    (∀ i w, context_words c !! i = Some w → word m2 (sp - 40) i = w) ∧
    agree (λ x, x < sp - 48 ∨ sp ≤ x) m2 m ∧
    manual_stub v c r sp m =
      (let iretq := BackToContext r c in
       if v =? ClockInterrupt then
         if c_cs c =? 8 then Done ([], iretq)
         else
           let '(sp', m') := push_all [0] (sp - 40) m2 in
           let '(frame, m') := push_all (load64 m' ClockInterrupt :: common_pushes r) sp' m' in
           Done ([], IntoHandler frame m')
       else if v =? BadTLBInterrupt then Done ([FlushTLB; EndInterrupt], iretq)
       else if v =? NoOpInterrupt then Done ([EndInterrupt], iretq)
       else Stuck Halted)).
  { intros v Hv. destruct (scratch_spec v c r sp m Hr Hc Hv) as (m1 & m2 & E1 & E2 & W & A).
    exists m2. split; [done|]. split; [done|]. unfold manual_stub.
    rewrite E1, E2.
    rewrite (words_context_of (word m2 (sp - 40)) c) by done. by rewrite (W 1%nat (c_cs c)). }
  split; [|split; [|split; [|split; [|split]]]].
  - intros Hcs. destruct (H ClockInterrupt) as (m2 & _ & _ & ->); [done|]. by rewrite Hcs.
  - intros Hcs. destruct (H ClockInterrupt) as (m2 & W & A & ->); [done|].
    rewrite Z.eqb_refl. apply Z.eqb_neq in Hcs. rewrite Hcs. cbn [push_all].
    set (m3 := store64 m2 (sp - 40 - 8) 0).
    assert (load64 m3 ClockInterrupt = load64 m ClockInterrupt) as ->.
    { unfold m3. rewrite load_store_disj by (unfold disj in *; lia).
      apply (load_agree 8 _ _ _ _ A). unfold range, disj in *. lia. }
    pose proof (frame_on_context r (load64 m ClockInterrupt) 0 c (sp - 40) m2 Hr
                  (load64_range _ _) ltac:(lia) W) as F.
    cbn [app push_all] in F. fold m3 in F. cbv zeta.
    destruct (push_all (common_pushes r) _ _) as [frame m'] eqn:E.
    exists frame, m'. split; [reflexivity|exact F].
  - by destruct (H BadTLBInterrupt) as (m2 & _ & _ & ->).
  - by destruct (H NoOpInterrupt) as (m2 & _ & _ & ->).
  - by destruct (H HaltInterrupt) as (m2 & _ & _ & ->).
  - by destruct (H HaltInterrupt2) as (m2 & _ & _ & ->).
Qed.

Definition zero_registers : registers :=
  {| rax := 0; rbx := 0; rcx := 0; rdx := 0; rsi := 0; rdi := 0; rbp := 0; r8 := 0; r9 := 0;
     r10 := 0; r11 := 0; r12 := 0; r13 := 0; r14 := 0; r15 := 0 |}.
Definition example_registers : registers :=
  {| rax := 1; rbx := 2; rcx := 3; rdx := 4; rsi := 5; rdi := 6; rbp := 7; r8 := 8; r9 := 9;
     r10 := 10; r11 := 11; r12 := 12; r13 := 13; r14 := 14; r15 := 15 |}.
Definition user_context : context :=
  {| c_rip := 0x1000; c_cs := 0x2b; c_rflags := 0x202; c_rsp := 0x8000; c_ss := 0x33 |}.

Lemma trap_roundtrip_witness :
  ∃ sp' m', trap_entry ISR_WithErrorCode 14 6 user_context example_registers 0x9000 (λ _, 0) = (sp', m') ∧
            TrapRet sp' m' = (example_registers, user_context).
Proof.
  pose proof (trap_roundtrip ISR_WithErrorCode 14 6 user_context example_registers 0x9000 (λ _, 0)) as H.
  destruct (trap_entry _ _ _ _ _ _ _) as [sp' m'] eqn:E. exists sp', m'. split; [done|].
  destruct H as (_ & _ & H & _).
  - reflexivity.
  - rewrite !not_elem_of_cons. repeat split; try done. apply not_elem_of_nil.
  - lia.
  - lia.
  - words_tac.
  - words_tac.
  - exact H.
Defined.

(** The stub of the alignment-check exception (17) pushes a zero although the processor has
    pushed an error code: [TrapRet] would return to the error code, with the instruction pointer
    as code segment. *)
Theorem alignment_check_misreturns :
  stub_of 17 = Some ISR_NoErrorCode ∧
  let '(sp', m') := trap_entry ISR_NoErrorCode 17 0 user_context zero_registers 0x9000 (λ _, 0) in
  (TrapRet sp' m').2 = {| c_rip := 0; c_cs := 0x1000; c_rflags := 0x2b; c_rsp := 0x202; c_ss := 0x8000 |}.
Proof. by vm_compute. Qed.

(** From the system call to its handler, and back. *)
Lemma syscall_entry_spec r cpu user_rsp m :
  words_ok (reg_words r) →
  ∃ m' cpu', syscall_entry r cpu user_rsp m = ((interruptStack cpu - 120, m'), cpu') ∧
    apicID cpu' = apicID cpu ∧ cliCount cpu' = cliCount cpu ∧ table cpu' = table cpu ∧
    userStack cpu' = user_rsp ∧ words_regs (word m' (interruptStack cpu - 120)) = r ∧
    agree (λ x, ¬ (interruptStack cpu - 120 ≤ x < interruptStack cpu)) m' m.
Proof.
  intros Hr. unfold syscall_entry.
  assert (Hrev : rev (common_pushes r) = reg_words r) by done.
  assert (Hok : words_ok (common_pushes r)).
  { unfold words_ok. rewrite <- (rev_involutive (common_pushes r)), Hrev. by apply Forall_rev. }
  destruct (push_all_spec (common_pushes r) (interruptStack cpu) m Hok) as (P1 & P2 & P3).
  rewrite Hrev in P2. cbn [interruptStack].
  destruct (push_all (common_pushes r) (interruptStack cpu) m) as [sp' m'].
  assert (interruptStack cpu - 120 = sp') as -> by (simpl in P1; lia).
  eexists m', _. split; [reflexivity|]. do 4 (split; [done|]). split; [by apply words_regs_of|].
  eapply agree_weaken; [|exact P3]. simpl in *. lia.
Qed.

(** A system call gives user space back its registers and its stack pointer; it writes the 120
    bytes below the record's interrupt stack pointer and nothing else. *)
Theorem syscall_roundtrip r cpu user_rsp m :
  words_ok (reg_words r) →
  let '((sp', m'), cpu') := syscall_entry r cpu user_rsp m in
  syscall_exit sp' cpu' m' = (r, user_rsp) ∧
  agree (λ x, ¬ (interruptStack cpu - 120 ≤ x < interruptStack cpu)) m' m.
Proof.
  intros Hr. destruct (syscall_entry_spec r cpu user_rsp m Hr) as (m' & cpu' & -> & _ & _ & _ & U & R & A).
  split; [|exact A]. unfold syscall_exit. by rewrite U, R.
Qed.

Lemma syscall_roundtrip_witness :
  ∃ sp' m' cpu', syscall_entry example_registers zero_cpu 0x8000 (λ _, 0) = ((sp', m'), cpu') ∧
    syscall_exit sp' cpu' m' = (example_registers, 0x8000).
Proof.
  pose proof (syscall_roundtrip example_registers zero_cpu 0x8000 (λ _, 0)) as H.
  destruct (syscall_entry _ _ _ _) as [[sp' m'] cpu'] eqn:E. exists sp', m', cpu'. split; [done|].
  apply H. words_tac.
Defined.

(** ** Theorems: the handler *)

(** What [TrapHandler] does, for every interrupt: system calls through the table return at once,
    the timer is acknowledged, a double fault and a fault of kernel code stop the processor, a
    fault of user code ends the process, everything else is logged. *)
Theorem TrapHandler_cases e f i c :
  cpu_of e i c →
  let n := interruptNumber f in
  let fault := n = GeneralProtectionFault ∨ n = PageFault in
  let in_kernel := currentProcess c = 0 ∨ c_cs (ir_context f) = off_kernelCode in
  (n = SyscallInterrupt → TrapHandler e f = Done []) ∧
  (n = IRQ0 + IRQTimer → TrapHandler e f = Done [Acknowledge]) ∧
  (n = DoubleFault → TrapHandler e f = Done [Panic "Double fault"]) ∧
  (n = GeneralProtectionFault → in_kernel → TrapHandler e f = Done [Panic "GPF in kernel code"]) ∧
  (n = PageFault → in_kernel → TrapHandler e f = Done [Panic "Page fault in kernel code"]) ∧
  (fault ∧ ¬ in_kernel ↔ TrapHandler e f = Done [ExitCurrentProcess]) ∧
  (n ≠ SyscallInterrupt → n ≠ IRQ0 + IRQTimer → n ≠ DoubleFault → ¬ fault →
     TrapHandler e f = Done [LogUnhandled n]).
Proof.
  intros Hc n fault in_kernel. unfold TrapHandler. fold n.
  rewrite !(with_this_of _ _ _ _ Hc). subst fault in_kernel.
  unfold SyscallInterrupt, IRQ0, IRQTimer, DoubleFault, GeneralProtectionFault, PageFault.
  destruct (Z.eqb_spec n 128), (Z.eqb_spec n (32 + 0)), (Z.eqb_spec n 8), (Z.eqb_spec n 13),
    (Z.eqb_spec n 14); try lia;
    destruct (Z.eqb_spec (currentProcess c) 0), (Z.eqb_spec (c_cs (ir_context f)) off_kernelCode);
    cbn [orb]; naive_solver lia.
Qed.

Definition user_fault : InterruptRegisters :=
  {| ir_regs := example_registers; interruptNumber := 14; errorCode := 6; ir_context := user_context |}.
Definition busy_cpu : CPUState :=
  {| apicID := 0; cliCount := 0; wereInterruptsEnabled := false; currentProcess := 0x7000;
     interruptStack := 0; userStack := 0; schedulerTask := 0; table := zero_Table |}.
Lemma TrapHandler_cases_witness :
  TrapHandler {| CPUs := [busy_cpu]; this_hw := zero_hw |} user_fault = Done [ExitCurrentProcess].
Proof.
  apply (TrapHandler_cases {| CPUs := [busy_cpu]; this_hw := zero_hw |} user_fault 0 busy_cpu);
    [done|]. split; [by right|]. intros [H|H]; done.
Defined.


Lemma manual_stub_cases_witness :
  (∃ frame m', manual_stub ClockInterrupt user_context example_registers 0x9000 (λ _, 0) =
       Done ([], IntoHandler frame m') ∧
     interruptNumber (read_frame frame m') = 0) ∧
  manual_stub NoOpInterrupt user_context example_registers 0x9000 (λ _, 0) =
    Done ([EndInterrupt], BackToContext example_registers user_context).
Proof.
  destruct (manual_stub_cases user_context example_registers 0x9000 (λ _, 0)) as (_ & H1 & _ & H2 & _).
  - words_tac.
  - words_tac.
  - left. by vm_compute.
  - split; [|exact H2]. destruct H1 as (frame & m' & E & F & _); [by vm_compute|].
    exists frame, m'. split; [exact E|]. by rewrite F.
Defined.
