(* ===== verification/Boot.v ===== *)
(** [KernelMain.cpp]: what the kernel does between the boot loader and the first process.

    The boot loader's answers are parameters: the memory map, the offset of the direct map, the
    kernel's physical and virtual base, the processors.  Building the page tables is written over
    any page allocator; filling the allocator uses the free list of [PhysMem]. *)

From S2P Require Import Prelude Mem GDT Cpu Spinlock ChunkList PhysMem PageAlloc CpuReady PhysPages Paging PageTables VirtMem Traps.

(** ** Memory map *)

Record limine_memmap_entry := { mm_base : Z; mm_length : Z; mm_type : Z }.
Definition LIMINE_MEMMAP_USABLE : Z := 0.

(** [checkThatLimineGaveUsEverythingWeNeed]: the responses the kernel cannot do without. *)
Definition checkThatLimineGaveUsEverythingWeNeed
    (memmap : option (list limine_memmap_entry)) (hhdm kernel_address smp : bool) : outcome () :=
  match memmap with
  | None => Stuck Halted
  | Some entries =>
      if Z.of_nat (length entries) <? 1 then Stuck Halted
      else if negb hhdm then Stuck Halted
      else if negb kernel_address then Stuck Halted
      else if negb smp then Stuck Halted
      else Done ()
  end.

Definition set_offset (off : Z) (s : machine) : machine :=
  {| ram := ram s; Memory := Memory s; HigherHalfDirectMapOffset := off; env := env s |}.

(** One turn of the loop over the memory map. *)
Definition add_entry (fuel : nat) (e : limine_memmap_entry) (st : Z * machine) : outcome (Z * machine) :=
  let '(maxPhysicalMemory, s) := st in
  let end_ := u64 (mm_base e + mm_length e) in
  let maxPhysicalMemory := if maxPhysicalMemory <? end_ then end_ else maxPhysicalMemory in
  if mm_type e =? LIMINE_MEMMAP_USABLE then
    let off := HigherHalfDirectMapOffset s in
    s ← freeRange fuel (u64 (mm_base e + off)) (u64 (mm_base e + mm_length e + off)) s;
    Done (maxPhysicalMemory, s)
  else Done (maxPhysicalMemory, s).

Definition initByAddingUsablePagesToMemoryManagement (fuel : nat) (hhdm_offset : Z)
    (entries : list limine_memmap_entry) (s : machine) : outcome (Z * machine) :=
  let s := init (set_offset hhdm_offset s) in
  for_each entries (add_entry fuel) (0, s).

(** ** Kernel page table *)

Section virtual_memory.
Context {S : Type} {PA : PageAllocator S}.

(** [for (i = from; i < limit; i += PageSize) map(root, va(i), pa(i))] *)
Fixpoint map_range (fuel : nat) (root i limit : Z) (va pa : Z → Z) (s : S) : outcome S :=
  if i <? limit then
    match fuel with
    | O => Stuck OutOfFuel
    | Datatypes.S fuel =>
        s ← map root (va i) (pa i) s;
        map_range fuel root (u64 (i + PageSize)) limit va pa s
    end
  else Done s.

(** The entries of the higher half get their tables before the root is copied. *)
Definition preallocate (root i : Z) (s : S) : outcome S :=
  if get isPresent (entry_at s (entry_ptr root i)) =? 0 then
    '(_, s) ← allocatePageTableForTableEntry (entry_ptr root i) s; Done s
  else Done s.

(** The root table and the value loaded into [cr3]. *)
Definition initializeVirtualMemory (fuel : nat) (maxPhysicalMemory KernelStart KernelEnd
    physical_base virtual_base : Z) (s : S) : outcome (Z * Z * S) :=
  '(KernelPageTable, s) ← allocateRootPageTable s;
  let off := pa_offset s in
  s ← map_range fuel KernelPageTable 0 maxPhysicalMemory (λ i, u64 (i + off)) (λ i, i) s;
  s ← map_range fuel KernelPageTable KernelStart KernelEnd (λ i, i)
        (λ i, u64 (physical_base + u64 (i - virtual_base))) s;
  s ← for_each (Z.of_nat <$> seq 256 256) (preallocate KernelPageTable) s;
  Done (KernelPageTable, u64 (KernelPageTable - pa_offset s), s).
End virtual_memory.

(** ** Processors *)

Record limine_smp_info := { lapic_id : Z; goto_address : Z }.

(** The record of processor [i] lies in the page [initializeProcessors] allocates for all of
    them. *)
Definition cpu_record (page i : Z) : Z := page + sizeof_CPUState * i.

(** What the loop stores in each record (the rest of the page is zero), and the processors it
    starts: all but the one that boots.  The identifier is stored in an [int]. *)
Definition initial_record (info : limine_smp_info) : CPUState :=
  {| apicID := s32 (lapic_id info); cliCount := 1; wereInterruptsEnabled := false;
     currentProcess := 0; interruptStack := 0; table := zero_Table; userStack := 0;
     schedulerTask := 0 |}.
Definition start_processor (bsp OtherProcessorMain : Z) (info : limine_smp_info) : limine_smp_info :=
  if lapic_id info =? bsp then info
  else {| lapic_id := lapic_id info; goto_address := OtherProcessorMain |}.

Definition initializeProcessors (fuel : nat) (infos : list limine_smp_info) (bsp OtherProcessorMain : Z)
    (s : machine) : outcome (Z * list limine_smp_info * machine) :=
  '(page, s) ← allocatePage fuel s;
  let s := set_ram (memset (ram s) page 0 PageSize) s in
  let s := thereIsNowMoreThanOneProcessor s in
  let s := set_env {| CPUs := initial_record <$> infos; this_hw := this_hw (env s) |} s in
  Done (page, start_processor bsp OtherProcessorMain <$> infos, s).

(** ** The memory map fills the allocator *)

Definition usable (e : limine_memmap_entry) : bool := mm_type e =? LIMINE_MEMMAP_USABLE.
Definition end_of (e : limine_memmap_entry) : Z := mm_base e + mm_length e.

(** The free list the loop builds: the whole pages of each usable entry, in the direct map. *)
Definition usable_chunks (off : Z) (entries : list limine_memmap_entry) : list chunk :=
  omap (λ e, if usable e then Some (mm_base e + off, mm_length e / PageSize) else None) entries.

Definition max_end (entries : list limine_memmap_entry) : Z := foldl Z.max 0 (end_of <$> entries).

(** What the boot protocol promises of the map: usable entries are sorted and merged (so that
    they do not touch), at least a page long and reachable through the direct map. *)
Fixpoint memmap_ok (lo off : Z) (entries : list limine_memmap_entry) : Prop :=
  match entries with
  | [] => True
  | e :: es =>
      0 ≤ mm_base e ∧ 0 ≤ mm_length e ∧ end_of e < 2 ^ 64 ∧
      if usable e then
        lo < mm_base e + off ∧ PageSize ≤ mm_length e ∧ end_of e + off ≤ 2 ^ 64 ∧
        memmap_ok (end_of e + off) off es
      else memmap_ok lo off es
  end.

Lemma freeRange_append fuel start end_ s l e :
  free_list s l → lock_idle e s → (length l ≤ fuel)%nat →
  1 ≤ start → start + PageSize ≤ end_ → end_ ≤ 2 ^ 64 →
  (∀ b n, (b, n) ∈ l → b + PageSize * n < start) →
  let l' := l ++ [(start, (end_ - start) / PageSize)] in
  ∃ s', freeRange fuel start (u64 end_) s = Done s' ∧ free_list s' l' ∧ lock_idle e s' ∧
    HigherHalfDirectMapOffset s' = HigherHalfDirectMapOffset s ∧
    agree (λ x, ¬ free_bytes l' x) (ram s') (ram s).
Proof.
  intros Hl Hi Hf H1 H2 H3 Hb l'. unfold freeRange. change PageSize with 4096 in *.
  assert (u64 (u64 end_ - start) = end_ - start) as ->.
  { unfold uw. rewrite Zminus_mod_idemp_l. apply Z.mod_small. lia. }
  destruct (freePages_insert_spec fuel start ((end_ - start) / 4096) s l [])
    as (s' & E & Hl' & _ & Ho & HA); try done; try (change PageSize with 4096).
  - by rewrite app_nil_r.
  - by eapply lock_idle_ready.
  - Z.div_mod_to_equations. lia.
  - Z.div_mod_to_equations. lia.
  - by intros ?? ?%not_elem_of_nil.
  - exists s'. split; [done|]. split; [done|]. split; [by eapply freePages_idle|]. split; [done|].
    rewrite app_nil_r in HA. eapply agree_weaken; [|exact HA]. intros x Hx. split; intros H; apply Hx.
    + exists start, ((end_ - start) / 4096). split; [|exact H].
      apply elem_of_app. right. apply list_elem_of_here.
    + destruct (headers_free 1 l x (proj1 Hl) H) as (b & n & Hin & Hr). exists b, n.
      split; [|exact Hr]. apply elem_of_app. by left.
Qed.

Lemma free_bytes_app_l l1 l2 x : free_bytes l1 x → free_bytes (l1 ++ l2) x.
Proof. intros (b & n & Hin & Hx). exists b, n. split; [|done]. apply elem_of_app. by left. Qed.

Lemma add_entries_spec fuel off ev entries :
  ∀ mx s l lo,
  free_list s l → lock_idle ev s → HigherHalfDirectMapOffset s = off →
  (length l + length entries ≤ fuel)%nat → 0 ≤ lo → 0 ≤ off →
  (∀ b n, (b, n) ∈ l → b + PageSize * n ≤ lo) → memmap_ok lo off entries →
  let l' := l ++ usable_chunks off entries in
  ∃ s', for_each entries (add_entry fuel) (mx, s) =
      Done (foldl Z.max mx (end_of <$> entries), s') ∧
    free_list s' l' ∧ lock_idle ev s' ∧ HigherHalfDirectMapOffset s' = off ∧
    agree (λ x, ¬ free_bytes l' x) (ram s') (ram s).
Proof.
  induction entries as [|e es IH]; intros mx s l lo Hl Hi Ho Hf Hlo Hoff Hb Hok l'.
  { subst l'. exists s. simpl. rewrite app_nil_r. do 4 (split; [done|]). apply agree_refl. }
  simpl in Hok, Hf. destruct Hok as (E1 & E2 & E3 & Hok). cbn [for_each]. unfold add_entry at 2.
  rewrite (uw_small 64 (mm_base e + mm_length e)) by (unfold end_of in *; lia).
  fold (end_of e). fold (usable e). rewrite Ho.
  assert ((if mx <? end_of e then end_of e else mx) = Z.max mx (end_of e)) as -> by (zcases; lia).
  subst l'. unfold usable_chunks. cbn [omap list_omap fmap list_fmap foldl].
  destruct (usable e) eqn:He.
  - destruct Hok as (U1 & U2 & U3 & Hok).
    unfold end_of in *. rewrite (uw_small 64 (mm_base e + off)) by (change PageSize with 4096 in *; lia).
    destruct (freeRange_append fuel (mm_base e + off) (mm_base e + mm_length e + off) s l ev)
      as (s1 & R & Hl1 & Hi1 & Ho1 & HA1); try done; try lia.
    { intros b n Hin. specialize (Hb b n Hin). lia. }
    rewrite R. cbn [mbind outcome_bind].
    replace (mm_base e + mm_length e + off - (mm_base e + off)) with (mm_length e) in Hl1, HA1 by lia.
    destruct (IH (Z.max mx (mm_base e + mm_length e)) s1 _ (mm_base e + mm_length e + off) Hl1)
      as (s' & E & Hl' & Hi' & Ho' & HA'); try done; try lia; try congruence.
    { rewrite length_app. simpl. lia. }
    { change PageSize with 4096 in *.
      intros b n [Hin|[= -> ->]%list_elem_of_singleton]%elem_of_app; [specialize (Hb b n Hin); lia|].
      Z.div_mod_to_equations. lia. }
    exists s'. split; [exact E|]. change (omap _ es) with (usable_chunks off es).
    rewrite <- app_assoc in Hl', HA'. do 3 (split; [done|]).
    eapply agree_trans; [exact HA'|]. eapply agree_weaken; [|exact HA1].
    intros x Hx Hr. apply Hx. change (_ :: usable_chunks off es) with
      ([(mm_base e + off, mm_length e / PageSize)] ++ usable_chunks off es).
    rewrite app_assoc. by apply free_bytes_app_l.
  - cbn [mbind outcome_bind].
    destruct (IH (Z.max mx (end_of e)) s l lo Hl) as (s' & E & H'); try done; try lia.
    by exists s'.
Qed.

Lemma memmap_free_list_spec fuel off entries s :
  0 ≤ off → memmap_ok 0 off entries → (length entries ≤ fuel)%nat →
  ∃ s', initByAddingUsablePagesToMemoryManagement fuel off entries s = Done (max_end entries, s') ∧
    free_list s' (usable_chunks off entries) ∧ lock_idle (env s) s' ∧
    HigherHalfDirectMapOffset s' = off ∧
    agree (λ x, ¬ free_bytes (usable_chunks off entries) x) (ram s') (ram s).
Proof.
  intros Hoff Hok Hf. unfold initByAddingUsablePagesToMemoryManagement.
  destruct (add_entries_spec fuel off (env s) entries 0 (init (set_offset off s)) [] 0)
    as (s' & E & H); try done.
  - split; [done|]. by exists 0.
  - by intros ?? ?%not_elem_of_nil.
  - exists s'. split; [exact E|exact H].
Qed.

(** After the memory map was read, the allocator's free list consists of the whole pages of the
    usable entries at their addresses in the direct map, in the order of the map, the lock is not
    in use, and the result is the end of the highest entry, usable or not. *)
Theorem memmap_free_list fuel off entries s :
  0 ≤ off → memmap_ok 0 off entries → (length entries ≤ fuel)%nat →
  ∃ s', initByAddingUsablePagesToMemoryManagement fuel off entries s = Done (max_end entries, s') ∧
    free_list s' (usable_chunks off entries) ∧ usingLock (Memory s') = false ∧
    HigherHalfDirectMapOffset s' = off.
Proof.
  intros H1 H2 H3. destruct (memmap_free_list_spec fuel off entries s H1 H2 H3)
    as (s' & E & Hl & (Hu & _) & Ho & _). by exists s'.
Qed.

(** ** Mapping ranges *)

Lemma va_path_block x y : x / 2 ^ 21 = y / 2 ^ 21 → va_path x = va_path y.
Proof.
  assert (∀ z, va_path z = (λ b, [uw 9 (Z.shiftr b 18); uw 9 (Z.shiftr b 9); uw 9 b]) (z / 2 ^ 21)) as Hp.
  { intros z. rewrite <- Z.shiftr_div_pow2 by lia. cbv beta. by rewrite !Z.shiftr_shiftr by lia. }
  intros H. by rewrite !Hp, H.
Qed.

(** The 2 MiB blocks that begin below an address: each needs at most three tables. *)
Definition blocks (a : Z) : Z := (a + (2 ^ 21 - 1)) / 2 ^ 21.

Lemma page_floor a k : a mod 4096 = 0 → a ≤ k → a ≤ 4096 * (k / 4096) ≤ k.
Proof. intros. Z.div_mod_to_equations. lia. Qed.

Section virtual_memory_proofs.
Context {S : Type} {PA : PageAllocator S} {PAL : PageAllocatorLaws S}.

(** [map_cost] of the pages from [a] up to [e], in order: the tables of the first page exist
    unless it begins a block. *)
Definition ready_at (root a : Z) (s : S) : Prop :=
  a mod 2 ^ 21 = 0 ∨ missing root s (va_path a) = 0.

Lemma next_page_ready root a s :
  a mod 4096 = 0 → missing root s (va_path a) = 0 → ready_at root (a + 4096) s.
Proof.
  intros Ha Hm. unfold ready_at. destruct (decide ((a + 4096) mod 2 ^ 21 = 0)) as [|Hn]; [by left|].
  right. rewrite (va_path_block (a + 4096) a); [done|].
  change (2 ^ 21) with 2097152 in *. Z.div_mod_to_equations. lia.
Qed.

Lemma page_cost root a e s n :
  a mod 4096 = 0 → a < e → ready_at root a s → 3 * (blocks e - blocks a) ≤ n →
  map_cost root a s ≤ n ∧ 3 * (blocks e - blocks (a + 4096)) ≤ n - map_cost root a s.
Proof.
  intros Ha He Hr Hn. unfold ready_at, map_cost, blocks in *. pose proof (missing_range root s (va_path a)).
  change (2 ^ 21) with 2097152 in *.
  destruct Hr as [Hr|Hr]; [|rewrite Hr]; split; Z.div_mod_to_equations; lia.
Qed.

Lemma map_range_spec root c limit va pa fuel :
  c mod 4096 = 0 → ∀ i s n,
  vm_ok root s → i mod 4096 = 0 → 0 ≤ i → limit + 4096 ≤ 2 ^ 64 → limit ≤ i + 2 ^ 48 →
  (∀ k, i ≤ k < limit → va k = k + c) → limit - i ≤ 4096 * Z.of_nat fuel →
  at_least n s → 3 * (blocks (limit + c) - blocks (i + c)) ≤ n → ready_at root (i + c) s →
  ∃ s', map_range fuel root i limit va pa s = Done s' ∧ vm_ok root s' ∧
    at_least (n - 3 * Z.max 0 (blocks (limit + c) - blocks (i + c))) s' ∧
    pa_offset s' = pa_offset s ∧ vm_frame root s s' ∧
    (∀ k, i ≤ k < limit → translate_in root s' (k + c) =
       Some (4096 * uw 28 (Z.shiftr (pa (4096 * (k / 4096))) 12) + k mod 4096)) ∧
    (∀ a, (∀ k, i ≤ k < limit → ¬ same_page a (k + c)) →
       translate_in root s' a = translate_in root s a).
Proof.
  intros Hc. induction fuel as [|fuel IH]; intros i s n Hvm Hi H0 Hhi Hw Hva Hf Hn Hb Hr.
  all: cbn [map_range]; destruct (Z.ltb_spec i limit) as [Hlt|Hge]; try lia.
  1,3: exists s; split; [done|]; split; [done|]; split; [|split; [done|split; [apply vm_frame_refl|split; [lia|done]]]].
  1,2: eapply at_least_weaken; [|exact Hn]; lia.
  assert (Hac : (i + c) mod 4096 = 0) by (Z.div_mod_to_equations; lia).
  rewrite (Hva i) by lia.
  destruct (page_cost root (i + c) (limit + c) s n Hac ltac:(lia) Hr Hb) as [P1 P2].
  destruct (map_spec n root (i + c) (pa i) s Hvm Hn P1) as (s1 & E1 & V1 & C1 & O1 & _ & F1 & M1 & X1).
  rewrite E1. cbn [mbind outcome_bind]. change PageSize with 4096. rewrite uw_small by lia.
  destruct (IH (i + 4096) s1 (n - map_cost root (i + c) s)) as (s' & E & V & C & O & F & X & Y);
    try done; try lia.
  { Z.div_mod_to_equations. lia. }
  { intros k Hk. apply Hva. lia. }
  { by replace (i + 4096 + c) with (i + c + 4096) by lia. }
  { replace (i + 4096 + c) with (i + c + 4096) by lia. by apply next_page_ready. }
  exists s'. split; [done|]. split; [done|]. split.
  { eapply at_least_weaken; [|exact C]. replace (i + 4096 + c) with (i + c + 4096) by lia. 
    clear - P2 Hlt Hac Hr. unfold map_cost, blocks, ready_at in *.
    pose proof (missing_range root s (va_path (i + c))). change (2 ^ 21) with 2097152 in *.
    destruct Hr as [Hr|Hr]; [|rewrite Hr in *]; Z.div_mod_to_equations; lia. }
  split; [congruence|]. split; [by eapply vm_frame_trans|]. split.
  - intros k Hk. destruct (decide (i + 4096 ≤ k)) as [Hk'|Hk']; [apply X; lia|].
    change (2 ^ 48) with 281474976710656 in *. change (2 ^ 36) with 68719476736 in *.
    rewrite Y, X1.
    + rewrite decide_True.
      * assert (4096 * (k / 4096) = i) as -> by (Z.div_mod_to_equations; lia).
        f_equal. f_equal. Z.div_mod_to_equations. lia.
      * apply same_page_near; Z.div_mod_to_equations; lia.
    + intros j Hj Hs%same_page_near; Z.div_mod_to_equations; lia.
  - intros a Ha. rewrite Y, X1.
    + rewrite decide_False; [done|]. apply Ha. lia.
    + intros k Hk. apply Ha. lia.
Qed.

(** Preallocating the tables of a range of root slots. *)
Lemma preallocate_spec root slots :
  ∀ s n, vm_ok root s → at_least n s → Z.of_nat (length slots) ≤ n → idx_ok slots →
  ∃ s', for_each slots (preallocate root) s = Done s' ∧ vm_ok root s' ∧ pa_offset s' = pa_offset s ∧
    at_least (n - Z.of_nat (length slots)) s' ∧ tables_kept root s s' ∧ vm_frame root s s' ∧
    (∀ i, i ∈ slots → is_Some (table_at root s' [i])) ∧
    (∀ va, translate_in root s' va = translate_in root s va).
Proof.
  induction slots as [|i slots IH]; intros s n Hvm Hn Hl Hok.
  { exists s. split; [done|]. split; [done|]. split; [done|]. split; [by rewrite Z.sub_0_r|].
    split; [by intros ?|]. split; [apply vm_frame_refl|]. split; [by intros ? ?%not_elem_of_nil|done]. }
  apply Forall_cons in Hok as [Hi Hok]. simpl in Hl. cbn [for_each].
  pose proof (missing_range root s ([] ++ [i])).
  destruct (ensure_table_spec n root [] root i s Hvm Hn) as (s1 & E1 & V1 & C1 & O1 & K1 & F1 & T1 & X1);
    [lia|simpl; lia|by apply Forall_nil_2|done|done|].
  change (preallocate root i s) with (ensure_table (entry_ptr root i) s).
  rewrite E1. cbn [mbind outcome_bind].
  destruct (IH s1 (n - 1) V1) as (s' & E & V & O & C & K & F & T & X);
    [by eapply at_least_weaken; [|exact C1]; lia|lia|done|].
  exists s'. split; [done|]. split; [done|]. split; [congruence|].
  split; [eapply at_least_weaken; [|exact C]; simpl; lia|].
  split; [intros q t Hq Hqo Ht; by apply K, K1|]. split; [by eapply vm_frame_trans|]. split.
  - intros j [->|Hj]%elem_of_cons; [|by apply T]. eexists. apply K; [simpl; lia| |exact T1].
    by apply (idx_ok_snoc [] i); split; [apply Forall_nil_2|].
  - intros va. by rewrite X, X1.
Qed.

Lemma root_physical root s off :
  vm_ok root s → pa_offset s = off → 0 ≤ off → u64 (root - off) + off = root.
Proof.
  intros Hvm <- H0.
  assert (table_page (pa_offset s) root) as (_ & H1 & H2 & H3).
  { apply (ptw_page _ _ _ (vm_wf _ _ Hvm)).
    by apply (is_table_walk _ _ _ []); [simpl; lia|apply Forall_nil_2|]. }
  rewrite uw_small; lia.
Qed.

(** What the boot loader and the linker script promise of addresses: the direct map and the
    kernel's image begin on 2 MiB boundaries, do not overlap and fit in the 48-bit space. *)
Record boot_layout (off maxPhysicalMemory KernelStart KernelEnd physical_base virtual_base : Z) : Prop := {
  bl_off : off mod 2 ^ 21 = 0;
  bl_max : 0 ≤ maxPhysicalMemory ≤ 2 ^ 40;
  bl_apart : off + maxPhysicalMemory ≤ KernelStart;
  bl_start : KernelStart mod 2 ^ 21 = 0;
  bl_image : KernelStart ≤ KernelEnd;
  bl_end : KernelEnd + 4096 ≤ 2 ^ 64 ∧ KernelEnd ≤ off + 2 ^ 48;
  bl_virtual : virtual_base mod 4096 = 0 ∧ 0 ≤ virtual_base ≤ KernelStart;
  bl_physical : physical_base mod 4096 = 0 ∧ 0 ≤ physical_base ∧
    physical_base + (KernelEnd - virtual_base) ≤ 2 ^ 40;
}.

Lemma layout_apart off max ks ke pb vb p k :
  boot_layout off max ks ke pb vb → 0 ≤ p < max → ks ≤ k < ke → ¬ same_page (p + off) k.
Proof.
  intros [B1 B2 B3 B4 B5 [_ B6] B7 B8] Hp Hk. change (2 ^ 48) with 281474976710656 in *.
  change (2 ^ 21) with 2097152 in *.
  rewrite same_page_near; [|change (2 ^ 36) with 68719476736]; Z.div_mod_to_equations; lia.
Qed.

(** Pages for the tables: the root, those of the two ranges, those of the higher half's slots. *)
Definition table_budget (maxPhysicalMemory KernelStart KernelEnd : Z) : Z :=
  1 + 3 * blocks maxPhysicalMemory + 3 * (blocks KernelEnd - blocks KernelStart) + 256.

(** The direct map's own range. *)
Lemma map_direct fuel root max off s n :
  vm_ok root s → at_least n s → pa_offset s = off → off mod 2 ^ 21 = 0 → 0 ≤ off →
  0 ≤ max ≤ 2 ^ 40 → off + max < 2 ^ 64 → max ≤ 4096 * Z.of_nat fuel → 3 * blocks max ≤ n →
  ∃ s', map_range fuel root 0 max (λ i, u64 (i + off)) (λ i, i) s = Done s' ∧ vm_ok root s' ∧
    at_least (n - 3 * blocks max) s' ∧ pa_offset s' = off ∧ vm_frame root s s' ∧
    (∀ p, 0 ≤ p < max → translate_in root s' (p + off) = Some p) ∧
    (∀ a, (∀ p, 0 ≤ p < max → ¬ same_page a (p + off)) →
       translate_in root s' a = translate_in root s a).
Proof.
  intros Hvm Hn Ho Hoff H0 Hmax Hend Hf Hb.
  assert (Hblk : blocks (max + off) - blocks (0 + off) = blocks max).
  { unfold blocks. change (2 ^ 21) with 2097152 in *. Z.div_mod_to_equations. lia. }
  assert (0 ≤ blocks max) as HB1 by (apply Z.div_pos; lia).
  assert (Ho1 : off mod 4096 = 0).
  { change (2 ^ 21) with 2097152 in *. Z.div_mod_to_equations. lia. }
  change (2 ^ 40) with 1099511627776 in *.
  destruct (map_range_spec root off max (λ i, u64 (i + off)) (λ i, i) fuel Ho1 0 s n)
    as (s' & E & V & C & O & F & X & Y); try done; try lia.
  { intros k Hk. apply uw_small. lia. }
  { by left. }
  rewrite Hblk, Z.max_r in C by done. exists s'. split; [done|]. split; [done|].
  split; [done|]. split; [congruence|]. split; [done|]. split; [|done].
  intros p Hp. rewrite X by done. f_equal. rewrite frame_of_page; Z.div_mod_to_equations; lia.
Qed.

(** The kernel's image. *)
Lemma map_image fuel root off max ks ke pb vb s n :
  boot_layout off max ks ke pb vb → 0 ≤ off → vm_ok root s → at_least n s →
  ke - ks ≤ 4096 * Z.of_nat fuel → 3 * (blocks ke - blocks ks) ≤ n →
  ∃ s', map_range fuel root ks ke (λ i, i) (λ i, u64 (pb + u64 (i - vb))) s = Done s' ∧
    vm_ok root s' ∧ at_least (n - 3 * (blocks ke - blocks ks)) s' ∧ pa_offset s' = pa_offset s ∧
    vm_frame root s s' ∧
    (∀ k, ks ≤ k < ke → translate_in root s' k = Some (pb + (k - vb))) ∧
    (∀ a, (∀ k, ks ≤ k < ke → ¬ same_page a k) → translate_in root s' a = translate_in root s a).
Proof.
  intros [B1 B2 B3 B4 B5 B6 B7 B8] H0 Hvm Hn Hf Hb.
  assert (0 ≤ blocks ke - blocks ks) as HB by (apply Z.le_0_sub, Z.div_le_mono; lia).
  assert (Hks : ks mod 4096 = 0).
  { change (2 ^ 21) with 2097152 in *. Z.div_mod_to_equations. lia. }
  change (2 ^ 40) with 1099511627776 in *.
  destruct (map_range_spec root 0 ke (λ i, i) (λ i, u64 (pb + u64 (i - vb))) fuel eq_refl ks s n)
    as (s' & E & V & C & O & F & X & Y); rewrite ?Z.add_0_r; try done; try lia.
  { by left. }
  rewrite !Z.add_0_r, Z.max_r in C by done. exists s'. do 5 (split; [done|]). split.
  - intros k Hk. specialize (X k Hk). rewrite Z.add_0_r in X. rewrite X. f_equal.
    destruct (page_floor ks k Hks ltac:(lia)) as [F1 F2]. destruct B7 as [B7 B7'], B8 as [B8 B8'].
    assert ((pb + (4096 * (k / 4096) - vb)) mod 4096 = 0) as Hal by (clear - B7 B8; Z.div_mod_to_equations; lia).
    rewrite (uw_small 64 (_ - vb)), (uw_small 64), frame_of_page by (done || lia).
    pose proof (Z.div_mod k 4096). lia.
  - intros a Ha. apply Y. intros k Hk. rewrite Z.add_0_r. by apply Ha.
Qed.

(** The address space the kernel runs in: the direct map translates every physical address below
    [max] to itself, the image translates to where the boot loader put it, nothing else is
    mapped, and every slot of the higher half holds a table. *)
Record kernel_mapping (root : Z) (s : S) (off max ks ke pb vb : Z) : Prop := {
  km_direct p : 0 ≤ p < max → translate_in root s (p + off) = Some p;
  km_image k : ks ≤ k < ke → translate_in root s k = Some (pb + (k - vb));
  km_rest a : (∀ p, 0 ≤ p < max → ¬ same_page a (p + off)) →
    (∀ k, ks ≤ k < ke → ¬ same_page a k) → translate_in root s a = None;
  km_slots i : 256 ≤ i < 512 → is_Some (table_at root s [i]);
}.

Lemma initializeVirtualMemory_spec fuel max ks ke pb vb s n :
  boot_layout (pa_offset s) max ks ke pb vb →
  vm_base s → at_least n s → table_budget max ks ke ≤ n →
  max ≤ 4096 * Z.of_nat fuel → ke - ks ≤ 4096 * Z.of_nat fuel →
  ∃ root cr3 s', initializeVirtualMemory fuel max ks ke pb vb s = Done (root, cr3, s') ∧
    vm_ok root s' ∧ pa_offset s' = pa_offset s ∧ cr3 + pa_offset s = root ∧
    kernel_mapping root s' (pa_offset s) max ks ke pb vb ∧
    at_least (n - table_budget max ks ke) s' ∧ made_from s root s'.
Proof.
  set (off := pa_offset s). intros Hlay Hb Hn Hcost Hf1 Hf2. pose proof Hlay as [L1 L2 L3 L4 L5 [L6 L6'] L7 L8].
  pose proof Hb as (_ & (_ & H0 & H64) & _). fold off in H0, H64. unfold table_budget in Hcost.
  assert (0 ≤ blocks max) as HB1 by (apply Z.div_pos; lia).
  assert (0 ≤ blocks ke - blocks ks) as HB2 by (apply Z.le_0_sub, Z.div_le_mono; lia).
  unfold initializeVirtualMemory.
  destruct (allocateRootPageTable_spec n s) as (root & s1 & E1 & _ & O1 & V1 & C1 & M1 & T1); [done|done|lia|].
  rewrite E1. cbn [mbind outcome_bind]. rewrite O1. fold off.
  destruct (map_direct fuel root max off s1 (n - 1))
    as (s2 & E2 & V2 & C2 & O2 & F2 & X2 & Y2); try done; try lia.
  rewrite E2. cbn [mbind outcome_bind].
  destruct (map_image fuel root off _ _ _ _ _ s2 _ Hlay H0 V2 C2 Hf2)
    as (s3 & E3 & V3 & C3 & O3 & F3 & X3 & Y3); [lia|].
  rewrite E3. cbn [mbind outcome_bind].
  destruct (preallocate_spec root (Z.of_nat <$> seq 256 256) s3 _ V3 C3)
    as (s4 & E4 & V4 & O4 & C4 & _ & F4 & P4 & X4); [rewrite length_fmap, length_seq; lia| |].
  { apply Forall_fmap, Forall_seq. intros j Hj. simpl. lia. }
  rewrite E4. cbn [mbind outcome_bind]. eexists root, _, s4. split; [reflexivity|].
  split; [done|]. assert (pa_offset s4 = off) as Ho4 by congruence. split; [done|].
  split; [rewrite Ho4; by apply (root_physical root s4 off V4)|].
  split; [|split; [|by do 3 (eapply made_from_frame; [|eassumption])]].
  2: { eapply at_least_weaken; [|exact C4]. rewrite length_fmap, length_seq. unfold table_budget. lia. }
  split.
  - intros p Hp. rewrite X4, Y3, X2 by (done || intros k Hk; by eapply layout_apart). done.
  - intros k Hk. by rewrite X4, X3.
  - intros a Ha1 Ha2. by rewrite X4, Y3, Y2, T1.
  - intros i Hi. apply P4. apply list_elem_of_fmap. exists (Z.to_nat i). split; [lia|].
    apply elem_of_seq. lia.
Qed.

(** Whatever writing memory and allocating keep. *)
Section preserved.
Context (Q : S → Prop) (Hram : ∀ m s, Q s → Q (pa_set_ram m s))
  (Halloc : ∀ s a s', Q s → pa_allocatePage s = Done (a, s') → Q s').

Lemma map_range_preserves fuel root i limit va pa s s' :
  Q s → map_range fuel root i limit va pa s = Done s' → Q s'.
Proof using Hram Halloc.
  revert i s; induction fuel as [|fuel IH]; intros i s Hs; cbn [map_range];
    destruct (i <? limit); try done; try by intros [= <-].
  destruct (map root (va i) (pa i) s) as [s1|] eqn:E; [|done]. apply IH.
  by eapply (map_preserves Q Hram Halloc).
Qed.

Lemma preallocate_preserves root slots s s' :
  Q s → for_each slots (preallocate root) s = Done s' → Q s'.
Proof using Hram Halloc.
  revert s; induction slots as [|i slots IH]; intros s Hs; [by intros [= <-]|]. cbn [for_each].
  destruct (preallocate root i s) as [s1|] eqn:E; [|done]. apply IH.
  by apply (ensure_table_preserves Q Hram Halloc (entry_ptr root i) s).
Qed.

Lemma initializeVirtualMemory_preserves fuel max ks ke pb vb s root cr3 s' :
  Q s → initializeVirtualMemory fuel max ks ke pb vb s = Done (root, cr3, s') → Q s'.
Proof using Hram Halloc.
  intros Hs. unfold initializeVirtualMemory.
  destruct (allocateRootPageTable s) as [[r s1]|] eqn:E1; [|done]. cbn [mbind outcome_bind].
  destruct (map_range _ _ 0 _ _ _ s1) as [s2|] eqn:E2; [|done]. cbn [mbind outcome_bind].
  destruct (map_range _ _ ks _ _ _ s2) as [s3|] eqn:E3; [|done]. cbn [mbind outcome_bind].
  destruct (for_each _ _ s3) as [s4|] eqn:E4; [|done]. intros [= <- <- <-].
  apply (allocateRootPageTable_preserves Q Hram Halloc) in E1; [|done].
  apply map_range_preserves in E2; [|done]. apply map_range_preserves in E3; [|done].
  by eapply preallocate_preserves.
Qed.
End preserved.

(** The kernel's page table.  Given enough free pages, [initializeVirtualMemory] returns a root
    whose address space is [kernel_mapping], and the value for [cr3] is the physical address of
    the root. *)
Theorem initializeVirtualMemory_correct fuel maxPhysicalMemory KernelStart KernelEnd
    physical_base virtual_base s n :
  boot_layout (pa_offset s) maxPhysicalMemory KernelStart KernelEnd physical_base virtual_base →
  vm_base s → at_least n s → table_budget maxPhysicalMemory KernelStart KernelEnd ≤ n →
  maxPhysicalMemory ≤ 4096 * Z.of_nat fuel → KernelEnd - KernelStart ≤ 4096 * Z.of_nat fuel →
  ∃ root cr3 s', initializeVirtualMemory fuel maxPhysicalMemory KernelStart KernelEnd
      physical_base virtual_base s = Done (root, cr3, s') ∧
    vm_ok root s' ∧ pa_offset s' = pa_offset s ∧ cr3 + pa_offset s = root ∧
    kernel_mapping root s' (pa_offset s) maxPhysicalMemory KernelStart KernelEnd
      physical_base virtual_base.
Proof.
  intros. destruct (initializeVirtualMemory_spec fuel maxPhysicalMemory KernelStart KernelEnd
    physical_base virtual_base s n) as (root & cr3 & s' & E & V & O & C & K & _); [done..|].
  by exists root, cr3, s'.
Qed.
End virtual_memory_proofs.

(** ** From the memory map to the kernel's page table *)

Section boot.
Context (fuel : nat).
#[local] Hint Extern 0 (PageAllocator machine) => exact (phys_pages fuel) : typeclass_instances.
#[local] Hint Extern 0 (PageAllocatorLaws machine) => exact (phys_pages_laws fuel) : typeclass_instances.

(** The first three calls of [KernelMain], given the boot loader's answers. *)
Definition kernel_memory (pages : nat) (memmap : list limine_memmap_entry)
    (hhdm_offset KernelStart KernelEnd physical_base virtual_base : Z) (s : machine)
    : outcome (Z * Z * machine) :=
  _ ← checkThatLimineGaveUsEverythingWeNeed (Some memmap) true true true;
  '(maxPhysicalAddress, s) ← initByAddingUsablePagesToMemoryManagement fuel hhdm_offset memmap s;
  initializeVirtualMemory pages maxPhysicalAddress KernelStart KernelEnd physical_base virtual_base s.

(** Usable entries are page aligned and lie below 2 GiB (above, [map] computes wrong addresses:
    [physicalAddress_shl_exact]). *)
Definition entry_low (e : limine_memmap_entry) : Prop :=
  usable e = true → mm_base e mod 4096 = 0 ∧ 0 ≤ mm_base e ∧ 0 ≤ mm_length e ∧ end_of e ≤ 2 ^ 31.

Lemma usable_chunks_elem off entries c :
  c ∈ usable_chunks off entries →
  ∃ e, e ∈ entries ∧ usable e = true ∧ c = (mm_base e + off, mm_length e / PageSize).
Proof.
  intros (e & Hin & He)%list_elem_of_omap. exists e. destruct (usable e); [|done].
  by injection He as <-.
Qed.

Lemma usable_chunks_length off entries :
  (length (usable_chunks off entries) ≤ length entries)%nat.
Proof.
  unfold usable_chunks, omap. induction entries as [|e es IH]; simpl; [lia|].
  destruct (usable e); simpl; lia.
Qed.

Lemma memmap_vm_base off entries s :
  free_list s (usable_chunks off entries) → usingLock (Memory s) = false →
  HigherHalfDirectMapOffset s = off → off_ok off → Forall entry_low entries →
  (length entries ≤ fuel)%nat →
  vm_base s ∧ at_least (total_pages (usable_chunks off entries)) s.
Proof.
  intros Hl Hu Ho Hoff Hlow Hf. rewrite Forall_forall in Hlow. split.
  - split; [|split].
    + split; [split; [by apply (free_list_head_range _ (usable_chunks off entries))|congruence]|].
      exists (usable_chunks off entries). split; [done|]. split.
      * apply Forall_forall. intros c (e & Hin & He & ->)%usable_chunks_elem.
        destruct (Hlow e Hin He) as (H1 & _). destruct Hoff as [H2 _]. simpl.
        Z.div_mod_to_equations. lia.
      * pose proof (usable_chunks_length off entries). lia.
    + change (off_ok (HigherHalfDirectMapOffset s)). by rewrite Ho.
    + intros x Hx. change (pa_offset s) with (HigherHalfDirectMapOffset s). rewrite Ho.
      apply (phys_owned_iff s _ x Hl) in Hx as (b & k & (e & Hin & He & [= -> ->])%usable_chunks_elem & Hx).
      destruct (Hlow e Hin He) as (_ & H0 & H1 & H2). unfold end_of in H2.
      change PageSize with 4096 in Hx. change (2 ^ 31) with 2147483648 in *. Z.div_mod_to_equations. lia.
  - exists (total_pages (usable_chunks off entries)). split; [|lia]. by eexists.
Qed.

Lemma kernel_memory_spec pages memmap off KernelStart KernelEnd physical_base virtual_base s :
  memmap ≠ [] → memmap_ok 0 off memmap → Forall entry_low memmap → (length memmap ≤ fuel)%nat →
  off_ok off →
  boot_layout off (max_end memmap) KernelStart KernelEnd physical_base virtual_base →
  let free := usable_chunks off memmap in
  let budget := table_budget (max_end memmap) KernelStart KernelEnd in
  budget ≤ total_pages free →
  max_end memmap ≤ 4096 * Z.of_nat pages → KernelEnd - KernelStart ≤ 4096 * Z.of_nat pages →
  ∃ root cr3 s', kernel_memory pages memmap off KernelStart KernelEnd physical_base virtual_base s =
      Done (root, cr3, s') ∧
    vm_ok root s' ∧ cr3 + off = root ∧
    kernel_mapping root s' off (max_end memmap) KernelStart KernelEnd physical_base virtual_base ∧
    HigherHalfDirectMapOffset s' = off ∧ lock_idle (env s) s' ∧
    at_least (total_pages free - budget) s' ∧
    (∀ x, touched root s' x → free_bytes free x) ∧
    agree (λ x, ¬ free_bytes free x) (ram s') (ram s).
Proof.
  intros Hne Hok Hlow Hf Hoff Hlay free budget Hcost Hf1 Hf2. unfold kernel_memory.
  assert (checkThatLimineGaveUsEverythingWeNeed (Some memmap) true true true = Done ()) as ->.
  { unfold checkThatLimineGaveUsEverythingWeNeed. destruct memmap; [done|].
    destruct (Z.ltb_spec (Z.of_nat (length (l :: memmap))) 1) as [H|_]; [simpl in H; lia|done]. }
  cbn [mbind outcome_bind].
  destruct (memmap_free_list_spec fuel off memmap s) as (s1 & -> & Hl & Hidle & Ho & HA);
    [apply Hoff|done|done|]. cbn [mbind outcome_bind].
  destruct (memmap_vm_base off memmap s1) as [Hb Hn]; try done; [apply Hidle|].
  change (HigherHalfDirectMapOffset s1) with (pa_offset s1) in Ho.
  destruct (initializeVirtualMemory_spec pages (max_end memmap) KernelStart KernelEnd physical_base
              virtual_base s1 (total_pages (usable_chunks off memmap)))
    as (root & cr3 & s' & E & V & O & C & K & N & M); [by rewrite Ho|exact Hb|exact Hn|done|done|done|].
  rewrite Ho in O, C, K. exists root, cr3, s'. do 5 (split; [done|]).
  assert (Hfree : ∀ x, pa_owned s1 x ↔ free_bytes free x) by (intros x; by apply phys_owned_iff).
  split; [|split; [exact N|split]].
  - eapply (initializeVirtualMemory_preserves (lock_idle (env s))); [|exact (allocatePages_idle (env s) fuel 1)|exact Hidle|exact E].
    by intros m s0.
  - intros x Hx. by apply Hfree, M.
  - eapply agree_trans; [|exact HA]. eapply agree_weaken; [|exact (proj1 M)].
    intros x Hx Ho'. by apply Hx, Hfree.
Qed.

(** C3. From the boot loader's memory map to a running address space: when the map's usable entries
    are well formed, page aligned, below 2 GiB and hold enough pages for the tables, the kernel
    gets a page table that is [kernel_mapping] up to the end of the highest entry, usable or
    not. *)
Theorem kernel_memory_correct pages memmap off KernelStart KernelEnd physical_base virtual_base s :
  memmap ≠ [] → memmap_ok 0 off memmap → Forall entry_low memmap → (length memmap ≤ fuel)%nat →
  off_ok off →
  boot_layout off (max_end memmap) KernelStart KernelEnd physical_base virtual_base →
  table_budget (max_end memmap) KernelStart KernelEnd ≤ total_pages (usable_chunks off memmap) →
  max_end memmap ≤ 4096 * Z.of_nat pages → KernelEnd - KernelStart ≤ 4096 * Z.of_nat pages →
  ∃ root cr3 s', kernel_memory pages memmap off KernelStart KernelEnd physical_base virtual_base s =
      Done (root, cr3, s') ∧
    vm_ok root s' ∧ cr3 + off = root ∧
    kernel_mapping root s' off (max_end memmap) KernelStart KernelEnd physical_base virtual_base.
Proof.
  intros. destruct (kernel_memory_spec pages memmap off KernelStart KernelEnd physical_base
    virtual_base s) as (root & cr3 & s' & E & V & C & K & _); [done..|]. by exists root, cr3, s'.
Qed.
End boot.

(** ** Processors *)

(** The records of all processors are in one page, which holds eighteen of them. *)
Theorem cpu_records_in_page page i :
  0 ≤ i → cpu_record page i + sizeof_CPUState ≤ page + PageSize ↔ i < 18.
Proof. intros Hi. unfold cpu_record. change sizeof_CPUState with 224. change PageSize with 4096. lia. Qed.

Lemma alloc_page_bytes l :
  chunks_wf 1 l → alloc_result 1 l ≠ 0 →
  ∀ x, alloc_result 1 l ≤ x < alloc_result 1 l + 4096 → ¬ free_bytes (alloc_rest 1 l) x.
Proof.
  unfold alloc_result, alloc_rest. intros Hw Ha. destruct (take_first 1 l) as [[a l']|] eqn:E; [|done].
  destruct (take_first_Some 1 l 1 a l' Hw ltac:(lia) E) as (_ & F & _).
  by change (PageSize * 1) with 4096 in F.
Qed.

(** Starting the processors: every processor has a record in order, at [pushCLI] depth one; all
    but the one that boots get an address to start at; and the allocator, from now on locked,
    still hands out the pages it had left. *)
Theorem initializeProcessors_correct fuel infos bsp OtherProcessorMain s l i :
  free_list s l → usingLock (Memory s) = false → m_held (Memory s) = 0 → (length l ≤ fuel)%nat →
  alloc_result 1 l ≠ 0 →
  thisCPU {| CPUs := initial_record <$> infos; this_hw := this_hw (env s) |} = Some i →
  ∃ s' infos', initializeProcessors fuel infos bsp OtherProcessorMain s =
      Done (alloc_result 1 l, infos', s') ∧
    env s' = {| CPUs := initial_record <$> infos; this_hw := this_hw (env s) |} ∧
    (∀ k info, infos !! k = Some info → ∃ info', infos' !! k = Some info' ∧
       lapic_id info' = lapic_id info ∧
       goto_address info' = if decide (lapic_id info = bsp) then goto_address info
                            else OtherProcessorMain) ∧
    usingLock (Memory s') = true ∧ lock_ready s' ∧ free_list s' (alloc_rest 1 l).
Proof.
  intros Hl Hu Hh Hf Ha Hi. unfold initializeProcessors.
  destruct (allocatePages_spec fuel 1 s l) as (s1 & E1 & Hl1 & Hu1 & Ho1 & _); try done.
  { split; [by apply (free_list_head_range _ l)|congruence]. }
  destruct (allocatePages_idle (env s) _ _ _ _ _ (conj Hu (conj Hh eq_refl)) E1) as (_ & Hheld & Henv).
  unfold allocatePage. rewrite E1. cbn [mbind outcome_bind].
  set (page := alloc_result 1 l) in *.
  assert (Hl2 : free_list (set_ram (memset (ram s1) page 0 PageSize) s1) (alloc_rest 1 l)).
  { apply free_list_set_ram; [done|]. apply memset_agree. intros x Hx Hr.
    by apply (alloc_page_bytes l (proj1 Hl) Ha x Hr). }
  eexists _, _. split; [reflexivity|]. cbn. rewrite Henv. split; [done|]. split.
  { intros k info Hk. eexists. split; [by rewrite list_lookup_fmap, Hk|]. unfold start_processor.
    case_decide as Hd; [apply Z.eqb_eq in Hd as ->; done|by apply Z.eqb_neq in Hd as ->]. }
  split; [done|]. split; [|exact Hl2]. split; [by apply (free_list_head_range s1 (alloc_rest 1 l))|].
  intros _. split; [simpl; congruence|]. destruct (thisCPU_of _ _ Hi) as [c Hc]. exists i, c.
  split; [done|]. destruct Hc as [_ Hc]. simpl in Hc. apply list_lookup_fmap_Some in Hc as (info & -> & _).
  simpl. lia.
Qed.

(** ** Concrete runs *)

(** A reserved entry, four megabytes of which the upper two are usable, and a kernel of 256 KiB
    loaded at one megabyte. *)
Definition example_map : list limine_memmap_entry :=
  [ {| mm_base := 0; mm_length := 0x9f000; mm_type := 1 |};
    {| mm_base := 0x200000; mm_length := 0x200000; mm_type := 0 |} ].
Definition example_offset : Z := 0xffff800000000000.
Definition example_kernel : Z := 0xffffffff80000000.

Lemma example_map_ok : memmap_ok 0 example_offset example_map.
Proof. by vm_compute. Qed.

Lemma example_map_low : Forall entry_low example_map.
Proof. repeat (apply Forall_cons; split; [by vm_compute|]). by apply Forall_nil_2. Qed.

Lemma example_offset_ok : off_ok example_offset.
Proof. by vm_compute. Qed.

Lemma example_layout :
  boot_layout example_offset (max_end example_map) example_kernel (example_kernel + 0x40000)
    0x100000 example_kernel.
Proof. by split; vm_compute. Qed.

Lemma memmap_free_list_witness :
  ∃ s', initByAddingUsablePagesToMemoryManagement 2 example_offset example_map blank = Done (0x400000, s') ∧
    free_list s' [(0x200000 + example_offset, 512)].
Proof.
  destruct (memmap_free_list 2 example_offset example_map blank) as (s' & E & H & _);
    [by vm_compute|exact example_map_ok|simpl; lia|].
  exists s'. split; [exact E|exact H].
Defined.

(** The state [kernel_memory] reaches after the memory map. *)
Lemma example_booted fuel :
  (2 ≤ fuel)%nat →
  ∃ s, @vm_base machine (phys_pages fuel) (phys_pages_laws fuel) s ∧
    @at_least machine (phys_pages fuel) (phys_pages_laws fuel) 512 s ∧
    HigherHalfDirectMapOffset s = example_offset.
Proof.
  intros Hf. destruct (memmap_free_list_spec fuel example_offset example_map blank)
    as (s & _ & Hl & (Hu & _) & Ho & _); [by vm_compute|exact example_map_ok|simpl; lia|].
  exists s. destruct (memmap_vm_base fuel example_offset example_map s Hl Hu Ho) as [Hb Hn];
    [exact example_offset_ok|exact example_map_low|simpl; lia|]. done.
Qed.

Lemma initializeVirtualMemory_correct_witness :
  ∃ (s : machine) root cr3 s',
    @initializeVirtualMemory machine (phys_pages 1024) 1024 (max_end example_map) example_kernel
      (example_kernel + 0x40000) 0x100000 example_kernel s = Done (root, cr3, s') ∧
    @translate_in machine (phys_pages 1024) root s' (example_kernel + 0x1234) = Some 0x101234.
Proof.
  destruct (example_booted 1024) as (s & Hb & Hn & Ho); [lia|].
  destruct (@initializeVirtualMemory_correct machine (phys_pages 1024) (phys_pages_laws 1024) 1024
              (max_end example_map) example_kernel (example_kernel + 0x40000) 0x100000 example_kernel s 512)
    as (root & cr3 & s' & E & _ & _ & _ & K).
  - simpl. rewrite Ho. exact example_layout.
  - exact Hb.
  - exact Hn.
  - by vm_compute.
  - by vm_compute.
  - by vm_compute.
  - exists s, root, cr3, s'. split; [exact E|].
    apply (km_image _ _ _ _ _ _ _ _ K (example_kernel + 0x1234)). by vm_compute.
Defined.

Lemma kernel_memory_correct_witness :
  ∃ root cr3 s', kernel_memory 1024 1024 example_map example_offset example_kernel
      (example_kernel + 0x40000) 0x100000 example_kernel blank = Done (root, cr3, s') ∧
    @translate_in machine (phys_pages 1024) root s' (0x3ff123 + example_offset) = Some 0x3ff123.
Proof.
  destruct (kernel_memory_correct 1024 1024 example_map example_offset example_kernel
              (example_kernel + 0x40000) 0x100000 example_kernel blank)
    as (root & cr3 & s' & E & _ & _ & K).
  - done.
  - exact example_map_ok.
  - exact example_map_low.
  - simpl; lia.
  - exact example_offset_ok.
  - exact example_layout.
  - by vm_compute.
  - by vm_compute.
  - by vm_compute.
  - exists root, cr3, s'. split; [exact E|].
    apply (km_direct _ _ _ _ _ _ _ _ K 0x3ff123). clear. by vm_compute.
Defined.

Lemma cpu_records_in_page_witness :
  cpu_record 0x1000 17 + sizeof_CPUState ≤ 0x1000 + PageSize ∧
  ¬ cpu_record 0x1000 18 + sizeof_CPUState ≤ 0x1000 + PageSize.
Proof.
  split; [apply (cpu_records_in_page 0x1000 17); lia|].
  intros H. apply (cpu_records_in_page 0x1000 18) in H; lia.
Defined.

(** Two processors; the first one boots. *)
Definition example_infos : list limine_smp_info :=
  [ {| lapic_id := 0; goto_address := 0 |}; {| lapic_id := 1; goto_address := 0 |} ].

Lemma initializeProcessors_correct_witness :
  ∃ s' infos', initializeProcessors 2 example_infos 0 0x1000 example =
      Done (page0 + 4096, infos', s') ∧
    usingLock (Memory s') = true ∧ free_list s' [(page0, 1); (page0 + 0x10000, 3)].
Proof.
  destruct (initializeProcessors_correct 2 example_infos 0 0x1000 example
              [(page0, 2); (page0 + 0x10000, 3)] 0%nat) as (s' & infos' & E & _ & _ & U & _ & L).
  - exact example_free_list.
  - by vm_compute.
  - by vm_compute.
  - simpl; lia.
  - by vm_compute.
  - by vm_compute.
  - exists s', infos'. split; [exact E|]. split; [exact U|exact L].
Defined.
