(* ===== verification/Processor.v ===== *)
(** [KernelMain.cpp], [SharedMain] up to its first [popCLI]: what a processor sets up before it
    schedules, on top of [initializeProcessors].  Its record lies in the page [Boot] allocates. *)

From S2P Require Import Prelude Mem GDT Cpu Spinlock PhysMem PageAlloc CpuReady PhysPages Paging PageTables VirtMem MachineSpace Traps Boot.

Definition StackSize : Z := 16 * PageSize.

Definition set_interruptStack (stack : Z) (c : CPUState) : CPUState :=
  {| apicID := apicID c; cliCount := cliCount c; wereInterruptsEnabled := wereInterruptsEnabled c;
     currentProcess := currentProcess c; interruptStack := stack; table := table c;
     userStack := userStack c; schedulerTask := schedulerTask c |}.
Definition set_table (t : Table) (c : CPUState) : CPUState :=
  {| apicID := apicID c; cliCount := cliCount c; wereInterruptsEnabled := wereInterruptsEnabled c;
     currentProcess := currentProcess c; interruptStack := interruptStack c; table := t;
     userStack := userStack c; schedulerTask := schedulerTask c |}.
Definition set_msrs (m : msrs) (e : cpu_env) : cpu_env :=
  {| CPUs := CPUs e;
     this_hw := {| lapicReg := lapicReg (this_hw e); IF := IF (this_hw e); msr := m |} |}.

(** The address of the descriptor table in the record at [this]. *)
Definition table_address (this : Z) : Z := this + member CPUState_offsets 5.

(** The interrupt stack, the descriptor table and the registers of the running processor; [page]
    is the array of records, [r] the segment registers before. *)
Definition prepare_processor (fuel : nat) (page SyscallHandler : Z) (r : SegmentRegisters)
    (s : machine) : outcome (SegmentRegisters * machine) :=
  '(stack, s) ← allocatePages fuel (StackSize / PageSize) s;
  with_this (env s) (λ i c,
    if stack =? 0 then Stuck Halted
    else
      let this := cpu_record page (Z.of_nat i) in
      let c := set_interruptStack stack c in
      let c := set_table (Table_init (table_address this) (interruptStack c) (table c)) c in
      let e := put_cpu i c (env s) in
      let m := setKernelGSBase (msr (this_hw e)) this in
      let m := setSyscallRIP m SyscallHandler in
      let m := setStarRegister m in
      Done (Table_install (table_address this) r, set_env (set_msrs m e) s)).

(** ** Model-specific registers *)

(** The system-call registers of a prepared processor: both GS bases name its record, [syscall]
    is enabled and enters [handler] in the kernel's segments. *)
Record syscall_registers (m : msrs) (this handler : Z) : Prop := {
  sc_gs : m 0xC0000101 = this;
  sc_kernel_gs : m 0xC0000102 = this;
  sc_enabled : Z.testbit (m 0xC0000080) 0 = true;
  sc_handler : m 0xC0000082 = handler;
  sc_star : bf_get 32 16 (m 0xC0000081) = off_kernelCode ∧
    bf_get 48 16 (m 0xC0000081) + 16 = Z.lor off_userCode64 3;
}.

Lemma prepared_registers m this handler :
  0 ≤ this < 2 ^ 64 → 0 ≤ handler < 2 ^ 64 →
  syscall_registers (setStarRegister (setSyscallRIP (setKernelGSBase m this) handler)) this handler.
Proof.
  intros Ht Hh. set (m1 := setKernelGSBase m this).
  assert (m1 0xC0000101 = this ∧ m1 0xC0000102 = this) as [G1 G2].
  { unfold m1, setKernelGSBase, swapgs, set_msr. split; [by apply (cpuSetMSR_split _ 0xC0000102)|].
    change (cpuSetMSR m 0xC0000101 this (Z.shiftr this 32) 0xC0000101 = this).
    by apply (cpuSetMSR_split m 0xC0000101). }
  unfold setStarRegister, setSyscallRIP. split.
  - exact G1.
  - exact G2.
  - change (Z.testbit (Z.lor (m1 0xC0000080) 1) 0 = true). by rewrite Z.lor_spec, orb_true_r.
  - by apply (cpuSetMSR_split _ 0xC0000082).
  - done.
Qed.

(** ** Preparing a processor *)

Section processor.
Context (fuel : nat) (depth : Z).
#[local] Hint Extern 0 (PageAllocator machine) => exact (phys_pages fuel) : typeclass_instances.
#[local] Hint Extern 0 (PageAllocatorLaws machine) => exact (phys_pages_laws fuel) : typeclass_instances.

(** [initializeProcessors], for an address space: the records' page is taken, and from now on the
    lock is in use and the running processor's record in order. *)
Lemma initializeProcessors_vm infos bsp OtherProcessorMain root n s e i :
  vm_ok root s → at_least n s → 1 ≤ n → lock_idle e s → (length infos ≤ 18)%nat →
  thisCPU {| CPUs := initial_record <$> infos; this_hw := this_hw e |} = Some i →
  ∃ page infos' s', initializeProcessors fuel infos bsp OtherProcessorMain s =
      Done (page, infos', s') ∧ 0 ≤ page ∧ page + PageSize ≤ 2 ^ 64 ∧
    vm_ok root s' ∧ at_least (n - 1) s' ∧
    HigherHalfDirectMapOffset s' = HigherHalfDirectMapOffset s ∧ vm_frame root s s' ∧
    (∀ va, translate_in root s' va = translate_in root s va) ∧ env_ready 1 s'.
Proof.
  intros Hvm Hn H1 Hidle Hlen Hi. unfold initializeProcessors.
  destruct (vm_fresh_page root s n Hvm Hn H1) as (page & s1 & E & _ & Hp & Hown & _ & Hset).
  change (pa_allocatePage s) with (allocatePage fuel s) in E. rewrite E. cbn [mbind outcome_bind].
  destruct (Hset (memset (ram s1) page 0 4096)) as (V & O & N & F & _ & X).
  { apply memset_agree. tauto. }
  destruct (allocatePages_idle e fuel 1 s page s1 Hidle E) as (_ & Hh & He).
  set (e' := {| CPUs := initial_record <$> infos; this_hw := this_hw e |}) in *.
  assert (He' : cpu_ready 1 e').
  { split; [lia|]. destruct (thisCPU_of _ _ Hi) as [c Hc]. exists i, c. split; [done|].
    destruct Hc as [_ Hc]. pose proof (lookup_lt_Some _ _ _ Hc) as Hlt. simpl in Hlt. rewrite length_fmap in Hlt.
    apply list_lookup_fmap_Some in Hc as (info & -> & _). split; [done|]. split; [lia|done]. }
  eexists page, _, _. split; [reflexivity|].
  cbn [env thisCPU thereIsNowMoreThanOneProcessor set_ram set_Memory]. rewrite He.
  change PageSize with 4096. fold e'.
  match goal with |- context [vm_ok root ?s'] => set (s2 := s') end.
  assert (Hr : lock_ready s2).
  { split; [apply (proj1 (vm_pa _ _ V))|]. intros _. split; [exact Hh|]. by apply (cpu_ready_record 1). }
  destruct (vm_ok_same fuel root _ s2 V ltac:(by split) Hr) as (V' & N' & X' & F').
  destruct Hp as (_ & Hp1 & Hp2 & Hp3). destruct (vm_off _ _ Hvm) as (_ & H0 & _).
  split; [lia|]. split; [lia|]. split; [done|]. split; [by apply N'|]. split; [exact O|].
  split; [by eapply vm_frame_trans|]. split; [|exact He']. intros va. by rewrite X', X.
Qed.

(** A processor that can take interrupts and system calls: its descriptor table is loaded and
    names its task state segment, whose stack for interrupts from user mode is the record's
    interrupt stack. *)
Record prepared (page handler stack : Z) (segments : SegmentRegisters) (s : machine) (i : nat)
    (c : CPUState) : Prop := {
  pr_cpu : cpu_of (env s) i c;
  pr_depth : cliCount c = depth;
  pr_stack : interruptStack c = stack ∧ stackPointers (theTSSEntryItself (table c)) !! 0%nat = Some stack;
  pr_gdt : gdtr_base segments = table_address (cpu_record page (Z.of_nat i)) ∧
    gdtr_limit segments + 1 = 8 * Z.of_nat (length (table_words (table c)));
  pr_code : ∃ d, descriptor (table c) (sr_cs segments) = Some d ∧ is_code64 d 0;
  pr_task : ∃ d, descriptor (table c) (sr_tr segments) = Some d ∧ seg_access d = 0x89 ∧
    seg_base d + 2 ^ 32 * s_baseHigher (theEntryForTheTSS (table c)) =
      gdtr_base segments + off_theTSSEntryItself;
  pr_registers : syscall_registers (msr (this_hw (env s))) (cpu_record page (Z.of_nat i)) handler;
}.

Lemma prepare_processor_spec page handler r root n s :
  vm_ok root s → at_least n s → 15 * Z.of_nat fuel < n → env_ready depth s →
  0 ≤ page → page + PageSize ≤ 2 ^ 64 → 0 ≤ handler < 2 ^ 64 →
  ∃ segments s' stack i c, prepare_processor fuel page handler r s = Done (segments, s') ∧
    prepared page handler stack segments s' i c ∧ record_ok i c ∧
    (∀ x, range stack StackSize x → pa_owned s x ∧ ¬ pa_owned s' x) ∧
    vm_base s' ∧ HigherHalfDirectMapOffset s' = HigherHalfDirectMapOffset s ∧
    (∀ x, pa_owned s' x → pa_owned s x) ∧ agree (λ x, ¬ pa_owned s x) (ram s') (ram s).
Proof.
  intros Hvm Hn Hf He Hp0 Hp1 Hh. unfold prepare_processor.
  destruct (vm_block fuel root 16 n s Hvm Hn ltac:(lia) ltac:(lia))
    as (stack & s1 & E & Hz & _ & _ & V & O & _ & _ & A & Sub & Own & _).
  change (StackSize / PageSize) with 16. rewrite E. cbn [mbind outcome_bind].
  destruct (allocatePages_steady depth fuel 16 s stack s1 E He) as [(Hd & i & c & Hc & Hdep & Hi & Htss) _].
  rewrite (with_this_of _ i c) by done. destruct (Z.eqb_spec stack 0); [done|].
  cbn [interruptStack set_interruptStack table].
  set (this := cpu_record page (Z.of_nat i)).
  assert (Hthis : page ≤ this ∧ this + 224 ≤ 2 ^ 64).
  { unfold this, cpu_record. change sizeof_CPUState with 224. change PageSize with 4096 in Hp1. lia. }
  set (t := Table_init (table_address this) stack (table c)).
  set (c' := set_table t (set_interruptStack stack c)). set (e := set_msrs _ _).
  assert (Hc' : cpu_of e i c') by exact (cpu_of_put_cpu (env s1) i c c' Hc eq_refl).
  destruct (Table_installed_spec (table_address this) stack (table c) r) as (T1 & _ & _ & _ & T5 & T6 & T7).
  { unfold table_address. change (member CPUState_offsets 5) with 32. lia. }
  { unfold table_address. change (member CPUState_offsets 5) with 32.
    change off_theTSSEntryItself with 72. lia. }
  { done. }
  eexists _, (set_env e s1), stack, i, c'. split; [reflexivity|]. split; [|split; [|split; [|split]]].
  - split; [exact Hc'|exact Hdep|by split|by split|exact T1|exact T5|].
    apply prepared_registers; [fold this; lia|done].
  - split; [done|]. simpl. by rewrite length_insert.
  - intros x Hx. destruct (Own x Hx) as [O1 O2]. split; [done|]. intros Hx'. apply O2. by right.
  - refine (vm_ok_base fuel root _ (proj1 (vm_ok_set_env fuel depth root e s1 V _))).
    split; [done|]. exists i, c'. split; [exact Hc'|]. split; [exact Hdep|]. split; [done|].
    simpl. by rewrite length_insert.
  - split; [exact O|]. split; [exact Sub|exact A].
Qed.

(** C22. Preparing a processor.  With a block of sixteen pages left, the processor ends up with its
    descriptor table loaded (64-bit kernel code segment, a task register that names the record's
    task state segment), its system-call registers set, and as stack for interrupts and system
    calls the lowest address of the block it was given. *)
Theorem prepare_processor_correct page handler r root n s :
  vm_ok root s → at_least n s → 15 * Z.of_nat fuel < n → env_ready depth s →
  0 ≤ page → page + PageSize ≤ 2 ^ 64 → 0 ≤ handler < 2 ^ 64 →
  ∃ segments s' stack i c, prepare_processor fuel page handler r s = Done (segments, s') ∧
    prepared page handler stack segments s' i c ∧
    (∀ x, range stack StackSize x → pa_owned s x ∧ ¬ pa_owned s' x).
Proof.
  intros H1 H2 H3 H4 H5 H6 H7. destruct (prepare_processor_spec page handler r root n s H1 H2 H3 H4 H5 H6 H7)
    as (segments & s' & stack & i & c & E & P & _ & O & _). by exists segments, s', stack, i, c.
Qed.
End processor.

(** The stack that grows out of its block: whatever vector interrupts user mode on a processor
    prepared with a stack, everything the processor and the stub push lies below the sixteen
    pages allocated for it. *)
Theorem interrupt_leaves_stack depth page handler stack segments s i c v st err ctx r m :
  prepared depth page handler stack segments s i c →
  words_ok (hw_frame v err ctx ++ stub_pushes st v ++ common_pushes r) →
  ∃ rsp0, stackPointers (theTSSEntryItself (table c)) !! 0%nat = Some rsp0 ∧
    let '(frame, m') := trap_entry st v err ctx r rsp0 m in
    frame < stack ∧ agree (range stack StackSize) m' m.
Proof.
  intros P Hw. exists stack. split; [apply (pr_stack _ _ _ _ _ _ _ _ P)|]. unfold trap_entry.
  destruct (push_all_spec _ stack m Hw) as (P1 & _ & P3).
  destruct (push_all _ stack m) as [frame m']. simpl in P1, P3.
  rewrite !length_app in *. change (length (common_pushes r)) with 15%nat in *.
  split; [lia|]. eapply agree_weaken; [|exact P3]. unfold range. lia.
Qed.

(** ** Concrete runs *)

Definition one_cpu : cpu_env := {| CPUs := [zero_cpu]; this_hw := zero_hw |}.

Lemma one_cpu_ready : cpu_ready 0 one_cpu.
Proof. split; [lia|]. exists 0%nat, zero_cpu. repeat split; lia. Qed.

(** An address space and 511 free pages. *)
Lemma example_space fuel :
  (2 ≤ fuel)%nat →
  ∃ root s, @vm_ok machine (phys_pages fuel) (phys_pages_laws fuel) root s ∧
    @at_least machine (phys_pages fuel) (phys_pages_laws fuel) 511 s ∧ env_ready 0 s.
Proof.
  intros Hf. destruct (example_booted fuel Hf) as (s & Hb & Hn & _).
  destruct (@allocateRootPageTable_spec machine (phys_pages fuel) (phys_pages_laws fuel) 512 s Hb Hn)
    as (root & s1 & _ & _ & _ & V & C & _); [lia|].
  destruct (vm_ok_set_env fuel 0 root one_cpu s1 V one_cpu_ready) as (V' & N & _).
  exists root, (set_env one_cpu s1). split; [exact V'|]. split; [by apply N|exact one_cpu_ready].
Qed.

Lemma prepare_processor_correct_witness :
  ∃ s segments s' stack i c,
    prepare_processor 4 0xffff800000300000 0xffffffff80003000 zero_segments s = Done (segments, s') ∧
    prepared 0 0xffff800000300000 0xffffffff80003000 stack segments s' i c.
Proof.
  destruct (example_space 4) as (root & s & V & N & C); [lia|].
  destruct (prepare_processor_correct 4 0 0xffff800000300000 0xffffffff80003000 zero_segments root 511 s)
    as (segments & s' & stack & i & c & E & P & _).
  - exact V.
  - exact N.
  - lia.
  - exact C.
  - lia.
  - clear. change PageSize with 4096. lia.
  - lia.
  - exists s, segments, s', stack, i, c. split; [exact E|exact P].
Defined.

Lemma example_prepared :
  ∃ page stack segments s i c, prepared 0 page 0xffffffff80003000 stack segments s i c.
Proof.
  destruct (example_space 4) as (root & s & V & N & C); [lia|].
  destruct (prepare_processor_spec 4 0 0xffff800000300000 0xffffffff80003000 zero_segments root 511 s
    V N ltac:(lia) C ltac:(lia) ltac:(clear; change PageSize with 4096; lia) ltac:(lia))
    as (segments & s' & stack & i & c & _ & P & _).
  by exists 0xffff800000300000, stack, segments, s', i, c.
Qed.

Lemma interrupt_leaves_stack_witness :
  ∃ stack, let '(frame, m') :=
      trap_entry ISR_WithErrorCode 14 6 user_context example_registers stack (λ _, 0) in
    frame < stack.
Proof.
  destruct example_prepared as (page & stack & segments & s' & i & c & P).
  exists stack. destruct (interrupt_leaves_stack 0 page 0xffffffff80003000 stack segments s' i c
    14 ISR_WithErrorCode 6 user_context example_registers (λ _, 0) P) as (rsp0 & E & H).
  - words_tac.
  - rewrite (proj2 (pr_stack _ _ _ _ _ _ _ _ P)) in E. injection E as <-.
    destruct (trap_entry _ _ _ _ _ _ _) as [frame m']. exact (proj1 H).
Defined.
