(* ===== verification/Process.v ===== *)
(** [ProcessManagement.cpp], [ProcessManagement.h]: the process table, the context switch and the
    scheduler.

    A [ProcessInfo*] is the index of its slot; the table is static kernel data and does not share
    memory with pages.  Kernel stacks and trap frames lie in memory.  The addresses of [TrapRet],
    [ProcessEntryPoint] and of the first program's code come from the linker and are parameters. *)

From S2P Require Import Prelude Mem GDT Cpu Spinlock ChunkList PhysMem PageAlloc PhysPages Paging PageTables CpuReady VirtMem MachineSpace Traps Boot Processor.

(** ** The context switch *)

(** The registers [Pause] keeps for a task, and its stack pointer. *)
Record task := {
  t_rbx : Z; t_rbp : Z; t_r12 : Z; t_r13 : Z; t_r14 : Z; t_r15 : Z; t_rsp : Z;
}.
(** [KernelContext]: the seven words of a task that is not running. *)
Definition sizeof_KernelContext : Z := 7 * 8.

(** The second half of [Pause]: the return address and the registers of the task whose context
    lies at [yieldTo]. *)
Definition resume (yieldTo : Z) (m : mem) : Z * task :=
  let w := word m yieldTo in
  (w 6%nat,
   {| t_rbx := w 0%nat; t_rbp := w 1%nat; t_r12 := w 2%nat; t_r13 := w 3%nat; t_r14 := w 4%nat;
      t_r15 := w 5%nat; t_rsp := yieldTo + sizeof_KernelContext |}).

(** [Pause], called with return address [ret]: the pointer stored in [*yieldFrom], the memory, and
    where execution goes on. *)
Definition Pause (c : task) (ret yieldTo : Z) (m : mem) : Z * mem * (Z * task) :=
  let '(sp, m) := push_all [ret; t_r15 c; t_r14 c; t_r13 c; t_r12 c; t_rbp c; t_rbx c] (t_rsp c) m in
  (sp, m, resume yieldTo m).

(** ** The process table *)

Inductive State := Unused | Fresh | Runnable | Running.
#[export] Instance State_eq_dec : EqDecision State.
Proof. solve_decision. Defined.

Record ProcessInfo := {
  pageTable : Z; state : State; kernelStack : Z; kernelTask : Z; trapFrame : Z;
}.
Definition zero_process : ProcessInfo :=
  {| pageTable := 0; state := Unused; kernelStack := 0; kernelTask := 0; trapFrame := 0 |}.
Definition set_state (st : State) (p : ProcessInfo) : ProcessInfo :=
  {| pageTable := pageTable p; state := st; kernelStack := kernelStack p;
     kernelTask := kernelTask p; trapFrame := trapFrame p |}.

Record kernel := {
  hw_state : machine;
  ProcessTable : list ProcessInfo;
  ProcessTableSpinlock : Z;
  KernelPageTable : Z;
}.
Definition set_hw (s : machine) (k : kernel) : kernel :=
  {| hw_state := s; ProcessTable := ProcessTable k; ProcessTableSpinlock := ProcessTableSpinlock k;
     KernelPageTable := KernelPageTable k |}.
Definition set_slot (i : nat) (p : ProcessInfo) (k : kernel) : kernel :=
  {| hw_state := hw_state k; ProcessTable := <[i := p]> (ProcessTable k);
     ProcessTableSpinlock := ProcessTableSpinlock k; KernelPageTable := KernelPageTable k |}.
Definition set_lock (h : Z) (k : kernel) : kernel :=
  {| hw_state := hw_state k; ProcessTable := ProcessTable k; ProcessTableSpinlock := h;
     KernelPageTable := KernelPageTable k |}.
(** [p->...] through a pointer into the table. *)
Definition with_slot {A} (i : nat) (k : kernel) (f : ProcessInfo → outcome A) : outcome A :=
  match ProcessTable k !! i with Some p => f p | None => Stuck NullDeref end.

(** [ProcessTableSpinlock.acquire()] and [release()].  [release] writes four bytes; which object
    the two behind the lock belong to is up to the linker. *)
Definition acquire_table (k : kernel) : outcome kernel :=
  '(h, e) ← acquire (ProcessTableSpinlock k) (env (hw_state k));
  Done (set_lock h (set_hw (set_env e (hw_state k)) k)).
Definition release_table (k : kernel) : outcome kernel :=
  '(img, e) ← release (le_split 2 (ProcessTableSpinlock k) ++ [0; 0]) (env (hw_state k));
  Done (set_lock (le_combine (take 2 img)) (set_hw (set_env e (hw_state k)) k)).

Definition init_processes (k : kernel) : kernel :=
  {| hw_state := hw_state k; ProcessTable := replicate 64 zero_process;
     ProcessTableSpinlock := lock_init; KernelPageTable := KernelPageTable k |}.

Section operations.
Context (fuel : nat) (TrapRet_address ProcessEntryPoint : Z).
#[local] Hint Extern 0 (PageAllocator machine) => exact (phys_pages fuel) : typeclass_instances.

(** The first slot [allocateProcess] can use. *)
Fixpoint find_unused (i : nat) (l : list ProcessInfo) : option nat :=
  match l with
  | [] => None
  | p :: l => if decide (state p = Unused) then Some i else find_unused (S i) l
  end.

(** The top of a new kernel stack: a trap frame, the address [ProcessEntryPoint] returns to, and
    the context from which [Pause] starts the task. *)
Definition build_stack (kernelStack : Z) (m : mem) : mem * Z * Z :=
  let stackPointer := kernelStack + PageSize in
  let stackPointer := stackPointer - sizeof_InterruptRegisters in
  let trapFrame := stackPointer in
  let stackPointer := stackPointer - 8 in
  let m := store64 m stackPointer TrapRet_address in
  let stackPointer := stackPointer - sizeof_KernelContext in
  let kernelTask := stackPointer in
  let m := memset m kernelTask 0 sizeof_KernelContext in
  let m := store64 m (kernelTask + 48) ProcessEntryPoint in
  (m, kernelTask, trapFrame).

Definition allocateProcess (k : kernel) : outcome (option nat * kernel) :=
  k ← acquire_table k;
  match find_unused 0 (ProcessTable k) with
  | None => k ← release_table k; Done (None, k)
  | Some i =>
      '(copy, s) ← shallowCopy (KernelPageTable k) (hw_state k);
      let k := set_hw s k in
      with_slot i k (λ p,
        let p := {| pageTable := copy; state := Fresh; kernelStack := kernelStack p;
                    kernelTask := kernelTask p; trapFrame := trapFrame p |} in
        k ← release_table (set_slot i p k);
        '(stack, s) ← allocatePage fuel (hw_state k);
        let k := set_hw s k in
        if stack =? 0 then
          Done (None, set_slot i {| pageTable := copy; state := Unused; kernelStack := stack;
                                    kernelTask := kernelTask p; trapFrame := trapFrame p |} k)
        else
          let '(m, task, frame) := build_stack stack (ram (hw_state k)) in
          let p := {| pageTable := copy; state := Fresh; kernelStack := stack;
                      kernelTask := task; trapFrame := frame |} in
          Done (Some i, set_slot i p (set_hw (set_ram m (hw_state k)) k)))
  end.

Definition freeProcess (i : nat) (k : kernel) : outcome kernel :=
  k ← acquire_table k;
  with_slot i k (λ p,
    let k := set_slot i (set_state Unused p) k in
    s ← freePage fuel (kernelStack p) (hw_state k);
    release_table (set_hw s k)).

Definition ProcessEntryPoint_body (k : kernel) : outcome kernel := release_table k.

(** The assignments to the members of the trap frame. *)
Definition user_frame (Entrypoint : Z) : InterruptRegisters :=
  {| ir_regs := zero_registers; interruptNumber := 0; errorCode := 0;
     ir_context := {| c_rip := Entrypoint; c_cs := Z.lor off_userCode64 (dpl_bits Ring3);
                      c_rflags := 0x200; c_rsp := 0;
                      c_ss := Z.lor off_userData64 (dpl_bits Ring3) |} |}.
Definition store_frame (frame Entrypoint : Z) (m : mem) : mem :=
  let m := memset m frame 0 sizeof_InterruptRegisters in
  let c := ir_context (user_frame Entrypoint) in
  let m := store64 m (frame + 8 * 18) (c_cs c) in
  let m := store64 m (frame + 8 * 21) (c_ss c) in
  let m := store64 m (frame + 8 * 19) (c_rflags c) in
  let m := store64 m (frame + 8 * 20) (c_rsp c) in
  store64 m (frame + 8 * 17) (c_rip c).

(** [createFirstProcess]; the program's code lies at [code] and is [code_size] bytes long. *)
Definition createFirstProcess (code code_size : Z) (k : kernel) : outcome kernel :=
  '(process, k) ← allocateProcess k;
  '(page, s) ← allocatePage fuel (hw_state k);
  let s := set_ram (memcpy (ram s) page code code_size) s in
  let Entrypoint := 0x1000 in
  match process with
  | None => Stuck NullDeref
  | Some i =>
      with_slot i k (λ p,
        s ← map (pageTable p) Entrypoint (toPhysical s page) s;
        let s := set_ram (store_frame (trapFrame p) Entrypoint (ram s)) s in
        k ← acquire_table (set_hw s k);
        let k := set_slot i (set_state Runnable p) k in
        release_table k)
  end.

End operations.

(** ** Theorems: the context switch *)

Definition task_words (ret : Z) (c : task) : list Z :=
  [t_rbx c; t_rbp c; t_r12 c; t_r13 c; t_r14 c; t_r15 c; ret].

Lemma resume_words ret c k m :
  (∀ i w, task_words ret c !! i = Some w → word m k i = w) → t_rsp c = k + sizeof_KernelContext →
  resume k m = (ret, c).
Proof.
  intros H Hsp. unfold resume.
  rewrite (H 0%nat _ eq_refl), (H 1%nat _ eq_refl), (H 2%nat _ eq_refl), (H 3%nat _ eq_refl),
    (H 4%nat _ eq_refl), (H 5%nat _ eq_refl), (H 6%nat _ eq_refl), <- Hsp. by destruct c.
Qed.

(** Switching to a task reads nothing but its saved context. *)
Lemma resume_agree k m m' : agree (range k sizeof_KernelContext) m m' → resume k m = resume k m'.
Proof.
  intros HA. change sizeof_KernelContext with 56 in HA. unfold resume, word.
  f_equal; [|f_equal]; apply (load_agree 8 _ _ _ _ HA); unfold range; lia.
Qed.

Lemma Pause_saves c ret to m :
  words_ok (task_words ret c) →
  let '(saved, m1, _) := Pause c ret to m in
  saved = t_rsp c - sizeof_KernelContext ∧
  (∀ m2, agree (range saved sizeof_KernelContext) m2 m1 → resume saved m2 = (ret, c)) ∧
  agree (λ x, ¬ range saved sizeof_KernelContext x) m1 m.
Proof.
  intros Hw. unfold Pause.
  set (ws := [ret; t_r15 c; t_r14 c; t_r13 c; t_r12 c; t_rbp c; t_rbx c]).
  assert (Hrev : rev ws = task_words ret c) by done.
  assert (words_ok ws) as Hws by exact (List.Forall_rev Hw).
  destruct (push_all_spec ws (t_rsp c) m Hws) as (H1 & H2 & H3).
  destruct (push_all ws (t_rsp c) m) as [sp m1]. cbn [fst snd] in *.
  change (8 * Z.of_nat (length ws)) with 56 in *. change sizeof_KernelContext with 56.
  split; [done|]. split.
  - intros m2 HA. apply resume_words; [|change sizeof_KernelContext with 56; lia].
    intros i w Hi. rewrite <- (H2 i w) by (by rewrite Hrev). unfold word.
    apply (load_agree 8 _ _ _ _ HA). apply lookup_lt_Some in Hi. unfold range. simpl in *. lia.
  - eapply agree_weaken; [|exact H3]. unfold range. simpl. lia.
Qed.

(** Switching away and back: a task that called [Pause] goes on behind that call with its
    registers and its stack pointer as they were, once another task pauses in its favour,
    provided its saved context was left alone and the other task runs on a stack elsewhere. *)
Theorem Pause_resumes c ret to m saved m1 running c2 ret2 m2 :
  words_ok (task_words ret c) → words_ok (task_words ret2 c2) →
  Pause c ret to m = (saved, m1, running) →
  agree (range saved sizeof_KernelContext) m2 m1 →
  disj saved sizeof_KernelContext (t_rsp c2 - sizeof_KernelContext) sizeof_KernelContext →
  ∃ saved2 m3, Pause c2 ret2 saved m2 = (saved2, m3, (ret, c)).
Proof.
  intros Hw Hw2 HP HA Hd. pose proof (Pause_saves c ret to m Hw) as H1. rewrite HP in H1.
  destruct H1 as (_ & H1 & _). pose proof (Pause_saves c2 ret2 saved m2 Hw2) as H2.
  destruct (Pause c2 ret2 saved m2) as [[saved2 m3] r] eqn:E. destruct H2 as (Hs & _ & H2).
  assert (r = resume saved m3) as -> 
    by (unfold Pause in E; destruct (push_all _ _ _) as [sp m']; by injection E as <- <- <-).
  rewrite (H1 m3); [by eexists _, _|]. eapply agree_trans; [|exact HA].
  eapply agree_weaken; [|exact H2]. rewrite Hs. unfold range, disj in *. lia.
Qed.

(** ** Lemmas: a new kernel stack *)

(** The task a new process starts as. *)
Definition entry_task (kernelTask : Z) : task :=
  {| t_rbx := 0; t_rbp := 0; t_r12 := 0; t_r13 := 0; t_r14 := 0; t_r15 := 0;
     t_rsp := kernelTask + sizeof_KernelContext |}.

(** What has to lie on a stack for its process to start: [Pause] enters [entry], which returns to
    [back] with the stack pointer on the trap frame. *)
Definition start_stack (entry back kernelTask trapFrame : Z) (m : mem) : Prop :=
  resume kernelTask m = (entry, entry_task kernelTask) ∧
  load64 m (kernelTask + sizeof_KernelContext) = back ∧
  trapFrame = kernelTask + sizeof_KernelContext + 8.

Lemma start_stack_agree entry back kt tf m m' :
  agree (range kt (sizeof_KernelContext + 8)) m' m →
  start_stack entry back kt tf m → start_stack entry back kt tf m'.
Proof.
  intros HA (H1 & H2 & H3). change sizeof_KernelContext with 56 in *.
  assert (HL : ∀ o, 0 ≤ o → o + 8 ≤ 64 → load64 m' (kt + o) = load64 m (kt + o)).
  { intros o H0 Ho. apply (load_agree 8 _ _ _ _ HA). unfold range. lia. }
  split; [|split; [|done]].
  - rewrite <- H1. unfold resume, word. f_equal; [|f_equal]; apply HL; lia.
  - rewrite <- H2. apply HL; lia.
Qed.

Lemma build_stack_spec TR EP a m :
  0 ≤ TR < 2 ^ 64 → 0 ≤ EP < 2 ^ 64 →
  let '(m', kt, tf) := build_stack TR EP a m in
  kt = a + 3856 ∧ tf = a + 3920 ∧ start_stack EP TR kt tf m' ∧
  agree (λ x, ¬ range a 4096 x) m' m.
Proof.
  intros HT HE. unfold build_stack. change PageSize with 4096.
  change sizeof_InterruptRegisters with 176. change sizeof_KernelContext with 56.
  set (kt := a + 4096 - 176 - 8 - 56).
  split; [lia|]. split; [lia|]. split.
  - unfold start_stack. change sizeof_KernelContext with 56. split; [|split; [|lia]].
    + apply resume_words; [|done]. intros i w Hi. unfold word.
      do 6 (destruct i as [|i]; [injection Hi as <-; rewrite load_store_disj by (unfold disj; lia);
        apply load_memset0; lia|]).
      destruct i as [|i]; [injection Hi as <-; by apply load64_store64|done].
    + rewrite load_store_disj, load_memset_disj by (unfold disj; lia).
      replace (kt + 56) with (a + 4096 - 176 - 8) by lia. by apply load64_store64.
  - eapply agree_trans; [apply store_agree; unfold range; lia|].
    eapply agree_trans; [apply memset_agree; unfold range; lia|].
    apply store_agree. unfold range. lia.
Qed.

Lemma store_frame_spec frame Entrypoint m :
  0 ≤ Entrypoint < 2 ^ 64 →
  TrapRet frame (store_frame frame Entrypoint m) =
    (zero_registers, ir_context (user_frame Entrypoint)) ∧
  agree (λ x, ¬ range frame sizeof_InterruptRegisters x) (store_frame frame Entrypoint m) m.
Proof.
  intros He. split.
  - apply (frame_read _ frame (user_frame Entrypoint)).
    intros i w Hi. unfold store_frame, word. change sizeof_InterruptRegisters with 176.
    do 17 (destruct i as [|i]; [injection Hi as <-;
      rewrite !load_store_disj by (unfold disj; lia); apply load_memset0; lia|]).
    destruct i as [|i]; [injection Hi as <-; by apply load64_store64|].
    do 4 (destruct i as [|i];
      [injection Hi as <-; repeat (rewrite load_store_disj by (unfold disj; lia));
       by apply load64_store64|]).
    done.
  - unfold store_frame. change sizeof_InterruptRegisters with 176.
    repeat (eapply agree_trans; [apply store_agree; unfold range; lia|]).
    apply memset_agree. unfold range. lia.
Qed.

(** ** Lemmas: locks *)

Lemma acquire_table_spec depth k :
  ProcessTableSpinlock k = 0 → cpu_ready depth (env (hw_state k)) →
  ∃ e, acquire_table k = Done (set_lock 1 (set_hw (set_env e (hw_state k)) k)) ∧ cpu_ready depth e.
Proof.
  intros Hl Hc. destruct (push_pop_ready _ _ Hc) as (e1 & e2 & E1 & E2 & Hr).
  unfold acquire_table, acquire. rewrite Hl, E1. cbn. rewrite E2. cbn. by exists e2.
Qed.

Lemma acquire_table_locked depth k :
  ProcessTableSpinlock k ≠ 0 → cpu_ready depth (env (hw_state k)) → acquire_table k = Stuck Spin.
Proof.
  intros Hl Hc. destruct (push_pop_ready _ _ Hc) as (e1 & e2 & E1 & _).
  unfold acquire_table. by rewrite (acquire_held _ _ e1 E1 Hl).
Qed.

Lemma release_table_spec depth k :
  cpu_ready depth (env (hw_state k)) →
  ∃ e, release_table k = Done (set_lock 0 (set_hw (set_env e (hw_state k)) k)) ∧ cpu_ready depth e.
Proof.
  intros Hc. destruct (push_pop_ready _ _ Hc) as (e1 & e2 & E1 & E2 & Hr).
  unfold release_table, release. rewrite E1. cbn. rewrite E2. cbn. by exists e2.
Qed.

Lemma acquire_table_steady depth k k' :
  acquire_table k = Done k' → steady depth (env (hw_state k)) (env (hw_state k')).
Proof.
  unfold acquire_table. destruct (acquire _ _) as [[h e]|] eqn:E; [|done]. intros [= <-].
  by eapply acquire_steady.
Qed.

Lemma release_table_steady depth k k' :
  release_table k = Done k' → steady depth (env (hw_state k)) (env (hw_state k')).
Proof.
  unfold release_table. destruct (release _ _) as [[img e]|] eqn:E; [|done]. intros [= <-].
  by eapply release_steady.
Qed.

(** ** Lemmas: address spaces of processes *)

Section proofs.
Context (fuel : nat) (depth : Z).
Local Abbreviation cpu_ready := (cpu_ready depth).
Local Abbreviation env_ready := (env_ready depth).
#[local] Hint Extern 0 (PageAllocator machine) => exact (phys_pages fuel) : typeclass_instances.
#[local] Hint Extern 0 (PageAllocatorLaws machine) => exact (phys_pages_laws fuel) : typeclass_instances.

(** What the operations on processes need of the kernel's state: the table's lock is free, this
    processor has a record, [root] is an address space, and [n] pages are left. *)
Record kernel_ready (root : Z) (k : kernel) (n : Z) : Prop := {
  kr_lock : ProcessTableSpinlock k = 0;
  kr_cpu : env_ready (hw_state k);
  kr_vm : vm_ok root (hw_state k);
  kr_pages : at_least n (hw_state k);
}.

Lemma find_unused_lookup j l i :
  find_unused j l = Some i → ∃ d p, i = (j + d)%nat ∧ l !! d = Some p ∧ state p = Unused ∧
    ∀ d' p', (d' < d)%nat → l !! d' = Some p' → state p' ≠ Unused.
Proof.
  revert j; induction l as [|p l IH]; intros j; [done|]. simpl. case_decide as Hs.
  - intros [= <-]. exists 0%nat, p. split; [lia|]. split; [done|]. split; [done|]. lia.
  - intros (d & p' & -> & Hl & Hu & Hb)%IH. exists (S d), p'. split; [lia|]. split; [done|].
    split; [done|]. intros [|d'] q Hd Hq; [by injection Hq as <-|]. apply (Hb d'); [lia|done].
Qed.

(** Everything [allocateProcess] does when it succeeds. *)
Record fresh_process (EP TR : Z) (k k' : kernel) (p : ProcessInfo) : Prop := {
  fp_state : state p = Fresh;
  fp_vm : vm_ok (pageTable p) (hw_state k');
  fp_translate va : translate_in (pageTable p) (hw_state k') va =
    translate_in (KernelPageTable k) (hw_state k) va;
  fp_start : start_stack EP TR (kernelTask p) (trapFrame p) (ram (hw_state k'));
  fp_stack : table_page (HigherHalfDirectMapOffset (hw_state k)) (kernelStack p);
  fp_task : kernelTask p = kernelStack p + 3856 ∧ trapFrame p = kernelStack p + 3920;
  fp_own x : range (kernelStack p) 4096 x →
    touched (KernelPageTable k) (hw_state k) x ∧ ¬ touched (pageTable p) (hw_state k') x;
  fp_touched x : touched (pageTable p) (hw_state k') x → touched (KernelPageTable k) (hw_state k) x;
  fp_ram : agree (λ x, ¬ touched (KernelPageTable k) (hw_state k) x)
    (ram (hw_state k')) (ram (hw_state k));
  fp_offset : HigherHalfDirectMapOffset (hw_state k') = HigherHalfDirectMapOffset (hw_state k);
}.

(** A page for the kernel stack, outside two address spaces, and what [build_stack] puts there. *)
Lemma new_stack_spec TR EP copy root s n :
  vm_ok copy s → vm_ok root s → at_least n s → 1 ≤ n → 0 ≤ TR < 2 ^ 64 → 0 ≤ EP < 2 ^ 64 →
  ∃ a s1, allocatePage fuel s = Done (a, s1) ∧ a ≠ 0 ∧ table_page (HigherHalfDirectMapOffset s) a ∧
    (∀ x, range a 4096 x → pa_owned s x) ∧
    ∃ m, build_stack TR EP a (ram s1) = (m, a + 3856, a + 3920) ∧
      start_stack EP TR (a + 3856) (a + 3920) m ∧
      let s2 := set_ram m s1 in
      vm_ok copy s2 ∧ vm_ok root s2 ∧ at_least (n - 1) s2 ∧ vm_frame copy s s2 ∧
      HigherHalfDirectMapOffset s2 = HigherHalfDirectMapOffset s ∧
      (∀ x, range a 4096 x → ¬ touched copy s2 x) ∧
      (∀ va, translate_in copy s2 va = translate_in copy s va) ∧
      agree (λ x, ¬ pa_owned s x) m (ram s).
Proof.
  intros W V C H1 HTR HEP.
  destruct (vm_fresh_page copy s n W C H1) as (a & s1 & E & Hz & Hp & Hown & HA & Hset).
  destruct (vm_fresh_page root s n V C H1) as (a' & s1' & E' & _ & _ & _ & _ & Hset').
  rewrite E in E'. injection E' as <- <-.
  pose proof (build_stack_spec TR EP a (ram s1) HTR HEP) as Hb.
  destruct (build_stack TR EP a (ram s1)) as [[m kt] tf] eqn:Eb. destruct Hb as (-> & -> & Hst & Hm).
  exists a, s1. split; [exact E|]. split; [exact Hz|]. split; [exact Hp|]. split; [exact Hown|].
  exists m. split; [done|]. split; [exact Hst|].
  destruct (Hset m Hm) as (W2 & O2 & C2 & F2 & D2 & X2). destruct (Hset' m Hm) as (V2 & _).
  do 7 (split; [assumption|]). eapply agree_trans; [|exact HA].
  eapply agree_weaken; [|exact Hm]. intros x Hx Hr. by apply Hx, Hown.
Qed.

Lemma allocateProcess_spec TR EP k i n :
  kernel_ready (KernelPageTable k) k n → 2 ≤ n → find_unused 0 (ProcessTable k) = Some i →
  0 ≤ TR < 2 ^ 64 → 0 ≤ EP < 2 ^ 64 →
  ∃ k' p, allocateProcess fuel TR EP k = Done (Some i, k') ∧
    ProcessTable k' = <[i := p]> (ProcessTable k) ∧ KernelPageTable k' = KernelPageTable k ∧
    kernel_ready (KernelPageTable k) k' (n - 2) ∧ fresh_process EP TR k k' p.
Proof.
  intros [Hlock Hcpu Hvm Hn] H2 Hi HTR HEP.
  destruct (find_unused_lookup _ _ _ Hi) as (d & p0 & Hd & Hp0 & _ & _). simpl in Hd. subst d.
  unfold allocateProcess.
  destruct (acquire_table_spec depth k Hlock Hcpu) as (e1 & E1 & He1). rewrite E1. cbn [mbind outcome_bind].
  cbn [ProcessTable set_lock set_hw]. rewrite Hi.
  cbn [KernelPageTable hw_state set_lock set_hw].
  set (root := KernelPageTable k) in *. set (s0 := set_env e1 (hw_state k)).
  assert (Hvm0 : vm_ok root s0) by (by apply (vm_ok_set_env fuel depth)).
  destruct (shallowCopy_spec n root s0 Hvm0 Hn) as
    (copy & s1 & E2 & _ & O2 & V1 & W1 & C1 & X1 & Y1 & _ & T1 & A1); [lia|].
  rewrite E2. cbn [mbind outcome_bind].
  assert (Hc1 : env_ready s1).
  { eapply (shallowCopy_preserves env_ready (env_ready_set_ram fuel depth) (env_ready_alloc fuel depth) root s0 copy s1);
      [exact He1|exact E2]. }
  unfold with_slot at 1. cbn [ProcessTable set_lock set_hw]. rewrite Hp0.
  match goal with |- context [release_table ?k2] =>
    destruct (release_table_spec depth k2 Hc1) as (e2 & E3 & He2) end.
  rewrite E3. cbn [mbind outcome_bind]. cbn [hw_state set_lock set_hw set_slot].
  set (s2 := set_env e2 s1).
  assert (V2 : vm_ok root s2) by (by apply (vm_ok_set_env fuel depth)).
  assert (W2 : vm_ok copy s2) by (by apply (vm_ok_set_env fuel depth)).
  destruct (new_stack_spec TR EP copy root s2 (n - 1) W2 V2 C1 ltac:(lia) HTR HEP)
    as (a & s3 & E4 & Hz & Hp & Hown & m & Eb & Hst & W4 & V4 & C4 & F4 & O4 & D4 & X4 & A4).
  rewrite E4. cbn [mbind outcome_bind]. apply Z.eqb_neq in Hz. rewrite Hz.
  cbn [hw_state set_lock set_hw set_slot]. rewrite Eb.
  eexists _, _. split; [reflexivity|]. cbn. split; [by rewrite list_insert_insert_eq|].
  split; [done|]. split.
  { split; [done| |exact V4|eapply at_least_weaken; [|exact C4]; lia].
    exact (proj1 (allocatePages_steady _ _ _ _ _ _ E4 He2)). }
  split; cbn.
  - done.
  - exact W4.
  - intros va. etrans; [apply X4|]. apply Y1.
  - exact Hst.
  - change (HigherHalfDirectMapOffset (hw_state k)) with (pa_offset s0). rewrite <- O2. exact Hp.
  - lia.
  - intros x Hx. split; [|by apply D4]. apply T1. right. by apply Hown.
  - intros x Hx. apply T1. by apply F4.
  - eapply agree_trans; [eapply agree_weaken; [|exact A4]|].
    { intros x Hx Hr. apply Hx, T1. right. exact Hr. }
    eapply agree_weaken; [|exact A1]. intros x Hx Hr. apply Hx. right. exact Hr.
  - transitivity (HigherHalfDirectMapOffset s2); [exact O4|exact O2].
Qed.

(** A page of its own for the program's code. *)
Lemma copy_program root s n code code_size :
  vm_ok root s → at_least n s → 1 ≤ n → 0 ≤ code_size ≤ 4096 →
  (∀ x, range code code_size x → ¬ touched root s x) →
  ∃ page s1, allocatePage fuel s = Done (page, s1) ∧ table_page (HigherHalfDirectMapOffset s) page ∧
    let s' := set_ram (memcpy (ram s1) page code code_size) s1 in
    vm_ok root s' ∧ HigherHalfDirectMapOffset s' = HigherHalfDirectMapOffset s ∧ at_least (n - 1) s' ∧
    vm_frame root s s' ∧ (∀ x, range page 4096 x → touched root s x ∧ ¬ touched root s' x) ∧
    (∀ j, 0 ≤ j < code_size → load8 (ram s') (page + j) = load8 (ram s) (code + j)) ∧
    (∀ va, translate_in root s' va = translate_in root s va).
Proof.
  intros Hvm Hn H1 Hsize Hcode.
  destruct (vm_fresh_page root s n Hvm Hn) as (page & s1 & E1 & _ & Hp & Hown & HA & Hset); [lia|].
  exists page, s1. split; [exact E1|]. split; [exact Hp|].
  remember (memcpy (ram s1) page code code_size) as m eqn:Em.
  assert (Hdisj : disj page code_size code code_size).
  { destruct (decide (code_size = 0)) as [->|]; [unfold disj; lia|].
    apply (disj_sets (touched root s)); [|done|lia|lia].
    intros x Hx. right. apply Hown. unfold range in *. lia. }
  assert (Hcopy : ∀ x, load8 m x = if (page <=? x) && (x <? page + code_size)
            then load8 (ram s1) (code + (x - page)) else load8 (ram s1) x).
  { intros x. rewrite Em. apply memcpy_spec; [lia|done]. }
  assert (Hm : agree (λ x, ¬ range page 4096 x) m (ram s1)).
  { intros x Hx. rewrite Hcopy. unfold range in Hx. zcases; (done || lia). }
  destruct (Hset m Hm) as (V1 & O1 & C1 & F1 & D1 & X1).
  split; [exact V1|]. split; [exact O1|]. split; [exact C1|]. split; [exact F1|].
  split; [|split; [|exact X1]].
  - intros x Hx. split; [right; by apply Hown|by apply D1].
  - intros j Hj. change (ram (set_ram m s1)) with m. rewrite Hcopy. zcases; try lia.
    replace (code + (page + j - page)) with (code + j) by lia. apply HA.
    intros Hx. apply (Hcode (code + j)); [unfold range; lia|]. by right.
Qed.

(** The program loaded: its code, which lay at [code], is in [page] and mapped at [Entrypoint]. *)
Record loaded (root Entrypoint code code_size : Z) (s s' : machine) (page : Z) : Prop := {
  ld_vm : vm_ok root s';
  ld_env : env_ready s';
  ld_offset : HigherHalfDirectMapOffset s' = HigherHalfDirectMapOffset s;
  ld_frame : vm_frame root s s';
  ld_page x : range page 4096 x → touched root s x ∧ ¬ touched root s' x;
  ld_code j : 0 ≤ j < code_size → load8 (ram s') (page + j) = load8 (ram s) (code + j);
  ld_mapped j : 0 ≤ j < 4096 →
    translate_in root s' (Entrypoint + j) = Some (page + j - HigherHalfDirectMapOffset s);
  ld_others va : ¬ same_page va Entrypoint → translate_in root s' va = translate_in root s va;
}.

Lemma load_program root s n code code_size Entrypoint :
  vm_ok root s → at_least n s → 4 ≤ n → 0 ≤ code_size ≤ 4096 → Entrypoint mod 4096 = 0 →
  env_ready s → (∀ x, range code code_size x → ¬ touched root s x) →
  ∃ page s1 s2, allocatePage fuel s = Done (page, s1) ∧
    let s1' := set_ram (memcpy (ram s1) page code code_size) s1 in
    map root Entrypoint (toPhysical s1' page) s1' = Done s2 ∧
    loaded root Entrypoint code code_size s s2 page ∧ at_least (n - 4) s2.
Proof.
  intros Hvm Hn H4 Hsize He Hc Hcode.
  destruct (copy_program root s n code code_size Hvm Hn ltac:(lia) Hsize Hcode)
    as (page & s1 & E1 & Hp & V1 & O1 & C1 & F1 & D1 & B1 & X1).
  remember (set_ram (memcpy (ram s1) page code code_size) s1) as s1' eqn:Es.
  assert (Hc1 : env_ready s1') by (rewrite Es; by apply (env_ready_alloc fuel depth _ _ _ Hc E1)).
  assert (map_cost root Entrypoint s1' ≤ 3) as Hcost.
  { unfold map_cost. pose proof (missing_range root s1' (va_path Entrypoint)). lia. }
  destruct (map_spec (n - 1) root Entrypoint (toPhysical s1' page) s1' V1 C1 ltac:(lia))
    as (s2 & E2 & V2 & C2 & O2 & _ & F2 & _ & X2).
  exists page, s1, s2. split; [exact E1|]. rewrite <- Es. cbv zeta. split; [exact E2|].
  split; [|eapply at_least_weaken; [|exact C2]; lia]. split.
  - exact V2.
  - by eapply (map_preserves env_ready (env_ready_set_ram fuel depth) (env_ready_alloc fuel depth)); [|exact E2].
  - transitivity (HigherHalfDirectMapOffset s1'); [exact O2|exact O1].
  - by eapply vm_frame_trans.
  - intros x Hx. destruct (D1 x Hx) as [H1 H2]. split; [exact H1|]. intros Hx2. by apply H2, F2.
  - intros j Hj. rewrite <- B1 by done. apply F2, D1. unfold range. lia.
  - intros j Hj. rewrite X2, decide_True by (apply same_page_near; Z.div_mod_to_equations; lia).
    unfold toPhysical. rewrite O1. destruct Hp as (Hpm & Hp1 & Hp2 & Hp3).
    destruct (vm_off _ _ Hvm) as (Hoff & Hoff1 & _).
    change (pa_offset s) with (HigherHalfDirectMapOffset s) in Hoff, Hoff1.
    change (2 ^ 31) with 2147483648 in *.
    rewrite (uw_small 64), frame_of_page; [f_equal|..]; Z.div_mod_to_equations; lia.
  - intros va Hva. by rewrite X2, decide_False.
Qed.

(** A process ready to run, in a machine state: switching to it enters [ProcessEntryPoint], which
    returns to [TrapRet] on a frame that enters user mode at 0x1000 with zero registers, in 64-bit
    user segments and with interrupts enabled; in its address space the program lies at 0x1000
    and every other page translates as [kernel] does.  Its stack, its program and its tables lie
    in the addresses [mine], apart from each other and from the free pages. *)
Record first_process (TR EP : Z) (program : Z → Z) (code_size : Z) (mine : Z → Prop)
    (kernel : Z → option Z) (s : machine) (p : ProcessInfo) : Prop := {
  fst_vm : vm_ok (pageTable p) s;
  fst_start : start_stack EP TR (kernelTask p) (trapFrame p) (ram s);
  fst_frame : TrapRet (trapFrame p) (ram s) =
    (zero_registers, {| c_rip := 0x1000; c_cs := Z.lor off_userCode64 3; c_rflags := 0x200;
                        c_rsp := 0; c_ss := Z.lor off_userData64 3 |});
  fst_size : 0 ≤ code_size ≤ 4096;
  fst_code : ∃ page,
    (∀ x, range page 4096 x → mine x ∧ ¬ touched (pageTable p) s x) ∧
    (∀ j, 0 ≤ j < 4096 → translate_in (pageTable p) s (0x1000 + j) =
       Some (page + j - HigherHalfDirectMapOffset s)) ∧
    (∀ j, 0 ≤ j < code_size → load8 (ram s) (page + j) = program j);
  fst_kernel va : ¬ same_page va 0x1000 → translate_in (pageTable p) s va = kernel va;
  fst_task : kernelTask p = kernelStack p + 3856 ∧ trapFrame p = kernelStack p + 3920;
  fst_stack x : range (kernelStack p) 4096 x → mine x ∧ ¬ touched (pageTable p) s x;
  fst_touched x : touched (pageTable p) s x → mine x;
}.

Lemma TrapRet_agree frame m m' :
  agree (range frame sizeof_InterruptRegisters) m' m → TrapRet frame m' = TrapRet frame m.
Proof.
  intros HA. assert (HL : ∀ o, 0 ≤ o → o + 8 ≤ 176 → load64 m' (frame + o) = load64 m (frame + o)).
  { intros o H0 Ho. apply (load_agree 8 _ _ _ _ HA). change sizeof_InterruptRegisters with 176.
    unfold range. lia. }
  unfold TrapRet, words_regs, words_context, word. rewrite <- !Z.add_assoc. by rewrite !HL by lia.
Qed.

(** It stays ready whatever happens to the free pages and outside its own addresses. *)
Lemma first_process_kept TR EP program code_size mine kernel s s' p :
  first_process TR EP program code_size mine kernel s p →
  vm_base s' → HigherHalfDirectMapOffset s' = HigherHalfDirectMapOffset s →
  (∀ x, pa_owned s' x → pa_owned s x) →
  agree (λ x, mine x ∧ ¬ pa_owned s x) (ram s') (ram s) →
  first_process TR EP program code_size mine kernel s' p.
Proof.
  intros [F1 F2 F3 F4 (page & G1 & G2 & G3) F5 [F6 F7] F8 F9] Hb Ho Hsub HA.
  destruct (vm_ok_kept (pageTable p) s s' F1 Hb Ho) as (V & X & T); [|done|].
  { eapply agree_weaken; [|exact HA]. intros x Hx. split; [by apply F9; left|].
    by apply (vm_apart _ _ F1). }
  assert (HS : agree (range (kernelStack p) 4096) (ram s') (ram s)).
  { eapply agree_weaken; [|exact HA]. intros x Hx. destruct (F8 x Hx) as [M N].
    split; [done|]. intros Hx'. apply N. by right. }
  split; try done.
  - eapply start_stack_agree; [|exact F2]. eapply agree_weaken; [|exact HS].
    change sizeof_KernelContext with 56. unfold range. lia.
  - rewrite <- F3. apply TrapRet_agree. eapply agree_weaken; [|exact HS].
    change sizeof_InterruptRegisters with 176. unfold range. lia.
  - exists page. split; [|split].
    + intros x Hx. destruct (G1 x Hx) as [M N]. split; [done|]. intros Hx'. by apply N, T.
    + intros j Hj. rewrite X, Ho. by apply G2.
    + intros j Hj. rewrite <- G3 by done. apply HA. destruct (G1 (page + j)) as [M N].
      * unfold range. lia.
      * split; [done|]. intros Hx'. apply N. by right.
  - intros va Hva. rewrite X. by apply F5.
  - intros x Hx. destruct (F8 x Hx) as [M N]. split; [done|]. intros Hx'. by apply N, T.
  - intros x Hx. by apply F9, T.
Qed.

Lemma first_process_state st TR EP program code_size mine kernel s p :
  first_process TR EP program code_size mine kernel s (set_state st p) ↔
  first_process TR EP program code_size mine kernel s p.
Proof. split; intros [F1 F2 F3 F4 F5 F6 F7 F8 F9]; by split. Qed.

Lemma first_process_weaken program' (mine' : Z → Prop) TR EP program code_size mine kernel s p :
  first_process TR EP program code_size mine kernel s p →
  (∀ x, mine x → mine' x) → (∀ j, 0 ≤ j < code_size → program j = program' j) →
  first_process TR EP program' code_size mine' kernel s p.
Proof.
  intros [F1 F2 F3 F4 (page & G1 & G2 & G3) F5 F6 F7 F8] Hm Hp. split; try done.
  - exists page. split; [|split; [done|]].
    + intros x Hx. destruct (G1 x Hx). auto.
    + intros j Hj. rewrite <- Hp by done. by apply G3.
  - intros x Hx. destruct (F7 x Hx). auto.
  - auto.
Qed.

Lemma first_process_set_env d e TR EP program code_size mine kernel s p :
  first_process TR EP program code_size mine kernel s p → CpuReady.cpu_ready d e →
  first_process TR EP program code_size mine kernel (set_env e s) p.
Proof.
  intros F He. destruct (vm_ok_set_env fuel d (pageTable p) e s (fst_vm _ _ _ _ _ _ _ _ F) He) as (V & _).
  apply (first_process_kept _ _ _ _ _ _ s); [done|by eapply vm_ok_base|done|done|apply agree_refl].
Qed.

Lemma first_process_set_ram m TR EP program code_size mine kernel s p :
  first_process TR EP program code_size mine kernel s p → agree mine m (ram s) →
  first_process TR EP program code_size mine kernel (set_ram m s) p.
Proof.
  intros F HA.
  assert (HT : agree (touched (pageTable p) s) m (ram s)).
  { eapply agree_weaken; [|exact HA]. apply (fst_touched _ _ _ _ _ _ _ _ F). }
  destruct (vm_write fuel (pageTable p) m s (fst_vm _ _ _ _ _ _ _ _ F) HT) as (V & _).
  destruct (pa_frame m s (vm_pa _ _ (fst_vm _ _ _ _ _ _ _ _ F))) as (_ & F2 & _).
  { eapply agree_weaken; [|exact HT]. intros x Hx. by right. }
  apply (first_process_kept _ _ _ _ _ _ s); [done|by eapply vm_ok_base|done|intros x Hx; by apply F2|].
  eapply agree_weaken; [|exact HA]. tauto.
Qed.

(** A fresh process with its program loaded and its trap frame stored is ready to run. *)
Lemma loaded_first_process TR EP code code_size k k1 s2 p page :
  let root := KernelPageTable k in
  let s := hw_state k in
  let m := store_frame (trapFrame p) 0x1000 (ram s2) in
  fresh_process EP TR k k1 p → loaded (pageTable p) 0x1000 code code_size (hw_state k1) s2 page →
  0 ≤ code_size ≤ 4096 → (∀ x, range code code_size x → ¬ touched root s x) →
  first_process TR EP (λ j, load8 (ram s) (code + j)) code_size (touched root s)
    (translate_in root s) (set_ram m s2) p ∧
  (∀ n, at_least n s2 → at_least n (set_ram m s2)) ∧
  agree (λ x, ¬ range (kernelStack p) 4096 x) m (ram s2).
Proof.
  intros root s m [F1 F2 F3 F4 F5 [F6 F7] F8 F9 F10 F11] [V2 C2 O2 [G2 A2] P2 B2 X2 Y2] Hsize Hcode.
  destruct (store_frame_spec (trapFrame p) 0x1000 (ram s2)) as [R1 R2]; [lia|].
  change sizeof_InterruptRegisters with 176 in R2. fold m in R1, R2.
  assert (Hstack : ∀ x, range (kernelStack p) 4096 x → ¬ touched (pageTable p) s2 x).
  { intros x Hx Ht. by apply (proj2 (F8 x Hx)), G2. }
  assert (Hm : agree (λ x, ¬ range (kernelStack p) 4096 x) m (ram s2)).
  { eapply agree_weaken; [|exact R2]. intros x Hx Hr. apply Hx. unfold range in *. lia. }
  assert (HT : agree (touched (pageTable p) s2) m (ram s2)).
  { eapply agree_weaken; [|exact Hm]. intros x Hx Hr. by apply (Hstack x Hr). }
  clearbody m. destruct (vm_write fuel (pageTable p) m s2 V2 HT) as (V3 & X3 & T3).
  split; [split|split; [|exact Hm]].
  - exact V3.
  - eapply start_stack_agree; [|exact F4]. change sizeof_KernelContext with 56.
    eapply agree_trans; [eapply agree_weaken; [|exact R2]; unfold range; lia|].
    eapply agree_weaken; [|exact A2]. intros x Hx. apply F8. unfold range in *. lia.
  - exact R1.
  - done.
  - exists page. split; [|split].
    + intros x Hx. destruct (P2 x Hx) as [Ht Hnt]. split; [by apply F9|]. intros Hx'. by apply Hnt, T3.
    + intros j Hj. rewrite X3, X2 by done. cbn [HigherHalfDirectMapOffset set_ram]. by rewrite O2.
    + intros j Hj. cbn [ram set_ram]. rewrite (Hm (page + j)).
      * rewrite B2 by done. apply F10. apply Hcode. unfold range. lia.
      * intros Hr. destruct (P2 (page + j)) as [Ht _]; [unfold range; lia|].
        by apply (proj2 (F8 (page + j) Hr)).
  - intros va Hva. rewrite X3, Y2 by done. apply F3.
  - lia.
  - intros x Hx. split; [by apply F8|]. intros Hx'. by apply (Hstack x Hx), T3.
  - intros x Hx. by apply F9, G2, T3.
  - intros n (q & Hq & Hq'). exists q. split; [|done].
    destruct (pa_frame m s2 (vm_pa _ _ V2)) as (_ & _ & N3); [|by apply N3].
    eapply agree_weaken; [|exact HT]. intros x Hx. by right.
Qed.

(** Everything [createFirstProcess] does when it succeeds. *)
Lemma createFirstProcess_spec TR EP code code_size k i n :
  let root := KernelPageTable k in
  let s := hw_state k in
  kernel_ready root k n → 6 ≤ n → find_unused 0 (ProcessTable k) = Some i →
  0 ≤ TR < 2 ^ 64 → 0 ≤ EP < 2 ^ 64 → 0 ≤ code_size ≤ 4096 →
  (∀ x, range code code_size x → ¬ touched root s x) →
  ∃ k' p, createFirstProcess fuel TR EP code code_size k = Done k' ∧
    ProcessTable k' = <[i := p]> (ProcessTable k) ∧ ProcessTableSpinlock k' = 0 ∧
    env_ready (hw_state k') ∧ state p = Runnable ∧
    first_process TR EP (λ j, load8 (ram s) (code + j)) code_size (touched root s)
      (translate_in root s) (hw_state k') p ∧
    at_least (n - 6) (hw_state k') ∧
    HigherHalfDirectMapOffset (hw_state k') = HigherHalfDirectMapOffset s ∧
    agree (λ x, ¬ touched root s x) (ram (hw_state k')) (ram s).
Proof.
  intros root s Hk Hn Hi HTR HEP Hsize Hcode. unfold createFirstProcess.
  destruct (allocateProcess_spec TR EP k i n Hk ltac:(lia) Hi HTR HEP)
    as (k1 & p & E1 & T1 & _ & [L1 C1 _ N1] & F).
  pose proof F as [F1 F2 _ _ _ _ F8 F9 F10 F11].
  rewrite E1. cbn [mbind outcome_bind].
  destruct (load_program (pageTable p) (hw_state k1) (n - 2) code code_size 0x1000)
    as (page & s1 & s2 & E2 & E3 & Ld & N2); try done; try lia.
  { intros x Hx Ht. by apply (Hcode x Hx), F9. }
  rewrite E2. cbn [mbind outcome_bind].
  destruct (find_unused_lookup _ _ _ Hi) as (d & p0 & -> & Hp0 & _ & _). simpl in *.
  assert (Hlk : ProcessTable k1 !! d = Some p).
  { rewrite T1. apply list_lookup_insert_eq. by eapply lookup_lt_Some. }
  unfold with_slot at 1. rewrite Hlk, E3. cbn [mbind outcome_bind].
  destruct (loaded_first_process TR EP code code_size k k1 s2 p page F Ld Hsize Hcode) as (P & N3 & Hm).
  pose proof Ld as [_ C2 O2 [_ A2] _ _ _ _].
  set (m := store_frame (trapFrame p) 0x1000 (ram s2)) in *.
  destruct (acquire_table_spec depth (set_hw (set_ram m s2) k1) L1 C2) as (e1 & E4 & He1).
  rewrite E4. cbn [mbind outcome_bind].
  match goal with |- context [release_table ?k2] =>
    destruct (release_table_spec depth k2 He1) as (e2 & E5 & He2) end.
  rewrite E5. eexists _, (set_state Runnable p). split; [reflexivity|].
  cbn [ProcessTable ProcessTableSpinlock hw_state set_lock set_hw set_slot].
  rewrite T1, list_insert_insert_eq. split; [done|]. split; [done|]. split; [exact He2|].
  split; [done|]. clearbody m. split; [|split; [|split]].
  - apply first_process_state, (first_process_set_env depth); [|exact He2].
    by apply (first_process_set_env depth).
  - destruct (vm_ok_set_env fuel depth _ e1 _ (fst_vm _ _ _ _ _ _ _ _ P) He1) as (V4 & N4 & _).
    apply (vm_ok_set_env fuel depth _ e2 _ V4 He2), N4, N3. eapply at_least_weaken; [|exact N2]. lia.
  - cbn. by rewrite O2.
  - cbn [ram set_env set_ram]. eapply agree_trans; [eapply agree_weaken; [|exact Hm]|].
    { intros x Hx Hr. by apply Hx, F8. }
    eapply agree_trans; [eapply agree_weaken; [|exact A2]|exact F10]. intros x Hx Ht. by apply Hx, F9.
Qed.

(** C9. [createFirstProcess] puts a process that is ready to run into the first unused slot and
    releases the table's lock. *)
Theorem createFirstProcess_runs TR EP code code_size k i n :
  let root := KernelPageTable k in
  let s := hw_state k in
  kernel_ready root k n → 6 ≤ n → find_unused 0 (ProcessTable k) = Some i →
  0 ≤ TR < 2 ^ 64 → 0 ≤ EP < 2 ^ 64 → 0 ≤ code_size ≤ 4096 →
  (∀ x, range code code_size x → ¬ touched root s x) →
  ∃ k' p, createFirstProcess fuel TR EP code code_size k = Done k' ∧
    ProcessTable k' = <[i := p]> (ProcessTable k) ∧ ProcessTableSpinlock k' = 0 ∧
    env_ready (hw_state k') ∧ state p = Runnable ∧
    first_process TR EP (λ j, load8 (ram s) (code + j)) code_size (touched root s)
      (translate_in root s) (hw_state k') p.
Proof.
  intros root s H1 H2 H3 H4 H5 H6 H7.
  destruct (createFirstProcess_spec TR EP code code_size k i n H1 H2 H3 H4 H5 H6 H7)
    as (k' & p & E & T & L & C & S & F & _). by exists k', p.
Qed.

(** With a full table [allocateProcess] changes nothing but the processor's record. *)
Lemma allocateProcess_full TR EP k :
  ProcessTableSpinlock k = 0 → env_ready (hw_state k) → find_unused 0 (ProcessTable k) = None →
  ∃ e, allocateProcess fuel TR EP k = Done (None, set_hw (set_env e (hw_state k)) k).
Proof.
  intros Hl Hc Hn. destruct (acquire_table_spec depth k Hl Hc) as (e1 & E1 & He1). unfold allocateProcess.
  rewrite E1. cbn [mbind outcome_bind ProcessTable hw_state KernelPageTable set_lock set_hw].
  rewrite Hn.
  match goal with |- context [release_table ?k2] =>
    destruct (release_table_spec depth k2 He1) as (e2 & E2 & He2) end.
  rewrite E2. cbn [mbind outcome_bind]. exists e2. destruct k; simpl in *. by subst.
Qed.

(** [freeProcess], for a kernel stack that lies apart from every free chunk and above the first
    one. *)
Lemma freeProcess_spec i p k l1 l2 :
  ProcessTableSpinlock k = 0 → env_ready (hw_state k) → lock_ready (hw_state k) →
  ProcessTable k !! i = Some p → free_list (hw_state k) (l1 ++ l2) → (length l1 ≤ fuel)%nat →
  1 ≤ kernelStack p → kernelStack p + PageSize ≤ 2 ^ 64 → (l1 = [] → l2 = []) →
  (∀ b n, (b, n) ∈ l1 → b + PageSize * n < kernelStack p) →
  (∀ b n, (b, n) ∈ l2 → kernelStack p + PageSize < b) →
  ∃ k', freeProcess fuel i k = Done k' ∧
    ProcessTable k' = <[i := set_state Unused p]> (ProcessTable k) ∧ ProcessTableSpinlock k' = 0 ∧
    free_list (hw_state k') (l1 ++ (kernelStack p, 1) :: l2) ∧
    steady depth (env (hw_state k)) (env (hw_state k')) ∧
    agree (λ x, ¬ range (kernelStack p) PageSize x ∧ ¬ headers (l1 ++ l2) x)
      (ram (hw_state k')) (ram (hw_state k)).
Proof.
  intros Hl Hc Hr Hi Hfl Hf H1 H2 Hnil Hb1 Hb2.
  destruct (acquire_table_spec depth k Hl Hc) as (e1 & E1 & He1).
  pose proof (acquire_table_steady depth _ _ E1) as R1. unfold freeProcess.
  rewrite E1. cbn [mbind outcome_bind]. unfold with_slot.
  cbn [ProcessTable hw_state set_lock set_hw set_slot]. rewrite Hi.
  assert (Hr1 : lock_ready (set_env e1 (hw_state k))).
  { destruct Hr as [Hr0 Hr]. split; [exact Hr0|]. intros Hu. split; [by apply Hr|by apply (cpu_ready_record depth)]. }
  change PageSize with 4096 in *.
  destruct (freePages_insert_spec fuel (kernelStack p) 1 (set_env e1 (hw_state k)) l1 l2)
    as (s' & E2 & Hl' & _ & _ & HA); try done; try (change PageSize with 4096; lia).
  unfold freePage. rewrite E2. cbn [mbind outcome_bind].
  match goal with |- context [release_table ?k2] =>
    destruct (release_table_spec depth k2) as (e3 & E3 & He3) end.
  { by apply (freePages_steady _ _ _ _ _ _ E2). }
  pose proof (release_table_steady depth _ _ E3) as R3.
  rewrite E3. eexists. split; [reflexivity|]. cbn. do 3 (split; [done|]). split; [|exact HA].
  etrans; [exact R1|]. etrans; [|exact R3]. exact (freePages_steady _ _ _ _ _ _ E2).
Qed.

(** [freeProcess] gives the kernel stack back to the allocator, when it lies apart from every
    free chunk and above the first one, and makes the slot unused; the pages of the address space
    stay allocated. *)
Theorem freeProcess_returns_stack i p k l1 l2 :
  ProcessTableSpinlock k = 0 → env_ready (hw_state k) → lock_ready (hw_state k) →
  ProcessTable k !! i = Some p → free_list (hw_state k) (l1 ++ l2) → (length l1 ≤ fuel)%nat →
  1 ≤ kernelStack p → kernelStack p + PageSize ≤ 2 ^ 64 → (l1 = [] → l2 = []) →
  (∀ b n, (b, n) ∈ l1 → b + PageSize * n < kernelStack p) →
  (∀ b n, (b, n) ∈ l2 → kernelStack p + PageSize < b) →
  ∃ k', freeProcess fuel i k = Done k' ∧
    ProcessTable k' = <[i := set_state Unused p]> (ProcessTable k) ∧ ProcessTableSpinlock k' = 0 ∧
    free_list (hw_state k') (l1 ++ (kernelStack p, 1) :: l2).
Proof.
  intros H1 H2 H3 H4 H5 H6 H7 H8 H9 H10 H11.
  destruct (freeProcess_spec i p k l1 l2 H1 H2 H3 H4 H5 H6 H7 H8 H9 H10 H11) as (k' & E & T & L & F & _).
  by exists k'.
Qed.

(** With one page left [allocateProcess] fails for want of a kernel stack: the slot is unused
    again, but the page taken for the page table is not given back. *)
Theorem allocateProcess_leaks TR EP k i root n b :
  kernel_ready root k n → (1 ≤ fuel)%nat →
  free_list (hw_state k) [(b, 1)] → find_unused 0 (ProcessTable k) = Some i →
  ∃ k' p, allocateProcess fuel TR EP k = Done (None, k') ∧
    ProcessTable k' = <[i := p]> (ProcessTable k) ∧ state p = Unused ∧
    free_list (hw_state k') [].
Proof.
  intros [Hl Hc Hvm _] Hf Hfl Hi.
  destruct (acquire_table_spec depth k Hl Hc) as (e1 & E1 & He1). unfold allocateProcess.
  rewrite E1. cbn [mbind outcome_bind ProcessTable hw_state KernelPageTable set_lock set_hw].
  rewrite Hi. destruct (find_unused_lookup _ _ _ Hi) as (d & p0 & -> & Hp0 & _ & _). simpl.
  pose proof (lock_ready_set_env depth e1 _ (proj1 (vm_pa _ _ Hvm)) He1) as Hr0.
  destruct (allocatePages_spec fuel 1 (set_env e1 (hw_state k)) [(b, 1)] Hfl Hr0)
    as (s1 & E2 & Hl1 & Hu1 & _ & _); [simpl; lia|done|].
  assert (Hc1 : env_ready s1) by (by apply (allocatePages_steady _ _ _ _ _ _ E2)).
  unfold shallowCopy. cbn [pa_allocatePage phys_pages]. unfold allocatePage. rewrite E2.
  cbn [mbind outcome_bind pa_set_ram pa_ram phys_pages].
  set (s2 := set_ram _ s1).
  assert (Hl2 : free_list s2 []).
  { apply free_list_set_ram; [exact Hl1|]. by intros x (? & ? & ?%not_elem_of_nil & _). }
  unfold with_slot. cbn [ProcessTable set_lock set_hw]. rewrite Hp0.
  match goal with |- context [release_table ?k2] =>
    destruct (release_table_spec depth k2 Hc1) as (e3 & E3 & He3) end.
  rewrite E3. cbn [mbind outcome_bind hw_state set_lock set_hw set_slot].
  destruct (allocatePages_spec fuel 1 (set_env e3 s2) [] Hl2)
    as (s4 & E4 & Hl4 & _); [|simpl; lia|done|].
  { split; [by apply (free_list_head_range s2 [])|]. intros Hu. change (usingLock (Memory s1) = true) in Hu. congruence. }
  rewrite E4. cbn [mbind outcome_bind]. eexists _, _. split; [reflexivity|]. cbn.
  rewrite list_insert_insert_eq. done.
Qed.
End proofs.

(** ** Concrete runs *)

Definition empty_kernel (root : Z) (s : machine) : kernel :=
  {| hw_state := s; ProcessTable := replicate 64 zero_process; ProcessTableSpinlock := 0;
     KernelPageTable := root |}.

(** A kernel with an address space and 511 free pages. *)
Lemma example_kernel_ready :
  ∃ k, kernel_ready 1024 0 (KernelPageTable k) k 511 ∧
    ProcessTable k = replicate 64 zero_process ∧
    ∀ x, x < 0x1000 → ¬ @touched machine (phys_pages 1024) (phys_pages_laws 1024) (KernelPageTable k) (hw_state k) x.
Proof.
  destruct (example_booted 1024) as (s & Hb & Hn & Ho); [lia|].
  destruct (@allocateRootPageTable_spec machine (phys_pages 1024) (phys_pages_laws 1024) 512 s Hb Hn)
    as (root & s1 & _ & _ & Ho1 & V & C & _); [lia|].
  exists (empty_kernel root (set_env one_cpu s1)).
  assert (Hoff : HigherHalfDirectMapOffset s1 = example_offset) by (rewrite <- Ho; exact Ho1).
  split; [|split; [done|]].
  - split; [done|exact one_cpu_ready|by apply (vm_ok_set_env 1024 0), one_cpu_ready|exact C].
  - intros x Hx [(t & Ht & Hxt)|Hx'].
    + destruct (ptw_page _ _ _ (vm_wf _ _ V) t Ht) as (_ & [Hlo _] & _).
      change (HigherHalfDirectMapOffset s1 ≤ t) in Hlo. rewrite Hoff in Hlo.
      unfold example_offset in Hlo. lia.
    + pose proof (vm_low _ _ V x Hx') as [Hlo _]. change (HigherHalfDirectMapOffset s1 ≤ x) in Hlo.
      rewrite Hoff in Hlo. unfold example_offset in Hlo. lia.
Qed.

Lemma createFirstProcess_runs_witness :
  ∃ k k' p, createFirstProcess 1024 0xffffffff80001000 0xffffffff80002000 0x100 20 k = Done k' ∧
    ProcessTable k' !! 0%nat = Some p ∧ state p = Runnable.
Proof.
  destruct example_kernel_ready as (k & Hk & Ht & Hx).
  destruct (createFirstProcess_runs 1024 0 0xffffffff80001000 0xffffffff80002000 0x100 20 k 0%nat 511)
    as (k' & p & E & T & _ & _ & S & _); [exact Hk|lia|by rewrite Ht|lia|lia|lia| |].
  - intros x Hr. apply Hx. unfold range in Hr. lia.
  - exists k, k', p. split; [exact E|]. rewrite T, Ht. split; [done|].
    exact S.
Defined.

(** One page left. *)
Definition example_last : machine := done_or blank (freePages 4 page0 1 blank).

Lemma example_last_list : free_list example_last [(page0, 1)].
Proof. split; [|eexists]; vm_compute; [by repeat split|]. by repeat split. Qed.

Lemma example_last_root :
  @vm_ok machine (phys_pages 2) (phys_pages_laws 2) example_root (set_env one_cpu example_last).
Proof.
  assert (Hown : ∀ x, phys_owned example_last x → page0 ≤ x < page0 + 4096).
  { intros x. rewrite (phys_owned_iff _ _ _ example_last_list). unfold free_bytes.
    change PageSize with 4096.
    intros (b & n & [[= -> ->]|[]%not_elem_of_nil]%elem_of_cons & Hx). lia. }
  apply (vm_ok_set_env 2 0); [|exact one_cpu_ready]. refine (proj1 (zero_root _ _ _ _ _ _)).
  - split; [|split].
    + split; [split; [by vm_compute|intros H; by vm_compute in H]|].
      eexists. split; [apply example_last_list|].
      split; [|simpl; lia]. by apply Forall_cons; split; [|apply Forall_nil_2].
    + by vm_compute.
    + intros x Hx%Hown. change (pa_offset example_last) with 0xffff800000000000.
      unfold page0 in Hx. change (2 ^ 31) with 0x80000000. lia.
  - by vm_compute.
  - intros x Hx Hx'%Hown. unfold range, example_root in Hx. lia.
  - intros j Hj. unfold entry. change (pa_ram example_last) with (ram example_last).
    assert (forallb (λ i : nat, load64 (ram example_last) (example_root + 8 * Z.of_nat i) =? 0) (seq 0 512) = true)
      as H by (vm_compute; reflexivity).
    rewrite forallb_forall in H. apply Z.eqb_eq.
    rewrite <- (Z2Nat.id j) by lia. apply H, in_seq. lia.
Qed.

Lemma allocateProcess_leaks_witness :
  ∃ k', allocateProcess 2 0 0 (empty_kernel example_root (set_env one_cpu example_last)) = Done (None, k') ∧
    free_list (hw_state k') [].
Proof.
  destruct (allocateProcess_leaks 2 0 0 0 (empty_kernel example_root (set_env one_cpu example_last)) 0%nat
              example_root 1 page0) as (k' & p & E & _ & _ & L).
  - split; [reflexivity|exact one_cpu_ready|exact example_last_root|].
    exists 1. split; [|lia]. eexists. split; [exact example_last_list|reflexivity].
  - lia.
  - exact example_last_list.
  - reflexivity.
  - exists k'. split; [exact E|exact L].
Defined.

Definition example_task (n : Z) : task :=
  {| t_rbx := n; t_rbp := n + 1; t_r12 := n + 2; t_r13 := n + 3; t_r14 := n + 4; t_r15 := n + 5;
     t_rsp := 0x1000 * n |}.

Lemma Pause_resumes_witness :
  let '(saved, m1, _) := Pause (example_task 1) 0x11 0x1F00 (λ _, 0) in
  ∃ saved2 m3, Pause (example_task 2) 0x22 saved m1 = (saved2, m3, (0x11, example_task 1)).
Proof.
  destruct (Pause (example_task 1) 0x11 0x1F00 (λ _, 0)) as [[saved m1] running] eqn:E.
  apply (Pause_resumes (example_task 1) 0x11 0x1F00 (λ _, 0) saved m1 running (example_task 2) 0x22 m1).
  - words_tac.
  - words_tac.
  - exact E.
  - apply agree_refl.
  - injection E as <- _ _. left. by vm_compute.
Defined.

Definition example_exit : kernel :=
  {| hw_state := set_env one_cpu example;
     ProcessTable := [{| pageTable := 0; state := Running; kernelStack := page0 + 0x8000;
                         kernelTask := 0; trapFrame := 0 |}];
     ProcessTableSpinlock := 0; KernelPageTable := 0 |}.

Lemma freeProcess_returns_stack_witness :
  ∃ k', freeProcess 2 0 example_exit = Done k' ∧
    free_list (hw_state k') [(page0, 2); (page0 + 0x8000, 1); (page0 + 0x10000, 3)].
Proof.
  destruct (freeProcess_returns_stack 2 0 0 (nth 0 (ProcessTable example_exit) zero_process) example_exit
              [(page0, 2)] [(page0 + 0x10000, 3)]) as (k' & E & _ & _ & L).
  - reflexivity.
  - exact one_cpu_ready.
  - split; [by vm_compute|intros H; by vm_compute in H].
  - reflexivity.
  - exact example_free_list.
  - simpl; lia.
  - by vm_compute.
  - by vm_compute.
  - done.
  - intros b n [[= -> ->]|[]%not_elem_of_nil]%elem_of_cons. by vm_compute.
  - intros b n [[= -> ->]|[]%not_elem_of_nil]%elem_of_cons. by vm_compute.
  - exists k'. split; [exact E|exact L].
Defined.
