(* ===== verification/Scheduler.v ===== *)
(** [ProcessManagement.cpp]: how the scheduler chooses a process, hands the processor over to it
    and gets it back. *)

From S2P Require Import Prelude Mem GDT Cpu Spinlock ChunkList PhysMem PageAlloc CpuReady PhysPages Traps Processor Process.

(** ** Choosing a process *)

(** The loop's [p = p++] gives [p] its old value. *)
Definition next_slot (p : nat) : nat := p.

(** The loop over the table up to the next process to run, from slot [p] on. *)
Fixpoint find_runnable (fuel : nat) (p : nat) (k : kernel) : outcome (option nat) :=
  if (p <? 64)%nat then
    match fuel with
    | O => Stuck OutOfFuel
    | S fuel =>
        with_slot p k (λ info,
          if decide (state info = Runnable) then Done (Some p)
          else find_runnable fuel (next_slot p) k)
    end
  else Done None.

(** The scheduler chooses the process in slot [p]: the value for [cr3]. *)
Definition sizeof_ProcessInfo : Z := 40.
Definition set_current (process : Z) (c : CPUState) : CPUState :=
  {| apicID := apicID c; cliCount := cliCount c; wereInterruptsEnabled := wereInterruptsEnabled c;
     currentProcess := process; interruptStack := interruptStack c; table := table c;
     userStack := userStack c; schedulerTask := schedulerTask c |}.
Definition select_process (table_address : Z) (p : nat) (k : kernel) : outcome (Z * kernel) :=
  with_slot p k (λ info,
    with_this (env (hw_state k)) (λ i cpu,
      let cpu := set_current (table_address + sizeof_ProcessInfo * Z.of_nat p) cpu in
      let s := set_env (put_cpu i cpu (env (hw_state k))) (hw_state k) in
      Done (toPhysical s (pageTable info), set_slot p (set_state Running info) (set_hw s k)))).

(** And hands over to it: what [Pause] resumes.  [c] and [ret] are the scheduler's registers and
    return address. *)
Definition set_scheduler (saved : Z) (c : CPUState) : CPUState :=
  {| apicID := apicID c; cliCount := cliCount c; wereInterruptsEnabled := wereInterruptsEnabled c;
     currentProcess := currentProcess c; interruptStack := interruptStack c; table := table c;
     userStack := userStack c; schedulerTask := saved |}.
Definition switch_to (c : task) (ret : Z) (p : nat) (k : kernel) : outcome ((Z * task) * kernel) :=
  with_slot p k (λ info,
    with_this (env (hw_state k)) (λ i cpu,
      let '(saved, m, next) := Pause c ret (kernelTask info) (ram (hw_state k)) in
      let s := set_env (put_cpu i (set_scheduler saved cpu) (env (hw_state k)))
                 (set_ram m (hw_state k)) in
      Done (next, set_hw s k))).

Definition dispatch (table_address : Z) (c : task) (ret : Z) (p : nat) (k : kernel)
    : outcome (Z * (Z * task) * kernel) :=
  '(cr3, k) ← select_process table_address p k;
  '(next, k) ← switch_to c ret p k;
  Done (cr3, next, k).

(** The slot a [ProcessInfo*] points to. *)
Definition slot_of (table_address ptr : Z) : nat := Z.to_nat ((ptr - table_address) / sizeof_ProcessInfo).

(** [enterSchedulerFromProcess], called by the current process with registers [c] and return
    address [ret]: where execution goes on. *)
Definition enterSchedulerFromProcess (table_address : Z) (c : task) (ret : Z) (k : kernel)
    : outcome ((Z * task) * kernel) :=
  with_this (env (hw_state k)) (λ _ cpu,
    if currentProcess cpu =? 0 then Stuck NullDeref
    else
      let p := slot_of table_address (currentProcess cpu) in
      with_slot p k (λ info,
        let '(saved, m, next) := Pause c ret (schedulerTask cpu) (ram (hw_state k)) in
        let info := {| pageTable := pageTable info; state := state info;
                       kernelStack := kernelStack info; kernelTask := saved;
                       trapFrame := trapFrame info |} in
        Done (next, set_slot p info (set_hw (set_ram m (hw_state k)) k)))).

Definition exitCurrentProcess (fuel : nat) (table_address : Z) (c : task) (ret : Z) (k : kernel)
    : outcome ((Z * task) * kernel) :=
  with_this (env (hw_state k)) (λ _ cpu,
    k ← freeProcess fuel (slot_of table_address (currentProcess cpu)) k;
    enterSchedulerFromProcess table_address c ret k).

(** ** Theorems: choosing a process *)

(** The scan never leaves the slot it begins at: it finds that slot or it goes on for ever. *)
Lemma find_runnable_stays fuel p k info :
  (p < 64)%nat → ProcessTable k !! p = Some info →
  find_runnable fuel p k =
    match fuel with
    | O => Stuck OutOfFuel
    | _ => if decide (state info = Runnable) then Done (Some p) else Stuck OutOfFuel
    end.
Proof.
  intros Hp Hi. apply Nat.ltb_lt in Hp. induction fuel as [|fuel IH]; simpl; rewrite Hp; [done|].
  unfold with_slot. rewrite Hi. case_decide; [done|]. unfold next_slot. rewrite IH. by destruct fuel.
Qed.

(** The scheduler only ever runs the process in the first slot: while that one is not runnable the
    loop does not end, with the table's lock held, whatever the other slots hold. *)
Theorem schedule_first_slot_only fuel k info :
  ProcessTable k !! 0%nat = Some info →
  (state info = Runnable → find_runnable (S fuel) 0 k = Done (Some 0%nat)) ∧
  (state info ≠ Runnable → find_runnable fuel 0 k = Stuck OutOfFuel).
Proof.
  intros Hi. rewrite !(find_runnable_stays _ 0 k info) by (done || lia). split; intros Hs.
  - by rewrite decide_True.
  - rewrite decide_False by done. by destruct fuel.
Qed.

(** ** Theorems: handing the processor over *)

Lemma select_process_spec table_address p k info i cpu :
  ProcessTable k !! p = Some info → cpu_of (env (hw_state k)) i cpu →
  let cpu' := set_current (table_address + sizeof_ProcessInfo * Z.of_nat p) cpu in
  let e := put_cpu i cpu' (env (hw_state k)) in
  select_process table_address p k =
    Done (toPhysical (hw_state k) (pageTable info),
          set_slot p (set_state Running info) (set_hw (set_env e (hw_state k)) k)) ∧
  cpu_of e i cpu'.
Proof.
  intros Hp Hc cpu' e. unfold select_process, with_slot. rewrite Hp, (with_this_of _ i cpu) by done.
  split; [done|]. by eapply cpu_of_put_cpu.
Qed.

(** What [switch_to] leaves behind: the scheduler's context below its stack pointer. *)
Lemma switch_to_spec c ret p k info i cpu :
  ProcessTable k !! p = Some info → cpu_of (env (hw_state k)) i cpu →
  words_ok (task_words ret c) →
  disj (kernelTask info) sizeof_KernelContext (t_rsp c - sizeof_KernelContext) sizeof_KernelContext →
  let saved := t_rsp c - sizeof_KernelContext in
  let e := put_cpu i (set_scheduler saved cpu) (env (hw_state k)) in
  ∃ m, switch_to c ret p k =
      Done (resume (kernelTask info) (ram (hw_state k)),
            set_hw (set_env e (set_ram m (hw_state k))) k) ∧
    cpu_of e i (set_scheduler saved cpu) ∧
    (∀ m', agree (range saved sizeof_KernelContext) m' m → resume saved m' = (ret, c)) ∧
    agree (λ x, ¬ range saved sizeof_KernelContext x) m (ram (hw_state k)).
Proof.
  intros Hp Hc Hw Hd saved e. unfold switch_to, with_slot. rewrite Hp, (with_this_of _ i cpu) by done.
  pose proof (Pause_saves c ret (kernelTask info) (ram (hw_state k)) Hw) as HP.
  destruct (Pause c ret (kernelTask info) (ram (hw_state k))) as [[saved' m] nx] eqn:E.
  destruct HP as (-> & HR & HA).
  assert (nx = resume (kernelTask info) m) as ->
    by (unfold Pause in E; destruct (push_all _ _ _) as [sp m']; by injection E as _ <- <-).
  rewrite (resume_agree _ m (ram (hw_state k))).
  2:{ eapply agree_weaken; [|exact HA]. unfold range, disj in *. lia. }
  exists m. split; [done|]. split; [by eapply cpu_of_put_cpu|]. by split.
Qed.

(** Both together. *)
Lemma dispatch_spec table_address c ret p k info i cpu :
  ProcessTable k !! p = Some info → cpu_of (env (hw_state k)) i cpu →
  words_ok (task_words ret c) →
  disj (kernelTask info) (sizeof_KernelContext + 8)
       (t_rsp c - sizeof_KernelContext) sizeof_KernelContext →
  ∃ cpu' k', dispatch table_address c ret p k =
      Done (toPhysical (hw_state k) (pageTable info), resume (kernelTask info) (ram (hw_state k)), k') ∧
    ProcessTable k' = <[p := set_state Running info]> (ProcessTable k) ∧
    cpu_of (env (hw_state k')) i cpu' ∧
    currentProcess cpu' = table_address + sizeof_ProcessInfo * Z.of_nat p ∧
    schedulerTask cpu' = t_rsp c - sizeof_KernelContext ∧
    (∀ m, agree (range (schedulerTask cpu') sizeof_KernelContext) m (ram (hw_state k')) →
       resume (schedulerTask cpu') m = (ret, c)) ∧
    agree (range (kernelTask info) (sizeof_KernelContext + 8)) (ram (hw_state k')) (ram (hw_state k)).
Proof.
  intros Hp Hc Hw Hd. unfold dispatch.
  destruct (select_process_spec table_address p k info i cpu Hp Hc) as [-> Hc1].
  cbn [mbind outcome_bind]. set (k1 := set_slot _ _ _).
  assert (Hp1 : ProcessTable k1 !! p = Some (set_state Running info)).
  { apply list_lookup_insert_eq. by eapply lookup_lt_Some. }
  destruct (switch_to_spec c ret p k1 _ i _ Hp1 Hc1 Hw) as (m & -> & Hc2 & HR & HA).
  { change sizeof_KernelContext with 56 in *. unfold disj in *. simpl. lia. }
  eexists _, _. split; [reflexivity|]. cbn. split; [done|]. split; [exact Hc2|]. do 2 (split; [done|]).
  split; [exact HR|]. eapply agree_weaken; [|exact HA].
  change sizeof_KernelContext with 56 in *. unfold range, disj in *. lia.
Qed.

(** The slot of the process at [table_address + 40 * p]. *)
Lemma slot_of_address table_address p :
  slot_of table_address (table_address + sizeof_ProcessInfo * Z.of_nat p) = p.
Proof.
  unfold slot_of. change sizeof_ProcessInfo with 40.
  replace (_ - _) with (Z.of_nat p * 40) by lia. rewrite Z.div_mul by lia. lia.
Qed.

(** The way back: the current process's registers go below its stack pointer, and the scheduler
    goes on from its own context. *)
Lemma enterSchedulerFromProcess_spec table_address c ret k info p i cpu :
  ProcessTable k !! p = Some info → cpu_of (env (hw_state k)) i cpu →
  currentProcess cpu = table_address + sizeof_ProcessInfo * Z.of_nat p → 0 < table_address →
  words_ok (task_words ret c) →
  let saved := t_rsp c - sizeof_KernelContext in
  disj (schedulerTask cpu) sizeof_KernelContext saved sizeof_KernelContext →
  ∃ m info', enterSchedulerFromProcess table_address c ret k =
      Done (resume (schedulerTask cpu) (ram (hw_state k)),
            set_slot p info' (set_hw (set_ram m (hw_state k)) k)) ∧
    state info' = state info ∧ kernelTask info' = saved ∧ resume saved m = (ret, c) ∧
    agree (λ x, ¬ range saved sizeof_KernelContext x) m (ram (hw_state k)).
Proof.
  intros Hp Hc Hcur Ht Hw saved Hd. unfold enterSchedulerFromProcess.
  rewrite (with_this_of _ i cpu), Hcur by done.
  destruct (Z.eqb_spec (table_address + sizeof_ProcessInfo * Z.of_nat p) 0) as [H0|_].
  { unfold sizeof_ProcessInfo in H0. lia. }
  rewrite slot_of_address. unfold with_slot. rewrite Hp.
  pose proof (Pause_saves c ret (schedulerTask cpu) (ram (hw_state k)) Hw) as HP.
  destruct (Pause c ret _ _) as [[saved' m] nx] eqn:E. destruct HP as (-> & HR & HA).
  assert (nx = resume (schedulerTask cpu) m) as ->
    by (unfold Pause in E; destruct (push_all _ _ _) as [sp m']; by injection E as _ <- <-).
  rewrite (resume_agree _ m (ram (hw_state k))).
  2:{ eapply agree_weaken; [|exact HA]. unfold range, disj, saved in *. lia. }
  eexists m, _. split; [reflexivity|]. do 2 (split; [done|]). split; [by apply HR|exact HA].
Qed.

(** C13. The scheduler hands over to a new process and gets the processor back: dispatching a process
    whose stack [createFirstProcess] built enters [ProcessEntryPoint] with [TrapRet] to return
    to; and when the process later enters the scheduler, on a stack that does not reach the
    scheduler's saved context, the scheduler goes on where it was, while the process's own
    registers wait behind its [kernelTask]. *)
Theorem dispatch_and_back table_address c ret p k info i cpu EP TR c2 ret2 :
  ProcessTable k !! p = Some info → cpu_of (env (hw_state k)) i cpu →
  words_ok (task_words ret c) → words_ok (task_words ret2 c2) → 0 < table_address →
  start_stack EP TR (kernelTask info) (trapFrame info) (ram (hw_state k)) →
  disj (kernelTask info) (sizeof_KernelContext + 8)
       (t_rsp c - sizeof_KernelContext) sizeof_KernelContext →
  ∃ k1, dispatch table_address c ret p k =
      Done (toPhysical (hw_state k) (pageTable info), (EP, entry_task (kernelTask info)), k1) ∧
    state <$> ProcessTable k1 !! p = Some Running ∧
    start_stack EP TR (kernelTask info) (trapFrame info) (ram (hw_state k1)) ∧
    ∀ k2, env (hw_state k2) = env (hw_state k1) → ProcessTable k2 = ProcessTable k1 →
      agree (range (t_rsp c - sizeof_KernelContext) sizeof_KernelContext)
        (ram (hw_state k2)) (ram (hw_state k1)) →
      disj (t_rsp c - sizeof_KernelContext) sizeof_KernelContext
        (t_rsp c2 - sizeof_KernelContext) sizeof_KernelContext →
      ∃ k3 info3, enterSchedulerFromProcess table_address c2 ret2 k2 = Done ((ret, c), k3) ∧
        ProcessTable k3 !! p = Some info3 ∧
        resume (kernelTask info3) (ram (hw_state k3)) = (ret2, c2).
Proof.
  intros Hp Hc Hw Hw2 Ht Hst Hd.
  destruct (dispatch_spec table_address c ret p k info i cpu Hp Hc Hw Hd)
    as (cpu' & k1 & E1 & T1 & Hc1 & Hcur & Hsch & HR & HA).
  exists k1. rewrite (proj1 Hst) in E1. split; [exact E1|].
  assert (Hp1 : ProcessTable k1 !! p = Some (set_state Running info)).
  { rewrite T1. apply list_lookup_insert_eq. by eapply lookup_lt_Some. }
  split; [by rewrite Hp1|]. split; [by eapply start_stack_agree|].
  intros k2 He2 T2 HA2 Hd2. rewrite <- T2 in Hp1. rewrite <- He2 in Hc1.
  destruct (enterSchedulerFromProcess_spec table_address c2 ret2 k2 _ p i cpu' Hp1 Hc1 Hcur Ht Hw2)
    as (m & info3 & E3 & _ & K3 & R3 & _); [by rewrite Hsch|].
  rewrite HR in E3 by (by rewrite Hsch). eexists _, info3. split; [exact E3|].
  rewrite K3. split; [apply list_lookup_insert_eq; by eapply lookup_lt_Some|exact R3].
Qed.

(** ** Lemmas: the end of a process *)

(** Ending the process in slot [p], from a stack that meets neither the scheduler's saved context
    nor a header of the free list: the slot is unused, the kernel stack back on the list, and the
    scheduler goes on from its context. *)
Lemma exitCurrentProcess_spec fuel depth table_address c ret p k info i cpu l1 l2 :
  ProcessTableSpinlock k = 0 → env_ready depth (hw_state k) → lock_ready (hw_state k) →
  ProcessTable k !! p = Some info → cpu_of (env (hw_state k)) i cpu →
  currentProcess cpu = table_address + sizeof_ProcessInfo * Z.of_nat p → 0 < table_address →
  words_ok (task_words ret c) →
  free_list (hw_state k) (l1 ++ l2) → (length l1 ≤ fuel)%nat → (l1 = [] → l2 = []) →
  1 ≤ kernelStack info → kernelStack info + PageSize ≤ 2 ^ 64 →
  (∀ b n, (b, n) ∈ l1 → b + PageSize * n < kernelStack info) →
  (∀ b n, (b, n) ∈ l2 → kernelStack info + PageSize < b) →
  let saved := t_rsp c - sizeof_KernelContext in
  disj (schedulerTask cpu) sizeof_KernelContext saved sizeof_KernelContext →
  (∀ x, range saved sizeof_KernelContext x → ¬ headers (l1 ++ (kernelStack info, 1) :: l2) x) →
  (∀ x, range (schedulerTask cpu) sizeof_KernelContext x →
     ¬ range (kernelStack info) PageSize x ∧ ¬ headers (l1 ++ l2) x) →
  ∃ k' info', exitCurrentProcess fuel table_address c ret k =
      Done (resume (schedulerTask cpu) (ram (hw_state k)), k') ∧
    ProcessTable k' !! p = Some info' ∧ state info' = Unused ∧ ProcessTableSpinlock k' = 0 ∧
    free_list (hw_state k') (l1 ++ (kernelStack info, 1) :: l2) ∧
    (IF (this_hw (env (hw_state k))) = false → IF (this_hw (env (hw_state k'))) = false).
Proof.
  intros Hl He Hr Hi Hc Hcur Ht Hw Hfl Hf Hnil H1 H2 Hb1 Hb2 saved Hd Hout Hsch.
  destruct (freeProcess_spec fuel depth p info k l1 l2) as (k1 & E1 & T1 & L1 & F1 & R1 & A1); try done.
  unfold exitCurrentProcess. rewrite (with_this_of _ i cpu), Hcur, slot_of_address, E1 by done.
  cbn [mbind outcome_bind]. destruct (R1 He) as (He1 & Rec & Hoff). destruct (Rec _ _ Hc) as (n & w & Hc1).
  assert (Hp1 : ProcessTable k1 !! p = Some (set_state Unused info)).
  { rewrite T1. apply list_lookup_insert_eq. by eapply lookup_lt_Some. }
  destruct (enterSchedulerFromProcess_spec table_address c ret k1 _ p i _ Hp1 Hc1 Hcur Ht Hw Hd)
    as (m & info' & E & S' & _ & _ & A).
  rewrite E. cbn [schedulerTask set_cli].
  rewrite (resume_agree _ (ram (hw_state k1)) (ram (hw_state k))).
  2:{ eapply agree_weaken; [|exact A1]. exact Hsch. }
  eexists _, info'. split; [reflexivity|]. split; [|split; [by rewrite S'|split; [exact L1|split; [|exact Hoff]]]].
  - apply list_lookup_insert_eq. by eapply lookup_lt_Some.
  - apply free_list_headers; [exact F1|]. eapply agree_weaken; [|exact A].
    intros x Hx Hx'. by apply (Hout x Hx').
Qed.

(** While another processor keeps the table's lock no process can be ended. *)
Lemma exitCurrentProcess_locked fuel depth table_address c ret k :
  ProcessTableSpinlock k ≠ 0 → env_ready depth (hw_state k) →
  exitCurrentProcess fuel table_address c ret k = Stuck Spin.
Proof.
  intros Hl Hr. pose proof Hr as (_ & i & cpu & Hc & _). unfold exitCurrentProcess.
  rewrite (with_this_of _ i cpu) by done. unfold freeProcess. by rewrite (acquire_table_locked depth).
Qed.

(** ** Concrete runs *)

(** Only the second process is runnable. *)
Lemma schedule_first_slot_only_witness :
  find_runnable 100 0
    {| hw_state := blank; ProcessTable := [zero_process; set_state Runnable zero_process];
       ProcessTableSpinlock := 1; KernelPageTable := 0 |} = Stuck OutOfFuel.
Proof. by apply (schedule_first_slot_only 100 _ zero_process). Defined.

(** A process with its start stack at 0x8000, dispatched by a scheduler running at 0x1000. *)
Definition example_stack : mem := (build_stack 0x77 0x88 0x8000 (λ _, 0)).1.1.
Definition example_dispatch : kernel :=
  {| hw_state := set_env one_cpu (set_ram example_stack blank);
     ProcessTable := [{| pageTable := 0xffff800000200000; state := Runnable; kernelStack := 0x8000;
                         kernelTask := 0x8000 + 3856; trapFrame := 0x8000 + 3920 |}];
     ProcessTableSpinlock := 1; KernelPageTable := 0 |}.

Lemma dispatch_and_back_witness :
  ∃ k1, dispatch 0x500 (example_task 1) 0x11 0 example_dispatch =
      Done (0x200000, (0x88, entry_task (0x8000 + 3856)), k1) ∧
    ∃ k3, enterSchedulerFromProcess 0x500 (example_task 8) 0x22 k1 = Done ((0x11, example_task 1), k3).
Proof.
  destruct (dispatch_and_back 0x500 (example_task 1) 0x11 0 example_dispatch
              (nth 0 (ProcessTable example_dispatch) zero_process) 0 zero_cpu 0x88 0x77
              (example_task 8) 0x22) as (k1 & E & _ & _ & B).
  - reflexivity.
  - done.
  - words_tac.
  - words_tac.
  - lia.
  - split; [|split]; vm_compute; reflexivity.
  - right. by vm_compute.
  - exists k1. split; [exact E|].
    destruct (B k1) as (k3 & info3 & E3 & _); [done|done|apply agree_refl|left; by vm_compute|].
    exists k3. exact E3.
Defined.
