(* ===== verification/Contention.v ===== *)
(** [ProcessManagement.cpp] on several processors: how the parts that share the process table
    interleave.

    [KernelMain] starts the other processors ([initializeProcessors]) before it creates the first
    process; from then on one processor is somewhere in [createFirstProcess] and the others in
    [schedule].  [point] says where a processor is: before one access to the table or its lock.
    [visit] is what it does next there; a processor that finds the lock held tries again.  The
    memory for the process is there ([Process] has the cases where it is not). *)

From S2P Require Import Prelude Mem Cpu Spinlock PhysMem CpuReady Process Scheduler.

(** ** The table and its lock *)

Record shared := { sh_lock : Z; sh_table : list State }.
Definition set_held (h : Z) (s : shared) : shared := {| sh_lock := h; sh_table := sh_table s |}.
Definition put (p : nat) (st : State) (s : shared) : shared :=
  {| sh_lock := sh_lock s; sh_table := <[p := st]> (sh_table s) |}.

(** ** Where a processor is *)

Inductive point :=
  (* [createFirstProcess], [allocateProcess] *)
  | AllocLock | AllocFind | AllocNone | AllocFresh (p : nat) | AllocUnlock (p : nat)
  | Fill (p : nat) | ReadyLock (p : nat) | ReadySet (p : nat) | ReadyUnlock (p : nat)
  | Crashed
  (* [schedule] *)
  | SchedLock | SchedLook (p : nat) | SchedUnlock | SchedSelect (p : nat) | SchedSwitch (p : nat)
  (* the process: [ProcessEntryPoint], then user mode, then [exitCurrentProcess] *)
  | EntryUnlock (p : nat) | InProcess (p : nat)
  | ExitLock (p : nat) | ExitUnused (p : nat) | ExitUnlock (p : nat) | ExitSwitch (p : nat).

Fixpoint first_unused (i : nat) (l : list State) : option nat :=
  match l with
  | [] => None
  | st :: l => if decide (st = Unused) then Some i else first_unused (S i) l
  end.

Definition try_lock (s : shared) (again next : point) : point * shared :=
  let '(old, held) := test_and_set (sh_lock s) in
  (if old =? 0 then next else again, set_held held s).

Definition visit (c : point) (s : shared) : point * shared :=
  match c with
  | AllocLock => try_lock s AllocLock AllocFind
  | AllocFind =>
      (match first_unused 0 (sh_table s) with
       | Some p => AllocFresh p
       | None => AllocNone
       end, s)
  | AllocNone => (Crashed, set_held 0 s)
  | AllocFresh p => (AllocUnlock p, put p Fresh s)
  | AllocUnlock p => (Fill p, set_held 0 s)
  | Fill p => (ReadyLock p, s)
  | ReadyLock p => try_lock s (ReadyLock p) (ReadySet p)
  | ReadySet p => (ReadyUnlock p, put p Runnable s)
  | ReadyUnlock p => (SchedLock, set_held 0 s)
  | Crashed => (Crashed, s)
  | SchedLock => try_lock s SchedLock (SchedLook 0)
  | SchedLook p =>
      (if (p <? 64)%nat then
         if decide (sh_table s !! p = Some Runnable) then SchedSelect p else SchedLook (next_slot p)
       else SchedUnlock, s)
  | SchedUnlock => (SchedLock, set_held 0 s)
  | SchedSelect p => (SchedSwitch p, put p Running s)
  | SchedSwitch p => (EntryUnlock p, s)
  | EntryUnlock p => (InProcess p, set_held 0 s)
  | InProcess p => (ExitLock p, s)
  | ExitLock p => try_lock s (ExitLock p) (ExitUnused p)
  | ExitUnused p => (ExitUnlock p, put p Unused s)
  | ExitUnlock p => (ExitSwitch p, set_held 0 s)
  | ExitSwitch p => (SchedLook (next_slot p), s)
  end.

(** All processors; [turn] lets one of them go on, [run] a sequence of them. *)
Record smp := { points : list point; common : shared }.
Definition turn (s : smp) (i : nat) : smp :=
  match points s !! i with
  | Some c => let '(c, sh) := visit c (common s) in {| points := <[i := c]> (points s); common := sh |}
  | None => s
  end.
Definition run (l : list nat) (s : smp) : smp := foldl turn s l.

(** The booting processor and [n] others. *)
Definition boot (n : nat) : smp :=
  {| points := AllocLock :: replicate n SchedLock;
     common := {| sh_lock := lock_init; sh_table := replicate 64 Unused |} |}.

(** ** Agreement with the sequential operations *)

(** The table and the lock as the sequential model has them. *)
Definition view (k : kernel) : shared :=
  {| sh_lock := ProcessTableSpinlock k; sh_table := state <$> ProcessTable k |}.

Lemma find_unused_view i l : find_unused i l = first_unused i (state <$> l).
Proof. revert i; induction l as [|x l IH]; intros i; simpl; [done|]. case_decide; [done|apply IH]. Qed.

(** One iteration of the scheduler's loop over the table. *)
Lemma find_runnable_visit fuel p k :
  length (ProcessTable k) = 64%nat →
  find_runnable (S fuel) p k =
    match (visit (SchedLook p) (view k)).1 with
    | SchedSelect q => Done (Some q)
    | SchedLook q => find_runnable fuel q k
    | _ => Done None
    end.
Proof.
  intros Hl. simpl. destruct (Nat.ltb_spec p 64) as [Hp|]; [|done].
  destruct (lookup_lt_is_Some_2 (ProcessTable k) p ltac:(lia)) as [info Hi].
  unfold with_slot. rewrite list_lookup_fmap, Hi. simpl.
  destruct (decide (state info = Runnable)) as [->|H]; [by rewrite decide_True|].
  rewrite decide_False; [done|congruence].
Qed.

Lemma acquire_table_view k k' :
  acquire_table k = Done k' → sh_lock (view k) = 0 ∧ view k' = set_held 1 (view k) ∧
    ProcessTable k' = ProcessTable k.
Proof.
  unfold acquire_table, acquire. destruct (pushCLI _) as [e1|]; [|done]. simpl.
  destruct (Z.eqb_spec (ProcessTableSpinlock k) 0) as [H|]; [|done].
  destruct (popCLI e1) as [e2|]; [|done]. by intros [= <-].
Qed.

Lemma release_table_view k k' :
  release_table k = Done k' → view k' = set_held 0 (view k) ∧ ProcessTable k' = ProcessTable k.
Proof.
  unfold release_table, release. destruct (pushCLI _) as [e1|]; [|done]. simpl.
  destruct (popCLI e1) as [e2|]; [|done]. by intros [= <-].
Qed.

Lemma view_set_slot p info k : view (set_slot p info k) = put p (state info) (view k).
Proof. unfold view, put. simpl. by rewrite list_fmap_insert. Qed.

Lemma view_set_hw s k : view (set_hw s k) = view k.
Proof. done. Qed.

(** One processor on its own, for [n] visits. *)
Definition alone (n : nat) (c : point) (s : shared) : point * shared :=
  Nat.iter n (λ '(c, s), visit c s) (c, s).

Lemma alone_lock n c c' s :
  sh_lock s = 0 → visit c s = try_lock s c c' → alone (S n) c s = alone n c' (set_held 1 s).
Proof.
  intros Hl Hv. unfold alone. rewrite Nat.iter_succ_r. simpl. rewrite Hv. unfold try_lock. simpl.
  by rewrite Hl.
Qed.
Lemma alone_visit n c c' s s' : visit c s = (c', s') → alone (S n) c s = alone n c' s'.
Proof. intros Hv. unfold alone. rewrite Nat.iter_succ_r. simpl. by rewrite Hv. Qed.

Lemma freeProcess_visits fuel p k k' :
  freeProcess fuel p k = Done k' → alone 3 (ExitLock p) (view k) = (ExitSwitch p, view k').
Proof.
  unfold freeProcess. intros (k1 & E1 & E)%outcome_bind_Done.
  destruct (acquire_table_view _ _ E1) as (Hl & V1 & T1). unfold with_slot in E.
  destruct (ProcessTable k1 !! p) as [info|]; [|done].
  apply outcome_bind_Done in E as (s & _ & E). destruct (release_table_view _ _ E) as [V _].
  rewrite (alone_lock 2 _ (ExitUnused p)) by done. rewrite V, <- V1.
  by rewrite view_set_hw, view_set_slot.
Qed.

Lemma with_this_Done {A} (e : cpu_env) (f : nat → CPUState → outcome A) a :
  with_this e f = Done a → ∃ i cpu, f i cpu = Done a.
Proof.
  unfold with_this. destruct (thisCPU e) as [i|]; [|done]. destruct (CPUs e !! i) as [cpu|]; [|done].
  by exists i, cpu.
Qed.
Lemma with_slot_Done {A} i k (f : ProcessInfo → outcome A) a :
  with_slot i k f = Done a → ∃ p, ProcessTable k !! i = Some p ∧ f p = Done a.
Proof. unfold with_slot. destruct (ProcessTable k !! i) as [p|]; [|done]. by exists p. Qed.

Lemma select_process_view table p k cr3 k' :
  select_process table p k = Done (cr3, k') → view k' = put p Running (view k).
Proof.
  intros (info & _ & (i & cpu & [= _ <-])%with_this_Done)%with_slot_Done. by rewrite view_set_slot.
Qed.

Lemma switch_to_view c ret p k next k' : switch_to c ret p k = Done (next, k') → view k' = view k.
Proof.
  intros (info & _ & (i & cpu & E)%with_this_Done)%with_slot_Done.
  destruct (Pause _ _ _ _) as [[saved m] nx]. by injection E as _ <-.
Qed.

Lemma schedule_visits fuel table c ret p k k1 cr3 k2 next k3 k4 :
  acquire_table k = Done k1 → find_runnable (S fuel) 0 k1 = Done (Some p) →
  select_process table p k1 = Done (cr3, k2) → switch_to c ret p k2 = Done (next, k3) →
  ProcessEntryPoint_body k3 = Done k4 → length (ProcessTable k) = 64%nat →
  alone 5 SchedLock (view k) = (InProcess p, view k4).
Proof.
  intros E1 E2 E3 E4 E5 Hlen. destruct (acquire_table_view _ _ E1) as (Hl & V1 & T1).
  rewrite (alone_lock 4 _ (SchedLook 0)), <- V1 by done. rewrite <- T1 in Hlen.
  assert (Hp : visit (SchedLook 0) (view k1) = (SchedSelect p, view k1)).
  { destruct (lookup_lt_is_Some_2 (ProcessTable k1) 0 ltac:(lia)) as [info Hi].
    rewrite (find_runnable_stays _ 0 k1 info) in E2 by (done || lia).
    destruct (decide _) as [Hr|] in E2; [|done]. injection E2 as <-. simpl.
    rewrite list_lookup_fmap, Hi. simpl. by rewrite decide_True by (by rewrite Hr). }
  rewrite (alone_visit _ _ _ _ _ Hp). unfold alone. simpl.
  rewrite (proj1 (release_table_view _ _ E5)), (switch_to_view _ _ _ _ _ _ E4).
  by rewrite (select_process_view _ _ _ _ _ E3).
Qed.

Lemma allocateProcess_visits fuel TR EP k i k' :
  allocateProcess fuel TR EP k = Done (Some i, k') →
  alone 4 AllocLock (view k) = (Fill i, view k') ∧ sh_lock (view k') = 0.
Proof.
  unfold allocateProcess. intros (k1 & E1 & E)%outcome_bind_Done.
  destruct (acquire_table_view _ _ E1) as (Hl & V1 & T1).
  destruct (find_unused 0 (ProcessTable k1)) as [j|] eqn:Ej.
  2: { by apply outcome_bind_Done in E as (? & _ & [=]). }
  apply outcome_bind_Done in E as ([copy s1] & _ & (p & _ & E)%with_slot_Done).
  apply outcome_bind_Done in E as (k2 & E2 & E).
  destruct (release_table_view _ _ E2) as [V2 T2].
  apply outcome_bind_Done in E as ([stack s2] & _ & E).
  destruct (stack =? 0); [done|]. destruct (build_stack _ _ _ _) as [[m t] f]. injection E as <- <-.
  rewrite view_set_slot, (alone_lock 3 _ AllocFind) by done. rewrite <- V1.
  rewrite find_unused_view in Ej. rewrite (alone_visit 2 _ (AllocFresh j) _ (view k1)).
  2: { simpl. by rewrite Ej. }
  rewrite !view_set_hw, V2, view_set_slot, view_set_hw. split; [|done].
  unfold alone, set_held, put. simpl. by rewrite list_insert_insert_eq.
Qed.

Lemma createFirstProcess_visits fuel TR EP code size k k' :
  createFirstProcess fuel TR EP code size k = Done k' → alone 8 AllocLock (view k) = (SchedLock, view k').
Proof.
  unfold createFirstProcess. intros ([[i|] k1] & E1 & E)%outcome_bind_Done.
  2: { by apply outcome_bind_Done in E as ([? ?] & _ & [=]). }
  apply outcome_bind_Done in E as ([page s1] & _ & (p & _ & E)%with_slot_Done).
  apply outcome_bind_Done in E as (s2 & _ & (k2 & E2 & E3)%outcome_bind_Done).
  destruct (allocateProcess_visits _ _ _ _ _ _ E1) as [A Hl].
  destruct (acquire_table_view _ _ E2) as (_ & V2 & _). destruct (release_table_view _ _ E3) as [V3 _].
  unfold alone in *. change 8%nat with (4 + 4)%nat. rewrite Nat.iter_add, A. simpl.
  unfold try_lock. simpl in Hl. simpl. rewrite Hl. simpl.
  by rewrite V3, view_set_slot, V2.
Qed.

(** ** The life of the first process

    [state_of]: the state of the first slot; [special]: where a processor can be only at that stage
    of the life; everywhere else processors are [idle]. *)

Inductive phase := Creating | Created | Ready | Taken | Over.
#[export] Instance phase_eq_dec : EqDecision phase.
Proof. solve_decision. Defined.

Definition state_of (ph : phase) : State :=
  match ph with Creating => Unused | Created => Fresh | Ready => Runnable | Taken => Running | Over => Unused end.
Definition special (ph : phase) (c : point) : bool :=
  match ph, c with
  | Creating, (AllocLock | AllocFind | AllocFresh 0) => true
  | Created, (AllocUnlock 0 | Fill 0 | ReadyLock 0 | ReadySet 0) => true
  | Ready, (ReadyUnlock 0 | SchedSelect 0) => true
  | Taken, (SchedSwitch 0 | EntryUnlock 0 | InProcess 0 | ExitLock 0 | ExitUnused 0) => true
  | Over, (ExitUnlock 0 | ExitSwitch 0) => true
  | _, _ => false
  end.
Definition idle (c : point) : bool :=
  match c with SchedLock | SchedLook 0 => true | _ => false end.

(** The points between taking the lock and giving it back, as long as the process is not over. *)
Definition holds (c : point) : bool :=
  match c with
  | AllocFind | AllocFresh _ | AllocUnlock _ | ReadySet _ | ReadyUnlock _
  | SchedLook _ | SchedSelect _ | SchedSwitch _ | EntryUnlock _ | ExitUnused _ => true
  | _ => false
  end.

Record inv (ph : phase) (s : smp) : Prop := {
  inv_state : sh_table (common s) !! 0%nat = Some (state_of ph);
  inv_points i c : points s !! i = Some c → idle c || special ph c = true;
  inv_one : ph ≠ Ready → ph ≠ Over → count (special ph) (points s) = 1%nat;
  inv_lock : ph ≠ Over →
    sh_lock (common s) = Z.of_nat (count holds (points s)) ∧ (count holds (points s) ≤ 1)%nat;
}.

Lemma idle_not_special ph c : idle c = true → special ph c = false.
Proof. destruct ph, c as [| | | | | | | | | | |[|p]| | | | | | | | |]; done. Qed.
Lemma ready_holds c : special Ready c = true → holds c = true.
Proof. by destruct c. Qed.

(** Only one processor is at a special point before the process is over. *)
Lemma inv_others ph s i j c d :
  inv ph s → ph ≠ Over → points s !! i = Some c → special ph c = true →
  points s !! j = Some d → j ≠ i → idle d = true ∧ special ph d = false.
Proof.
  intros [I1 I2 I3 I4] Ho Hi Hc Hj Hn.
  assert (special ph d = false) as Hd.
  { destruct (decide (ph = Ready)) as [->|Hr].
    - destruct (special Ready d) eqn:E; [|done]. apply ready_holds in E, Hc.
      by rewrite (count_others holds _ i j c d (proj2 (I4 Ho)) Hi Hc Hj Hn) in E.
    - eapply (count_others _ _ i j); [|done..]. by rewrite I3. }
  specialize (I2 _ _ Hj). rewrite Hd, orb_false_r in I2. done.
Qed.

(** A step within a phase. *)
Lemma inv_within ph s i c c' sh :
  inv ph s → points s !! i = Some c → sh_table sh !! 0%nat = Some (state_of ph) →
  idle c' || special ph c' = true → special ph c' = special ph c ∨ ph = Ready ∨ ph = Over →
  (ph ≠ Over → sh_lock sh + Z.b2z (holds c) = sh_lock (common s) + Z.b2z (holds c') ∧ sh_lock sh ≤ 1) →
  inv ph {| points := <[i := c']> (points s); common := sh |}.
Proof.
  intros [I1 I2 I3 I4] Hi Ht Hc' Hs Hl.
  pose proof (count_insert (special ph) _ i c c' Hi) as K.
  pose proof (count_insert holds _ i c c' Hi) as H.
  split; cbn [points common]; [done| | |].
  - intros j d [(_ & <- & _)|[_ Hj]]%list_lookup_insert_Some; [done|by eapply I2].
  - intros Hr Ho. specialize (I3 Hr Ho). destruct Hs as [Hs|[Hs|Hs]]; [rewrite Hs in K; lia|done..].
  - intros Ho. specialize (I4 Ho). specialize (Hl Ho). destruct (holds c), (holds c'); simpl in *; lia.
Qed.

(** The step to the next phase. *)
Lemma inv_next ph ph' s i c c' sh :
  inv ph s → ph ≠ Over → points s !! i = Some c → special ph c = true →
  sh_table sh !! 0%nat = Some (state_of ph') → special ph' c' = true →
  (ph' ≠ Over → sh_lock sh = sh_lock (common s) ∧ holds c' = holds c) →
  inv ph' {| points := <[i := c']> (points s); common := sh |}.
Proof.
  intros I Ho Hi Hc Ht Hc' Hl. assert (Hlen := lookup_lt_Some _ _ _ Hi).
  pose proof (λ j d, inv_others ph s i j c d I Ho Hi Hc) as Hothers. destruct I as [I1 I2 I3 I4].
  split; cbn [points common]; [done| | |].
  - intros j d [(<- & <- & _)|[Hn Hj]]%list_lookup_insert_Some; [by rewrite Hc', orb_true_r|].
    by rewrite (proj1 (Hothers j d Hj ltac:(done))).
  - intros _ _. apply (count_one _ _ i c'); [by apply list_lookup_insert_eq|done|].
    intros j d Hj Hn. rewrite list_lookup_insert_ne in Hj by done.
    apply idle_not_special. by apply (Hothers j d).
  - intros Ho'. pose proof (count_insert holds _ i c c' Hi) as H. destruct (Hl Ho') as [-> E].
    rewrite E in H. specialize (I4 Ho). lia.
Qed.

Lemma inv_held ph s i c :
  inv ph s → ph ≠ Over → points s !! i = Some c → holds c = true → sh_lock (common s) = 1.
Proof.
  intros [_ _ _ I4] Ho Hi Hc. pose proof (count_pos holds _ i c Hi Hc). specialize (I4 Ho). lia.
Qed.

Lemma inv_try ph s i c next :
  inv ph s → points s !! i = Some c → holds c = false → holds next = true →
  special ph c = special ph next → idle c || special ph c = true → idle next || special ph next = true →
  let '(c', sh) := try_lock (common s) c next in
  inv ph {| points := <[i := c']> (points s); common := sh |}.
Proof.
  intros I Hi Hc Hn Hs H1 H2. pose proof (inv_lock _ _ I) as L. unfold try_lock. simpl.
  eapply inv_within; [done|done|apply (inv_state _ _ I)|..].
  - by destruct (_ =? 0).
  - left. by destruct (_ =? 0).
  - intros Ho. specialize (L Ho). simpl. rewrite Hc. destruct (Z.eqb_spec (sh_lock (common s)) 0);
      rewrite ?Hn, ?Hc; simpl; lia.
Qed.

Lemma put_first st s x : sh_table s !! 0%nat = Some x → sh_table (put 0 st s) !! 0%nat = Some st.
Proof. intros H. apply list_lookup_insert_eq. by eapply lookup_lt_Some. Qed.

Lemma first_unused_here l : l !! 0%nat = Some Unused → first_unused 0 l = Some 0%nat.
Proof. destruct l as [|st l]; [done|]. intros [= ->]. done. Qed.

(** A visit that stays in the phase ([stay]), one that begins the next ([leave]). *)
Ltac stay I Hi Hh :=
  eapply (inv_within _ _ _ _ _ _ I Hi);
  [done|done|first [by left|right; by auto]|intros Ho; try (by destruct (Ho eq_refl)); pose proof (inv_lock _ _ I Ho); try specialize (Hh Ho eq_refl); simpl in *; lia].
Ltac leave I Hi Ht :=
  eapply (inv_next _ _ _ _ _ _ _ I ltac:(done) Hi); [done|eapply put_first, Ht|done|done].

Lemma inv_visit_idle ph s i c :
  inv ph s → points s !! i = Some c → idle c = true →
  let '(c', sh) := visit c (common s) in
  ∃ ph', inv ph' {| points := <[i := c']> (points s); common := sh |}.
Proof.
  intros I Hi Hc. pose proof (inv_state _ _ I) as Ht.
  assert (Hh : ph ≠ Over → holds c = true → sh_lock (common s) = 1) by (intros Ho; by apply (inv_held ph s i)).
  destruct c as [| | | | | | | | | | |[|p]| | | | | | | | |]; try discriminate Hc.
  - pose proof (inv_try ph s i SchedLock (SchedLook 0) I Hi eq_refl eq_refl) as H.
    cbn [visit]. destruct (try_lock _ _ _) as [c' sh]. exists ph. by apply H; destruct ph.
  - simpl. rewrite Ht. case_decide as Hr.
    + exists Ready. assert (ph = Ready) as -> by (destruct ph; (done || discriminate Hr)). stay I Hi Hh.
    + exists ph. stay I Hi Hh.
Qed.

Lemma inv_visit_special ph s i c :
  inv ph s → points s !! i = Some c → special ph c = true →
  let '(c', sh) := visit c (common s) in
  ∃ ph', inv ph' {| points := <[i := c']> (points s); common := sh |}.
Proof.
  intros I Hi Hc. pose proof (inv_state _ _ I) as Ht.
  assert (Hh : ph ≠ Over → holds c = true → sh_lock (common s) = 1) by (intros Ho; by apply (inv_held ph s i)).
  pose proof (λ next, inv_try ph s i c next I Hi) as Htry.
  destruct ph, c as [| | |[]|[]|[]|[]|[]|[]| | |[]| |[]|[]|[]|[]|[]|[]|[]|[]]; try discriminate Hc; simpl.
  - exists Creating. by apply (Htry AllocFind).
  - rewrite (first_unused_here _ Ht). exists Creating. stay I Hi Hh.
  - exists Created. leave I Hi Ht.
  - exists Created. stay I Hi Hh.
  - exists Created. stay I Hi Hh.
  - exists Created. by apply (Htry (ReadySet 0)).
  - exists Ready. leave I Hi Ht.
  - exists Ready. stay I Hi Hh.
  - exists Taken. leave I Hi Ht.
  - exists Taken. stay I Hi Hh.
  - exists Taken. stay I Hi Hh.
  - exists Taken. stay I Hi Hh.
  - exists Taken. by apply (Htry (ExitUnused 0)).
  - exists Over. leave I Hi Ht.
  - exists Over. stay I Hi Hh.
  - exists Over. stay I Hi Hh.
Qed.

Lemma inv_turn ph s i : inv ph s → ∃ ph', inv ph' (turn s i).
Proof.
  intros I. unfold turn. destruct (points s !! i) as [c|] eqn:Hi; [|by exists ph].
  pose proof (inv_points _ _ I i c Hi) as Hc.
  pose proof (inv_visit_idle ph s i c I Hi) as H1. pose proof (inv_visit_special ph s i c I Hi) as H2.
  destruct (visit c (common s)) as [c' sh]. apply orb_prop in Hc as [Hc|Hc]; auto.
Qed.

Lemma inv_boot n : inv Creating (boot n).
Proof.
  split; [done| |intros _ _|intros _]; cbn [boot points common sh_lock].
  - intros [|i] c; simpl; [by intros [= <-]|]. by intros [-> _]%lookup_replicate_1.
  - simpl. by rewrite count_replicate.
  - simpl. rewrite count_replicate. simpl. split; [done|lia].
Qed.

Lemma inv_run l ph s : inv ph s → ∃ ph', inv ph' (run l s).
Proof.
  revert ph s; induction l as [|i l IH]; intros ph s I; [by exists ph|].
  destruct (inv_turn ph s i I) as [ph' I']. by apply (IH ph').
Qed.

(** ** Theorems *)

(** Where a processor has chosen a process and does not know yet that it is over. *)
Definition running (c : point) : bool :=
  match c with
  | SchedSelect _ | SchedSwitch _ | EntryUnlock _ | InProcess _ | ExitLock _ | ExitUnused _ => true
  | _ => false
  end.

(** C15. However the processors interleave, from the moment the others are started while the first
    creates the process, at most one processor runs it. *)
Theorem one_processor_runs n l : (count running (points (run l (boot n))) ≤ 1)%nat.
Proof.
  destruct (inv_run l _ _ (inv_boot n)) as [ph [I1 I2 I3 I4]]. set (s := run l (boot n)) in *.
  destruct (decide (ph = Taken)) as [->|Ht].
  - rewrite <- (I3 ltac:(done) ltac:(done)). apply count_le. intros i c Hi Hr.
    specialize (I2 i c Hi). by destruct c as [| | | | | | | | | | |[]| | | | | | | | |].
  - destruct (decide (ph = Ready)) as [->|Hr].
    + etrans; [|apply I4; done]. apply count_le. intros i c Hi Hc. specialize (I2 i c Hi).
      by destruct c as [| | | | | | | | | | |[]| | | | | | | | |].
    + rewrite count_none; [lia|]. intros i c Hi. specialize (I2 i c Hi).
      by destruct ph, c as [| | | | | | | | | | |[]| | | | | | | | |].
Qed.

(** A processor that has taken the lock before the process is created: nothing ever changes. *)
Definition blocked (n : nat) : smp :=
  {| points := AllocLock :: SchedLook 0 :: replicate n SchedLock;
     common := {| sh_lock := 1; sh_table := replicate 64 Unused |} |}.
Lemma turn_blocked n i : turn (blocked n) i = blocked n.
Proof.
  destruct i as [|[|i]]; [done|done|]. unfold turn. cbn [blocked points lookup list_lookup].
  destruct (replicate n SchedLock !! i) as [c|] eqn:E; [|done].
  pose proof (list_insert_id _ _ _ E) as H. apply lookup_replicate_1 in E as [-> _].
  unfold blocked. simpl. by rewrite H.
Qed.
Lemma run_blocked n l : run l (blocked n) = blocked n.
Proof. induction l as [|i l IH]; [done|]. unfold run in *. simpl. by rewrite turn_blocked. Qed.

(** C16. The other processors are started before the first process is created, and who takes the
    process table's lock first decides.  If the booting processor goes on until it runs the
    process, the kernel works; if another processor reaches the scheduler first, it keeps the lock
    for ever, and however the processors go on from there the process is never created. *)
Theorem boot_race n :
  (∃ l, let s := run l (boot n) in
     points s !! 0%nat = Some (InProcess 0) ∧ sh_table (common s) !! 0%nat = Some Running) ∧
  (∀ l, let s := run (1%nat :: l) (boot (S n)) in
     points s !! 0%nat = Some AllocLock ∧ sh_table (common s) = replicate 64 Unused).
Proof.
  split; [by exists (replicate 13 0%nat)|]. intros l s.
  assert (s = blocked n) as ->; [|done]. exact (run_blocked n l).
Qed.

(** The first process in processor [i], and processor [j] back at the table with the lock. *)
Record kept (i j : nat) (s : smp) : Prop := {
  kp_inv : inv Taken s;
  kp_process : points s !! i = Some (InProcess 0) ∨ points s !! i = Some (ExitLock 0);
  kp_table : points s !! j = Some (SchedLook 0);
}.
Lemma turn_other s k i : k ≠ i → points (turn s k) !! i = points s !! i.
Proof.
  intros Hn. unfold turn. destruct (points s !! k) as [c|]; [|done].
  destruct (visit c (common s)) as [c' sh]. by apply list_lookup_insert_ne.
Qed.
Lemma turn_self s i c : points s !! i = Some c → points (turn s i) !! i = Some (visit c (common s)).1.
Proof.
  intros Hi. unfold turn. rewrite Hi. destruct (visit c (common s)) as [c' sh].
  apply list_lookup_insert_eq. by eapply lookup_lt_Some.
Qed.

Lemma in_process_taken ph s i c :
  inv ph s → points s !! i = Some c → c = InProcess 0 ∨ c = ExitLock 0 → ph = Taken.
Proof. intros I Hi [-> | ->]; pose proof (inv_points _ _ I i _ Hi) as H; by destruct ph. Qed.

Lemma kept_turn i j k s : kept i j s → kept i j (turn s k).
Proof.
  intros [I Hi Hj]. pose proof (inv_held _ _ _ _ I ltac:(done) Hj eq_refl) as Hl.
  pose proof (inv_state _ _ I) as Ht. simpl in Ht.
  assert (Hi' : points (turn s k) !! i = Some (InProcess 0) ∨ points (turn s k) !! i = Some (ExitLock 0)).
  { destruct (decide (k = i)) as [->|]; [|by rewrite turn_other].
    right. destruct Hi as [Hi|Hi]; rewrite (turn_self _ _ _ Hi); [done|]. simpl. by rewrite Hl. }
  split; [|done|].
  - destruct (inv_turn _ _ k I) as [ph I']. assert (ph = Taken) as ->; [|done].
    destruct Hi' as [Hi'|Hi']; (eapply in_process_taken; [exact I'|exact Hi'|by auto]).
  - destruct (decide (k = j)) as [->|]; [|by rewrite turn_other].
    rewrite (turn_self _ _ _ Hj). simpl. by rewrite Ht.
Qed.
Lemma kept_run i j l s : kept i j s → kept i j (run l s).
Proof. revert s; induction l as [|k l IH]; intros s H; [done|]. by apply IH, kept_turn. Qed.

(** Once another processor is back at the table while the first process runs, it has taken the lock
    for ever: however the processors go on, the process can at most try to end. *)
Theorem process_cannot_end n l i j :
  let s := run l (boot n) in
  points s !! i = Some (InProcess 0) → points s !! j = Some (SchedLook 0) →
  ∀ l', let s' := run l' s in
    (points s' !! i = Some (InProcess 0) ∨ points s' !! i = Some (ExitLock 0)) ∧
    points s' !! j = Some (SchedLook 0) ∧ sh_table (common s') !! 0%nat = Some Running.
Proof.
  intros s Hi Hj l' s'. destruct (inv_run l _ _ (inv_boot n)) as [ph I]. fold s in I.
  assert (ph = Taken) as -> by (eapply in_process_taken; [exact I|exact Hi|by left]).
  destruct (kept_run i j l' s) as [I' Hi' Hj']; [by split; auto|].
  split; [exact Hi'|]. split; [exact Hj'|]. exact (inv_state _ _ I').
Qed.

(** ** A run *)

(** Two processors: the first runs the process, the second is left with the lock. *)
Lemma process_cannot_end_witness :
  ∀ l, let s := run l (run (replicate 13 0%nat ++ [1%nat]) (boot 1)) in
    points s !! 1%nat = Some (SchedLook 0) ∧ sh_table (common s) !! 0%nat = Some Running.
Proof.
  intros l s. destruct (process_cannot_end 1 (replicate 13 0%nat ++ [1%nat]) 0 1) with (l' := l) as [_ H].
  - vm_compute. reflexivity.
  - vm_compute. reflexivity.
  - exact H.
Defined.
