(* ===== verification/Heap.v ===== *)
(** [Alloc.cpp]: the byte allocator.

    Like the page allocator it keeps a doubly linked list of free chunks whose headers (next,
    prev, numBytes) lie in the chunks; an allocated block is preceded by a word with its size.
    Nothing in the kernel calls it, and nothing ever puts memory on its list. *)

From S2P Require Import Prelude Mem GDT Cpu Spinlock ChunkList.

Record heap := { h_ram : mem; h_lock : Z; h_freeList : Z; h_env : cpu_env }.

(** [FreeChunk] has the members of [MemoryChunk] at the same offsets; the third counts bytes. *)
Definition FreeChunk_members : list (Z * Z) := [c_ptr; c_ptr; c_u64].
Definition numBytes (m : mem) (c : Z) : Z := load64 m (c + 16).
Definition set_numBytes (m : mem) (c v : Z) : mem := store64 m (c + 16) v.
Definition sizeof_UnfreeChunk : Z := 8.

Definition init_heap (h : heap) : heap :=
  {| h_ram := h_ram h; h_lock := lock_init; h_freeList := h_freeList h; h_env := h_env h |}.

(** [Memory.lock]: the two bytes behind the lock are padding of [Memory]. *)
Definition heap_lock (h : heap) : outcome heap :=
  '(l, e) ← acquire (h_lock h) (h_env h);
  Done {| h_ram := h_ram h; h_lock := l; h_freeList := h_freeList h; h_env := e |}.
Definition heap_unlock (h : heap) : outcome heap :=
  '(img, e) ← release (le_split 2 (h_lock h) ++ [0; 0]) (h_env h);
  Done {| h_ram := h_ram h; h_lock := le_combine (take 2 img); h_freeList := h_freeList h; h_env := e |}.
Definition heap_set (m : mem) (free : Z) (h : heap) : heap :=
  {| h_ram := m; h_lock := h_lock h; h_freeList := free; h_env := h_env h |}.

(** Taking [n] bytes off [chunk]; an emptied chunk is unlinked. *)
Definition take_bytes (m : mem) (free chunk n : Z) : mem * Z :=
  let m := set_numBytes m chunk (u64 (numBytes m chunk - n)) in
  if numBytes m chunk =? 0 then
    let m := if prev m chunk =? 0 then m else set_next m (prev m chunk) (next m chunk) in
    let m := if next m chunk =? 0 then m else set_prev m (next m chunk) (prev m chunk) in
    (m, if chunk =? free then next m chunk else free)
  else (m, free).

(** The loop of [allocate]: when it runs off the list the lock stays held. *)
Fixpoint allocate_bytes (fuel : nat) (chunk actualSize : Z) (h : heap) : outcome (Z * heap) :=
  if chunk =? 0 then Done (0, h)
  else if actualSize <=? numBytes (h_ram h) chunk then
    let '(m, free) := take_bytes (h_ram h) (h_freeList h) chunk actualSize in
    h ← heap_unlock (heap_set m free h);
    Done (u64 (chunk + numBytes (h_ram h) chunk + sizeof_UnfreeChunk), h)
  else match fuel with
       | O => Stuck OutOfFuel
       | S fuel => allocate_bytes fuel (next (h_ram h) chunk) actualSize h
       end.

Definition allocate (fuel : nat) (size : Z) (h : heap) : outcome (Z * heap) :=
  h ← heap_lock h;
  allocate_bytes fuel (h_freeList h) (u64 (size + sizeof_UnfreeChunk)) h.

(** Linking the chunk to its neighbours, as the page allocator does, with sizes in bytes. *)
Definition link_next_bytes (m : mem) (self base n nx : Z) : mem :=
  let m := set_next m self nx in
  if next m self =? 0 then m else
  let m := set_prev m (next m self) self in
  if u64 (base + n) =? next m self then
    let m := set_numBytes m self (u64 (numBytes m self + numBytes m (next m self))) in
    set_next m self (next m (next m self))
  else m.
Definition link_prev_bytes (m : mem) (self base n pv : Z) : mem :=
  let m := set_prev m self pv in
  if prev m self =? 0 then m else
  let m := set_next m (prev m self) self in
  if u64 (prev m self + numBytes m (prev m self)) =? base then
    set_numBytes m pv (u64 (numBytes m pv + n))
  else m.

Definition free (fuel : nat) (p : Z) (h : heap) : outcome heap :=
  h ← heap_lock h;
  let base := u64 (p - sizeof_UnfreeChunk) in
  let n := load64 (h_ram h) base in
  let self := base in
  let m := memset (h_ram h) self 0 n in
  let m := set_numBytes m self n in
  if h_freeList h =? 0 then heap_unlock (heap_set m self h)
  else
    '(pv, nx) ← find_place fuel m base 0 (h_freeList h);
    let m := link_next_bytes m self base n nx in
    let m := link_prev_bytes m self base n pv in
    heap_unlock (heap_set m (h_freeList h) h).

(** ** The abstract free list

    A chunk keeps at least the 24 bytes of its header apart from the next chunk, however few bytes
    it still has to give. *)

Definition sizeof_FreeChunk : Z := struct_size 8 FreeChunk_members.

Fixpoint bytes_wf (lo : Z) (l : list chunk) : Prop :=
  match l with
  | [] => True
  | (b, n) :: l => lo ≤ b ∧ 0 < n ∧ b + Z.max sizeof_FreeChunk n < 2 ^ 64 ∧
      bytes_wf (b + Z.max sizeof_FreeChunk n) l
  end.

Definition heap_list (h : heap) (l : list chunk) : Prop :=
  bytes_wf 1 l ∧ ∃ last, dseg (h_ram h) 0 (h_freeList h) l last 0.

(** First fit: the chunk taken from, with what is before and behind it. *)
Fixpoint first_fit (n : Z) (l : list chunk) : option (list chunk * chunk * list chunk) :=
  match l with
  | [] => None
  | (b, k) :: l =>
      if n <=? k then Some ([], (b, k), l)
      else (λ r, ((b, k) :: r.1.1, r.1.2, r.2)) <$> first_fit n l
  end.
(** What taking [n] bytes leaves of a chunk. *)
Definition remainder (b k n : Z) : list chunk := if k - n =? 0 then [] else [(b, k - n)].

(** ** Theorems *)

Definition heap_ready (h : heap) : Prop :=
  h_lock h = 0 ∧ ∃ i c, cpu_of (h_env h) i c.

Lemma heap_lock_spec h :
  heap_ready h →
  ∃ e i c, heap_lock h = Done {| h_ram := h_ram h; h_lock := 1; h_freeList := h_freeList h; h_env := e |} ∧
    cpu_of e i c.
Proof.
  intros (Hl & i & c & Hc). destruct (push_pop_total _ _ _ Hc) as (e1 & e2 & c2 & E1 & E2 & H2).
  unfold heap_lock, acquire. rewrite Hl, E1. cbn. rewrite E2. cbn. by exists e2, i, c2.
Qed.

Lemma heap_unlock_spec h i c :
  cpu_of (h_env h) i c →
  ∃ e c', heap_unlock h = Done {| h_ram := h_ram h; h_lock := 0; h_freeList := h_freeList h; h_env := e |} ∧
    cpu_of e i c'.
Proof.
  intros Hc. destruct (push_pop_total _ _ _ Hc) as (e1 & e2 & c2 & E1 & E2 & H2).
  unfold heap_unlock, release. rewrite E1. cbn. rewrite E2. cbn. by exists e2, c2.
Qed.

Lemma heap_lock_held h i c :
  h_lock h ≠ 0 → cpu_of (h_env h) i c → heap_lock h = Stuck Spin.
Proof.
  intros Hl Hc. destruct (push_pop_total _ _ _ Hc) as (e1 & e2 & c2 & E1 & _ & _).
  unfold heap_lock, acquire. rewrite E1. cbn. by destruct (Z.eqb_spec (h_lock h) 0).
Qed.


Lemma bytes_spaced lo l : bytes_wf lo l → spaced lo l.
Proof.
  revert lo; induction l as [|[b n] l IH]; intros lo; simpl; [done|].
  change sizeof_FreeChunk with 24. intros (? & ? & ? & H). split; [done|]. split; [lia|].
  eapply spaced_weaken; [|by apply IH]. lia.
Qed.

Lemma bytes_wf_weaken lo lo' l : lo' ≤ lo → bytes_wf lo l → bytes_wf lo' l.
Proof. destruct l as [|[b n] l]; simpl; [done|]. intros ? (?&?&?&?). repeat split; try done; lia. Qed.

Lemma bytes_wf_elem lo l b n :
  bytes_wf lo l → (b, n) ∈ l → lo ≤ b ∧ 0 < n ∧ b + Z.max sizeof_FreeChunk n < 2 ^ 64.
Proof.
  revert lo; induction l as [|[b' n'] l IH]; intros lo Hw Hin; [by apply not_elem_of_nil in Hin|].
  destruct Hw as (H1 & H2 & H3 & H4). apply elem_of_cons in Hin as [[= -> ->]|Hin]; [done|].
  destruct (IH _ H4 Hin) as (? & ? & ?). change sizeof_FreeChunk with 24 in *. lia.
Qed.

(** Putting chunks between those before and those behind. *)
Lemma bytes_wf_split lo l1 l2 :
  bytes_wf lo (l1 ++ l2) ↔ bytes_wf lo l1 ∧
    bytes_wf (foldl (λ _ c, c.1 + Z.max sizeof_FreeChunk c.2) lo l1) l2.
Proof.
  revert lo; induction l1 as [|[b n] l1 IH]; intros lo; simpl; [tauto|]. rewrite IH. tauto.
Qed.

Lemma bytes_wf_remainder lo l1 b k n l2 :
  bytes_wf lo (l1 ++ (b, k) :: l2) → 0 ≤ n ≤ k → bytes_wf lo (l1 ++ remainder b k n ++ l2).
Proof.
  rewrite !bytes_wf_split. intros (H1 & H2 & H3 & H4 & H5) Hn. split; [done|].
  change sizeof_FreeChunk with 24 in *.
  unfold remainder. destruct (Z.eqb_spec (k - n) 0); simpl; change sizeof_FreeChunk with 24.
  - split; [done|]. eapply bytes_wf_weaken; [|exact H5]. lia.
  - split; [repeat split; lia|]. eapply bytes_wf_weaken; [|exact H5]. lia.
Qed.

Lemma first_fit_spec n l :
  match first_fit n l with
  | Some (l1, (b, k), l2) => l = l1 ++ (b, k) :: l2 ∧ n ≤ k ∧ ∀ b' k', (b', k') ∈ l1 → k' < n
  | None => ∀ b' k', (b', k') ∈ l → k' < n
  end.
Proof.
  induction l as [|[b k] l IH]; simpl; [by intros ?? ?%not_elem_of_nil|].
  destruct (Z.leb_spec n k); [split; [done|split; [done|by intros ?? ?%not_elem_of_nil]]|].
  destruct (first_fit n l) as [[[l1 [b1 k1]] l2]|]; simpl.
  - destruct IH as (-> & ? & Hs). split; [done|]. split; [done|].
    intros b' k' [[= -> ->]|Hin]%elem_of_cons; [done|by eapply Hs].
  - intros b' k' [[= -> ->]|Hin]%elem_of_cons; [done|by eapply IH].
Qed.

(** Taking bytes off a chunk of the list. *)
Lemma take_bytes_spec m free l1 b k l2 last n :
  bytes_wf 1 (l1 ++ (b, k) :: l2) → dseg m 0 free (l1 ++ (b, k) :: l2) last 0 → 0 ≤ n ≤ k →
  let '(m', free') := take_bytes m free b n in
  (∃ last', dseg m' 0 free' (l1 ++ remainder b k n ++ l2) last' 0) ∧ numBytes m' b = k - n ∧
  agree (λ x, ¬ headers (l1 ++ (b, k) :: l2) x) m' m.
Proof.
  intros Hw Hd Hn. pose proof (bytes_spaced _ _ Hw) as Hs.
  assert (0 < k < 2 ^ 64).
  { destruct (bytes_wf_elem _ _ b k Hw) as (? & ? & ?); [apply elem_of_app; right; apply list_elem_of_here|].
    change sizeof_FreeChunk with 24 in *. lia. }
  assert (Hnum : numPages m b = k) by (apply dseg_app in Hd as (? & ? & _ & ? & _ & ? & _); done).
  pose proof (dseg_set_numPages m free l1 b k l2 last (k - n) Hs ltac:(lia) Hd) as Hd'.
  destruct (header_words m b (k - n)) as (_&_&_&_&_&_&_&_& Hnum'). rewrite uw_small in Hnum' by lia.
  assert (agree (λ x, ¬ headers (l1 ++ (b, k) :: l2) x) (set_numPages m b (k - n)) m) as HA.
  { apply (agree_outside_headers _ _ k); [|lia..]. apply elem_of_app; right; apply list_elem_of_here. }
  unfold take_bytes. change numBytes with numPages. change set_numBytes with set_numPages.
  rewrite Hnum, (uw_small 64 (k - n)) by lia. set (m0 := set_numPages m b (k - n)) in *. rewrite Hnum'.
  unfold remainder. destruct (Z.eqb_spec (k - n) 0) as [E|E]; [|by eauto]. rewrite E in Hd'.
  destruct (dseg_unlink m0 free l1 b l2 last k Hs Hd') as (H1 & H2 & H3).
  split; [exact H1|]. split; [by rewrite E|]. eapply agree_trans; [|exact HA].
  eapply agree_weaken; [|exact H3]. intros x Hx (b' & n' & Hin & ?). apply Hx. exists b', n'.
  split; [|done]. rewrite elem_of_app in Hin |- *.
  destruct Hin as [?|?]; [by left|right; by apply list_elem_of_further].
Qed.

(** The loop of [allocate] behind the chunks [l1], which are too small. *)
Lemma allocate_bytes_spec fuel n h l1 l2 pv p last i c :
  bytes_wf 1 (l1 ++ l2) → dseg (h_ram h) 0 (h_freeList h) l1 pv p → dseg (h_ram h) pv p l2 last 0 →
  cpu_of (h_env h) i c → (length l2 ≤ fuel)%nat → 0 ≤ n →
  match first_fit n l2 with
  | Some (l2', (b, k), l3) =>
      ∃ h', allocate_bytes fuel p n h = Done (u64 (b + (k - n) + 8), h') ∧ heap_ready h' ∧
        heap_list h' (l1 ++ l2' ++ remainder b k n ++ l3) ∧
        agree (λ x, ¬ headers (l1 ++ l2) x) (h_ram h') (h_ram h)
  | None => allocate_bytes fuel p n h = Done (0, h)
  end.
Proof.
  intros Hw H1 H2 Hc Hf Hn. revert fuel l1 pv p Hw H1 H2 Hf.
  induction l2 as [|[b k] l2 IH]; intros fuel l1 pv p Hw H1 H2 Hf; cbn [first_fit].
  { destruct H2 as [-> _]. by destruct fuel. }
  assert (Hall : dseg (h_ram h) 0 (h_freeList h) (l1 ++ (b, k) :: l2) last 0) by (apply dseg_app; eauto).
  destruct H2 as (-> & Hpv & Hk & H2).
  destruct (bytes_wf_elem _ _ b k Hw) as (Hb & Hk0 & He); [apply elem_of_app; right; apply list_elem_of_here|].
  change sizeof_FreeChunk with 24 in He.
  destruct fuel as [|fuel]; [simpl in Hf; lia|]. cbn [allocate_bytes].
  destruct (Z.eqb_spec b 0); [lia|]. change numBytes with numPages. rewrite Hk.
  destruct (Z.leb_spec n k) as [Hle|Hgt].
  - pose proof (take_bytes_spec _ _ _ _ _ _ _ n Hw Hall ltac:(lia)) as Ht.
    destruct (take_bytes _ _ _ _) as [m' f']. destruct Ht as ((last' & Hd') & Hnum & HA).
    destruct (heap_unlock_spec (heap_set m' f' h) i c Hc) as (e & c' & -> & Hc').
    cbn [mbind outcome_bind h_ram heap_set]. change numBytes with numPages in Hnum. rewrite Hnum.
    eexists. split; [done|]. split; [split; [done|by exists i, c']|]. split; [|exact HA].
    split; [by apply bytes_wf_remainder; [|lia]|]. by exists last'.
  - assert (Hw' : bytes_wf 1 ((l1 ++ [(b, k)]) ++ l2)) by (by rewrite <- app_assoc).
    specialize (IH fuel (l1 ++ [(b, k)]) b (next (h_ram h) b) Hw').
    destruct (first_fit n l2) as [[[l2' [b1 k1]] l3]|]; cbn [fmap option_fmap option_map fst snd app];
      rewrite <- ?app_assoc in IH; (apply IH; [|done|simpl in Hf; lia]); apply dseg_app; exists pv, b; (split; [done|]); simpl; done.
Qed.

(** C25. [allocate] is first fit: with the first chunk that holds the size and the word in front of it,
    it returns the address behind that word, takes the bytes off the chunk's end, and releases the
    lock; if there is none it returns null, leaves the list as it was, and keeps the lock.  Only
    headers of free chunks are written. *)
Theorem allocate_first_fit fuel size h l :
  heap_list h l → heap_ready h → (length l ≤ fuel)%nat → 0 < size < 2 ^ 64 - 8 →
  match first_fit (size + 8) l with
  | Some (l1, (b, k), l2) =>
      ∃ h', allocate fuel size h = Done (b + k - size, h') ∧ heap_ready h' ∧
        heap_list h' (l1 ++ remainder b k (size + 8) ++ l2) ∧
        agree (λ x, ¬ headers l x) (h_ram h') (h_ram h)
  | None =>
      ∃ h', allocate fuel size h = Done (0, h') ∧ h_lock h' = 1 ∧ heap_list h' l ∧ h_ram h' = h_ram h
  end.
Proof.
  intros (Hw & last & Hd) Hr Hf Hs. destruct (heap_lock_spec h Hr) as (e & i & c & E & Hc).
  unfold allocate. rewrite E. cbn [mbind outcome_bind h_freeList].
  change sizeof_UnfreeChunk with 8. rewrite (uw_small 64 (size + 8)) by lia.
  set (h1 := {| h_ram := h_ram h |}).
  pose proof (allocate_bytes_spec fuel (size + 8) h1 [] l 0 _ last i c Hw (conj eq_refl eq_refl) Hd Hc Hf
    ltac:(lia)) as H.
  pose proof (first_fit_spec (size + 8) l) as Hl.
  destruct (first_fit (size + 8) l) as [[[l1 [b k]] l2]|]; [destruct Hl as (Hl & Hk & _)|].
  - destruct H as (h' & H & R & L & A). exists h'. split; [|done].
    destruct (bytes_wf_elem _ _ b k Hw) as (Hb & _ & He); [rewrite Hl; apply elem_of_app; right; apply list_elem_of_here|].
    change sizeof_FreeChunk with 24 in He. etransitivity; [exact H|]. rewrite uw_small by lia. do 2 f_equal. lia.
  - exists h1. split; [exact H|]. split; [done|]. split; [|done]. split; [done|by exists last].
Qed.

(** The block lies inside the chunk it was taken from. *)
Theorem allocated_inside size l l1 b k l2 :
  first_fit (size + 8) l = Some (l1, (b, k), l2) → 0 < size → bytes_wf 1 l →
  ∀ x, range (b + k - size) size x → b + 8 ≤ x < b + k.
Proof.
  intros Hf Hs Hw x Hx. pose proof (first_fit_spec (size + 8) l) as H. rewrite Hf in H.
  unfold range in Hx. lia.
Qed.

(** When the block and a chunk header cannot meet: when the chunk is used up or keeps room for its
    header beyond the word in front of the block.  A remainder of 1 to 15 bytes puts the block over
    the chunk's own header, which stays on the list. *)
Theorem allocated_overlaps_header size l l1 b k l2 :
  first_fit (size + 8) l = Some (l1, (b, k), l2) → 0 < size → bytes_wf 1 l →
  (∃ x, range (b + k - size) size x ∧ headers (l1 ++ remainder b k (size + 8) ++ l2) x) ↔
  0 < k - (size + 8) < 16.
Proof.
  intros Hf Hs Hw. pose proof (first_fit_spec (size + 8) l) as H. rewrite Hf in H.
  destruct H as (-> & Hk & _). destruct (spaced_mid _ _ _ _ _ (bytes_spaced _ _ Hw)) as (_ & _ & _ & _ & Hl1 & _).
  assert (Hl2 : ∀ b' k', (b', k') ∈ l2 → b + k ≤ b').
  { apply bytes_wf_split in Hw as (_ & _ & _ & _ & Hw2). intros b' k' Hin.
    destruct (bytes_wf_elem _ _ _ _ Hw2 Hin) as (? & _). lia. }
  unfold range, remainder. split.
  - intros (x & Hx & b' & k' & Hin & Hb). apply elem_of_app in Hin as [Hin|Hin].
    { specialize (Hl1 _ _ Hin). lia. }
    destruct (Z.eqb_spec (k - (size + 8)) 0); simpl in Hin; [specialize (Hl2 _ _ Hin); lia|].
    apply elem_of_cons in Hin as [[= -> ->]|Hin]; [lia|specialize (Hl2 _ _ Hin); lia].
  - intros Hr. exists (b + k - size). split; [lia|]. exists b, (k - (size + 8)).
    destruct (Z.eqb_spec (k - (size + 8)) 0); [lia|]. split; [|lia].
    apply elem_of_app. right. apply list_elem_of_here.
Qed.

(** The heap begins with an empty list, and a failing [allocate] does not release the lock: the
    first call returns null, and whatever is called next, allocation or release, never returns. *)
Theorem allocate_failure_deadlocks fuel size h :
  heap_ready h → h_freeList h = 0 →
  ∃ h', allocate fuel size h = Done (0, h') ∧ h_lock h' = 1 ∧
    (∀ fuel' size', allocate fuel' size' h' = Stuck Spin) ∧
    (∀ fuel' p, free fuel' p h' = Stuck Spin).
Proof.
  intros Hr Hf. destruct (heap_lock_spec h Hr) as (e & i & c & E & Hc).
  unfold allocate at 1. rewrite E. cbn [mbind outcome_bind h_freeList]. rewrite Hf.
  eexists. split; [by destruct fuel|]. split; [done|].
  set (h' := {| h_lock := 1 |}). assert (heap_lock h' = Stuck Spin) as Hs by (by eapply heap_lock_held).
  split.
  - intros fuel' size'. unfold allocate. by rewrite Hs.
  - intros fuel' p. unfold free. by rewrite Hs.
Qed.

(** The first chunk has more than enough: only its size changes. *)
Lemma allocate_head fuel size h :
  heap_ready h → h_freeList h ≠ 0 → 0 ≤ size → size + 8 < numBytes (h_ram h) (h_freeList h) →
  let rest := numBytes (h_ram h) (h_freeList h) - (size + 8) in
  ∃ h', allocate fuel size h = Done (u64 (h_freeList h + rest + 8), h') ∧ heap_ready h' ∧
    h_freeList h' = h_freeList h ∧ h_ram h' = set_numBytes (h_ram h) (h_freeList h) rest.
Proof.
  intros Hr H0 Hs Hfit rest. destruct (heap_lock_spec h Hr) as (e & i & c & E & Hc).
  set (chunk := h_freeList h) in *.
  pose proof (load64_range (h_ram h) (chunk + 16)) as Hn. fold (numBytes (h_ram h) chunk) in Hn.
  assert (Hr' : numBytes (set_numBytes (h_ram h) chunk rest) chunk = rest) by (apply load64_store64; lia).
  assert (Ht : take_bytes (h_ram h) chunk chunk (size + 8) = (set_numBytes (h_ram h) chunk rest, chunk)).
  { unfold take_bytes. fold rest. rewrite (uw_small 64 rest) by lia. rewrite Hr'.
    destruct (Z.eqb_spec rest 0); [lia|done]. }
  unfold allocate. rewrite E. cbn [mbind outcome_bind h_freeList]. fold chunk.
  change sizeof_UnfreeChunk with 8. rewrite (uw_small 64 (size + 8)) by lia.
  destruct (heap_unlock_spec (heap_set (set_numBytes (h_ram h) chunk rest) chunk
    {| h_ram := h_ram h; h_lock := 1; h_freeList := chunk; h_env := e |}) i c Hc) as (e' & c' & E' & Hc').
  eexists {| h_ram := _; h_lock := 0; h_freeList := chunk; h_env := e' |}.
  split; [|split; [split; [done|by exists i, c']|split; [done|reflexivity]]].
  destruct fuel; cbn [allocate_bytes h_ram]; (destruct (Z.eqb_spec chunk 0); [done|]);
      (destruct (Z.leb_spec (size + 8) (numBytes (h_ram h) chunk)); [|lia]);
      cbn [h_freeList]; rewrite Ht, E'; cbn [mbind outcome_bind h_ram heap_set]; by rewrite Hr'.
Qed.

(** Splitting a chunk: the block lies at the chunk's end, the chunk keeps the rest, and the lock
    is released; but the word before the block, from which [free] takes its size, is never
    written: it holds whatever was there. *)
Theorem allocate_split fuel size h :
  heap_ready h → 0 < h_freeList h → h_freeList h + 24 + size + 8 ≤ h_freeList h + numBytes (h_ram h) (h_freeList h) →
  h_freeList h + numBytes (h_ram h) (h_freeList h) ≤ 2 ^ 64 - 1 → 0 < size →
  let rest := numBytes (h_ram h) (h_freeList h) - (size + 8) in
  ∃ h', allocate fuel size h = Done (h_freeList h + rest + 8, h') ∧ heap_ready h' ∧
    h_freeList h' = h_freeList h ∧ numBytes (h_ram h') (h_freeList h') = rest ∧
    load64 (h_ram h') (h_freeList h + rest) = load64 (h_ram h) (h_freeList h + rest).
Proof.
  intros Hr H0 Hfit Hend Hsize rest. pose proof (load64_range (h_ram h) (h_freeList h + 16)) as Hn.
  fold (numBytes (h_ram h) (h_freeList h)) in Hn.
  destruct (allocate_head fuel size h Hr) as (h' & E & R & Hf & Hm); [lia..|].
  exists h'. fold rest in E, Hm. rewrite E, Hf, Hm, uw_small by lia. split; [done|]. split; [done|]. split; [done|].
  split; [apply load64_store64; lia|]. apply load_store_disj. unfold disj. right. lia.
Qed.

(** A size near 2^64 wraps when the 8 bytes of the header are added: the block handed out begins
    behind the end of the chunk it is said to lie in. *)
Theorem allocate_wraps fuel size h b k l :
  heap_list h ((b, k) :: l) → heap_ready h → (length l < fuel)%nat →
  2 ^ 64 - 8 ≤ size < 2 ^ 64 → size - (2 ^ 64 - 8) ≤ k → b + k + 8 < 2 ^ 64 →
  ∃ h' p, allocate fuel size h = Done (p, h') ∧ heap_ready h' ∧ b + k < p.
Proof.
  intros (Hw & last & Hd) Hr Hf Hs Hk Hend. destruct (heap_lock_spec h Hr) as (e & i & c & E & Hc).
  destruct Hw as (Hb & Hk0 & Hw). pose proof (conj Hb (conj Hk0 Hw) : bytes_wf 1 ((b, k) :: l)) as Hw'.
  unfold allocate. rewrite E. cbn [mbind outcome_bind h_freeList]. change sizeof_UnfreeChunk with 8.
  assert (u64 (size + 8) = size - (2 ^ 64 - 8)) as ->.
  { replace (size + 8) with (size - (2 ^ 64 - 8) + 1 * 2 ^ 64) by lia.
    unfold uw. rewrite Z_mod_plus_full. apply Z.mod_small. lia. }
  set (n := size - (2 ^ 64 - 8)) in *. set (h1 := {| h_ram := h_ram h |}).
  pose proof (allocate_bytes_spec fuel n h1 [] ((b, k) :: l) 0 _ last i c Hw' (conj eq_refl eq_refl) Hd Hc
    ltac:(simpl; lia) ltac:(lia)) as H.
  cbn [first_fit] in H. destruct (Z.leb_spec n k); [|lia]. destruct H as (h' & H & R & _).
  exists h', (u64 (b + (k - n) + 8)). split; [exact H|]. split; [exact R|]. rewrite uw_small; lia.
Qed.

(** A remainder of exactly 8 bytes puts the first word of the block over the size of the chunk it
    was taken from.  A client that writes into its block chooses where the next block lies: any
    address [a] for which the size it forges is large enough. *)
Theorem client_chooses_block fuel fuel' size size' h b l a :
  heap_list h ((b, size + 16) :: l) → heap_ready h → (length l < fuel)%nat →
  8 ≤ size < 2 ^ 64 - 8 → 0 ≤ size' → 0 ≤ a < 2 ^ 64 →
  let forged := u64 (a - b + size') in size' + 8 < forged →
  ∃ p h1, allocate fuel size h = Done (p, h1) ∧
    let h2 := heap_set (store64 (h_ram h1) p forged) (h_freeList h1) h1 in
    ∃ h3, allocate fuel' size' h2 = Done (a, h3).
Proof.
  intros (Hw & last & Hfree & _ & Hnum & _) Hr Hf Hs Hs' Ha forged Hforged.
  change (numBytes (h_ram h) b = size + 16) in Hnum.
  destruct Hw as (Hb & _ & He & _). change sizeof_FreeChunk with 24 in He.
  destruct (allocate_head fuel size h Hr) as (h1 & E & R1 & F1 & M1); try (rewrite Hfree; lia); try lia.
  rewrite Hfree in F1. rewrite Hfree, Hnum in E, M1. exists (b + 16), h1. split.
  { rewrite E. rewrite uw_small by lia. do 2 f_equal. lia. }
  intros h2. assert (numBytes (h_ram h2) (h_freeList h2) = forged) as Hn2.
  { subst h2. simpl. rewrite F1. apply load64_store64. subst forged. apply uw_range. lia. }
  destruct (allocate_head fuel' size' h2) as (h3 & E3 & _); [done|simpl; lia|done|lia|].
  exists h3. rewrite E3, Hn2. subst h2 forged. simpl. rewrite F1. do 2 f_equal.
  replace (b + (u64 (a - b + size') - (size' + 8)) + 8) with (u64 (a - b + size') + (b - size')) by lia.
  rewrite uw_add_l. replace (a - b + size' + (b - size')) with a by lia. by apply uw_small.
Qed.

(** *** Releasing blocks *)

(** The block with its size as [free] makes a chunk of it. *)
Definition fresh_bytes (m : mem) (base n : Z) : mem := set_numBytes (memset m base 0 n) base n.

Lemma fresh_bytes_spec m base n :
  0 ≤ n < 2 ^ 64 →
  numPages (fresh_bytes m base n) base = n ∧
  (24 ≤ n → next (fresh_bytes m base n) base = 0 ∧ prev (fresh_bytes m base n) base = 0) ∧
  agree (λ x, ¬ range base (Z.max sizeof_FreeChunk n) x) (fresh_bytes m base n) m.
Proof.
  intros Hn. unfold fresh_bytes. change set_numBytes with set_numPages.
  change sizeof_FreeChunk with 24.
  destruct (header_words (memset m base 0 n) base n) as (_&_&_&_&_&_& -> & -> & ->).
  split; [by apply uw_small|]. split.
  - intros H24. unfold next, prev. by rewrite !load_memset0 by lia.
  - eapply agree_trans; [apply store_agree; unfold range; lia|].
    eapply agree_weaken; [|apply memset_agree; intros x Hx; exact Hx].
    unfold range. lia.
Qed.

Lemma link_next_bytes_plain m base n nx :
  0 ≤ nx < 2 ^ 64 → nx = 0 ∨ base + 24 ≤ nx ∧ u64 (base + n) ≠ nx →
  link_next_bytes m base base n nx =
    if nx =? 0 then set_next m base nx else set_prev (set_next m base nx) nx base.
Proof.
  intros Hr Hnx. unfold link_next_bytes.
  destruct (header_words m base nx) as (-> & _). rewrite uw_small by done.
  destruct (Z.eqb_spec nx 0) as [|Hz]; [done|]. destruct Hnx as [|[Hfar Hne]]; [done|].
  destruct (header_words_far (set_next m base nx) nx base base) as (_&_&_& -> & _); [lia|].
  destruct (header_words m base nx) as (-> & _). rewrite (uw_small 64 nx) by done.
  destruct (Z.eqb_spec (u64 (base + n)) nx); [congruence|done].
Qed.

Lemma link_prev_bytes_nonnull m base n pv :
  0 < pv < 2 ^ 64 → pv + 24 ≤ base →
  link_prev_bytes m base base n pv =
    let m := set_next (set_prev m base pv) pv base in
    if u64 (pv + numBytes m pv) =? base then set_numBytes m pv (u64 (numBytes m pv + n)) else m.
Proof.
  intros Hr Hfar. unfold link_prev_bytes.
  destruct (header_words m base pv) as (_&_&_&_& -> & _). rewrite (uw_small 64 pv) by lia.
  destruct (Z.eqb_spec pv 0); [lia|]. cbv zeta.
  destruct (header_words_far (set_prev m base pv) pv base base) as (_& -> & _); [lia|].
  destruct (header_words m base pv) as (_&_&_&_& -> & _). by rewrite (uw_small 64 pv) by lia.
Qed.

(** Where a block of [n] bytes at [base] is put: above [l1], below [l2], touching no chunk that
    begins behind it. *)
Record fits (base n : Z) (l1 l2 : list chunk) : Prop := {
  fits_size : 24 ≤ n < 2 ^ 64;
  fits_base : 1 ≤ base ∧ base + n < 2 ^ 64;
  fits_above b k : (b, k) ∈ l1 → b + Z.max sizeof_FreeChunk k ≤ base;
  fits_below b k : (b, k) ∈ l2 → base + n < b;
  fits_first : l1 = [] → l2 = [];
}.

(** The list around the place of the block, once the block is a chunk. *)
Lemma free_place fuel m free base n l1 b0 n0 l2 last :
  bytes_wf 1 ((l1 ++ [(b0, n0)]) ++ l2) → dseg m 0 free ((l1 ++ [(b0, n0)]) ++ l2) last 0 →
  (length l1 < fuel)%nat → fits base n (l1 ++ [(b0, n0)]) l2 →
  let m1 := fresh_bytes m base n in
  free ≠ 0 ∧ ∃ nx, find_place fuel m1 base 0 free = Done (b0, nx) ∧
    dseg m1 0 free (l1 ++ [(b0, n0)]) b0 nx ∧ dseg m1 b0 nx l2 last 0 ∧
    0 ≤ nx < 2 ^ 64 ∧ (nx = 0 ∨ base + 24 ≤ nx ∧ u64 (base + n) ≠ nx).
Proof.
  intros Hw Hd Hf [Hn Hb Hl1 Hl2 _] m1. change sizeof_FreeChunk with 24 in Hl1.
  destruct (fresh_bytes_spec m base n ltac:(lia)) as (_ & _ & HA). fold m1 in HA.
  change sizeof_FreeChunk with 24 in HA. rewrite Z.max_r in HA by lia.
  pose proof (bytes_spaced _ _ Hw) as Hs. split.
  { destruct (dseg_head _ _ _ _ _ _ Hs Hd) as [[_ Hnil]|(? & ? & _ & ?)]; [lia| |lia]. by destruct l1. }
  assert (∀ l pv p pv' p', (∀ b k, (b, k) ∈ l → b + 24 ≤ base ∨ base + n ≤ b) →
    dseg m pv p l pv' p' → dseg m1 pv p l pv' p') as Hkeep.
  { intros l ???? Hl Hd'. eapply dseg_agree; [|exact Hd']. eapply agree_weaken; [|exact HA].
    intros x (b & k & Hin & Hx). specialize (Hl _ _ Hin). unfold range. lia. }
  apply dseg_app in Hd as (pv & nx & D1 & D2). assert (pv = b0) as -> by (by eapply dseg_last).
  apply Hkeep in D1; [|intros b k Hin; specialize (Hl1 _ _ Hin); lia].
  apply Hkeep in D2; [|intros b k Hin; specialize (Hl2 _ _ Hin); lia].
  exists nx. destruct (spaced_app _ _ _ Hs) as (_ & lo & Hlo & Hs2 & _).
  split; [|split; [done|split; [done|]]].
  - apply (find_place_spec fuel _ base (l1 ++ [(b0, n0)]) l2 0 _ b0 nx last 1); try done.
    + intros b k Hin. specialize (Hl1 _ _ Hin). lia.
    + intros b k Hin. specialize (Hl2 _ _ Hin). lia.
    + rewrite length_app. simpl. lia.
  - destruct (dseg_head _ _ _ _ _ _ Hs2 D2) as [[-> _]|(n2 & l2' & -> & ?)]; [lia|lia|].
    specialize (Hl2 nx n2 (list_elem_of_here _ _)). rewrite uw_small; lia.
Qed.

(** [free] behind a chunk: both ways it can end. *)
Lemma free_above fuel p base n h l1 b0 n0 l2 :
  heap_list h ((l1 ++ [(b0, n0)]) ++ l2) → heap_ready h → (length l1 < fuel)%nat →
  u64 (p - 8) = base → load64 (h_ram h) base = n → fits base n (l1 ++ [(b0, n0)]) l2 →
  ∃ m2 h', free fuel p h = Done h' ∧ heap_ready h' ∧ h_freeList h' = h_freeList h ∧
    (∃ last, dseg m2 0 (h_freeList h) ((l1 ++ [(b0, n0)]) ++ (base, n) :: l2) last 0) ∧
    h_ram h' = (if b0 + n0 =? base then set_numBytes m2 b0 (n0 + n) else m2) ∧
    agree (λ x, ¬ range base n x ∧ ¬ headers ((l1 ++ [(b0, n0)]) ++ l2) x) m2 (h_ram h).
Proof.
  intros (Hw & last & Hd) Hr Hf Hbase Hload Hfit.
  destruct (free_place fuel _ _ base n l1 b0 n0 l2 last Hw Hd Hf Hfit) as (Hz & nx & Ep & D1 & D2 & Hnx).
  destruct Hfit as [Hn Hb Hl1 Hl2 _]. change sizeof_FreeChunk with 24 in Hl1.
  assert (Hin0 : (b0, n0) ∈ l1 ++ [(b0, n0)]) by (apply elem_of_app; right; apply list_elem_of_here).
  pose proof (Hl1 _ _ Hin0) as Hb0.
  destruct (bytes_wf_elem _ _ b0 n0 Hw) as (Hb01 & Hn0 & _); [by apply elem_of_app; left|].
  destruct (heap_lock_spec h Hr) as (e & i & c & E & Hc).
  destruct (fresh_bytes_spec (h_ram h) base n ltac:(lia)) as (Hnum & _ & HA).
  change sizeof_FreeChunk with 24 in HA. rewrite Z.max_r in HA by lia.
  destruct (dseg_link (fresh_bytes (h_ram h) base n) (h_freeList h) l1 b0 n0 l2 base n nx last
    (bytes_spaced _ _ Hw)) as (Hd2 & Hnum2 & HA2); try done; try lia.
  { intros b k Hin. specialize (Hl2 _ _ Hin). lia. }
  unfold free. rewrite E. cbn [mbind outcome_bind h_ram h_freeList].
  change sizeof_UnfreeChunk with 8. rewrite Hbase, Hload. fold (fresh_bytes (h_ram h) base n).
  destruct (Z.eqb_spec (h_freeList h) 0); [done|]. rewrite Ep.
  cbn [mbind outcome_bind]. rewrite link_next_bytes_plain, link_prev_bytes_nonnull by (apply Hnx || lia).
  cbv zeta. set (m2 := set_next (set_prev _ base b0) b0 base) in *. change numBytes with numPages.
  rewrite Hnum2, (uw_small 64 (b0 + n0)), (uw_small 64 (n0 + n)) by lia.
  match goal with |- context [heap_unlock ?h2] =>
    destruct (heap_unlock_spec h2 i c Hc) as (e' & c' & -> & Hc') end.
  eexists m2, _. split; [done|]. split; [split; [done|by exists i, c']|].
  split; [done|]. split; [done|]. split; [done|].
  intros x [Hx1 Hx2]. rewrite HA2; [by apply HA|].
  intros (b & k & Hin & Hx). apply elem_of_app in Hin as [Hin|[[= -> ->]|Hin]%elem_of_cons].
  - apply Hx2. exists b, k. split; [by apply elem_of_app; left|done].
  - apply Hx1. unfold range. lia.
  - apply Hx2. exists b, k. split; [by apply elem_of_app; right|done].
Qed.

Lemma bytes_wf_insert l1 base n l2 :
  bytes_wf 1 (l1 ++ l2) → fits base n l1 l2 → bytes_wf 1 (l1 ++ (base, n) :: l2).
Proof.
  intros Hw [Hn Hb Hl1 Hl2 _]. assert (Hlo : 1 ≤ base) by lia. revert Hw Hl1 Hlo. generalize 1.
  induction l1 as [|[b k] l1 IH]; intros lo Hw Hl1 Hlo.
  - simpl. change sizeof_FreeChunk with 24. rewrite Z.max_r by lia. repeat (split; [lia|]).
    destruct l2 as [|[b2 n2] l2]; [done|]. specialize (Hl2 b2 n2 (list_elem_of_here _ _)).
    destruct Hw as (? & ? & ? & ?). repeat split; try done; lia.
  - destruct Hw as (? & ? & ? & Hw). split; [done|]. split; [done|]. split; [done|].
    apply IH; [done| |].
    + intros b' k' Hin. apply Hl1. by apply list_elem_of_further.
    + apply Hl1, list_elem_of_here.
Qed.


(** A block that begins where a free chunk ends enlarges that chunk, but stays on the list behind it:
    its bytes are there twice. *)
Theorem free_adjacent_twice fuel p base n h l1 b0 n0 l2 :
  heap_list h ((l1 ++ [(b0, n0)]) ++ l2) → heap_ready h → (length l1 < fuel)%nat →
  u64 (p - 8) = base → load64 (h_ram h) base = n → fits base n (l1 ++ [(b0, n0)]) l2 →
  b0 + n0 = base →
  ∃ h' last, free fuel p h = Done h' ∧
    dseg (h_ram h') 0 (h_freeList h') ((l1 ++ [(b0, n0 + n)]) ++ (base, n) :: l2) last 0.
Proof.
  intros Hl Hr Hf Hbase Hload Hfit Hadj.
  destruct (free_above fuel p base n h l1 b0 n0 l2) as (m2 & h' & E & R & F & (last & Hd) & Hram & HA); try done.
  pose proof (bytes_spaced _ _ (bytes_wf_insert _ _ _ _ (proj1 Hl) Hfit)) as Hs.
  destruct (bytes_wf_elem _ _ b0 n0 (proj1 Hl)) as (? & ? & _).
  { rewrite <- app_assoc. apply elem_of_app; right; apply list_elem_of_here. }
  destruct Hfit as [Hn Hb _ _ _]. exists h', last. split; [done|].
  rewrite Hram, F, Hadj, Z.eqb_refl. rewrite <- app_assoc in *. cbn [app] in *.
  eapply (dseg_set_numPages m2 _ l1 b0 n0); [exact Hs|lia|exact Hd].
Qed.

(** A block too small for a header (one allocated with less than 16 bytes) is not too small for
    [free]: the third word of the header it writes lies behind the block. *)
Theorem free_small_overruns fuel p base n h :
  heap_ready h → h_freeList h = 0 → u64 (p - 8) = base → load64 (h_ram h) base = n → n ≤ 16 →
  ∃ h', free fuel p h = Done h' ∧ load64 (h_ram h') (base + 16) = n ∧ base + n ≤ base + 16.
Proof.
  intros Hr Hnull Hbase Hload Hn. destruct (heap_lock_spec h Hr) as (e & i & c & E & Hc).
  unfold free. rewrite E. cbn [mbind outcome_bind h_ram h_freeList].
  change sizeof_UnfreeChunk with 8. rewrite Hbase, Hload, Hnull, Z.eqb_refl.
  match goal with |- context [heap_unlock ?h2] =>
    destruct (heap_unlock_spec h2 i c Hc) as (e' & c' & -> & Hc') end.
  eexists. split; [done|]. split; [|lia]. simpl. apply load64_store64.
  rewrite <- Hload. apply load64_range.
Qed.

(** The only chunk, used up. *)
Lemma take_bytes_only m b k :
  next m b = 0 → prev m b = 0 → numBytes m b = k → take_bytes m b b k = (set_numBytes m b 0, 0).
Proof.
  intros Hn Hp Hk. unfold take_bytes. rewrite Hk, Z.sub_diag. change (u64 0) with 0.
  destruct (header_words m b 0) as (_&_&_&_&_&_& H1 & H2 & H3).
  change numBytes with numPages. change set_numBytes with set_numPages.
  cbv zeta. rewrite H3, H2, Hp, (Z.eqb_refl b). change (uw 64 0 =? 0) with true. change (0 =? 0) with true.
  cbv iota. rewrite H1, Hn. change (0 =? 0) with true. cbv iota.
  by rewrite H1, Hn.
Qed.

Lemma allocate_only fuel size h b :
  heap_list h [(b, size + 8)] → heap_ready h → (0 < fuel)%nat → 16 ≤ size →
  ∃ h', allocate fuel size h = Done (b + 8, h') ∧ heap_ready h' ∧ h_freeList h' = 0 ∧
    load64 (h_ram h') b = 0.
Proof.
  intros (Hw & last & Hfree & Hprev & Hnum & Hnext & _) Hr Hf Hs.
  destruct Hw as (Hb & _ & He & _). change sizeof_FreeChunk with 24 in He. rewrite Z.max_r in He by lia.
  destruct fuel as [|fuel]; [lia|]. destruct (heap_lock_spec h Hr) as (e & i & c & E & Hc).
  destruct (header_words (h_ram h) b 0) as (_&_&_&_&_&_& H1 & _ & H3).
  unfold allocate. rewrite E. cbn [mbind outcome_bind h_freeList]. rewrite Hfree.
  change sizeof_UnfreeChunk with 8. rewrite (uw_small 64 (size + 8)) by lia.
  cbn [allocate_bytes h_ram h_freeList]. destruct (Z.eqb_spec b 0); [lia|].
  change (numBytes (h_ram h) b = size + 8) in Hnum. rewrite Hnum, Z.leb_refl.
  rewrite take_bytes_only by done.
  match goal with |- context [heap_unlock ?h0] =>
    destruct (heap_unlock_spec h0 i c Hc) as (e1 & c1 & -> & Hc1) end.
  cbn [mbind outcome_bind h_ram heap_set h_freeList h_env]. change numBytes with numPages.
  change set_numBytes with set_numPages. rewrite H3. change (uw 64 0) with 0.
  change sizeof_UnfreeChunk with 8. rewrite Z.add_0_r, (uw_small 64 (b + 8)) by lia.
  eexists. split; [reflexivity|]. split; [split; [done|by exists i, c1]|]. split; [done|].
  etransitivity; [exact H1|exact Hnext].
Qed.

(** A block whose size word is 0, put on an empty list: a chunk of no bytes, from which nothing can be
    allocated. *)
Lemma free_nothing fuel b h :
  heap_ready h → h_freeList h = 0 → 1 ≤ b < 2 ^ 64 → load64 (h_ram h) b = 0 →
  ∃ h', free fuel (b + 8) h = Done h' ∧ heap_ready h' ∧ h_freeList h' = b ∧
    numBytes (h_ram h') b = 0 ∧ next (h_ram h') b = 0.
Proof.
  intros Hr Hnull Hb Hload. destruct (heap_lock_spec h Hr) as (e & i & c & E & Hc).
  unfold free. rewrite E. cbn [mbind outcome_bind h_ram h_freeList].
  change sizeof_UnfreeChunk with 8. replace (b + 8 - 8) with b by lia. rewrite (uw_small 64 b) by lia.
  rewrite Hload, Hnull, Z.eqb_refl.
  match goal with |- context [heap_unlock ?h0] =>
    destruct (heap_unlock_spec h0 i c Hc) as (e1 & c1 & -> & Hc1) end.
  destruct (header_words (memset (h_ram h) b 0 0) b 0) as (_&_&_&_&_&_& N1 & _ & N2).
  eexists. split; [reflexivity|]. split; [split; [done|by exists i, c1]|]. split; [done|].
  split; [exact N2|]. etransitivity; [exact N1|]. etransitivity; [|exact Hload].
  apply load_memset_disj. unfold disj. lia.
Qed.

Lemma allocate_too_much fuel size h :
  heap_ready h → (0 < fuel)%nat → 0 ≤ size < 2 ^ 64 - 8 → h_freeList h ≠ 0 →
  numBytes (h_ram h) (h_freeList h) < size + 8 → next (h_ram h) (h_freeList h) = 0 →
  ∃ h', allocate fuel size h = Done (0, h') ∧ h_lock h' = 1.
Proof.
  intros Hr Hf Hs Hfree Hn Hnext. destruct fuel as [|fuel]; [lia|].
  destruct (heap_lock_spec h Hr) as (e & i & c & E & _).
  unfold allocate. rewrite E. cbn [mbind outcome_bind h_freeList].
  change sizeof_UnfreeChunk with 8. rewrite (uw_small 64 (size + 8)) by lia.
  set (h4 := {| h_ram := h_ram h |}). cbn [allocate_bytes].
  destruct (Z.eqb_spec (h_freeList h) 0); [done|]. change (h_ram h4) with (h_ram h).
  destruct (Z.leb_spec (size + 8) (numBytes (h_ram h) (h_freeList h))); [lia|]. rewrite Hnext.
  exists h4. split; [by destruct fuel|done].
Qed.

(** Allocating and releasing is no round trip.  When a block uses up the only chunk, the word that
    [free] takes for its size is the chunk's old link, null: whatever the client wrote into its
    block, after the release the list holds one chunk of no bytes, and the next allocation fails and
    keeps the lock. *)
Theorem allocate_free_loses fuel fuel' size size' h b :
  heap_list h [(b, size + 8)] → heap_ready h → (0 < fuel)%nat → (0 < fuel')%nat →
  16 ≤ size → 0 < size' < 2 ^ 64 - 8 →
  ∃ h1, allocate fuel size h = Done (b + 8, h1) ∧
    ∀ m, agree (λ x, ¬ range (b + 8) size x) m (h_ram h1) →
     ∃ h2 h3, free fuel' (b + 8) (heap_set m (h_freeList h1) h1) = Done h2 ∧
       h_freeList h2 = b ∧ numBytes (h_ram h2) b = 0 ∧ next (h_ram h2) b = 0 ∧
       allocate fuel' size' h2 = Done (0, h3) ∧ h_lock h3 = 1.
Proof.
  intros Hl Hr Hf Hf' Hs Hs'. pose proof (proj1 Hl) as (Hb & _ & He & _). change sizeof_FreeChunk with 24 in He.
  destruct (allocate_only fuel size h b Hl Hr Hf Hs) as (h1 & E1 & R1 & F1 & L1).
  exists h1. split; [exact E1|]. intros m HA.
  destruct (free_nothing fuel' b (heap_set m (h_freeList h1) h1)) as (h2 & E2 & R2 & F2 & N2 & X2);
    [done|done|lia| |].
  { rewrite <- L1. eapply load_agree; [exact HA|]. unfold range. lia. }
  rewrite <- F2 in N2, X2.
  destruct (allocate_too_much fuel' size' h2) as (h3 & E3 & L3); [done|done|lia|lia|lia|done|].
  rewrite F2 in N2, X2. by exists h2, h3.
Qed.

(** ** Concrete runs *)

Definition example_heap (m : mem) (free : Z) : heap :=
  {| h_ram := m; h_lock := 0; h_freeList := free;
     h_env := {| CPUs := [zero_cpu]; this_hw := zero_hw |} |}.

Lemma allocate_failure_deadlocks_witness :
  ∃ h', allocate 1 16 (example_heap (λ _, 0) 0) = Done (0, h') ∧ allocate 1 16 h' = Stuck Spin.
Proof.
  destruct (allocate_failure_deadlocks 1 16 (example_heap (λ _, 0) 0)) as (h' & E & _ & A & _).
  - split; [done|]. by exists 0%nat, zero_cpu.
  - reflexivity.
  - exists h'. split; [exact E|apply A].
Defined.

Lemma allocate_split_witness :
  ∃ h', allocate 1 16 (example_heap (set_numBytes (λ _, 0xEE) 0x1000 256) 0x1000) = Done (0x10F0, h') ∧
    load64 (h_ram h') 0x10E8 = 0xEEEEEEEEEEEEEEEE.
Proof.
  destruct (allocate_split 1 16 (example_heap (set_numBytes (λ _, 0xEE) 0x1000 256) 0x1000))
    as (h' & E & _ & _ & _ & L).
  - split; [done|]. by exists 0%nat, zero_cpu.
  - by vm_compute.
  - by vm_compute.
  - by vm_compute.
  - lia.
  - exists h'. split; [exact E|exact L].
Defined.

(** Two free chunks, the first too small for what is asked, and a block of 64 bytes. *)
Definition two_chunks : mem :=
  store64 (set_numBytes (set_numBytes (set_prev (set_next (λ _, 0) 0x1000 0x2000) 0x2000 0x1000)
    0x1000 32) 0x2000 256) 0x3000 64.
Lemma two_chunks_list : heap_list (example_heap two_chunks 0x1000) [(0x1000, 32); (0x2000, 256)].
Proof.
  split; [repeat split; done|]. exists 0x2000. repeat split; by vm_compute.
Qed.
Lemma example_heap_ready m free : heap_ready (example_heap m free).
Proof. split; [done|]. by exists 0%nat, zero_cpu. Qed.

Lemma allocate_first_fit_witness :
  (∃ h', allocate 2 100 (example_heap two_chunks 0x1000) = Done (0x209C, h') ∧
     heap_list h' [(0x1000, 32); (0x2000, 148)]) ∧
  ∃ h', allocate 2 1000 (example_heap two_chunks 0x1000) = Done (0, h') ∧ h_lock h' = 1.
Proof.
  split.
  - destruct (allocate_first_fit 2 100 (example_heap two_chunks 0x1000) _ two_chunks_list
      (example_heap_ready _ _) ltac:(simpl; lia) ltac:(lia)) as (h' & E & _ & L & _).
    exists h'. split; [exact E|exact L].
  - destruct (allocate_first_fit 2 1000 (example_heap two_chunks 0x1000) _ two_chunks_list
      (example_heap_ready _ _) ltac:(simpl; lia) ltac:(lia)) as (h' & E & L & _).
    exists h'. split; [exact E|exact L].
Defined.


(** A block over its chunk's size: the next block is put at address 0x18. *)
Definition eight_left : mem := set_numBytes (λ _, 0) 0x1000 48.
Lemma client_chooses_block_witness :
  ∃ p h1, allocate 1 32 (example_heap eight_left 0x1000) = Done (p, h1) ∧
    ∃ h3, allocate 1 16 (heap_set (store64 (h_ram h1) p (u64 (0x18 - 0x1000 + 16))) (h_freeList h1) h1) =
      Done (0x18, h3).
Proof.
  destruct (client_chooses_block 1 1 32 16 (example_heap eight_left 0x1000) 0x1000 [] 0x18)
    as (p & h1 & E & h3 & E3).
  - split; [repeat split; done|]. exists 0x1000. repeat split; by vm_compute.
  - apply example_heap_ready.
  - simpl; lia.
  - lia.
  - lia.
  - lia.
  - by vm_compute.
  - exists p, h1. split; [exact E|]. by exists h3.
Defined.
Lemma allocate_free_loses_witness :
  ∃ h1 h2, allocate 1 40 (example_heap eight_left 0x1000) = Done (0x1008, h1) ∧
    free 1 0x1008 h1 = Done h2 ∧ numBytes (h_ram h2) 0x1000 = 0.
Proof.
  destruct (allocate_free_loses 1 1 40 16 (example_heap eight_left 0x1000) 0x1000) as (h1 & E & H).
  - split; [repeat split; done|]. exists 0x1000. repeat split; by vm_compute.
  - apply example_heap_ready.
  - lia.
  - lia.
  - lia.
  - lia.
  - destruct (H (h_ram h1) (agree_refl _ _)) as (h2 & h3 & E2 & _ & N & _).
    exists h1, h2. split; [exact E|]. split; [|exact N]. by destruct h1.
Defined.
