(* ===== verification/Devices.v ===== *)
(** The devices the kernel drives: the serial console behind [printf] ([PrintfImplementation.cpp]
    and [logfn] of [printf.c]), the local interrupt controller ([LocalAPIC.cpp]) and the Bochs
    display ([Graphics.cpp]).

    A device is what can be observed at its registers: the console is the sequence of bytes
    written to the serial port; the interrupt controller is the history of register writes, and
    its registers read as a function of that history and of the number of reads so far. *)

From Stdlib Require Import Ascii String.
From S2P Require Import Prelude Mem GDT Cpu Spinlock PhysMem CpuReady PrintfCore PrintfFloat PrintfFormat PCI Traps.

(** ** The console *)

Record console := { logLock : Z; serial : list Z; con_env : cpu_env }.

(** [_putchar]: a carriage return goes before every line feed. *)
Definition _putchar (character : Z) (serial : list Z) : list Z :=
  (if character =? 10 then serial ++ [13] else serial) ++ [u8 character].

Definition initLogLock (s : console) : console :=
  {| logLock := lock_init; serial := serial s; con_env := con_env s |}.
Definition lockLog (s : console) : outcome console :=
  '(l, e) ← acquire (logLock s) (con_env s);
  Done {| logLock := l; serial := serial s; con_env := e |}.
(** [release] writes four bytes; the two behind the lock belong to whatever the linker put there. *)
Definition unlockLog (s : console) : outcome console :=
  '(img, e) ← release (le_split 2 (logLock s) ++ [0; 0]) (con_env s);
  Done {| logLock := le_combine (take 2 img); serial := serial s; con_env := e |}.

Definition logfn (format : list Z) (va : list arg) (s : console) : outcome (Z * console) :=
  s ← lockLog s;
  '(ret, out) ← _vsnprintf (_out_char _putchar) local_buffer SIZE_MAX format va (serial s);
  s ← unlockLog {| logLock := logLock s; serial := out; con_env := con_env s |};
  Done (ret, s).

(** What a text looks like on the wire. *)
Definition on_wire (cs : list Z) : list Z :=
  cs ≫= λ c, if c =? 0 then [] else if c =? 10 then [13; 10] else [u8 c].

Lemma feed_putchar cs st : feed _putchar cs st = st ++ on_wire cs.
Proof.
  revert st; induction cs as [|c cs IH]; intros st; [by rewrite app_nil_r|].
  unfold feed, on_wire in *. cbn [foldl mbind list_bind]. rewrite IH. unfold _putchar.
  destruct (Z.eqb_spec c 0); [done|].
  destruct (Z.eqb_spec c 10) as [->|]; by rewrite <- !app_assoc.
Qed.

(** With the lock free, [logfn] returns, and the processor's record and the lock stay in order. *)
Lemma logfn_ready depth format va cs s :
  cpu_ready depth (con_env s) → logLock s = 0 → printed format va = Done cs →
  ∃ n s', logfn format va s = Done (n, s') ∧ serial s' = serial s ++ on_wire cs ∧ logLock s' = 0 ∧
    cpu_ready depth (con_env s').
Proof.
  intros Hc Hl Hp. destruct (push_pop_ready _ _ Hc) as (e1 & e2 & E1 & E2 & H2).
  unfold logfn, lockLog, acquire. rewrite E1. cbn [mbind outcome_bind test_and_set].
  rewrite Hl. cbn [Z.eqb]. rewrite E2. cbn [mbind outcome_bind serial].
  pose proof (printf_feed _putchar format va cs (serial s) Hp) as Hf. unfold printf_ in Hf.
  rewrite Hf. cbn [mbind outcome_bind logLock con_env].
  destruct (push_pop_ready _ _ H2) as (e3 & e4 & E3 & E4 & H4).
  unfold unlockLog, release. cbn [con_env]. rewrite E3. cbn [mbind outcome_bind]. rewrite E4.
  cbn [mbind outcome_bind]. eexists _, _. split; [reflexivity|]. simpl. split; [apply feed_putchar|done].
Qed.

Lemma logfn_steady depth format va s n s' :
  logfn format va s = Done (n, s') → steady depth (con_env s) (con_env s').
Proof.
  unfold logfn, lockLog, unlockLog. destruct (acquire _ _) as [[l e1]|] eqn:E1; [|done].
  cbn [mbind outcome_bind]. destruct (_vsnprintf _ _ _ _ _ _) as [[k out]|]; [|done].
  cbn [mbind outcome_bind logLock con_env]. destruct (release _ _) as [[img e2]|] eqn:E2; [|done].
  intros [= _ <-]. etrans; [by eapply acquire_steady|by eapply release_steady].
Qed.

(** C38. [logfn] writes the text the format describes to the serial line, behind what was there, with
    carriage returns before line feeds and without null characters, and returns the text's
    length; the log lock is free again.  When the lock is held, for instance because the code
    interrupted by a handler that logs was itself logging, it never returns. *)
Theorem logfn_writes format va cs s i c :
  cpu_of (con_env s) i c → printed format va = Done cs →
  (logLock s = 0 → ∃ s', logfn format va s = Done (s32 (u64 (Z.of_nat (length cs))), s') ∧
     serial s' = serial s ++ on_wire cs ∧ logLock s' = 0) ∧
  (logLock s ≠ 0 → logfn format va s = Stuck Spin).
Proof.
  intros Hc Hp. destruct (push_pop_total _ _ _ Hc) as (e1 & e2 & c2 & E1 & E2 & H2).
  unfold logfn, lockLog, acquire. rewrite E1. cbn [mbind outcome_bind test_and_set]. split; intros Hl.
  - rewrite Hl. cbn [Z.eqb]. rewrite E2. cbn [mbind outcome_bind serial].
    pose proof (printf_feed _putchar format va cs (serial s) Hp) as Hf. unfold printf_ in Hf.
    rewrite Hf. cbn [mbind outcome_bind logLock con_env].
    destruct (push_pop_total _ _ _ H2) as (e3 & e4 & c4 & E3 & E4 & _).
    unfold unlockLog, release. cbn [con_env]. rewrite E3. cbn [mbind outcome_bind]. rewrite E4.
    cbn [mbind outcome_bind]. eexists. split; [reflexivity|]. simpl. split; [apply feed_putchar|done].
  - by destruct (Z.eqb_spec (logLock s) 0).
Qed.

(** ** The local interrupt controller *)

Definition ID : Z := 0x0020 / 4.
Definition Version : Z := 0x0030 / 4.
Definition TaskPriority : Z := 0x0080 / 4.
Definition EndOfInterrupt : Z := 0x00B0 / 4.
Definition SpuriousInterruptVector : Z := 0x00F0 / 4.
Definition ErrorStatus : Z := 0x0280 / 4.
Definition LowInterruptCommand : Z := 0x0300 / 4.
Definition HighInterruptCommand : Z := 0x0310 / 4.
Definition LVT0Timer : Z := 0x0320 / 4.
Definition LVTPerfCount : Z := 0x0340 / 4.
Definition LVT1Interrupt0 : Z := 0x0350 / 4.
Definition LVT2Interrupt1 : Z := 0x0360 / 4.
Definition LVT3Error : Z := 0x0370 / 4.
Definition TimerInitialCount : Z := 0x0380 / 4.
Definition TimerDivideConfiguration : Z := 0x03E0 / 4.

Definition SVREnable : Z := 0x00000100.
Definition TimerDivideBy1 : Z := 0x0000000B.
Definition TimerPeriodic : Z := 0x00020000.
Definition ErrorMasked : Z := 0x00010000.
Definition Initialize : Z := 0x00000500.
Definition DeliveryStatus : Z := 0x00001000.
Definition LevelTriggered : Z := 0x00008000.
Definition Broadcast : Z := 0x00080000.
Definition IRQError : Z := 19.
Definition IRQSpurious : Z := 31.

(** The writes so far, latest first, and the number of reads. *)
Record lapic_state := { writes : list (Z * Z); reads : nat }.

Section lapic.
(** The value a register reads as. *)
Context (register : lapic_state → Z → Z).

Definition readLAPIC (index : Z) (s : lapic_state) : Z * lapic_state :=
  (u32 (register s index), {| writes := writes s; reads := S (reads s) |}).
Definition writeLAPIC (index value : Z) (s : lapic_state) : lapic_state :=
  (readLAPIC ID {| writes := (index, u32 value) :: writes s; reads := reads s |}).2.

(** [while (lapic[LowInterruptCommand] & DeliveryStatus);] *)
Fixpoint wait_delivery (fuel : nat) (s : lapic_state) : outcome lapic_state :=
  let '(v, s) := readLAPIC LowInterruptCommand s in
  if Z.land v DeliveryStatus =? 0 then Done s
  else match fuel with O => Stuck OutOfFuel | S fuel => wait_delivery fuel s end.

Definition initLAPIC (fuel : nat) (s : lapic_state) : outcome lapic_state :=
  let s := writeLAPIC SpuriousInterruptVector (Z.lor SVREnable (IRQ0 + IRQSpurious)) s in
  let s := writeLAPIC TimerDivideConfiguration TimerDivideBy1 s in
  let s := writeLAPIC LVT0Timer (Z.lor TimerPeriodic (IRQ0 + IRQTimer)) s in
  let s := writeLAPIC TimerInitialCount 10000000 s in
  let s := writeLAPIC LVT1Interrupt0 ErrorMasked s in
  let s := writeLAPIC LVT2Interrupt1 ErrorMasked s in
  let '(v, s) := readLAPIC Version s in
  let s := if 4 <=? Z.land (Z.shiftr v 16) 0xFF then writeLAPIC LVTPerfCount ErrorMasked s else s in
  let s := writeLAPIC LVT3Error (IRQ0 + IRQError) s in
  let s := writeLAPIC ErrorStatus 0 s in
  let s := writeLAPIC ErrorStatus 0 s in
  let s := writeLAPIC EndOfInterrupt 0 s in
  let s := writeLAPIC HighInterruptCommand 0 s in
  let s := writeLAPIC LowInterruptCommand (Z.lor (Z.lor Broadcast Initialize) LevelTriggered) s in
  s ← wait_delivery fuel s;
  Done (writeLAPIC TaskPriority 0 s).

Definition acknowledgeInterrupt (s : lapic_state) : lapic_state := writeLAPIC EndOfInterrupt 0 s.

(** The registers [initLAPIC] writes, in order. *)
Definition init_writes (perf_counter : bool) : list (Z * Z) :=
  [(0x3C, 0x13F); (0xF8, 0xB); (0xC8, 0x20020); (0xE0, 10000000); (0xD4, 0x10000); (0xD8, 0x10000)] ++
  (if perf_counter then [(0xD0, 0x10000)] else []) ++
  [(0xDC, 51); (0xA0, 0); (0xA0, 0); (0x2C, 0); (0xC4, 0); (0xC0, 0x88500)].

Lemma wait_delivery_spec fuel s :
  (∃ k, (k ≤ fuel)%nat ∧
     Z.land (u32 (register {| writes := writes s; reads := (reads s + k)%nat |} LowInterruptCommand))
       DeliveryStatus = 0) →
  ∃ s', wait_delivery fuel s = Done s' ∧ writes s' = writes s.
Proof.
  revert s; induction fuel as [|fuel IH]; intros s (k & Hk & Hz); cbn [wait_delivery readLAPIC].
  - assert (k = 0%nat) as -> by lia. rewrite Nat.add_0_r in Hz.
    assert (s = {| writes := writes s; reads := reads s |}) as Hs by (by destruct s).
    rewrite <- Hs in Hz. rewrite Hz. by eexists.
  - destruct (_ =? 0) eqn:E; [by eexists|]. destruct k as [|k].
    + rewrite Nat.add_0_r in Hz. destruct s as [w r]. simpl in *. by rewrite Hz in E.
    + destruct (IH {| writes := writes s; reads := S (reads s) |}) as (s' & E' & W).
      { exists k. split; [lia|]. simpl. by replace (S (reads s + k)) with (reads s + S k)%nat by lia. }
      by exists s'.
Qed.

Lemma initLAPIC_spec fuel s :
  (∀ s', ∃ k, (k ≤ fuel)%nat ∧
     Z.land (u32 (register {| writes := writes s'; reads := (reads s' + k)%nat |} LowInterruptCommand))
       DeliveryStatus = 0) →
  ∃ s' perf_counter, initLAPIC fuel s = Done s' ∧
    writes s' = rev (init_writes perf_counter ++ [(0x20, 0)]) ++ writes s ∧
    (∀ version, (∀ s, u32 (register s Version) = version) →
       perf_counter = (4 <=? Z.land (Z.shiftr version 16) 0xFF)).
Proof.
  intros Hw. unfold initLAPIC. cbn [readLAPIC].
  match goal with |- context [if 4 <=? Z.land (Z.shiftr ?v 16) 0xFF then _ else _] =>
    set (version := v) end.
  match goal with |- context [wait_delivery fuel ?s0] =>
    destruct (wait_delivery_spec fuel s0 (Hw s0)) as (s1 & E & W) end.
  rewrite E. cbn [mbind outcome_bind].
  exists (writeLAPIC TaskPriority 0 s1), (4 <=? Z.land (Z.shiftr version 16) 0xFF).
  split; [done|]. split; [|intros v Hv; unfold version; by rewrite Hv].
  unfold writeLAPIC, readLAPIC. cbn [writes snd]. rewrite W.
  by destruct (4 <=? Z.land (Z.shiftr version 16) 0xFF).
Qed.

(** C39. [initLAPIC] returns as soon as the controller has delivered the broadcast; it has then written
    exactly [init_writes], and last the task priority.  The performance counter's entry is
    written when the version register counts it. *)
Theorem initLAPIC_writes fuel s :
  (∀ s', ∃ k, (k ≤ fuel)%nat ∧
     Z.land (u32 (register {| writes := writes s'; reads := (reads s' + k)%nat |} LowInterruptCommand))
       DeliveryStatus = 0) →
  ∃ s' perf_counter, initLAPIC fuel s = Done s' ∧
    writes s' = rev (init_writes perf_counter ++ [(0x20, 0)]) ++ writes s ∧
    (∀ version, (∀ s, u32 (register s Version) = version) →
       perf_counter = (4 <=? Z.land (Z.shiftr version 16) 0xFF)).
Proof. apply initLAPIC_spec. Qed.
End lapic.

(** The vectors [initLAPIC] programs for errors (51) and for spurious interrupts (63) have no gate
    in the table [setupIDTTable] builds; the timer's (32) has one. *)
Theorem lapic_vectors_gates isr irq t :
  length t = 256%nat →
  let t' := setupIDTTable isr irq t in
  t' !! Z.to_nat (IRQ0 + IRQError) = t !! Z.to_nat (IRQ0 + IRQError) ∧
  t' !! Z.to_nat (IRQ0 + IRQSpurious) = t !! Z.to_nat (IRQ0 + IRQSpurious) ∧
  t' !! Z.to_nat (IRQ0 + IRQTimer) = Some (setGate (irq 0) off_kernelCode interruptGate false).
Proof.
  intros Hl t'. subst t'. rewrite setupIDTTable_fold. split; [|split].
  - apply foldl_insert_other. rewrite gates_keys. apply (bool_decide_unpack _). by vm_compute.
  - apply foldl_insert_other. rewrite gates_keys. apply (bool_decide_unpack _). by vm_compute.
  - apply (foldl_insert_lookup gate_key gate_val (gates isr irq) t (32, irq 0, false)).
    + rewrite gates_keys. apply (bool_decide_unpack _). by vm_compute.
    + unfold gates. apply elem_of_app. right. apply elem_of_app. left.
      apply list_elem_of_fmap. exists 0%nat. split; [done|]. apply elem_of_seq. lia.
    + rewrite Hl. change (gate_key (32, irq 0, false)) with 32%nat. lia.
Qed.

(** ** The Bochs display *)

(** The registers of the display; [DispiID] is the source's [ID]. *)
Inductive DispiIndex :=
  | DispiID | XRes | YRes | BPP | Enable | Bank | VirtWidth | VirtHeight | XOffset | YOffset
  | VideoMemory64k.
#[export] Instance DispiIndex_eq_dec : EqDecision DispiIndex.
Proof. solve_decision. Defined.
Definition DispiIndex_value (i : DispiIndex) : Z :=
  match i with
  | DispiID => 0x0 | XRes => 0x1 | YRes => 0x2 | BPP => 0x3 | Enable => 0x4 | Bank => 0x5
  | VirtWidth => 0x6 | VirtHeight => 0x7 | XOffset => 0x8 | YOffset => 0x9 | VideoMemory64k => 0xa
  end.
Definition display_index (i : DispiIndex) : Z := Z.shiftl (DispiIndex_value i) 1.

Section display.
Context (config : Z → Z) (HigherHalfDirectMapOffset : Z).

Definition physicalToVirtual (addr : Z) : Z := u64 (addr + HigherHalfDirectMapOffset).

Definition addrOf (dev : Z) (idx : DispiIndex) : Z :=
  let mmioField := rd config 4 dev Bar2 in
  let mmioAddr := physicalToVirtual mmioField in
  let bochsAddr := u64 (mmioAddr + 0x500) in
  u64 (bochsAddr + display_index idx).
Definition framebufferAddress (dev : Z) : Z := physicalToVirtual (rd config 4 dev Bar0).
Definition display_read (dev : Z) (idx : DispiIndex) (m : mem) : Z := load16 m (addrOf dev idx).
Definition display_write (dev : Z) (idx : DispiIndex) (val : Z) (m : mem) : mem := store16 m (addrOf dev idx) val.
End display.

(** The registers are apart: a register reads as what was written to it last, whatever was written
    to the others since. *)
Theorem display_write_read config off dev idx idx' val m :
  rd config 4 dev Bar2 + off + 0x600 < 2 ^ 64 → 0 ≤ off →
  display_read config off dev idx (display_write config off dev idx' val m) =
    if decide (idx = idx') then u16 val else display_read config off dev idx m.
Proof.
  intros Hlt Hoff. unfold display_read, display_write.
  assert (0 ≤ rd config 4 dev Bar2) as H0 by (apply (uw_range 32); lia).
  assert (Ha : ∀ i, addrOf config off dev i = rd config 4 dev Bar2 + off + 0x500 + 2 * DispiIndex_value i).
  { intros i. unfold addrOf, physicalToVirtual, display_index. rewrite Z.shiftl_mul_pow2 by lia.
    assert (0 ≤ DispiIndex_value i ≤ 10) by (destruct i; simpl; lia).
    rewrite (uw_small 64 (_ + off)), (uw_small 64 (_ + 0x500)), uw_small by lia. lia. }
  rewrite !Ha. destruct (decide (idx = idx')) as [->|Hne]; [apply load_store_same|].
  apply load_store_disj. unfold disj. destruct idx, idx'; simpl; try done; lia.
Qed.

(** The four low bits of a base address register are flags, not address bits; they are not
    masked, so that a prefetchable framebuffer (flag 8) is addressed eight bytes too high. *)
Theorem framebuffer_off_by_flags config off dev base flags :
  rd config 4 dev Bar0 = base + flags → base mod 16 = 0 → 0 ≤ flags < 16 → 0 ≤ base →
  0 ≤ off → base + flags + off < 2 ^ 64 →
  framebufferAddress config off dev = base + off + flags.
Proof.
  intros Hb _ Hf H0 Ho Hlt. unfold framebufferAddress, physicalToVirtual. rewrite Hb, uw_small; lia.
Qed.

(** ** Concrete runs *)

Definition example_console (lock : Z) : console :=
  {| logLock := lock; serial := str "> "; con_env := {| CPUs := [zero_cpu]; this_hw := zero_hw |} |}.

Lemma logfn_writes_witness :
  (∃ s', logfn (str "pid %d" ++ [10]) [AInt 7] (example_console 0) = Done (6, s') ∧
     serial s' = str "> pid 7" ++ [13; 10]) ∧
  logfn (str "pid %d" ++ [10]) [AInt 7] (example_console 1) = Stuck Spin.
Proof.
  split.
  - destruct (logfn_writes (str "pid %d" ++ [10]) [AInt 7] (str "pid 7" ++ [10]) (example_console 0) 0 zero_cpu)
      as [H _]; [done|by vm_compute|]. destruct (H eq_refl) as (s' & E & W & _).
    exists s'. split; [exact E|exact W].
  - apply (logfn_writes (str "pid %d" ++ [10]) [AInt 7] (str "pid 7" ++ [10]) (example_console 1) 0 zero_cpu);
      [done|by vm_compute|done].
Defined.

(** A controller of version 0x50014 that takes two polls to deliver. *)
Definition example_lapic (s : lapic_state) (index : Z) : Z :=
  if index =? Version then 0x50014
  else if (index =? LowInterruptCommand) && negb (Nat.eqb (Nat.modulo (reads s) 3) 0) then 0x1000
  else 0.

Lemma initLAPIC_writes_witness :
  ∃ s', initLAPIC example_lapic 3 {| writes := []; reads := 0 |} = Done s' ∧ length (writes s') = 14%nat.
Proof.
  destruct (initLAPIC_writes example_lapic 3 {| writes := []; reads := 0 |}) as (s' & b & E & W & V).
  - intros s. exists ((3 - reads s mod 3))%nat. split; [lia|].
    unfold example_lapic. cbn [reads]. change (LowInterruptCommand =? Version) with false.
    rewrite Z.eqb_refl. cbn [andb].
    assert (((reads s + (3 - reads s mod 3)) mod 3 = 0)%nat) as ->; [|done].
    pose proof (Nat.mod_upper_bound (reads s) 3 ltac:(lia)).
    replace (reads s + (3 - reads s mod 3))%nat with ((1 + reads s / 3) * 3)%nat.
    + apply Nat.Div0.mod_mul.
    + pose proof (Nat.div_mod_eq (reads s) 3). lia.
  - exists s'. split; [exact E|]. rewrite W, (V 0x50014 (λ s, eq_refl)). reflexivity.
Defined.

Lemma lapic_vectors_gates_witness :
  setupIDTTable (λ _, 0x1000) (λ _, 0x2000) (replicate 256 zero_IDTEntry) !! 51%nat = Some zero_IDTEntry.
Proof.
  exact (proj1 (lapic_vectors_gates (λ _, 0x1000) (λ _, 0x2000) (replicate 256 zero_IDTEntry) eq_refl)).
Defined.

Lemma display_write_read_witness :
  display_read (λ _, 0xFEBF0000) 0xffff800000000000 0x200 YRes
    (display_write (λ _, 0xFEBF0000) 0xffff800000000000 0x200 YRes 768 (λ _, 0)) = 768.
Proof.
  apply (display_write_read (λ _, 0xFEBF0000) 0xffff800000000000 0x200 YRes YRes 768 (λ _, 0));
    [by vm_compute|lia].
Defined.

Lemma framebuffer_off_by_flags_witness :
  framebufferAddress (λ _, 0xFD000008) 0xffff800000000000 0x200 = 0xffff8000FD000000 + 8.
Proof.
  apply (framebuffer_off_by_flags (λ _, 0xFD000008) 0xffff800000000000 0x200 0xFD000000 8);
    [by vm_compute|done|lia..].
Defined.
