(* ===== verification/Console.v ===== *)
(** The console on several processors: [logfn] writes a character at a time, and the log's lock keeps
    the lines of different processors apart.

    A processor has a list of calls of [logfn] to make; [log_point] says where in a call it is, and
    [log_visit] is what it does next: one access to the lock, or one byte to the serial port. *)

From Stdlib Require Import Ascii String.
From S2P Require Import Prelude Mem GDT Cpu Spinlock CpuReady PrintfCore PrintfFormat Devices.

(** ** Processors that log *)

(** The arguments of a call, and the text the format describes. *)
Definition call : Type := list Z * list arg.
Definition text (c : call) : list Z := done_or [] (printed c.1 c.2).

Inductive log_point :=
  | Waiting                     (* before [lockLog] *)
  | Put (rest : list Z)         (* before [_out_char] of the next character *)
  | LineFeed (rest : list Z)    (* in [_putchar], behind the carriage return *)
  | Unlocking.                  (* before [unlockLog] *)

Record logger := { l_at : log_point; l_calls : list call }.
Record wire := { wire_lock : Z; wire_bytes : list Z }.
Definition put_byte (b : Z) (w : wire) : wire :=
  {| wire_lock := wire_lock w; wire_bytes := wire_bytes w ++ [u8 b] |}.
Definition set_wire_lock (h : Z) (w : wire) : wire := {| wire_lock := h; wire_bytes := wire_bytes w |}.

Definition log_visit (l : logger) (w : wire) : logger * wire :=
  match l_at l with
  | Waiting =>
      match l_calls l with
      | [] => (l, w)
      | c :: calls =>
          let '(old, held) := test_and_set (wire_lock w) in
          (if old =? 0 then {| l_at := Put (text c); l_calls := calls |} else l, set_wire_lock held w)
      end
  | Put [] => ({| l_at := Unlocking; l_calls := l_calls l |}, w)
  | Put (c :: cs) =>
      if c =? 0 then ({| l_at := Put cs; l_calls := l_calls l |}, w)
      else if c =? 10 then ({| l_at := LineFeed cs; l_calls := l_calls l |}, put_byte 13 w)
      else ({| l_at := Put cs; l_calls := l_calls l |}, put_byte c w)
  | LineFeed cs => ({| l_at := Put cs; l_calls := l_calls l |}, put_byte 10 w)
  | Unlocking => ({| l_at := Waiting; l_calls := l_calls l |}, set_wire_lock 0 w)
  end.

Record logging := { loggers : list logger; line : wire }.
Definition log_turn (s : logging) (i : nat) : logging :=
  match loggers s !! i with
  | Some l => let '(l, w) := log_visit l (line s) in {| loggers := <[i := l]> (loggers s); line := w |}
  | None => s
  end.
Definition log_run (l : list nat) (s : logging) : logging := foldl log_turn s l.

(** Every processor before its first call. *)
Definition start (programs : list (list call)) (bytes : list Z) : logging :=
  {| loggers := (λ p, {| l_at := Waiting; l_calls := p |}) <$> programs;
     line := {| wire_lock := lock_init; wire_bytes := bytes |} |}.

(** ** One call after another *)

Fixpoint log_all (calls : list call) (s : console) : outcome console :=
  match calls with
  | [] => Done s
  | c :: calls => '(_, s) ← logfn c.1 c.2 s; log_all calls s
  end.

(** The calls of processor [i] among calls labelled with their processor. *)
Definition of_processor (i : nat) (order : list (nat * call)) : list call :=
  omap (λ c, if decide (c.1 = i) then Some c.2 else None) order.
Definition wires (calls : list call) : list Z := calls ≫= λ c, on_wire (text c).

Lemma of_processor_app i o1 o2 : of_processor i (o1 ++ o2) = of_processor i o1 ++ of_processor i o2.
Proof. apply omap_app. Qed.
Lemma of_processor_one i j c : of_processor i [(j, c)] = if decide (j = i) then [c] else [].
Proof. unfold of_processor. simpl. by case_decide. Qed.

(** [logfn] on one processor after another gives the lines in that order. *)
Lemma log_all_spec depth calls s :
  Forall (λ c, ∃ cs, printed c.1 c.2 = Done cs) calls → cpu_ready depth (con_env s) → logLock s = 0 →
  ∃ s', log_all calls s = Done s' ∧ serial s' = serial s ++ wires calls ∧ logLock s' = 0 ∧
    cpu_ready depth (con_env s').
Proof.
  intros Hp. revert s; induction Hp as [|[format va] calls [cs Hc] _ IH]; intros s He Hl.
  { exists s. by rewrite app_nil_r. }
  destruct (logfn_ready depth format va cs s He Hl Hc) as (n & s1 & E1 & S1 & L1 & He1).
  destruct (IH s1 He1 L1) as (s2 & E2 & S2 & H2). exists s2. cbn [log_all fst snd] in *.
  rewrite E1. cbn [mbind outcome_bind]. split; [exact E2|]. split; [|exact H2].
  rewrite S2, S1, <- app_assoc. unfold wires, text. cbn [mbind list_bind fst snd]. by rewrite Hc.
Qed.

(** ** The invariant

    [order]: the calls that have been made, in the order in which they took the lock; [current]: the
    one being made.  Behind the lines of [order] stand the bytes that [current] has written so far. *)

(** The bytes a call still has to write. *)
Definition remaining (p : log_point) : list Z :=
  match p with Put cs => on_wire cs | LineFeed cs => 10 :: on_wire cs | _ => [] end.

Record inv (programs : list (list call)) (bytes : list Z) (order : list (nat * call))
    (current : option (nat * call)) (s : logging) : Prop := {
  inv_lock : wire_lock (line s) = if current is Some _ then 1 else 0;
  inv_bytes : ∃ written, wire_bytes (line s) = bytes ++ wires (snd <$> order) ++ written ∧
    match current with
    | None => written = []
    | Some (i, c) => ∃ l, loggers s !! i = Some l ∧ l_at l ≠ Waiting ∧
        written ++ remaining (l_at l) = on_wire (text c)
    end;
  inv_waiting j l : loggers s !! j = Some l → (∀ c, current ≠ Some (j, c)) → l_at l = Waiting;
  inv_calls j l : loggers s !! j = Some l →
    programs !! j = Some (of_processor j (order ++ option_list current) ++ l_calls l);
  inv_known : Forall (λ jc, ∃ p, programs !! jc.1 = Some p ∧ jc.2 ∈ p) (order ++ option_list current);
}.

Section invariant.
Context (programs : list (list call)) (bytes : list Z).
Local Abbreviation inv := (inv programs bytes).

Lemma wire_inv_start : inv [] None (start programs bytes).
Proof.
  split; cbn [start line loggers wire_lock wire_bytes]; [done| | | |constructor].
  - exists []. by rewrite !app_nil_r.
  - intros j l. rewrite list_lookup_fmap. by intros (p & _ & ->)%fmap_Some.
  - intros j l. rewrite list_lookup_fmap. by intros (p & Hp & ->)%fmap_Some.
Qed.

(** A processor whose visit changes nothing. *)
Lemma turn_same s i l : loggers s !! i = Some l → log_visit l (line s) = (l, line s) → log_turn s i = s.
Proof. intros Hi Hv. unfold log_turn. rewrite Hi, Hv, list_insert_id by done. by destruct s. Qed.

(** The one that has the lock writes [bs] and goes on to [p]. *)
Lemma inv_progress order i c s l p bs v :
  inv order (Some (i, c)) s → loggers s !! i = Some l → p ≠ Waiting → bs ++ remaining p = remaining (l_at l) →
  wire_lock v = wire_lock (line s) → wire_bytes v = wire_bytes (line s) ++ bs →
  inv order (Some (i, c))
    {| loggers := <[i := {| l_at := p; l_calls := l_calls l |}]> (loggers s); line := v |}.
Proof.
  intros [I1 (w & I2 & l' & Hl & _ & I3) I4 I5 I6] Hi Hp Hb Hv1 Hv2. rewrite Hi in Hl. injection Hl as <-.
  split; cbn [loggers line]; [by rewrite Hv1| | | |done].
  - exists (w ++ bs). split; [by rewrite Hv2, I2, <- !app_assoc|].
    eexists. split; [apply list_lookup_insert_eq; by eapply lookup_lt_Some|]. split; [done|].
    cbn [l_at]. by rewrite <- app_assoc, Hb.
  - intros j l' [(<- & <- & _)|[_ Hj]]%list_lookup_insert_Some Hc; [by destruct (Hc c)|by eapply I4].
  - intros j l' [(<- & <- & _)|[_ Hj]]%list_lookup_insert_Some; [exact (I5 _ _ Hi)|exact (I5 _ _ Hj)].
Qed.

(** It gives the lock back. *)
Lemma inv_unlock order i c s l :
  inv order (Some (i, c)) s → loggers s !! i = Some l → l_at l = Unlocking →
  inv (order ++ [(i, c)]) None
    {| loggers := <[i := {| l_at := Waiting; l_calls := l_calls l |}]> (loggers s);
       line := set_wire_lock 0 (line s) |}.
Proof.
  intros [I1 (w & I2 & l' & Hl & _ & I3) I4 I5 I6] Hi Hp. rewrite Hi in Hl. injection Hl as <-.
  rewrite Hp, app_nil_r in I3. subst w.
  split; cbn [loggers line wire_lock wire_bytes set_wire_lock]; [done| | | |by rewrite app_nil_r].
  - exists []. split; [|done]. rewrite I2, fmap_app. unfold wires. rewrite bind_app. simpl.
    by rewrite !app_nil_r.
  - intros j l' [(<- & <- & _)|[Hn Hj]]%list_lookup_insert_Some _; [done|]. apply (I4 j l' Hj).
    intros c' [= -> _]. done.
  - intros j l' [(<- & <- & _)|[_ Hj]]%list_lookup_insert_Some; rewrite app_nil_r; [exact (I5 _ _ Hi)|exact (I5 _ _ Hj)].
Qed.

(** A processor takes the free lock. *)
Lemma inv_take order i s c calls :
  inv order None s → loggers s !! i = Some {| l_at := Waiting; l_calls := c :: calls |} →
  inv order (Some (i, c))
    {| loggers := <[i := {| l_at := Put (text c); l_calls := calls |}]> (loggers s);
       line := set_wire_lock 1 (line s) |}.
Proof.
  intros [I1 (w & I2 & ->) I4 I5 I6] Hi.
  split; cbn [loggers line wire_lock wire_bytes set_wire_lock]; [done| | | |].
  - exists []. split; [done|]. eexists. split; [apply list_lookup_insert_eq; by eapply lookup_lt_Some|done].
  - intros j l' [(<- & <- & _)|[Hn Hj]]%list_lookup_insert_Some Hc; [by destruct (Hc c)|by apply (I4 j l' Hj)].
  - intros j l' [(<- & <- & _)|[Hn Hj]]%list_lookup_insert_Some;
      [rewrite (I5 _ _ Hi)|rewrite (I5 _ _ Hj)]; rewrite !of_processor_app, app_nil_r;
      cbn [option_list option_rect l_calls]; rewrite of_processor_one.
    + rewrite decide_True by done. by rewrite <- app_assoc.
    + rewrite decide_False by done. by rewrite app_nil_r.
  - rewrite app_nil_r in I6. apply Forall_app_2; [done|]. constructor; [|constructor].
    eexists. split; [exact (I5 _ _ Hi)|]. rewrite elem_of_app. right. apply list_elem_of_here.
Qed.

Lemma inv_writer order i c s :
  inv order (Some (i, c)) s → ∃ order' current', inv order' current' (log_turn s i).
Proof.
  intros I. destruct (inv_bytes _ _ _ _ _ I) as (_ & _ & l & Hi & Hw & _).
  pose proof (inv_progress order i c s l) as H.
  unfold log_turn. rewrite Hi. unfold log_visit. destruct (l_at l) as [|[|x cs]|cs|] eqn:Hp; [done| | | |].
  - exists order, (Some (i, c)). apply (H Unlocking []); rewrite ?app_nil_r; done.
  - destruct (Z.eqb_spec x 0) as [->|Hx]; [|destruct (Z.eqb_spec x 10) as [->|Hx']];
      exists order, (Some (i, c)).
    + apply (H (Put cs) []); rewrite ?app_nil_r; done.
    + by apply (H (LineFeed cs) [13]).
    + apply (H (Put cs) [u8 x]); try done. unfold remaining, on_wire. cbn [mbind list_bind].
      apply Z.eqb_neq in Hx, Hx'. by rewrite Hx, Hx'.
  - exists order, (Some (i, c)). by apply (H (Put cs) [10]).
  - exists (order ++ [(i, c)]), None. by apply inv_unlock.
Qed.

Lemma wire_inv_turn order current s i :
  inv order current s → ∃ order' current', inv order' current' (log_turn s i).
Proof.
  intros I. destruct (loggers s !! i) as [l|] eqn:Hi; [|by exists order, current; unfold log_turn; rewrite Hi].
  destruct current as [[j c]|].
  - destruct (decide (j = i)) as [->|Hn]; [by eapply inv_writer|]. exists order, (Some (j, c)).
    pose proof (inv_waiting _ _ _ _ _ I i l Hi ltac:(congruence)) as Hp.
    rewrite (turn_same s i l); [done..|]. unfold log_visit. rewrite Hp. destruct (l_calls l); [done|].
    pose proof (inv_lock _ _ _ _ _ I) as Hl. destruct (line s) as [h b]. cbn in *. by rewrite Hl.
  - pose proof (inv_waiting _ _ _ _ _ I i l Hi ltac:(done)) as Hp. destruct l as [p [|c calls]]; cbn in Hp; subst p.
    + exists order, None. by rewrite (turn_same s i {| l_at := Waiting; l_calls := [] |}).
    + exists order, (Some (i, c)). unfold log_turn. rewrite Hi. unfold log_visit. cbn.
      rewrite (inv_lock _ _ _ _ _ I). by apply inv_take.
Qed.

Lemma wire_inv_run l order current s :
  inv order current s → ∃ order' current', inv order' current' (log_run l s).
Proof.
  revert order current s; induction l as [|i l IH]; intros order current s I; [by exists order, current|].
  destruct (wire_inv_turn order current s i I) as (o & c & I'). by apply (IH o c).
Qed.
End invariant.

(** ** Theorems *)

(** C11. Lines of different processors are not mixed up, although [logfn] writes byte by byte: however
    the processors interleave, whenever the log's lock is free the serial line shows what it would
    show if the calls made so far had been made one after the other, in some order that respects
    the order on each processor.  While a call is under way, the beginning of its line stands
    behind that. *)
Theorem log_calls_atomic programs con depth l :
  Forall (Forall (λ c, ∃ cs, printed c.1 c.2 = Done cs)) programs →
  logLock con = 0 → cpu_ready depth (con_env con) →
  let s := log_run l (start programs (serial con)) in
  ∃ order con',
    (∀ i lg, loggers s !! i = Some lg → ∃ p, programs !! i = Some p ∧ of_processor i order `prefix_of` p) ∧
    log_all (snd <$> order) con = Done con' ∧
    if wire_lock (line s) =? 0 then wire_bytes (line s) = serial con'
    else ∃ c written, wire_bytes (line s) = serial con' ++ written ∧ written `prefix_of` on_wire (text c).
Proof.
  intros Hp Hl He s. destruct (wire_inv_run programs (serial con) l [] None _ (wire_inv_start _ _)) as (order & cur & I).
  fold s in I. destruct I as [I1 (w & I2 & I3) I4 I5 [I6 _]%Forall_app].
  destruct (log_all_spec depth (snd <$> order) con) as (con' & E & S & _); [|done..|].
  { apply Forall_fmap. eapply Forall_impl; [exact I6|]. intros [j c] (p & Hj & Hc).
    pose proof (proj1 (Forall_lookup _ _) Hp _ _ Hj) as Hall.
    by apply (proj1 (Forall_forall _ _) Hall). }
  exists order, con'. split; [|split; [exact E|]].
  - intros i lg Hi. eexists. split; [exact (I5 _ _ Hi)|].
    rewrite of_processor_app, <- app_assoc. by apply prefix_app_r.
  - rewrite I1, S. destruct cur as [[i c]|]; cbn.
    + exists c, w. split; [by rewrite I2, <- app_assoc|]. destruct I3 as (lg & _ & _ & <-). by apply prefix_app_r.
    + subst w. by rewrite I2, app_nil_r.
Qed.

(** ** A run *)

(** Two processors log a line each; the second starts while the first is writing. *)
Definition two_calls : list (list call) := [[(str "a" ++ [10], [])]; [(str "b%d" ++ [10], [AInt 7])]].
Definition two_console : console := {| logLock := 0; serial := []; con_env := example_env |}.

Lemma log_calls_atomic_witness :
  let s := log_run [0; 0; 0; 1; 0; 0; 1; 0; 0; 0; 0; 1; 1; 1; 1; 1; 1; 1; 1; 1; 1]%nat (start two_calls []) in
  wire_bytes (line s) = [97; 13; 10; 98; 55; 13; 10] ∧
  ∃ (order : list (nat * call)) con',
    log_all (snd <$> order) two_console = Done con' ∧ wire_bytes (line s) = serial con'.
Proof.
  destruct (log_calls_atomic two_calls two_console 0
    [0; 0; 0; 1; 0; 0; 1; 0; 0; 0; 0; 1; 1; 1; 1; 1; 1; 1; 1; 1; 1]%nat) as (order & con' & _ & E & H).
  - repeat constructor; eexists; vm_compute; reflexivity.
  - done.
  - split; [lia|]. exists 1%nat, example_self. split; [by split|]. split; [done|split; [lia|done]].
  - split; [vm_compute; reflexivity|]. exists order, con'. split; [exact E|exact H].
Defined.
