(* ===== verification/System.v ===== *)
(** The whole kernel's state, and its log.

    [system] joins the parts: the machine with its process table, the console, the interrupt
    controller, the descriptor tables and [cr3].  What the linker decides is [image].  A log line
    leaves everything but the console and this processor's lock counts alone ([logged]). *)

From Stdlib Require Import Ascii String.
From S2P Require Import Prelude Mem GDT Cpu Spinlock PhysMem CpuReady PrintfCore PrintfFormat PCI Traps Process Devices Boot.

(** ** The system *)

(** Addresses the linker chooses. *)
Record image := {
  KernelStart : Z; KernelEnd : Z;
  at_TrapRet : Z; at_ProcessEntryPoint : Z; at_SyscallHandler : Z; at_OtherProcessorMain : Z;
  at_ProcessTable : Z; at_IDTEntries : Z;
  at_isr : Z → Z; at_irq : Z → Z;
  at_MyFirstUserspace : Z; MyFirstUserspace_size : Z;
}.

Record system := {
  kern : kernel;
  sys_log : Z; sys_serial : list Z;             (* the console's lock and its output *)
  IDT : list IDTEntry; idtr : Z * Z;            (* limit and base *)
  lapic : Z; lapic_io : lapic_state;            (* LocalAPIC::lapic and the controller *)
  ports : list (Z * Z);                         (* bytes written to the interrupt controllers *)
  segments : SegmentRegisters;
  cr3 : Z;
  CPUs_page : Z; smp_infos : list limine_smp_info;
}.

Definition set_kern (k : kernel) (s : system) : system :=
  {| kern := k; sys_log := sys_log s; sys_serial := sys_serial s; IDT := IDT s; idtr := idtr s;
     lapic := lapic s; lapic_io := lapic_io s; ports := ports s; segments := segments s;
     cr3 := cr3 s; CPUs_page := CPUs_page s; smp_infos := smp_infos s |}.
Definition mach (s : system) : machine := hw_state (kern s).
Definition set_mach (m : machine) (s : system) : system := set_kern (set_hw m (kern s)) s.
Definition set_cr3 (v : Z) (s : system) : system :=
  {| kern := kern s; sys_log := sys_log s; sys_serial := sys_serial s; IDT := IDT s; idtr := idtr s;
     lapic := lapic s; lapic_io := lapic_io s; ports := ports s; segments := segments s;
     cr3 := v; CPUs_page := CPUs_page s; smp_infos := smp_infos s |}.
Definition set_segments (r : SegmentRegisters) (s : system) : system :=
  {| kern := kern s; sys_log := sys_log s; sys_serial := sys_serial s; IDT := IDT s; idtr := idtr s;
     lapic := lapic s; lapic_io := lapic_io s; ports := ports s; segments := r;
     cr3 := cr3 s; CPUs_page := CPUs_page s; smp_infos := smp_infos s |}.
Definition set_idt (t : list IDTEntry) (r : Z * Z) (s : system) : system :=
  {| kern := kern s; sys_log := sys_log s; sys_serial := sys_serial s; IDT := t; idtr := r;
     lapic := lapic s; lapic_io := lapic_io s; ports := ports s; segments := segments s;
     cr3 := cr3 s; CPUs_page := CPUs_page s; smp_infos := smp_infos s |}.
Definition set_lapic (p : Z) (io : lapic_state) (s : system) : system :=
  {| kern := kern s; sys_log := sys_log s; sys_serial := sys_serial s; IDT := IDT s; idtr := idtr s;
     lapic := p; lapic_io := io; ports := ports s; segments := segments s;
     cr3 := cr3 s; CPUs_page := CPUs_page s; smp_infos := smp_infos s |}.
Definition set_smp (page : Z) (infos : list limine_smp_info) (s : system) : system :=
  {| kern := kern s; sys_log := sys_log s; sys_serial := sys_serial s; IDT := IDT s; idtr := idtr s;
     lapic := lapic s; lapic_io := lapic_io s; ports := ports s; segments := segments s;
     cr3 := cr3 s; CPUs_page := page; smp_infos := infos |}.
Definition set_root (root : Z) (s : system) : system :=
  set_kern {| hw_state := mach s; ProcessTable := ProcessTable (kern s);
              ProcessTableSpinlock := ProcessTableSpinlock (kern s); KernelPageTable := root |} s.

(** The console is driven by the running processor. *)
Definition sys_console (s : system) : console :=
  {| logLock := sys_log s; serial := sys_serial s; con_env := env (mach s) |}.
Definition set_console (c : console) (s : system) : system :=
  {| kern := set_hw (set_env (con_env c) (mach s)) (kern s); sys_log := logLock c;
     sys_serial := serial c; IDT := IDT s; idtr := idtr s; lapic := lapic s;
     lapic_io := lapic_io s; ports := ports s; segments := segments s; cr3 := cr3 s;
     CPUs_page := CPUs_page s; smp_infos := smp_infos s |}.
Definition log_args (format : list Z) (va : list arg) (s : system) : outcome system :=
  '(_, c) ← logfn format va (sys_console s); Done (set_console c s).
Definition log (format : list Z) (va : list Z) (s : system) : outcome system :=
  log_args format (AInt <$> va) s.

(** Changes of the running processor's environment. *)
Definition set_sys_env (e : cpu_env) (s : system) : system := set_mach (set_env e (mach s)) s.

Definition newline : list Z := [10].
Definition outb (port value : Z) (s : system) : system :=
  {| kern := kern s; sys_log := sys_log s; sys_serial := sys_serial s; IDT := IDT s; idtr := idtr s;
     lapic := lapic s; lapic_io := lapic_io s; ports := ports s ++ [(u16 port, u8 value)];
     segments := segments s; cr3 := cr3 s; CPUs_page := CPUs_page s; smp_infos := smp_infos s |}.

Definition indent (n : Z) (s : system) : system :=
  let out := Nat.iter (Z.to_nat n) (_putchar 32) (sys_serial s) in
  set_console {| logLock := sys_log s; serial := out; con_env := env (mach s) |} s.

(** ** Lemmas: the console *)

(** With the log unlocked, a line is written, and the processor's record and the lock stay in
    order. *)
Lemma log_args_spec depth format va cs s :
  printed format va = Done cs → sys_log s = 0 → env_ready depth (mach s) →
  ∃ c, log_args format va s = Done (set_console c s) ∧ logLock c = 0 ∧ cpu_ready depth (con_env c) ∧
    serial c = sys_serial s ++ on_wire cs.
Proof.
  intros Hf Hl He.
  destruct (logfn_ready depth format va cs (sys_console s)) as (n & c & E & S & L & C); try done.
  unfold log_args. rewrite E. by exists c.
Qed.

Lemma log_spec depth format va cs s :
  simple_text format va = Some cs → sys_log s = 0 → env_ready depth (mach s) →
  ∃ c, log format va s = Done (set_console c s) ∧ logLock c = 0 ∧ cpu_ready depth (con_env c) ∧
    serial c = sys_serial s ++ on_wire cs.
Proof. intros Hf. apply log_args_spec. by apply simple_text_prints. Qed.

(** With the log locked it waits for ever. *)
Lemma log_args_locked depth format va s :
  env_ready depth (mach s) → sys_log s ≠ 0 → log_args format va s = Stuck Spin.
Proof.
  intros He Hl. destruct (push_pop_ready _ _ He) as (e1 & e2 & E1 & _).
  unfold log_args, logfn, lockLog, acquire. cbn [sys_console con_env logLock]. rewrite E1.
  cbn [mbind outcome_bind test_and_set]. by destruct (Z.eqb_spec (sys_log s) 0).
Qed.

Lemma log_steady depth format va s s' :
  log format va s = Done s' → steady depth (env (mach s)) (env (mach s')) ∧ cr3 s' = cr3 s.
Proof.
  unfold log, log_args. destruct (logfn _ _ _) as [[n c]|] eqn:E; [|done]. intros [= <-].
  split; [|done]. exact (logfn_steady _ _ _ _ _ _ E).
Qed.

(** ** What a log line changes *)

(** The system differs in what the console shows and in this processor's record, which is in order;
    the log is not locked. *)
Definition logged (depth : Z) (s' s : system) : Prop :=
  ∃ c, s' = set_console c s ∧ logLock c = 0 ∧ cpu_ready depth (con_env c).

Lemma logged_refl depth s : sys_log s = 0 → env_ready depth (mach s) → logged depth s s.
Proof.
  intros Hl He. exists (sys_console s). split; [|done]. by destruct s as [[[]]].
Qed.

Lemma logged_trans depth s1 s2 s3 : logged depth s3 s2 → logged depth s2 s1 → logged depth s3 s1.
Proof. intros (c3 & -> & H3) (c2 & -> & _). by exists c3. Qed.

Lemma log_logged depth format va n s s0 :
  is_Some (simple_text format va) → logged depth s s0 →
  ∃ s', log format va (indent n s) = Done s' ∧ logged depth s' s0.
Proof.
  intros [cs Hf] (c & -> & Hl & He).
  destruct (log_spec depth format va cs (indent n (set_console c s0)) Hf) as (c' & E & H1 & H2 & _); [done..|].
  eexists. split; [exact E|]. eapply logged_trans; [by exists c'|]. by eexists.
Qed.

Lemma for_each_logged {A} depth (body : A → system → outcome system) xs s s0 :
  (∀ x s, logged depth s s0 → ∃ s', body x s = Done s' ∧ logged depth s' s0) →
  logged depth s s0 → ∃ s', for_each xs body s = Done s' ∧ logged depth s' s0.
Proof.
  intros Hb. revert s; induction xs as [|x xs IH]; intros s Hs; [by exists s|]. cbn [for_each].
  destruct (Hb x s Hs) as (s1 & -> & H1). by apply IH.
Qed.

(** The same with the text that appeared. *)
Definition wrote (depth : Z) (cs : list Z) (s' s : system) : Prop :=
  ∃ c, s' = set_console c s ∧ logLock c = 0 ∧ cpu_ready depth (con_env c) ∧
    serial c = sys_serial s ++ on_wire cs.

Lemma wrote_trans depth cs1 cs2 s1 s2 s3 :
  wrote depth cs1 s2 s1 → wrote depth cs2 s3 s2 → wrote depth (cs1 ++ cs2) s3 s1.
Proof.
  intros (c2 & -> & _ & _ & E2) (c3 & -> & L3 & H3 & E3). exists c3. do 3 (split; [done|]).
  rewrite E3. cbn. rewrite E2. unfold on_wire. by rewrite bind_app, app_assoc.
Qed.

Lemma wrote_ready depth cs s' s : wrote depth cs s' s → sys_log s' = 0 ∧ env_ready depth (mach s').
Proof. by intros (c & -> & H1 & H2 & _). Qed.

Lemma log_wrote depth format va cs s :
  simple_text format va = Some cs → sys_log s = 0 → env_ready depth (mach s) →
  ∃ s', log format va s = Done s' ∧ wrote depth cs s' s.
Proof.
  intros Hf Hl He. destruct (log_spec depth format va cs s Hf Hl He) as (c & E & H).
  exists (set_console c s). split; [done|]. by exists c.
Qed.

(** One line after another. *)
Lemma log_wrote_next depth format va cs cs0 s s0 :
  simple_text format va = Some cs → wrote depth cs0 s s0 →
  ∃ s', log format va s = Done s' ∧ wrote depth (cs0 ++ cs) s' s0.
Proof.
  intros Hf Hs. destruct (wrote_ready _ _ _ _ Hs) as [Hl He].
  destruct (log_wrote depth format va cs s Hf Hl He) as (s' & E & H).
  exists s'. split; [done|]. by eapply wrote_trans.
Qed.
