(* ===== verification/SegmentDump.v ===== *)
(** [GDT.h], [UserEntry::dump]: a descriptor on the console, line by line in hexadecimal. *)

From Stdlib Require Import Ascii String.
From S2P Require Import Prelude Mem GDT Cpu Spinlock PhysMem CpuReady PrintfCore PrintfFormat PCI Traps Process Devices Boot System.

(** ** Hexadecimal conversions of the widths of [<cinttypes>] *)

Inductive hex_size := PRIx8 | PRIx16 | PRIx64.
Definition hex_spec (size : hex_size) : list Z :=
  match size with PRIx8 => str "hhx" | PRIx16 => str "hx" | PRIx64 => str "lx" end.
Definition hex_bits (size : hex_size) : Z :=
  match size with PRIx8 => 8 | PRIx16 => 16 | PRIx64 => 64 end.

(** Hexadecimal digits, most significant first. *)
Definition hex_digits (v : Z) : list Z := rev (ntoa_digits 32 v 16 0).

Definition hex_flags (size : hex_size) : Z :=
  match size with
  | PRIx8 => Z.lor FLAGS_SHORT FLAGS_CHAR | PRIx16 => FLAGS_SHORT | PRIx64 => FLAGS_LONG
  end.

Lemma ntoa_text_hex size v :
  0 ≤ v < 2 ^ 64 → ntoa_text v false 16 0 0 (hex_flags size) = hex_digits v.
Proof.
  intros Hv. unfold ntoa_text. rewrite drop_absent by (by destruct size).
  assert ((if v =? 0 then hex_flags size else hex_flags size) = hex_flags size) as -> by (by destruct (_ =? 0)).
  pose proof (ntoa_buf_short v 16 (hex_flags size) Hv ltac:(lia)) as Hl.
  rewrite format_right; [|by destruct size|by destruct size|lia|lia|lia|by destruct size].
  unfold right_spec, spaces, zeros. rewrite length_rev.
  assert (has (hex_flags size) FLAGS_ZEROPAD = false) as -> by (by destruct size).
  assert (sign_text false (hex_flags size) = []) as -> by (by destruct size).
  rewrite !Z2Nat.nonpos by (simpl; lia). simpl. unfold hex_digits. f_equal.
  unfold ntoa_buf. assert (has (hex_flags size) FLAGS_PRECISION = false) as -> by (by destruct size).
  cbn [negb orb]. change (Z.to_nat PRINTF_NTOA_BUFFER_SIZE) with 32%nat.
  clear. generalize 32%nat as room. intros room. revert v. induction room as [|room IH]; intros v; [done|].
  cbn [ntoa_digits]. rewrite IH. by destruct size.
Qed.

(** The conversion takes the low bits of its argument that the width names. *)
Lemma printed_hex_size size f v va :
  printed (str "%" ++ hex_spec size ++ f) (AInt v :: va) =
    (cs ← printed f va; Done (hex_digits (uw (hex_bits size) v) ++ cs)).
Proof.
  set (s := {| sp_flags := hex_flags size; sp_width := 0; sp_precision := 0; sp_format := ch "x" :: f;
               sp_va := AInt v :: va |}).
  change (str "%" ++ hex_spec size ++ f) with (ch "%" :: hex_spec size ++ f).
  rewrite printed_step by done.
  assert (parse_spec (hex_spec size ++ f) (AInt v :: va) = Done s) as -> by (by destruct size).
  assert (convert log_out 0 0 s (0, []) =
    Done (_ntoa_long log_out 0 0 (0, []) (uw (hex_bits size) v) false 16 0 0 (hex_flags size), va)) as E
    by (by destruct size).
  change (negb (ch "%" =? ch "%")) with false. cbn [mbind outcome_bind]. rewrite E.
  rewrite ntoa_long_emit by (split; simpl; lia).
  cbn [fmap outcome_fmap fst snd mbind outcome_bind]. rewrite emit_log, ntoa_text_hex; [done|].
  pose proof (uw_range (hex_bits size) v). assert (2 ^ hex_bits size ≤ 2 ^ 64) by (by destruct size).
  assert (0 ≤ hex_bits size) by (by destruct size). lia.
Qed.

(** ** The dump *)

(** The calls of [logfn], in order: what stands before the number, its width, the number. *)
Definition tab : list Z := [9; 32].
Definition dump_lines (e : UserEntry) : list (list Z * hex_size * Z) :=
  [([], PRIx64, raw e);
   (str "limitLow: ", PRIx16, limitLow e);
   (str "baseLow: ", PRIx16, baseLow e);
   (str "baseMid: ", PRIx8, baseMid e);
   (str "access: ", PRIx8, access e);
   (tab, PRIx8, bf_get 0 1 (access e));          (* accessed *)
   (tab, PRIx8, bf_get 1 1 (access e));          (* readableWriteable *)
   (tab, PRIx8, bf_get 2 1 (access e));          (* directionConforming *)
   (tab, PRIx8, bf_get 3 1 (access e));          (* executable *)
   (tab, PRIx8, bf_get 4 1 (access e));          (* isUserSegment *)
   (tab, PRIx8, bf_get 5 2 (access e));          (* descriptorPrivilegeLevel *)
   (tab, PRIx8, bf_get 7 1 (access e));          (* present *)
   (str "limitHigh: ", PRIx8, limitHigh e);
   (str "flags: ", PRIx8, flags e);
   (tab, PRIx8, bf_get 0 1 (flags e));           (* reserved *)
   (tab, PRIx8, bf_get 1 1 (flags e));           (* isLongModeCode *)
   (tab, PRIx8, bf_get 2 1 (flags e));           (* size *)
   (tab, PRIx8, bf_get 3 1 (flags e));           (* granularity *)
   (str "baseHigh: ", PRIx8, baseHigh e)].
Definition dump (e : UserEntry) (s : system) : outcome system :=
  for_each (dump_lines e) (λ '(label, size, v) s,
    log (label ++ str "%" ++ hex_spec size ++ newline) [v] s) s.

Definition plain (label : list Z) : Prop := Forall (λ c, c ≠ 0 ∧ c ≠ ch "%") label.
Definition line_text (line : list Z * hex_size * Z) : list Z :=
  let '(label, size, v) := line in label ++ hex_digits (uw (hex_bits size) v) ++ newline.

Lemma log_line depth label size v s :
  plain label → sys_log s = 0 → env_ready depth (mach s) →
  ∃ s', log (label ++ str "%" ++ hex_spec size ++ newline) [v] s = Done s' ∧
    wrote depth (line_text (label, size, v)) s' s.
Proof.
  intros Hp Hl He. destruct (log_args_spec depth (label ++ str "%" ++ hex_spec size ++ newline) [AInt v]
    (line_text (label, size, v)) s) as (c & E & H); [|done..|].
  - rewrite printed_text by done. by rewrite printed_hex_size.
  - exists (set_console c s). split; [exact E|]. by exists c.
Qed.

Lemma lines_written depth lines s :
  Forall (λ line, plain line.1.1) lines → sys_log s = 0 → env_ready depth (mach s) →
  ∃ s', for_each lines (λ '(label, size, v) s,
      log (label ++ str "%" ++ hex_spec size ++ newline) [v] s) s = Done s' ∧
    wrote depth (lines ≫= line_text) s' s.
Proof.
  intros Hp. revert s; induction Hp as [|[[label size] v] lines H1 _ IH]; intros s Hl He.
  - exists s. split; [done|]. exists (sys_console s). split; [by destruct s as [[[]]]|].
    split; [done|]. split; [done|]. by rewrite app_nil_r.
  - cbn [for_each]. destruct (log_line depth label size v s H1 Hl He) as (s1 & -> & W).
    cbn [mbind outcome_bind]. destruct (wrote_ready _ _ _ _ W) as [Hl1 He1].
    destruct (IH s1 Hl1 He1) as (s' & E & W'). exists s'. split; [exact E|].
    rewrite bind_cons. by eapply wrote_trans.
Qed.

(** [dump] returns, prints nineteen lines, the descriptor's 64-bit word and its fields in hexadecimal,
    each cut to the width of its conversion, and changes nothing else. *)
Theorem dump_prints depth e s :
  sys_log s = 0 → env_ready depth (mach s) →
  ∃ s', dump e s = Done s' ∧ wrote depth (dump_lines e ≫= line_text) s' s.
Proof.
  apply lines_written. repeat apply Forall_cons_2; try apply Forall_nil_2; try done;
    by repeat constructor.
Qed.

(** ** A concrete run: the kernel's code segment *)

Definition dump_system : system :=
  {| kern := empty_kernel 0 (set_env {| CPUs := [zero_cpu]; this_hw := zero_hw |} blank);
     sys_log := 0; sys_serial := []; IDT := []; idtr := (0, 0); lapic := 0;
     lapic_io := {| writes := []; reads := 0 |}; ports := []; segments := zero_segments; cr3 := 0;
     CPUs_page := 0; smp_infos := [] |}.

Lemma dump_prints_witness :
  ∃ s', dump (kernelCode (Table_init 0 0 zero_Table)) dump_system = Done s' ∧
    take 18 (sys_serial s') = str "2f9a000000ffff" ++ [13; 10] ++ str "li".
Proof.
  destruct (dump_prints 0 (kernelCode (Table_init 0 0 zero_Table)) dump_system) as (s' & E & c & -> & _ & _ & S).
  - done.
  - split; [lia|]. exists 0%nat, zero_cpu. repeat split; lia.
  - eexists. split; [exact E|]. change (sys_serial (set_console c dump_system)) with (serial c).
    rewrite S. vm_compute. reflexivity.
Defined.
