(* ===== verification/Display.v ===== *)
(** [KernelMain.cpp], the callback of the scan in [SharedMain]: painting a display. *)

From S2P Require Import Prelude Mem.

(** [pix[x + y*xres] = 0x3DAEE9], with the index computed in [int]. *)
Definition pixel_address (fb xres x y : Z) : Z := u64 (fb + 4 * s32 (x + s32 (y * xres))).
Definition fill_row (fb xres y : Z) (m : mem) : mem :=
  foldl (λ m x, store32 m (pixel_address fb xres x y) 0x3DAEE9) m (Z.of_nat <$> seq 0 (Z.to_nat xres)).
Definition fill_framebuffer (fb xres yres : Z) (m : mem) : mem :=
  foldl (λ m y, fill_row fb xres y m) m (Z.of_nat <$> seq 0 (Z.to_nat yres)).

(** The first [n] pixels have the kernel's colour, the rest of memory is as it was. *)
Definition painted (fb n : Z) (m' m : mem) : Prop :=
  (∀ i, 0 ≤ i < n → load 4 m' (fb + 4 * i) = 0x3DAEE9) ∧
  agree (λ a, ¬ range fb (4 * n) a) m' m.

Lemma painted_next fb n m' m :
  0 ≤ n → painted fb n m' m → painted fb (n + 1) (store32 m' (fb + 4 * n) 0x3DAEE9) m.
Proof.
  intros Hn [H1 H2]. split.
  - intros i Hi. destruct (decide (i = n)) as [->|].
    + by rewrite load_store_same.
    + rewrite load_store_disj by (unfold disj; lia). apply H1. lia.
  - eapply agree_trans; [|eapply agree_weaken; [|exact H2]; unfold range; lia].
    apply store_agree. unfold range. lia.
Qed.

Lemma pixel_index fb xres yres x y :
  0 ≤ fb → fb + 4 * (xres * yres) ≤ 2 ^ 64 → xres * yres ≤ 2 ^ 31 → 0 ≤ x < xres → 0 ≤ y < yres →
  pixel_address fb xres x y = fb + 4 * (y * xres + x).
Proof.
  intros H0 H1 H2 Hx Hy. unfold pixel_address.
  assert (0 ≤ y * xres ∧ y * xres + x < xres * yres) as [H3 H4] by nia.
  rewrite (sw_small 32 (y * xres)), sw_small, uw_small by lia. lia.
Qed.

Lemma fill_row_painted fb xres yres y n m m0 :
  0 ≤ fb → fb + 4 * (xres * yres) ≤ 2 ^ 64 → xres * yres ≤ 2 ^ 31 → 0 ≤ y < yres →
  Z.of_nat n ≤ xres → painted fb (y * xres) m m0 →
  painted fb (y * xres + Z.of_nat n)
    (foldl (λ m x, store32 m (pixel_address fb xres x y) 0x3DAEE9) m (Z.of_nat <$> seq 0 n)) m0.
Proof.
  intros H0 H1 H2 Hy. induction n as [|n IH]; intros Hn Hp; [by rewrite Z.add_0_r|].
  rewrite seq_S, fmap_app, foldl_app. cbn [fmap list_fmap foldl Nat.add].
  rewrite (pixel_index fb xres yres) by lia.
  replace (y * xres + Z.of_nat (S n)) with (y * xres + Z.of_nat n + 1) by lia.
  apply painted_next; [nia|]. apply IH; [lia|done].
Qed.

Lemma fill_framebuffer_painted fb xres yres m :
  0 ≤ fb → fb + 4 * (xres * yres) ≤ 2 ^ 64 → xres * yres ≤ 2 ^ 31 → 0 ≤ xres → 0 ≤ yres →
  painted fb (xres * yres) (fill_framebuffer fb xres yres m) m.
Proof.
  intros H0 H1 H2 Hx Hy. unfold fill_framebuffer.
  assert (H : ∀ n, Z.of_nat n ≤ yres →
    painted fb (Z.of_nat n * xres)
      (foldl (λ m y, fill_row fb xres y m) m (Z.of_nat <$> seq 0 n)) m).
  { induction n as [|n IH]; intros Hn.
    - split; [intros i Hi; lia|apply agree_refl].
    - rewrite seq_S, fmap_app, foldl_app. cbn [fmap list_fmap foldl Nat.add]. unfold fill_row at 1.
      replace (Z.of_nat (S n) * xres) with (Z.of_nat n * xres + Z.of_nat (Z.to_nat xres)) by lia.
      apply (fill_row_painted fb xres yres); try done; try lia. apply IH. lia. }
  specialize (H (Z.to_nat yres) ltac:(lia)). rewrite Z2Nat.id in H by done.
  by rewrite (Z.mul_comm xres).
Qed.

(** C23. The display code of the scan colours every pixel of the display and nothing else, as long as
    the display lies within the address space and a pixel's index fits the C++ [int]. *)
Theorem fill_framebuffer_paints fb xres yres m :
  0 ≤ fb → fb + 4 * (xres * yres) ≤ 2 ^ 64 → xres * yres ≤ 2 ^ 31 → 0 ≤ xres → 0 ≤ yres →
  (∀ x y, 0 ≤ x < xres → 0 ≤ y < yres →
     load 4 (fill_framebuffer fb xres yres m) (fb + 4 * (y * xres + x)) = 0x3DAEE9) ∧
  agree (λ a, ¬ range fb (4 * (xres * yres)) a) (fill_framebuffer fb xres yres m) m.
Proof.
  intros H0 H1 H2 Hx Hy.
  destruct (fill_framebuffer_painted fb xres yres m H0 H1 H2 Hx Hy) as [H3 H4].
  split; [|exact H4]. intros x y Hx' Hy'. apply H3. nia.
Qed.

Lemma fill_framebuffer_paints_witness :
  load 4 (fill_framebuffer 0xffff8000FD000000 1024 768 (λ _, 0)) (0xffff8000FD000000 + 4 * (767 * 1024 + 1023)) =
    0x3DAEE9 ∧
  load8 (fill_framebuffer 0xffff8000FD000000 1024 768 (λ _, 0)) (0xffff8000FD000000 + 4 * (1024 * 768)) =
    load8 (λ _, 0) (0xffff8000FD000000 + 4 * (1024 * 768)).
Proof.
  destruct (fill_framebuffer_paints 0xffff8000FD000000 1024 768 (λ _, 0)) as [H1 H2]; [lia..|].
  split; [exact (H1 1023 767 ltac:(lia) ltac:(lia))|].
  refine (H2 (0xffff8000FD000000 + 4 * (1024 * 768)) _). unfold range. lia.
Defined.
