(* ===== verification/Interrupts.v ===== *)
(** Interrupts and system calls of the whole kernel: the entry paths of [Traps.S], the handlers of
    [Traps.cpp] with what they call, and the panic ([Panic!!.cpp]), over [System.system].

    The stack the compiled handlers use below the frame is not modelled; [c] and [ret] are the
    registers and the return address with which [exitCurrentProcess] calls [Pause]. *)

From Stdlib Require Import Ascii String.
From S2P Require Import Prelude Mem GDT Cpu Spinlock ChunkList PhysMem CpuReady PhysPages PrintfCore PrintfFormat PCI Traps Process Scheduler Devices System.

(** ** The panic *)

Definition dumpRegisters (f : InterruptRegisters) (s : system) : outcome system :=
  let r := ir_regs f in
  let c := ir_context f in
  s ← log (str "r15=%#llx, r14=%#llx, r13=%#llx, r12=%#llx" ++ newline) [r15 r; r14 r; r13 r; r12 r] s;
  s ← log (str "r11=%#llx, r10=%#llx, r9=%#llx, r8=%#llx" ++ newline) [r11 r; r10 r; r9 r; r8 r] s;
  s ← log (str "rbp=%#llx, rdi=%#llx, rsi=%#llx, rdx=%#llx, rcx=%#llx, rbx=%#llx, rax=%#llx" ++ newline)
        [rbp r; rdi r; rsi r; rdx r; rcx r; rbx r; rax r] s;
  s ← log (str "interruptNumber=%#llx, errorCode=%#llx" ++ newline) [interruptNumber f; errorCode f] s;
  log (str "rip=%#llx, cs=%#llx, rflags=%#llx, rsp=%#llx, ss=%#llx" ++ newline)
    [c_rip c; c_cs c; c_rflags c; c_rsp c; c_ss c] s.

(** The state in which the processor halts. *)
Definition PanicExclamationExclamation (why : list Z) (f : InterruptRegisters) (s : system) : outcome system :=
  s ← log_args (str "fatal: %s" ++ newline) [AStr why] s;
  s ← dumpRegisters f s;
  Done (set_sys_env (put_IF false (env (mach s))) s).

(** ** Interrupts *)

(** Where the processor goes on after an interrupt. *)
Inductive after_trap :=
  | ToContext (r : registers) (c : context)
  | ToTask (next : Z * task)
  | HaltedForever.

Definition set_memory (m : mem) (s : system) : system := set_mach (set_ram m (mach s)) s.

Section interrupts.
Context (img : image) (register : lapic_state → Z → Z) (chunks : nat) (c : task) (ret : Z).

Definition run_effect (f : InterruptRegisters) (eff : trap_effect) (s : system)
    : outcome (option after_trap * system) :=
  match eff with
  | Acknowledge => Done (None, set_lapic (lapic s) (acknowledgeInterrupt register (lapic_io s)) s)
  | ExitCurrentProcess =>
      '(next, k) ← exitCurrentProcess chunks (at_ProcessTable img) c ret (kern s);
      Done (Some (ToTask next), set_kern k s)
  | Panic why =>
      s ← PanicExclamationExclamation (str why) f s; Done (Some HaltedForever, s)
  | LogUnhandled n =>
      s ← log (str "unhandled interrupt %d/%llx" ++ newline) [n; n] s; Done (None, s)
  | LogSyscall n => s ← log (str "syscall! %llx" ++ newline) [n] s; Done (None, s)
  end.
Fixpoint run_effects (f : InterruptRegisters) (effs : list trap_effect) (s : system)
    : outcome (option after_trap * system) :=
  match effs with
  | [] => Done (None, s)
  | eff :: effs =>
      '(after, s) ← run_effect f eff s;
      match after with Some _ => Done (after, s) | None => run_effects f effs s end
  end.

(** [iretq] also restores the interrupt flag. *)
Definition iretq (back : registers * context) (s : system) : after_trap * system :=
  let '(r, ctx) := back in
  (ToContext r ctx, set_sys_env (put_IF (Z.testbit (c_rflags ctx) 9) (env (mach s))) s).

(** [TrapCommon] with the frame pushed, and [TrapRet]. *)
Definition TrapCommon (frame : Z) (s : system) : outcome (after_trap * system) :=
  let f := read_frame frame (ram (mach s)) in
  effs ← TrapHandler (env (mach s)) f;
  '(after, s) ← run_effects f effs s;
  match after with
  | Some after => Done (after, s)
  | None => Done (iretq (TrapRet frame (ram (mach s))) s)
  end.

(** An interrupt through a generated stub, taken on the stack at [sp]; the gates clear the interrupt
    flag. *)
Definition interrupt (st : stub) (v err : Z) (ctx : context) (r : registers) (sp : Z) (s : system)
    : outcome (after_trap * system) :=
  let s := set_sys_env (put_IF false (env (mach s))) s in
  let '(frame, m) := trap_entry st v err ctx r sp (ram (mach s)) in
  TrapCommon frame (set_memory m s).

(** A system call; the record that the GS base names is this processor's. *)
Definition syscall (r : registers) (user_rsp : Z) (s : system) : outcome (registers * Z * system) :=
  with_this (env (mach s)) (λ i cpu,
    let '(sp, m, cpu) := syscall_entry r cpu user_rsp (ram (mach s)) in
    let s := set_memory m (set_sys_env (put_cpu i cpu (env (mach s))) s) in
    '(_, s) ← run_effects (read_frame sp (ram (mach s)))
                (KernelSyscallHandler (words_regs (word (ram (mach s)) sp))) s;
    with_this (env (mach s)) (λ _ cpu,
      let '(r, rsp) := syscall_exit sp cpu (ram (mach s)) in Done (r, rsp, s))).

(** ** The first program

    [MyFirstUserspace] in user mode.  How long the assembler makes an instruction is a parameter.
    [syscall] leaves the return address in rcx and the flags in r11, [sysretq] takes them from
    there. *)
Inductive instruction := nop | mov_rax (imm : Z) | syscall_instruction.
Definition MyFirstUserspace : list instruction :=
  [nop; mov_rax 1; syscall_instruction; nop; mov_rax 2; syscall_instruction; nop].

Record user_state := { u_rip : Z; u_regs : registers; u_rsp : Z; u_rflags : Z }.
Definition set_rax (v : Z) (r : registers) : registers :=
  {| rax := v; rbx := rbx r; rcx := rcx r; rdx := rdx r; rsi := rsi r; rdi := rdi r;
     rbp := rbp r; r8 := r8 r; r9 := r9 r; r10 := r10 r; r11 := r11 r; r12 := r12 r; r13 := r13 r;
     r14 := r14 r; r15 := r15 r |}.
Definition set_rcx_r11 (rip rflags : Z) (r : registers) : registers :=
  {| rax := rax r; rbx := rbx r; rcx := rip; rdx := rdx r; rsi := rsi r; rdi := rdi r;
     rbp := rbp r; r8 := r8 r; r9 := r9 r; r10 := r10 r; r11 := rflags; r12 := r12 r; r13 := r13 r;
     r14 := r14 r; r15 := r15 r |}.

Definition user_step (len : instruction → Z) (instr : instruction) (u : user_state) (s : system)
    : outcome (user_state * system) :=
  let rip := u64 (u_rip u + len instr) in
  match instr with
  | nop => Done ({| u_rip := rip; u_regs := u_regs u; u_rsp := u_rsp u; u_rflags := u_rflags u |}, s)
  | mov_rax v =>
      Done ({| u_rip := rip; u_regs := set_rax v (u_regs u); u_rsp := u_rsp u; u_rflags := u_rflags u |}, s)
  | syscall_instruction =>
      '(r, rsp, s) ← syscall (set_rcx_r11 rip (u_rflags u) (u_regs u)) (u_rsp u) s;
      Done ({| u_rip := rcx r; u_regs := r; u_rsp := rsp; u_rflags := r11 r |}, s)
  end.
Fixpoint user_run (len : instruction → Z) (program : list instruction) (u : user_state) (s : system)
    : outcome (user_state * system) :=
  match program with
  | [] => Done (u, s)
  | instr :: program => '(u, s) ← user_step len instr u s; user_run len program u s
  end.
End interrupts.

(** ** What a panic prints *)

Section panic.
Context (f : InterruptRegisters).
Local Abbreviation r := (ir_regs f).
Local Abbreviation c := (ir_context f).

Definition register_line (i : nat) : list Z :=
  match i with
  | 0%nat => str "r15=" ++ hash_hex (r15 r) ++ str ", r14=" ++ hash_hex (r14 r) ++
      str ", r13=" ++ hash_hex (r13 r) ++ str ", r12=" ++ hash_hex (r12 r) ++ newline
  | 1%nat => str "r11=" ++ hash_hex (r11 r) ++ str ", r10=" ++ hash_hex (r10 r) ++
      str ", r9=" ++ hash_hex (r9 r) ++ str ", r8=" ++ hash_hex (r8 r) ++ newline
  | 2%nat => str "rbp=" ++ hash_hex (rbp r) ++ str ", rdi=" ++ hash_hex (rdi r) ++
      str ", rsi=" ++ hash_hex (rsi r) ++ str ", rdx=" ++ hash_hex (rdx r) ++
      str ", rcx=" ++ hash_hex (rcx r) ++ str ", rbx=" ++ hash_hex (rbx r) ++
      str ", rax=" ++ hash_hex (rax r) ++ newline
  | 3%nat => str "interruptNumber=" ++ hash_hex (interruptNumber f) ++
      str ", errorCode=" ++ hash_hex (errorCode f) ++ newline
  | _ => str "rip=" ++ hash_hex (c_rip c) ++ str ", cs=" ++ hash_hex (c_cs c) ++
      str ", rflags=" ++ hash_hex (c_rflags c) ++ str ", rsp=" ++ hash_hex (c_rsp c) ++
      str ", ss=" ++ hash_hex (c_ss c) ++ newline
  end.
Definition register_text : list Z := seq 0 5 ≫= register_line.
End panic.

(** One [log] of the goal, whose text is known. *)
Local Ltac log_line text H s' H' :=
  match type of H with
  | wrote ?d ?cs ?s ?s0 =>
      match goal with
      | |- context [log ?format ?va s] =>
          destruct (log_wrote_next d format va text cs s s0 eq_refl H) as (s' & -> & H');
          cbn [mbind outcome_bind]
      end
  end.

Lemma dumpRegisters_spec depth f cs0 s s0 :
  wrote depth cs0 s s0 →
  ∃ s', dumpRegisters f s = Done s' ∧ wrote depth (cs0 ++ register_text f) s' s0.
Proof.
  intros H. unfold dumpRegisters.
  log_line (register_line f 0) H s1 H1. log_line (register_line f 1) H1 s2 H2.
  log_line (register_line f 2) H2 s3 H3. log_line (register_line f 3) H3 s4 H4.
  log_line (register_line f 4) H4 s5 H5.
  exists s5. split; [done|]. revert H5. unfold register_text. cbn [seq mbind list_bind].
  by rewrite app_nil_r, !app_assoc.
Qed.

Lemma panic_spec depth why f s :
  env_ready depth (mach s) → sys_log s = 0 →
  ∃ s', PanicExclamationExclamation why f s = Done (set_sys_env (put_IF false (env (mach s'))) s') ∧
    wrote depth (str "fatal: " ++ c_string why ++ newline ++ register_text f) s' s.
Proof.
  intros He Hl. destruct (printed_equations newline []) as (_ & _ & _ & Hs & _).
  unfold PanicExclamationExclamation.
  destruct (log_args_spec depth (str "fatal: %s" ++ newline) [AStr why]
    (str "fatal: " ++ c_string why ++ newline) s) as (con & E & H); [|done|done|].
  { change (str "fatal: %s" ++ newline) with (str "fatal: " ++ str "%s" ++ newline).
    rewrite printed_text by (by repeat constructor). by rewrite Hs. }
  rewrite E. cbn [mbind outcome_bind].
  destruct (dumpRegisters_spec depth f (str "fatal: " ++ c_string why ++ newline) (set_console con s) s)
    as (s' & E' & H'); [by exists con|].
  rewrite E'. exists s'. split; [done|]. by rewrite <- !app_assoc in H'.
Qed.

(** A panic, if the log is not locked, prints its reason and the registers the interrupt saved, and
    halts with interrupts disabled; nothing but the console changes.  If the log is locked, because
    the interrupted code was logging, it prints nothing and never reaches the halt. *)
Theorem panic_prints depth why f s :
  env_ready depth (mach s) →
  (sys_log s = 0 → ∃ s', PanicExclamationExclamation why f s = Done (set_sys_env (put_IF false (env (mach s'))) s') ∧
     wrote depth (str "fatal: " ++ c_string why ++ newline ++ register_text f) s' s) ∧
  (sys_log s ≠ 0 → PanicExclamationExclamation why f s = Stuck Spin).
Proof.
  intros He. split; intros Hl; [by apply panic_spec|].
  unfold PanicExclamationExclamation. by rewrite (log_args_locked depth).
Qed.

(** ** Interrupts *)

Section interrupt_proofs.
Context (img : image) (register : lapic_state → Z → Z) (chunks : nat) (c : task) (ret : Z).
Local Abbreviation interrupt := (interrupt img register chunks c ret).
Local Abbreviation run_effects := (run_effects img register chunks c ret).

(** The vectors that have a generated stub which fits what the processor pushes. *)
Definition clean_stub (st : stub) (v : Z) : Prop :=
  stub_of v = Some st ∧ (v ∉ [17; 21; 29; 30]) ∧ 0 ≤ v < 256.
(** What is interrupted. *)
Definition interruptible (err : Z) (r : registers) (ctx : context) : Prop :=
  0 ≤ err < 2 ^ 64 ∧ words_ok (reg_words r) ∧ words_ok (context_words ctx).

(** The state in which the handler runs: interrupts off, the frame on the stack. *)
Definition entered (m : mem) (s : system) : system :=
  set_memory m (set_sys_env (put_IF false (env (mach s))) s).
Definition frame_of (v err : Z) (r : registers) (ctx : context) : InterruptRegisters :=
  {| ir_regs := r; interruptNumber := v; errorCode := if pushes_error v then err else 0;
     ir_context := ctx |}.

(** An interrupt runs the handler on the frame and, if that returns, goes back to what was
    interrupted, with the interrupt flag it had. *)
Lemma interrupt_spec st v err ctx r sp s :
  clean_stub st v → interruptible err r ctx →
  ∃ m, agree (λ x, ¬ range (sp - sizeof_InterruptRegisters) sizeof_InterruptRegisters x) m (ram (mach s)) ∧
    ∀ effs after s', TrapHandler (put_IF false (env (mach s))) (frame_of v err r ctx) = Done effs →
      run_effects (frame_of v err r ctx) effs (entered m s) = Done (after, s') →
      (after = None → ram (mach s') = m) →
      interrupt st v err ctx r sp s =
        Done match after with Some after => (after, s') | None => iretq (r, ctx) s' end.
Proof.
  intros (Hst & Hv & Hr) (He & Hw & Hc).
  destruct (trap_entry_spec st v err ctx r sp (ram (mach s)) Hst Hv Hr He Hw Hc) as (m & E & F & R & A).
  exists m. split; [eapply agree_weaken; [|exact A]; unfold range; lia|].
  intros effs after s' E1 E2 Hm. unfold Interrupts.interrupt.
  change (ram (mach (set_sys_env _ s))) with (ram (mach s)). rewrite E. unfold TrapCommon.
  change (set_memory m _) with (entered m s). change (ram (mach (entered m s))) with m.
  change (env (mach (entered m s))) with (put_IF false (env (mach s))). rewrite F. fold (frame_of v err r ctx).
  rewrite E1. cbn [mbind outcome_bind]. rewrite E2. cbn [mbind outcome_bind].
  destruct after; [done|]. by rewrite Hm, R.
Qed.

(** The timer interrupts whatever runs without leaving a trace: it is acknowledged, the frame is
    written to the 176 bytes below the stack pointer, and the interrupted code goes on with its
    registers, its context and its interrupt flag; nothing is scheduled. *)
Theorem timer_interrupt_transparent ctx r sp s :
  interruptible 0 r ctx →
  ∃ m, interrupt IRQ_Stub (IRQ0 + IRQTimer) 0 ctx r sp s =
      Done (iretq (r, ctx)
              (set_lapic (lapic s) (acknowledgeInterrupt register (lapic_io s)) (entered m s))) ∧
    agree (λ x, ¬ range (sp - sizeof_InterruptRegisters) sizeof_InterruptRegisters x) m (ram (mach s)).
Proof.
  intros Hi. destruct (interrupt_spec IRQ_Stub (IRQ0 + IRQTimer) 0 ctx r sp s) as (m & A & H); [|done|].
  { split; [done|]. split; [|done]. rewrite !not_elem_of_cons. repeat split; try done. apply not_elem_of_nil. }
  exists m. split; [|exact A]. by rewrite (H [Acknowledge] None _ eq_refl eq_refl).
Qed.

(** An interrupt the handler does not know is reported on the console, and the interrupted code goes
    on where it was. *)
Theorem unhandled_interrupt_logged depth st v err ctx r sp s :
  clean_stub st v → interruptible err r ctx → v ∉ [8; 13; 14; 32; 128] →
  sys_log s = 0 → env_ready depth (mach s) →
  ∃ m s', interrupt st v err ctx r sp s = Done (iretq (r, ctx) s') ∧
    wrote depth (str "unhandled interrupt " ++ decimal v ++ str "/" ++ hex v ++ newline) s' (entered m s) ∧
    agree (λ x, ¬ range (sp - sizeof_InterruptRegisters) sizeof_InterruptRegisters x) m (ram (mach s)).
Proof.
  intros Hst Hi Hv Hl He. destruct (interrupt_spec st v err ctx r sp s Hst Hi) as (m & A & H).
  destruct (log_wrote depth (str "unhandled interrupt %d/%llx" ++ newline) [v; v]
    (str "unhandled interrupt " ++ decimal (s32 v) ++ str "/" ++ hex v ++ newline) (entered m s)
    eq_refl Hl (cpu_ready_put_IF depth false _ He)) as (s' & E & W).
  rewrite sw_small in W by (destruct Hst; lia). exists m, s'. split; [|by split].
  apply (H [LogUnhandled v] None).
  - unfold TrapHandler. cbn [interruptNumber frame_of].
    rewrite !not_elem_of_cons in Hv. destruct Hv as (H1 & H2 & H3 & H4 & H5 & _).
    unfold SyscallInterrupt, IRQ0, IRQTimer, DoubleFault, GeneralProtectionFault, PageFault. zdecide.
  - cbn [Interrupts.run_effects run_effect]. rewrite E. done.
  - intros _. by destruct W as (con & -> & _).
Qed.

(** A fault that is not a user process's own. *)
Definition fatal_fault (v : Z) (ctx : context) (cpu : CPUState) (why : string) : Prop :=
  let in_kernel := currentProcess cpu = 0 ∨ c_cs ctx = off_kernelCode in
  v = DoubleFault ∧ why = "Double fault"%string ∨
  v = GeneralProtectionFault ∧ in_kernel ∧ why = "GPF in kernel code"%string ∨
  v = PageFault ∧ in_kernel ∧ why = "Page fault in kernel code"%string.

(** C21. A double fault, and a fault of kernel code or without a process, stop the processor for good,
    after the reason and the saved registers were printed. *)
Theorem fatal_fault_panics depth v err ctx r sp s i cpu why :
  interruptible err r ctx → cpu_of (env (mach s)) i cpu → fatal_fault v ctx cpu why →
  sys_log s = 0 → env_ready depth (mach s) →
  ∃ m s', interrupt ISR_WithErrorCode v err ctx r sp s =
      Done (HaltedForever, set_sys_env (put_IF false (env (mach s'))) s') ∧
    wrote depth (str "fatal: " ++ str why ++ newline ++ register_text (frame_of v err r ctx)) s' (entered m s) ∧
    agree (λ x, ¬ range (sp - sizeof_InterruptRegisters) sizeof_InterruptRegisters x) m (ram (mach s)).
Proof.
  intros Hi Hc Hf Hl He.
  assert (clean_stub ISR_WithErrorCode v) as Hst.
  { destruct Hf as [[-> _]|[[-> _]|[-> _]]]; (split; [done|split; [|done]]);
      rewrite !not_elem_of_cons; (repeat split; try done); apply not_elem_of_nil. }
  destruct (interrupt_spec ISR_WithErrorCode v err ctx r sp s Hst Hi) as (m & A & H).
  destruct (panic_spec depth (str why) (frame_of v err r ctx) (entered m s)
    (cpu_ready_put_IF depth false _ He) Hl) as (s' & E & W).
  assert (c_string (str why) = str why) as Hwhy by (by destruct Hf as [[_ ->]|[(_ & _ & ->)|(_ & _ & ->)]]).
  rewrite Hwhy in W. exists m, s'. split; [|by split].
  apply (H [Panic why] (Some HaltedForever)); [| |done].
  - unfold TrapHandler. cbn [interruptNumber frame_of ir_context].
    rewrite !(with_this_of _ i cpu) by (by apply cpu_of_put_IF).
    destruct Hf as [[-> ->]|[(-> & Hk & ->)|(-> & Hk & ->)]]; [done|..];
      (cbn -[off_kernelCode]; destruct Hk as [-> | ->]; [done|rewrite Z.eqb_refl; by rewrite orb_true_r]).
  - cbn [Interrupts.run_effects run_effect]. by rewrite E.
Qed.
(** ** A user process's own fault *)

(** The memory around a fault: the handler's stack from the context [exitCurrentProcess] saves up to
    [sp], the scheduler's saved context, the process's kernel stack and the headers of the free list
    lie apart. *)
Record fault_layout (s : system) (sp : Z) (cpu : CPUState) (info : ProcessInfo) (l1 l2 : list chunk) : Prop := {
  fl_context : 0 ≤ t_rsp c ∧ t_rsp c ≤ sp - sizeof_InterruptRegisters;
  fl_scheduler : disj (schedulerTask cpu) sizeof_KernelContext
    (t_rsp c - sizeof_KernelContext) (sp - (t_rsp c - sizeof_KernelContext));
  fl_headers x : t_rsp c - sizeof_KernelContext ≤ x < sp →
    ¬ headers (l1 ++ (kernelStack info, 1) :: l2) x;
  fl_waiting x : range (schedulerTask cpu) sizeof_KernelContext x →
    ¬ range (kernelStack info) PageSize x ∧ ¬ headers (l1 ++ l2) x;
  fl_stack : 1 ≤ kernelStack info ∧ kernelStack info + PageSize ≤ 2 ^ 64;
  fl_list : free_list (mach s) (l1 ++ l2) ∧ (length l1 ≤ chunks)%nat ∧ (l1 = [] → l2 = []);
  fl_below b n : (b, n) ∈ l1 → b + PageSize * n < kernelStack info;
  fl_above b n : (b, n) ∈ l2 → kernelStack info + PageSize < b;
}.

(** C14. The first process's fault ends all scheduling.  A page fault or general-protection fault of user
    code makes the process unused and gives its kernel stack back; then the scheduler goes on where
    it was, with interrupts disabled, and looks at the first slot for ever. *)
Theorem user_fault_hangs depth v err ctx r sp s i cpu info l1 l2 :
  v = GeneralProtectionFault ∨ v = PageFault → interruptible err r ctx → c_cs ctx ≠ off_kernelCode →
  cpu_of (env (mach s)) i cpu → currentProcess cpu = at_ProcessTable img → 0 < at_ProcessTable img →
  ProcessTable (kern s) !! 0%nat = Some info → ProcessTableSpinlock (kern s) = 0 →
  env_ready depth (mach s) → lock_ready (mach s) → words_ok (task_words ret c) →
  fault_layout s sp cpu info l1 l2 →
  ∃ s' info', interrupt ISR_WithErrorCode v err ctx r sp s =
      Done (ToTask (resume (schedulerTask cpu) (ram (mach s))), s') ∧
    ProcessTable (kern s') !! 0%nat = Some info' ∧ state info' = Unused ∧
    free_list (mach s') (l1 ++ (kernelStack info, 1) :: l2) ∧
    IF (this_hw (env (mach s'))) = false ∧
    ∀ n, find_runnable n (next_slot 0) (kern s') = Stuck OutOfFuel.
Proof.
  intros Hv Hi Hcs Hc Hcur Ht Hp Hlock He Hr Hw [L1 L2 L3 L4 L5 (L6 & L6' & L6'') L7 L8].
  assert (clean_stub ISR_WithErrorCode v) as Hst.
  { destruct Hv as [-> | ->]; (split; [done|split; [|done]]);
      rewrite !not_elem_of_cons; (repeat split; try done); apply not_elem_of_nil. }
  destruct (interrupt_spec ISR_WithErrorCode v err ctx r sp s Hst Hi) as (m & A & H).
  set (e := put_IF false (env (mach s))) in *.
  assert (Hc1 : cpu_of e i cpu) by (by apply cpu_of_put_IF).
  change sizeof_InterruptRegisters with 176 in *. change sizeof_KernelContext with 56 in *.
  destruct (exitCurrentProcess_spec chunks depth (at_ProcessTable img) c ret 0 (kern (entered m s)) info
    i cpu l1 l2) as (k' & info' & E & T & S' & _ & F & Hoff); try done.
  { rewrite Hcur. change sizeof_ProcessInfo with 40. lia. }
  { apply (free_list_headers m (set_env e (mach s))); [exact L6|].
    eapply agree_weaken; [|exact A]. intros x (b & n & Hin & Hx) Hx'.
    apply (L3 x); [unfold range in Hx'; lia|]. exists b, n. split; [|done].
    rewrite elem_of_app in Hin |- *. destruct Hin as [|]; [by left|right; by right]. }
  { by apply L5. }
  { by apply L5. }
  { change sizeof_KernelContext with 56. unfold disj in *. lia. }
  { intros x Hx. apply L3. change sizeof_KernelContext with 56 in Hx. unfold range in Hx. lia. }
  exists (set_kern k' (entered m s)), info'. split.
  { rewrite (resume_agree _ m (ram (mach s))) in E.
    - apply (H [ExitCurrentProcess] (Some (ToTask (resume (schedulerTask cpu) (ram (mach s)))))); [| |done].
      + unfold TrapHandler. cbn [interruptNumber frame_of ir_context].
        rewrite !(with_this_of _ i cpu), Hcur by done.
        apply Z.eqb_neq in Hcs. rewrite Hcs. destruct (Z.eqb_spec (at_ProcessTable img) 0); [lia|].
        by destruct Hv as [-> | ->].
      + cbn [Interrupts.run_effects run_effect]. by rewrite E.
    - change sizeof_KernelContext with 56. eapply agree_weaken; [|exact A].
      unfold range, disj in *. lia. }
  split; [exact T|]. split; [done|]. split; [exact F|]. split; [by apply Hoff|].
  intros n. rewrite (find_runnable_stays _ _ _ info') by (exact T || (unfold next_slot; lia)).
  destruct n; [done|]. by rewrite S'.
Qed.

(** ** System calls *)

(** A system call reports its number, the value of rax, on the console, and returns every register
    and the stack pointer as they were; of memory only the 120 bytes below the interrupt stack
    pointer change, of the processor's record only the saved user stack and the lock counts. *)
Lemma syscall_spec depth r user_rsp s i cpu :
  words_ok (reg_words r) → cpu_of (env (mach s)) i cpu → sys_log s = 0 → env_ready depth (mach s) →
  ∃ m cpu' s', syscall img register chunks c ret r user_rsp s = Done (r, user_rsp, s') ∧
    wrote depth (str "syscall! " ++ hex (rax r) ++ newline) s'
      (set_memory m (set_sys_env (put_cpu i cpu' (env (mach s))) s)) ∧
    userStack cpu' = user_rsp ∧
    agree (λ x, ¬ range (interruptStack cpu - 120) 120 x) m (ram (mach s)).
Proof.
  intros Hr Hc Hl He. unfold syscall. rewrite (with_this_of _ i cpu) by done.
  destruct (syscall_entry_spec r cpu user_rsp (ram (mach s)) Hr)
    as (m & cpu' & -> & Hid & Hcli & Htab & Hu & Hregs & A).
  set (e := put_cpu i cpu' (env (mach s))).
  assert (Hc1 : cpu_of e i cpu') by (by eapply cpu_of_put_cpu).
  assert (He1 : cpu_ready depth e) by (by eapply cpu_ready_put).
  set (s1 := set_memory m (set_sys_env e s)). change (ram (mach s1)) with m. rewrite Hregs.
  destruct (log_wrote depth (str "syscall! %llx" ++ newline) [rax r]
    (str "syscall! " ++ hex (rax r) ++ newline) s1 eq_refl Hl He1) as (s' & E & W).
  cbn [KernelSyscallHandler Interrupts.run_effects run_effect]. rewrite E. cbn [mbind outcome_bind].
  destruct (log_steady depth _ _ _ _ E) as [R _]. destruct (R He1) as (_ & R' & _).
  destruct (R' i cpu' Hc1) as (n & w & Hc2). rewrite (with_this_of _ _ _ _ Hc2).
  assert (ram (mach s') = m) as -> by (by destruct W as (con & -> & _)).
  exists m, cpu', s'. split; [|split; [exact W|split; [done|]]].
  - unfold syscall_exit. cbn [userStack set_cli]. by rewrite Hregs, Hu.
  - eapply agree_weaken; [|exact A]. unfold range. lia.
Qed.

(** What a system call reports, and what it leaves in order. *)
Definition reported (depth : Z) (cs : list Z) (s' s : system) : Prop :=
  sys_serial s' = sys_serial s ++ on_wire cs ∧ sys_log s' = 0 ∧ env_ready depth (mach s') ∧
  ProcessTable (kern s') = ProcessTable (kern s).

Lemma syscall_reported depth r user_rsp s :
  words_ok (reg_words r) → sys_log s = 0 → env_ready depth (mach s) →
  ∃ s', syscall img register chunks c ret r user_rsp s = Done (r, user_rsp, s') ∧
    reported depth (str "syscall! " ++ hex (rax r) ++ newline) s' s.
Proof.
  intros Hr Hl He. destruct (He) as (_ & i & cpu & Hc & _).
  destruct (syscall_spec depth r user_rsp s i cpu Hr Hc Hl He)
    as (m & cpu' & s' & E & (con & -> & L & C & S) & _).
  eexists. split; [exact E|]. split; [exact S|]. by split.
Qed.

(** C20. A system call reports its number, the value of rax, on the console, and returns every register
    and the stack pointer as they were; it writes the 120 bytes below the interrupt stack pointer. *)
Theorem syscall_logged depth r user_rsp s i cpu :
  words_ok (reg_words r) → cpu_of (env (mach s)) i cpu → sys_log s = 0 → env_ready depth (mach s) →
  ∃ s', syscall img register chunks c ret r user_rsp s = Done (r, user_rsp, s') ∧
    reported depth (str "syscall! " ++ hex (rax r) ++ newline) s' s ∧
    agree (λ x, ¬ range (interruptStack cpu - 120) 120 x) (ram (mach s')) (ram (mach s)).
Proof.
  intros Hr Hc Hl He. destruct (syscall_spec depth r user_rsp s i cpu Hr Hc Hl He)
    as (m & cpu' & s' & E & (con & -> & L & C & S) & _ & A).
  eexists. split; [exact E|]. split; [|exact A]. split; [exact S|]. by split.
Qed.

(** ** The first program *)

Lemma words_ok_rax v r : words_ok (reg_words r) → 0 ≤ v < 2 ^ 64 → words_ok (reg_words (set_rax v r)).
Proof. unfold words_ok, reg_words. intros H Hv. rewrite !Forall_cons in *. cbn. tauto. Qed.

Lemma words_ok_rcx_r11 rip rflags r :
  words_ok (reg_words r) → 0 ≤ rip < 2 ^ 64 → 0 ≤ rflags < 2 ^ 64 →
  words_ok (reg_words (set_rcx_r11 rip rflags r)).
Proof. unfold words_ok, reg_words. intros H Hv Hf. rewrite !Forall_cons in *. cbn. tauto. Qed.

(** [nop; mov $v, %rax; syscall] *)
Definition after_call (len : instruction → Z) (v : Z) (u : user_state) : user_state :=
  let rip := u64 (u_rip u + (len nop + len (mov_rax v) + len syscall_instruction)) in
  {| u_rip := rip; u_regs := set_rcx_r11 rip (u_rflags u) (set_rax v (u_regs u));
     u_rsp := u_rsp u; u_rflags := u_rflags u |}.

Lemma user_call depth len v rest u s :
  words_ok (reg_words (u_regs u)) → 0 ≤ u_rflags u < 2 ^ 64 → 0 ≤ v < 2 ^ 64 →
  sys_log s = 0 → env_ready depth (mach s) →
  ∃ s', user_run img register chunks c ret len (nop :: mov_rax v :: syscall_instruction :: rest) u s =
      user_run img register chunks c ret len rest (after_call len v u) s' ∧
    words_ok (reg_words (u_regs (after_call len v u))) ∧
    reported depth (str "syscall! " ++ hex v ++ newline) s' s.
Proof.
  intros Hr Hf Hv Hl He.
  assert (u64 (u64 (u64 (u_rip u + len nop) + len (mov_rax v)) + len syscall_instruction) =
    u_rip (after_call len v u)) as Hrip.
  { cbn. rewrite uw_add_l, <- Z.add_assoc, uw_add_l. f_equal. lia. }
  assert (words_ok (reg_words (u_regs (after_call len v u)))) as Hr'.
  { apply words_ok_rcx_r11; [by apply words_ok_rax|apply uw_range; lia|done]. }
  destruct (syscall_reported depth _ (u_rsp u) s Hr' Hl He) as (s' & E & R).
  exists s'. split; [|by split].
  cbn [user_run user_step mbind outcome_bind u_rip u_regs u_rsp u_rflags]. rewrite Hrip.
  change (set_rcx_r11 (u_rip (after_call len v u)) (u_rflags u) (set_rax v (u_regs u)))
    with (u_regs (after_call len v u)).
  rewrite E. done.
Qed.

Lemma first_program_spec depth len u s :
  words_ok (reg_words (u_regs u)) → 0 ≤ u_rflags u < 2 ^ 64 → sys_log s = 0 → env_ready depth (mach s) →
  ∃ u' s', user_run img register chunks c ret len MyFirstUserspace u s = Done (u', s') ∧
    u_rip u' = u64 (u_rip u + foldr (λ x n, len x + n) 0 MyFirstUserspace) ∧
    rax (u_regs u') = 2 ∧ u_rsp u' = u_rsp u ∧ u_rflags u' = u_rflags u ∧
    reported depth (str "syscall! 1" ++ newline ++ str "syscall! 2" ++ newline) s' s.
Proof.
  intros Hr Hf Hl He. unfold MyFirstUserspace.
  destruct (user_call depth len 1 [nop; mov_rax 2; syscall_instruction; nop] u s) as (s1 & -> & Hr1 & S1 & L1 & He1 & P1);
    [done..|].
  set (u1 := after_call len 1 u) in *.
  destruct (user_call depth len 2 [nop] u1 s1) as (s2 & -> & _ & S2 & L2 & He2 & P2); [done..|].
  cbn [user_run user_step mbind outcome_bind]. eexists _, s2. split; [reflexivity|].
  cbn [u_rip u_regs u_rsp u_rflags]. split; [|do 3 (split; [done|])].
  - unfold u1, after_call. cbn [u_rip foldr].
    rewrite uw_add_l, <- Z.add_assoc, uw_add_l. f_equal. lia.
  - split; [|split; [done|split; [done|congruence]]].
    rewrite S2, S1. unfold on_wire. rewrite <- app_assoc, <- bind_app. done.
Qed.

(** The first program, wherever it starts and whatever its registers hold, makes its two system
    calls, which the kernel reports, and comes to its end with its stack pointer and flags as they
    were. *)
Theorem first_program_logs depth len u s :
  words_ok (reg_words (u_regs u)) → 0 ≤ u_rflags u < 2 ^ 64 → sys_log s = 0 → env_ready depth (mach s) →
  ∃ u' s', user_run img register chunks c ret len MyFirstUserspace u s = Done (u', s') ∧
    u_rip u' = u64 (u_rip u + foldr (λ x n, len x + n) 0 MyFirstUserspace) ∧
    rax (u_regs u') = 2 ∧ u_rsp u' = u_rsp u ∧ u_rflags u' = u_rflags u ∧
    reported depth (str "syscall! 1" ++ newline ++ str "syscall! 2" ++ newline) s' s.
Proof. apply first_program_spec. Qed.
End interrupt_proofs.

(** ** Concrete runs: the first process, interrupted in user mode on a processor whose handlers run
    below 0x9000; the scheduler waits below 0x1000. *)

Definition user_cpu : CPUState := set_scheduler (0x1000 - 56) (set_current 0x500 zero_cpu).
Definition user_process : ProcessInfo :=
  {| pageTable := 0; state := Running; kernelStack := page0 + 0x8000; kernelTask := 0; trapFrame := 0 |}.
Definition user_kernel : kernel :=
  {| hw_state := set_env {| CPUs := [user_cpu]; this_hw := zero_hw |}
                   (set_ram (Pause (example_task 1) 0x11 0 (ram example)).1.2 example);
     ProcessTable := [user_process]; ProcessTableSpinlock := 0; KernelPageTable := 0 |}.
Definition user_image : image :=
  {| KernelStart := 0; KernelEnd := 0; at_TrapRet := 0; at_ProcessEntryPoint := 0; at_SyscallHandler := 0;
     at_OtherProcessorMain := 0; at_ProcessTable := 0x500; at_IDTEntries := 0; at_isr := λ _, 0;
     at_irq := λ _, 0; at_MyFirstUserspace := 0; MyFirstUserspace_size := 0 |}.
Definition user_system : system :=
  {| kern := user_kernel; sys_log := 0; sys_serial := []; IDT := []; idtr := (0, 0); lapic := 0;
     lapic_io := {| writes := []; reads := 0 |}; ports := []; segments := zero_segments; cr3 := 0;
     CPUs_page := 0; smp_infos := [] |}.
(** In the handler, where it calls [Pause]. *)
Definition handler_task : task :=
  {| t_rbx := 8; t_rbp := 9; t_r12 := 10; t_r13 := 11; t_r14 := 12; t_r15 := 13; t_rsp := 0x8E00 |}.

Lemma user_interruptible err : 0 ≤ err < 2 ^ 64 → interruptible err example_registers user_context.
Proof.
  intros He. split; [done|]. split; words_tac.
Qed.
Lemma user_ready : env_ready 0 (mach user_system).
Proof. split; [lia|]. exists 0%nat, user_cpu. repeat split; lia. Qed.

Lemma timer_interrupt_transparent_witness :
  ∃ s', interrupt user_image (λ _ _, 0) 1 handler_task 0x22 IRQ_Stub 32 0 user_context example_registers
      0x9000 user_system = Done (ToContext example_registers user_context, s') ∧
    writes (lapic_io s') = [(0x2C, 0)] ∧ IF (this_hw (env (mach s'))) = true.
Proof.
  destruct (timer_interrupt_transparent user_image (λ _ _, 0) 1 handler_task 0x22 user_context
    example_registers 0x9000 user_system (user_interruptible 0 ltac:(lia))) as (m & E & _).
  eexists. split; [exact E|]. by split.
Defined.

Lemma unhandled_interrupt_logged_witness :
  ∃ s', interrupt user_image (λ _ _, 0) 1 handler_task 0x22 ISR_NoErrorCode 0 0 user_context
      example_registers 0x9000 user_system = Done (ToContext example_registers user_context, s') ∧
    sys_serial s' = on_wire (str "unhandled interrupt 0/0" ++ newline).
Proof.
  destruct (unhandled_interrupt_logged user_image (λ _ _, 0) 1 handler_task 0x22 0 ISR_NoErrorCode 0 0
    user_context example_registers 0x9000 user_system) as (m & s' & E & (con & -> & _ & _ & S) & _).
  - split; [done|]. rewrite !not_elem_of_cons. repeat split; try done. apply not_elem_of_nil.
  - apply user_interruptible. lia.
  - rewrite !not_elem_of_cons. repeat split; try done. apply not_elem_of_nil.
  - done.
  - exact user_ready.
  - eexists. split; [exact E|exact S].
Defined.

Lemma panic_prints_witness :
  ∃ s', PanicExclamationExclamation (str "why") user_fault user_system = Done s' ∧
    IF (this_hw (env (mach s'))) = false ∧
    sys_serial s' = on_wire (str "fatal: why" ++ newline ++ register_text user_fault).
Proof.
  destruct (proj1 (panic_prints 0 (str "why") user_fault user_system user_ready) eq_refl)
    as (s' & E & con & -> & _ & _ & S).
  eexists. split; [exact E|]. split; [done|exact S].
Defined.

(** A page fault of kernel code. *)
Definition kernel_context : context :=
  {| c_rip := 0xffffffff80001234; c_cs := 8; c_rflags := 0x202; c_rsp := 0x9000; c_ss := 0 |}.
Lemma fatal_fault_panics_witness :
  ∃ s', interrupt user_image (λ _ _, 0) 1 handler_task 0x22 ISR_WithErrorCode 14 2 kernel_context
      example_registers 0x9000 user_system = Done (HaltedForever, s').
Proof.
  destruct (fatal_fault_panics user_image (λ _ _, 0) 1 handler_task 0x22 0 14 2 kernel_context
    example_registers 0x9000 user_system 0 user_cpu "Page fault in kernel code") as (m & s' & E & _).
  - split; [lia|]. split; words_tac.
  - done.
  - right. right. split; [done|]. split; [by right|done].
  - done.
  - exact user_ready.
  - eexists. exact E.
Defined.

Lemma user_fault_hangs_witness :
  ∃ s', interrupt user_image (λ _ _, 0) 1 handler_task 0x22 ISR_WithErrorCode 14 6 user_context
      example_registers 0x9000 user_system = Done (ToTask (0x11, example_task 1), s') ∧
    find_runnable 100 (next_slot 0) (kern s') = Stuck OutOfFuel.
Proof.
  destruct (user_fault_hangs user_image (λ _ _, 0) 1 handler_task 0x22 0 14 6 user_context
    example_registers 0x9000 user_system 0 user_cpu user_process [(page0, 2)] [(page0 + 0x10000, 3)])
    as (s' & info' & E & _ & _ & _ & _ & H).
  - by right.
  - apply user_interruptible. lia.
  - done.
  - done.
  - done.
  - simpl; lia.
  - done.
  - done.
  - exact user_ready.
  - split; [by vm_compute|]. intros Hu. by vm_compute in Hu.
  - words_tac.
  - change (schedulerTask user_cpu) with 0xfc8.
    assert (Hhead : ∀ l x, (∀ b n, (b, n) ∈ l → page0 ≤ b) → x < page0 → ¬ headers l x).
    { intros l x Hl Hx (b & n & Hin & Hb). specialize (Hl b n Hin). lia. }
    assert (Hlist : ∀ b n, (b, n) ∈ [(page0, 2)] ++ (kernelStack user_process, 1) :: [(page0 + 0x10000, 3)] →
      page0 ≤ b).
    { intros b n [[= -> ->]|[[= -> ->]|[[= -> ->]|[]%not_elem_of_nil]%elem_of_cons]%elem_of_cons]%elem_of_cons;
        simpl; lia. }
    split; change sizeof_InterruptRegisters with 176; change sizeof_KernelContext with 56; simpl.
    + lia.
    + left. lia.
    + intros x Hx. apply Hhead; [exact Hlist|]. unfold page0. simpl in Hx. lia.
    + intros x Hx. unfold range in *. unfold page0. split; [lia|].
      apply Hhead; [|unfold page0; lia].
      intros b n [[= -> ->]|[[= -> ->]|[]%not_elem_of_nil]%elem_of_cons]%elem_of_cons; unfold page0; lia.
    + unfold page0. change PageSize with 4096. lia.
    + split; [|by split; [lia|]]. split; [|eexists]; vm_compute; [by repeat split|]. by repeat split.
    + intros b n Hin. apply list_elem_of_singleton in Hin. injection Hin as -> ->. by vm_compute.
    + intros b n Hin. apply list_elem_of_singleton in Hin. injection Hin as -> ->. by vm_compute.
  - exists s'. split; [|apply H].
    assert (resume (schedulerTask user_cpu) (ram (mach user_system)) = (0x11, example_task 1)) as <-
      by (vm_compute; reflexivity).
    exact E.
Defined.

Lemma syscall_logged_witness :
  ∃ s', syscall user_image (λ _ _, 0) 1 handler_task 0x22 (set_rax 1 example_registers) 0x8000 user_system =
      Done (set_rax 1 example_registers, 0x8000, s') ∧
    sys_serial s' = on_wire (str "syscall! 1" ++ newline).
Proof.
  destruct (syscall_logged user_image (λ _ _, 0) 1 handler_task 0x22 0 (set_rax 1 example_registers) 0x8000
    user_system 0 user_cpu) as (s' & E & (S & _) & _).
  - apply words_ok_rax; [|lia]. apply (user_interruptible 0). lia.
  - done.
  - done.
  - exact user_ready.
  - exists s'. split; [exact E|]. rewrite S. by vm_compute.
Defined.

Lemma first_program_logs_witness :
  ∃ u' s', user_run user_image (λ _ _, 0) 1 handler_task 0x22 (λ _, 4) MyFirstUserspace
      {| u_rip := 0x1000; u_regs := zero_registers; u_rsp := 0; u_rflags := 0x200 |} user_system =
      Done (u', s') ∧ u_rip u' = 0x101C ∧
    sys_serial s' = on_wire (str "syscall! 1" ++ newline ++ str "syscall! 2" ++ newline).
Proof.
  destruct (first_program_logs user_image (λ _ _, 0) 1 handler_task 0x22 0 (λ _, 4)
    {| u_rip := 0x1000; u_regs := zero_registers; u_rsp := 0; u_rflags := 0x200 |} user_system)
    as (u' & s' & E & R & _ & _ & _ & S & _).
  - words_tac.
  - simpl. lia.
  - done.
  - exact user_ready.
  - exists u', s'. split; [exact E|]. split; [exact R|exact S].
Defined.
