(* ===== verification/Ticks.v ===== *)
(** Interrupts between the instructions of a user program ([Traps.S], [Traps.cpp]).

    [Interrupts] runs the program of the first process alone, and one interrupt alone; here they are
    put together.  A program is a sequence of events, an instruction or an interrupt that arrives
    before the next one, and the processor delivers the interrupt if the program's flags allow it.
    What the program sees is what it would see alone, wherever the interrupts fall and whatever
    stack their frames are pushed to; what the kernel prints and acknowledges is told event by
    event. *)

From Stdlib Require Import Ascii String.
From S2P Require Import Prelude Mem GDT Cpu Spinlock PhysMem CpuReady PhysPages PrintfCore PrintfFormat PCI Traps Process Scheduler Devices System Interrupts.

(** ** A program and what interrupts it *)

Inductive user_event :=
  | Execute (i : instruction)
  | Arrives (st : stub) (v sp : Z).      (* vector [v] through the stub [st], its frame below [sp] *)

(** The instructions of a sequence of events. *)
Definition program_of (evs : list user_event) : list instruction :=
  omap (λ ev, match ev with Execute i => Some i | Arrives _ _ _ => None end) evs.

Section ticks.
Context (img : image) (register : lapic_state → Z → Z) (chunks : nat) (c : task) (ret : Z).
(** The length of an instruction and the selectors of user mode. *)
Context (len : instruction → Z) (cs ss : Z).

(** What the processor pushes, and where [iretq] goes. *)
Definition interrupted_context (u : user_state) : context :=
  {| c_rip := u_rip u; c_cs := cs; c_rflags := u_rflags u; c_rsp := u_rsp u; c_ss := ss |}.
Definition resumed (r : registers) (ctx : context) : user_state :=
  {| u_rip := c_rip ctx; u_regs := r; u_rsp := c_rsp ctx; u_rflags := c_rflags ctx |}.

(** The interrupt flag of the program decides.  A handler that does not return to the program ends
    the run. *)
Definition user_interrupt (st : stub) (v sp : Z) (u : user_state) (s : system)
    : outcome (user_state * system) :=
  if Z.testbit (u_rflags u) 9 then
    '(after, s) ← interrupt img register chunks c ret st v 0 (interrupted_context u) (u_regs u) sp s;
    match after with ToContext r ctx => Done (resumed r ctx, s) | _ => Stuck Halted end
  else Done (u, s).

Definition user_event_step (ev : user_event) (u : user_state) (s : system)
    : outcome (user_state * system) :=
  match ev with
  | Execute i => user_step img register chunks c ret len i u s
  | Arrives st v sp => user_interrupt st v sp u s
  end.
Fixpoint user_events (evs : list user_event) (u : user_state) (s : system)
    : outcome (user_state * system) :=
  match evs with
  | [] => Done (u, s)
  | ev :: evs => '(u, s) ← user_event_step ev u s; user_events evs u s
  end.

(** ** What each event does, seen from outside *)

(** The program's state after an instruction: the kernel does not appear in it. *)
Definition after_instruction (i : instruction) (u : user_state) : user_state :=
  let rip := u64 (u_rip u + len i) in
  {| u_rip := rip;
     u_regs := match i with
               | nop => u_regs u
               | mov_rax v => set_rax v (u_regs u)
               | syscall_instruction => set_rcx_r11 rip (u_rflags u) (u_regs u)
               end;
     u_rsp := u_rsp u; u_rflags := u_rflags u |}.
Definition after_event (ev : user_event) (u : user_state) : user_state :=
  match ev with Execute i => after_instruction i u | Arrives _ _ _ => u end.

(** The line on the console. *)
Definition event_text (ev : user_event) (u : user_state) : list Z :=
  match ev with
  | Execute syscall_instruction => str "syscall! " ++ hex (rax (u_regs u)) ++ newline
  | Execute _ => []
  | Arrives _ v _ =>
      if Z.testbit (u_rflags u) 9 && negb (v =? IRQ0 + IRQTimer)
      then str "unhandled interrupt " ++ decimal v ++ str "/" ++ hex v ++ newline else []
  end.
Definition acknowledged (ev : user_event) (u : user_state) : list (Z * Z) :=
  match ev with
  | Arrives _ v _ =>
      if Z.testbit (u_rflags u) 9 && (v =? IRQ0 + IRQTimer) then [(EndOfInterrupt, 0)] else []
  | Execute _ => []
  end.

Fixpoint events_text (evs : list user_event) (u : user_state) : list Z :=
  match evs with [] => [] | ev :: evs => event_text ev u ++ events_text evs (after_event ev u) end.
(** The controller's writes are kept latest first. *)
Fixpoint events_acknowledged (evs : list user_event) (u : user_state) : list (Z * Z) :=
  match evs with
  | [] => []
  | ev :: evs => events_acknowledged evs (after_event ev u) ++ acknowledged ev u
  end.
Definition final_state (evs : list user_event) (u : user_state) : user_state :=
  foldl (λ u ev, after_event ev u) u evs.

(** Vectors whose handler returns to the program: the timer's and those it does not know. *)
Definition returning (ev : user_event) : Prop :=
  match ev with
  | Execute (mov_rax v) => 0 ≤ v < 2 ^ 64
  | Execute _ => True
  | Arrives st v _ => clean_stub st v ∧ v ∉ [8; 13; 14; 128]
  end.
Definition words_fit (u : user_state) : Prop :=
  words_ok (reg_words (u_regs u)) ∧ 0 ≤ u_rip u < 2 ^ 64 ∧ 0 ≤ u_rsp u < 2 ^ 64 ∧ 0 ≤ u_rflags u < 2 ^ 64.

(** What a run leaves of the kernel's state. *)
Definition served (depth : Z) (text : list Z) (acks : list (Z * Z)) (s' s : system) : Prop :=
  reported depth text s' s ∧ writes (lapic_io s') = acks ++ writes (lapic_io s).

Lemma served_trans depth text1 text2 acks1 acks2 s1 s2 s3 :
  served depth text1 acks1 s2 s1 → served depth text2 acks2 s3 s2 →
  served depth (text1 ++ text2) (acks2 ++ acks1) s3 s1.
Proof.
  intros ((S1 & _ & _ & P1) & W1) ((S2 & L & E & P2) & W2). split; [|by rewrite W2, W1, app_assoc].
  split; [|split; [done|split; [done|congruence]]].
  rewrite S2, S1. unfold on_wire. by rewrite bind_app, app_assoc.
Qed.

Lemma served_refl depth s : sys_log s = 0 → env_ready depth (mach s) → served depth [] [] s s.
Proof. intros Hl He. split; [|done]. split; [by rewrite app_nil_r|done]. Qed.

Hypothesis selectors : 0 ≤ cs < 2 ^ 64 ∧ 0 ≤ ss < 2 ^ 64.

Lemma interrupted_interruptible u :
  words_fit u → interruptible 0 (u_regs u) (interrupted_context u).
Proof.
  intros (Hr & Hi & Hs & Hf). split; [lia|]. split; [done|].
  destruct selectors. by repeat (apply Forall_cons; split; [done|]).
Qed.

Lemma resumed_interrupted u : resumed (u_regs u) (interrupted_context u) = u.
Proof. by destruct u. Qed.

Lemma words_fit_after ev u : returning ev → words_fit u → words_fit (after_event ev u).
Proof.
  intros Hev (Hr & Hi & Hs & Hf). destruct ev as [i|st v sp]; [|done].
  assert (0 ≤ u64 (u_rip u + len i) < 2 ^ 64) as Hrip by (apply uw_range; lia).
  split; [|split; [exact Hrip|done]].
  destruct i; cbn [after_event after_instruction u_regs]; [done|by apply words_ok_rax|].
  by apply words_ok_rcx_r11.
Qed.

(** ** One event *)

Lemma instruction_spec depth i u s :
  returning (Execute i) → words_fit u → sys_log s = 0 → env_ready depth (mach s) →
  ∃ s', user_step img register chunks c ret len i u s = Done (after_instruction i u, s') ∧
    served depth (event_text (Execute i) u) [] s' s.
Proof.
  intros Hi Hu Hl He. destruct i; [by exists s; split; [|apply served_refl]..|].
  pose proof (words_fit_after (Execute syscall_instruction) u Hi Hu) as (Hr & _).
  cbn [after_event after_instruction u_regs] in Hr. cbn [user_step].
  set (r := set_rcx_r11 (u64 (u_rip u + len syscall_instruction)) (u_rflags u) (u_regs u)) in *.
  destruct (He) as (_ & j & cpu & Hc & _).
  destruct (syscall_spec img register chunks c ret depth r (u_rsp u) s j cpu Hr Hc Hl He)
    as (m & cpu' & s' & E & (con & -> & L & C & S) & _).
  rewrite E. eexists. split; [reflexivity|]. split; [|done]. split; [exact S|]. by split.
Qed.

(** Interrupts off while the handler runs, the program's flag when it is left. *)
Lemma iretq_served depth text acks r ctx m s s' :
  served depth text acks s' (entered m s) →
  served depth text acks (iretq (r, ctx) s').2 s.
Proof.
  intros ((S & L & E & P) & W). split; [|exact W]. split; [exact S|]. split; [exact L|].
  split; [by apply cpu_ready_put_IF|exact P].
Qed.

Lemma arrival_spec depth st v sp u s :
  returning (Arrives st v sp) → words_fit u → sys_log s = 0 → env_ready depth (mach s) →
  ∃ s', user_interrupt st v sp u s = Done (u, s') ∧
    served depth (event_text (Arrives st v sp) u) (acknowledged (Arrives st v sp) u) s' s.
Proof.
  intros [Hst Hv] Hu Hl He. unfold user_interrupt. cbn [event_text acknowledged].
  destruct (Z.testbit (u_rflags u) 9); [|by exists s; split; [|apply served_refl]]. cbn [andb].
  pose proof (interrupted_interruptible u Hu) as Hi.
  destruct (interrupt_spec img register chunks c ret st v 0 (interrupted_context u) (u_regs u) sp s Hst Hi)
    as (m & _ & H).
  assert (He' : env_ready depth (mach (entered m s))) by (by apply cpu_ready_put_IF).
  destruct (Z.eqb_spec v (IRQ0 + IRQTimer)) as [->|Ht]; cbn [negb].
  - rewrite (H [Acknowledge] None _ eq_refl eq_refl) by done. cbn [mbind outcome_bind iretq].
    rewrite resumed_interrupted. eexists. split; [reflexivity|].
    apply (iretq_served depth [] _ (u_regs u) (interrupted_context u) m).
    split; [|done]. split; [by rewrite app_nil_r|done].
  - destruct (log_wrote depth (str "unhandled interrupt %d/%llx" ++ newline) [v; v]
      (str "unhandled interrupt " ++ decimal (s32 v) ++ str "/" ++ hex v ++ newline) (entered m s)
      eq_refl Hl He') as (s' & E & W).
    rewrite sw_small in W by (destruct Hst as (_ & _ & ?); lia).
    rewrite (H [LogUnhandled v] None s').
    + cbn [mbind outcome_bind iretq]. rewrite resumed_interrupted. eexists. split; [reflexivity|].
      apply (iretq_served depth _ [] (u_regs u) (interrupted_context u) m).
      destruct W as (con & -> & L & C & S). split; [|done]. split; [exact S|]. by split.
    + unfold TrapHandler. cbn [interruptNumber frame_of].
      rewrite !not_elem_of_cons in Hv. destruct Hv as (H1 & H2 & H3 & H4 & _).
      unfold SyscallInterrupt, IRQ0, IRQTimer, DoubleFault, GeneralProtectionFault, PageFault in *. zdecide.
    + cbn [run_effects run_effect]. by rewrite E.
    + intros _. by destruct W as (con & -> & _).
Qed.

(** ** A whole program *)

Lemma user_events_spec depth evs u s :
  Forall returning evs → words_fit u → sys_log s = 0 → env_ready depth (mach s) →
  ∃ s', user_events evs u s = Done (final_state evs u, s') ∧
    served depth (events_text evs u) (events_acknowledged evs u) s' s.
Proof.
  intros Hevs. revert u s; induction Hevs as [|ev evs Hev _ IH]; intros u s Hu Hl He.
  { exists s. split; [done|by apply served_refl]. }
  assert (∃ s1, user_event_step ev u s = Done (after_event ev u, s1) ∧
    served depth (event_text ev u) (acknowledged ev u) s1 s) as (s1 & E1 & V1).
  { destruct ev as [i|st v sp]; [by apply instruction_spec|by apply arrival_spec]. }
  pose proof V1 as ((_ & L1 & R1 & _) & _).
  destruct (IH (after_event ev u) s1 (words_fit_after ev u Hev Hu) L1 R1) as (s2 & E2 & V2).
  exists s2. cbn [user_events events_text events_acknowledged]. rewrite E1. cbn [mbind outcome_bind].
  split; [exact E2|]. by eapply served_trans.
Qed.

(** *** Against the program alone *)

Lemma user_run_events program u s :
  user_run img register chunks c ret len program u s = user_events (Execute <$> program) u s.
Proof.
  revert u s; induction program as [|i program IH]; intros u s; [done|].
  cbn [user_run fmap list_fmap user_events user_event_step].
  destruct (user_step _ _ _ _ _ _ i u s) as [[u1 s1]|]; [apply IH|done].
Qed.

(** Only the timer interrupts. *)
Definition timed (ev : user_event) : Prop :=
  match ev with
  | Execute (mov_rax v) => 0 ≤ v < 2 ^ 64
  | Execute _ => True
  | Arrives st v _ => st = IRQ_Stub ∧ v = IRQ0 + IRQTimer
  end.
Lemma timed_returning ev : timed ev → returning ev.
Proof.
  destruct ev as [i|st v sp]; [done|]. intros [-> ->]. split.
  - split; [done|]. split; [|done]. rewrite !not_elem_of_cons. repeat split; try done. apply not_elem_of_nil.
  - rewrite !not_elem_of_cons. repeat split; try done. apply not_elem_of_nil.
Qed.

Lemma program_of_timed evs : Forall timed evs → Forall timed (Execute <$> program_of evs).
Proof. induction 1 as [|[i|st v sp] evs H _ IH]; [done|by apply Forall_cons|done]. Qed.

Lemma program_of_length evs : (length (program_of evs) ≤ length evs)%nat.
Proof. induction evs as [|[i|st v sp] evs IH]; cbn; unfold program_of in *; lia. Qed.

(** The flags stay as they are, so either every interrupt is delivered or none. *)
Lemma timed_view evs u :
  Forall timed evs →
  let alone := Execute <$> program_of evs in
  final_state alone u = final_state evs u ∧ events_text alone u = events_text evs u ∧
  events_acknowledged alone u = [] ∧
  events_acknowledged evs u = replicate
    (if Z.testbit (u_rflags u) 9 then length evs - length (program_of evs) else 0)%nat (EndOfInterrupt, 0).
Proof.
  intros H; revert u; induction H as [|ev evs Hev H IH]; intros u; cbn zeta.
  { by destruct (Z.testbit _ _). }
  destruct ev as [i|st v sp].
  - destruct (IH (after_instruction i u)) as (E1 & E2 & E3 & E4).
    change (program_of (Execute i :: evs)) with (i :: program_of evs).
    rewrite fmap_cons. cbn [final_state foldl events_text events_acknowledged length after_event] in *.
    split; [exact E1|]. split; [by rewrite E2|]. split; [by rewrite E3|].
    rewrite E4, app_nil_r. cbn [after_instruction u_rflags]. by destruct i.
  - destruct (IH u) as (E1 & E2 & E3 & E4). destruct Hev as [-> ->].
    change (program_of (Arrives _ _ _ :: evs)) with (program_of evs).
    cbn [final_state foldl events_text events_acknowledged length after_event event_text acknowledged] in *.
    rewrite Z.eqb_refl, andb_false_r, andb_true_r. split; [exact E1|]. split; [exact E2|]. split; [exact E3|].
    rewrite E4. destruct (Z.testbit (u_rflags u) 9); [|done].
    rewrite Nat.sub_succ_l by apply program_of_length. by rewrite <- Nat.add_1_r, replicate_add.
Qed.

Lemma ticks_spec depth evs u s :
  Forall timed evs → words_fit u → sys_log s = 0 → env_ready depth (mach s) →
  ∃ u' s1 s2,
    user_run img register chunks c ret len (program_of evs) u s = Done (u', s1) ∧
    user_events evs u s = Done (u', s2) ∧
    sys_serial s2 = sys_serial s1 ∧ ProcessTable (kern s2) = ProcessTable (kern s1) ∧
    writes (lapic_io s2) =
      replicate (if Z.testbit (u_rflags u) 9 then length evs - length (program_of evs) else 0)%nat
        (EndOfInterrupt, 0) ++ writes (lapic_io s1).
Proof.
  intros Hevs Hu Hl He. rewrite user_run_events.
  destruct (timed_view evs u Hevs) as (E1 & E2 & E3 & E4).
  destruct (user_events_spec depth (Execute <$> program_of evs) u s) as (s1 & R1 & (S1 & _ & _ & P1) & W1);
    [by eapply Forall_impl; [apply program_of_timed|apply timed_returning]|done..|].
  destruct (user_events_spec depth evs u s) as (s2 & R2 & (S2 & _ & _ & P2) & W2);
    [by eapply Forall_impl; [|apply timed_returning]|done..|].
  exists (final_state evs u), s1, s2. rewrite R1, E1. split; [done|]. split; [done|].
  split; [by rewrite S2, S1, E2|]. split; [congruence|]. by rewrite W2, W1, E3, E4.
Qed.

(** C18. A program runs the same with and without interrupts.  Whatever instructions it has and wherever
    timer interrupts arrive among them, it ends with the registers, the instruction pointer, the
    stack pointer and the flags it would have alone, the kernel has printed the same lines and has
    the same process table; it has only acknowledged every interrupt that was delivered. *)
Theorem ticks_unnoticed depth evs u s :
  Forall timed evs → words_fit u → sys_log s = 0 → env_ready depth (mach s) →
  ∃ u' s1 s2,
    user_run img register chunks c ret len (program_of evs) u s = Done (u', s1) ∧
    user_events evs u s = Done (u', s2) ∧
    sys_serial s2 = sys_serial s1 ∧ ProcessTable (kern s2) = ProcessTable (kern s1) ∧
    writes (lapic_io s2) =
      replicate (if Z.testbit (u_rflags u) 9 then length evs - length (program_of evs) else 0)%nat
        (EndOfInterrupt, 0) ++ writes (lapic_io s1).
Proof. apply ticks_spec. Qed.

(** C19. Interrupts the kernel does not know, and the timer's, between the instructions of a program: the
    program goes through the states it would go through alone; the console shows, in the order of
    the events, a line for each system call and one for each unknown interrupt delivered; and the
    controller got one acknowledgement for each timer interrupt, none for an unknown one. *)
Theorem interrupted_program depth evs u s :
  Forall returning evs → words_fit u → sys_log s = 0 → env_ready depth (mach s) →
  ∃ s', user_events evs u s = Done (final_state evs u, s') ∧
    reported depth (events_text evs u) s' s ∧
    writes (lapic_io s') = events_acknowledged evs u ++ writes (lapic_io s).
Proof.
  intros Hevs Hu Hl He. destruct (user_events_spec depth evs u s Hevs Hu Hl He) as (s' & E & R & W).
  by exists s'.
Qed.
End ticks.

(** ** A concrete run: the first program with three timer interrupts, one of them right before a system
    call, and with an interrupt of the keyboard's line. *)

Definition tick : user_event := Arrives IRQ_Stub 32 0x9000.
Definition ticking_program : list user_event :=
  [tick; Execute nop; Execute (mov_rax 1); tick; Execute syscall_instruction; Execute nop;
   Execute (mov_rax 2); tick; Execute syscall_instruction; Execute nop].
Definition user_start : user_state :=
  {| u_rip := 0x1000; u_regs := zero_registers; u_rsp := 0; u_rflags := 0x200 |}.

Lemma user_start_fits : words_fit user_start.
Proof. split; [words_tac|]. simpl. lia. Qed.

Lemma ticking_timed : Forall timed ticking_program.
Proof. repeat (apply Forall_cons; split; [simpl; first [done|lia]|]). done. Qed.

Lemma ticks_unnoticed_witness :
  ∃ u' s1 s2,
    user_run user_image (λ _ _, 0) 1 handler_task 0x22 (λ _, 4) MyFirstUserspace user_start user_system =
      Done (u', s1) ∧
    user_events user_image (λ _ _, 0) 1 handler_task 0x22 (λ _, 4) 0x2b 0x33 ticking_program user_start
      user_system = Done (u', s2) ∧
    sys_serial s2 = sys_serial s1 ∧
    writes (lapic_io s2) = replicate 3 (EndOfInterrupt, 0) ++ writes (lapic_io s1).
Proof.
  destruct (ticks_unnoticed user_image (λ _ _, 0) 1 handler_task 0x22 (λ _, 4) 0x2b 0x33 ltac:(lia)
    0 ticking_program user_start user_system) as (u' & s1 & s2 & E1 & E2 & S & _ & W).
  - exact ticking_timed.
  - exact user_start_fits.
  - done.
  - exact user_ready.
  - exists u', s1, s2. split; [exact E1|]. split; [exact E2|]. split; [exact S|exact W].
Defined.

Lemma interrupted_program_witness :
  ∃ u' s', user_events user_image (λ _ _, 0) 1 handler_task 0x22 (λ _, 4) 0x2b 0x33
      [Execute (mov_rax 7); Arrives IRQ_Stub 33 0x9000; tick; Execute syscall_instruction] user_start
      user_system = Done (u', s') ∧ u_rip u' = 0x1008 ∧
    sys_serial s' = on_wire (str "unhandled interrupt 33/21" ++ newline ++ str "syscall! 7" ++ newline) ∧
    writes (lapic_io s') = [(EndOfInterrupt, 0)].
Proof.
  destruct (interrupted_program user_image (λ _ _, 0) 1 handler_task 0x22 (λ _, 4) 0x2b 0x33 ltac:(lia)
    0 [Execute (mov_rax 7); Arrives IRQ_Stub 33 0x9000; tick; Execute syscall_instruction] user_start
    user_system) as (s' & E & (S & _) & W).
  - apply Forall_cons; split; [simpl; lia|]. apply Forall_cons; split.
    { split; [split; [done|split; [|done]]|]; rewrite !not_elem_of_cons;
        repeat split; try done; apply not_elem_of_nil. }
    apply Forall_cons; split; [by apply timed_returning|]. by apply Forall_cons.
  - exact user_start_fits.
  - done.
  - exact user_ready.
  - eexists _, s'. split; [exact E|]. split; [done|]. split; [|exact W].
    rewrite S. by vm_compute.
Defined.
