(* ===== verification/KernelMain.v ===== *)
(** [KernelMain.cpp], [schedule] of [ProcessManagement.cpp]: the whole kernel, from the boot loader's
    entry to the first process.

    The boot loader's answers are [boot_info], what the linker decides is [image], the devices are
    the parameters of [PCI] and [Devices].  [KernelMain] ends where the scheduler hands over to a
    process. *)

From Stdlib Require Import Ascii String.
From S2P Require Import Prelude Mem GDT Cpu Spinlock PhysMem PageAlloc CpuReady PhysPages Paging PageTables VirtMem MachineSpace PrintfCore PrintfFloat PrintfFormat PCI Traps Boot Processor Process Scheduler Devices System Display Interrupts Ticks.

(** ** What the boot loader answers *)

(** What the boot loader answers; [None] is a null response. *)
Record boot_info := {
  bi_memmap : option (list limine_memmap_entry);
  bi_hhdm : option Z;
  bi_kernel_address : option (Z * Z);                  (* physical and virtual base *)
  bi_smp : option (list limine_smp_info * Z);          (* processors, the booting one *)
}.

Definition answered {A} (response : option A) : bool :=
  match response with Some _ => true | None => false end.

(** ** The dump of a page table

    Variadic arguments narrower than the 64 bits that [%llx] reads are extended by sign; the C++
    leaves their upper half open. *)

Fixpoint dumpPageTable (fuel : nat) (root level : Z) (s : system) : outcome system :=
  match fuel with
  | O => Stuck OutOfFuel
  | S fuel =>
      s ← log (str "level %d" ++ newline) [level] (indent (level - 1) s);
      for_each (Z.of_nat <$> seq 0 512) (λ i s,
        let e := load64 (ram (mach s)) (entry_ptr root i) in
        if get isPresent e =? 0 then Done s
        else
          s ← log (str "%d to %llx" ++ newline) [i; physicalAddress_shl e] (indent level s);
          if level <? 4 then
            dumpPageTable fuel (u64 (physicalAddress_shl e + HigherHalfDirectMapOffset (mach s)))
              (level + 1) s
          else Done s) s
  end.

Section kernel_main.
Context (img : image) (config : Z → Z) (register : lapic_state → Z → Z).
(** Bounds: chunks of the allocator, pages of the mapped ranges, polls of the interrupt
    controller, nesting of bridges, turns of the scheduler. *)
Context (chunks pages polls bridges turns : nat).

(** What the scan does for each function. *)
Definition report_device (dev vid did : Z) (s : system) : outcome system :=
  s ← log (str "Addr %llx, Vendor %llx, Device %llx" ++ newline) [dev; vid; did] s;
  if (vid =? 0x1234) && (did =? 0x1111) then
    s ← log (str "That's a qemu!" ++ newline) [] s;
    let off := HigherHalfDirectMapOffset (mach s) in
    let fb := framebufferAddress config off dev in
    let m := ram (mach s) in
    let xres := display_read config off dev XRes m in
    let yres := display_read config off dev YRes m in
    let bpp := display_read config off dev BPP m in
    let s := set_mach (set_ram (fill_framebuffer fb xres yres m) (mach s)) s in
    s ← log (str "The framebuffer is at 0x%llx" ++ newline) [fb] s;
    log (str "The resolution is %d x %d (bpp %d)" ++ newline) [xres; yres; bpp] s
  else Done s.
Definition scan_devices (s : system) : outcome system :=
  r ← scan config (λ dev vid did st, s ← st; report_device dev vid did s) (-1) bridges (Done s); r.

(** ** The scheduler *)

Definition take_table (s : system) : outcome system :=
  let s := set_sys_env (put_IF true (env (mach s))) s in
  k ← acquire_table (kern s);
  Done (set_kern k s).

(** The processor goes to the process in slot [p]. *)
Definition hand_over (c : task) (ret : Z) (p : nat) (s : system) : outcome ((Z * task) * system) :=
  s ← log (str "found a process to run! :)" ++ newline) [] s;
  '(cr3, k) ← select_process (at_ProcessTable img) p (kern s);
  s ← log (str "sweeetch! :)" ++ newline) [] (set_cr3 cr3 (set_kern k s));
  '(next, k) ← switch_to c ret p (kern s);
  Done (next, set_kern k s).

(** One way of [schedule]'s outer loop: with [sti] and the lock taken, the loop over the table
    hands over to a process ([Some]) or ends. *)
Definition schedule_turn (c : task) (ret : Z) (s : system) : outcome (option (Z * task) * system) :=
  s ← take_table s;
  p ← find_runnable turns 0 (kern s);
  match p with
  | Some p => '(next, s) ← hand_over c ret p s; Done (Some next, s)
  | None => k ← release_table (kern s); Done (None, set_kern k s)
  end.
Fixpoint schedule_loop (fuel : nat) (c : task) (ret : Z) (s : system) : outcome ((Z * task) * system) :=
  match fuel with
  | O => Stuck OutOfFuel
  | S fuel =>
      '(next, s) ← schedule_turn c ret s;
      match next with Some next => Done (next, s) | None => schedule_loop fuel c ret s end
  end.
Definition forget_process (s : system) : outcome system :=
  with_this (env (mach s)) (λ i cpu,
    Done (set_sys_env (put_cpu i (set_current 0 cpu) (env (mach s))) s)).
Definition schedule (c : task) (ret : Z) (s : system) : outcome ((Z * task) * system) :=
  s ← forget_process s;
  schedule_loop turns c ret s.

(** ** From the boot loader to the scheduler *)

(** [SharedMain] up to the call of [schedule]. *)
Definition prepare_main (s : system) : outcome system :=
  s ← log (str "Booting processor %d!" ++ newline) [lapicID (this_hw (env (mach s)))] s;
  '(r, m) ← prepare_processor chunks (CPUs_page s) (at_SyscallHandler img) (segments s) (mach s);
  let s := set_idt (IDT s) (loadIDTTable (at_IDTEntries img)) (set_segments r (set_mach m s)) in
  e ← popCLI (env (mach s));
  let s := set_sys_env e s in
  s ← scan_devices s;
  log (str "Processor %d is now going to schedule processes!" ++ newline)
    [lapicID (this_hw (env (mach s)))] s.
(** [c] and [ret]: the registers and the return address when [schedule] pauses. *)
Definition SharedMain (c : task) (ret : Z) (s : system) : outcome ((Z * task) * system) :=
  s ← prepare_main s;
  schedule c ret s.

Definition disableAllLegacyInterrupts (s : system) : system :=
  outb (0xA0 + 1) 0xFF (outb (0x20 + 1) 0xFF s).

Definition with_msr (f : msrs → msrs) (s : system) : system :=
  set_sys_env (set_msrs (f (msr (this_hw (env (mach s))))) (env (mach s))) s.
Definition setAPICBase_default (s : system) : system :=
  with_msr (λ m, setAPICBase m APICBaseDefault) s.
Definition setLAPICAddress (s : system) : system :=
  set_lapic (toVirtual (mach s) (getAPICBase (msr (this_hw (env (mach s)))))) (lapic_io s) s.

(** Where [KernelMain] lets the other processors start. *)
Definition other_main (s : system) : outcome system :=
  let s := set_cr3 (toPhysical (mach s) (KernelPageTable (kern s))) s in
  let s := setAPICBase_default s in
  io ← initLAPIC register polls (lapic_io s);
  Done (set_lapic (lapic s) io s).
Definition OtherProcessorMain (c : task) (ret : Z) (s : system) : outcome ((Z * task) * system) :=
  s ← other_main s;
  SharedMain c ret s.

(** [KernelMain] up to the call of [initLAPIC]. *)
Definition early_main (info : boot_info) (s : system) : outcome system :=
  _ ← checkThatLimineGaveUsEverythingWeNeed (bi_memmap info) (answered (bi_hhdm info))
        (answered (bi_kernel_address info)) (answered (bi_smp info));
  match bi_memmap info, bi_hhdm info, bi_kernel_address info, bi_smp info with
  | Some memmap, Some offset, Some (physical_base, virtual_base), Some (infos, bsp) =>
      '(max, m) ← initByAddingUsablePagesToMemoryManagement chunks offset memmap (mach s);
      '(root, cr3, m) ← @initializeVirtualMemory machine (phys_pages chunks) pages max
        (KernelStart img) (KernelEnd img) physical_base virtual_base m;
      let s := set_cr3 cr3 (set_root root (set_mach m s)) in
      let s := set_console (initLogLock (sys_console s)) s in
      let s := setLAPICAddress (setAPICBase_default s) in
      let s := set_idt (setupIDTTable (at_isr img) (at_irq img) (IDT s)) (idtr s) s in
      '(page, infos, m) ← initializeProcessors chunks infos bsp (at_OtherProcessorMain img) (mach s);
      Done (disableAllLegacyInterrupts (set_smp page infos (set_mach m s)))
  | _, _, _, _ => Stuck NullDeref
  end.

(** And up to the call of [SharedMain]. *)
Definition first_main (info : boot_info) (s : system) : outcome system :=
  s ← early_main info s;
  io ← initLAPIC register polls (lapic_io s);
  let s := set_lapic (lapic s) io s in
  k ← createFirstProcess chunks (at_TrapRet img) (at_ProcessEntryPoint img)
        (at_MyFirstUserspace img) (MyFirstUserspace_size img) (kern s);
  Done (set_kern k s).
Definition KernelMain (c : task) (ret : Z) (info : boot_info) (s : system)
    : outcome ((Z * task) * system) :=
  s ← first_main info s;
  SharedMain c ret s.
End kernel_main.

(** ** From the scheduler to user mode *)

(** [ProcessEntryPoint], entered as task [t]: where it returns to and with which stack pointer. *)
Definition ProcessEntryPoint (t : task) (s : system) : outcome (Z * Z * system) :=
  k ← ProcessEntryPoint_body (kern s);
  Done (load64 (ram (mach s)) (t_rsp t), t_rsp t + 8, set_kern k s).

(** What [TrapRet] and its [iretq] make of the frame at [frame]. *)
Definition return_to_user (frame : Z) (s : system) : user_state :=
  let '(r, ctx) := TrapRet frame (ram (mach s)) in
  {| u_rip := c_rip ctx; u_regs := r; u_rsp := c_rsp ctx; u_rflags := c_rflags ctx |}.

(** ** The dump only writes to the console *)

Lemma dumpPageTable_spec depth fuel root level s s0 :
  logged depth s s0 → level ≤ 4 → 4 - level < Z.of_nat fuel →
  ∃ s', dumpPageTable fuel root level s = Done s' ∧ logged depth s' s0.
Proof.
  revert root level s; induction fuel as [|fuel IH]; intros root level s Hs H4 Hf; [lia|].
  cbn [dumpPageTable].
  destruct (log_logged depth (str "level %d" ++ newline) [level] (level - 1) s s0 ltac:(by eexists) Hs)
    as (s1 & -> & H1). apply for_each_logged; [|exact H1]. intros i s2 H2. cbv zeta.
  destruct (_ =? 0); [by exists s2|]. set (e := load64 _ _).
  destruct (log_logged depth (str "%d to %llx" ++ newline) [i; physicalAddress_shl e] level s2 s0 ltac:(by eexists) H2)
    as (s3 & -> & H3). cbn [mbind outcome_bind].
  destruct (Z.ltb_spec level 4); [|by exists s3]. apply IH; [exact H3|lia|lia].
Qed.

(** [dumpPageTable] comes to an end for every memory, even when the tables refer to each other in
    circles, and changes nothing but the console and the lock counts of this processor. *)
Theorem dumpPageTable_only_logs depth root s :
  sys_log s = 0 → env_ready depth (mach s) →
  ∃ c, dumpPageTable 4 root 1 s = Done (set_console c s) ∧ logLock c = 0 ∧
    cpu_ready depth (con_env c).
Proof.
  intros Hl He. destruct (dumpPageTable_spec depth 4 root 1 s s) as (s' & E & c & -> & H); [|lia..|by exists c].
  by apply logged_refl.
Qed.

(** ** Lemmas: a system with a process ready *)

Section proofs.
Context (img : image) (config : Z → Z) (register : lapic_state → Z → Z).
Context (chunks pages polls turns : nat).
#[local] Hint Extern 0 (PageAllocator machine) => exact (phys_pages chunks) : typeclass_instances.
#[local] Hint Extern 0 (PageAllocatorLaws machine) => exact (phys_pages_laws chunks) : typeclass_instances.
(** The free memory at boot, the kernel's mapping, the first program, and what else has to stay as
    it is in the memory [m0]. *)
Context (mine watched : Z → Prop) (kmap : Z → option Z) (program : Z → Z) (off : Z) (m0 : mem).

Local Abbreviation first_process :=
  (first_process chunks (at_TrapRet img) (at_ProcessEntryPoint img) program
     (MyFirstUserspace_size img) mine kmap).

(** The first process is in the first slot and ready, the locks are free, and this processor's
    record is in order. *)
Record live (depth lock : Z) (p : ProcessInfo) (s : system) : Prop := {
  lv_log : sys_log s = 0;
  lv_env : env_ready depth (mach s);
  lv_lock : ProcessTableSpinlock (kern s) = lock;
  lv_slot : ProcessTable (kern s) !! 0%nat = Some p;
  lv_process : first_process (mach s) p;
  lv_watched : agree watched (ram (mach s)) m0;
  lv_offset : HigherHalfDirectMapOffset (mach s) = off;
}.

Lemma live_env depth lock depth' e p s :
  live depth lock p s → cpu_ready depth' e → live depth' lock p (set_sys_env e s).
Proof.
  intros [L1 L2 L3 L4 L5 L6 L7] He. split; try done.
  by apply (first_process_set_env chunks depth').
Qed.

Lemma live_console depth lock c p s :
  live depth lock p s → logLock c = 0 → cpu_ready depth (con_env c) → live depth lock p (set_console c s).
Proof.
  intros [L1 L2 L3 L4 L5 L6 L7] Hl He. split; try done.
  by apply (first_process_set_env chunks depth).
Qed.

Lemma live_log depth lock format va p s :
  is_Some (simple_text format va) → live depth lock p s →
  ∃ s', log format va s = Done s' ∧ live depth lock p s' ∧ ram (mach s') = ram (mach s).
Proof.
  intros [cs Hf] L. destruct (log_spec depth format va cs s Hf (lv_log _ _ _ _ L) (lv_env _ _ _ _ L))
    as (c & E & Hl & He & _). exists (set_console c s). split; [done|]. split; [by apply live_console|done].
Qed.

Lemma live_table lock' e depth depth' lock p s :
  live depth lock p s → cpu_ready depth' e →
  live depth' lock' p (set_kern (set_lock lock' (set_hw (set_env e (mach s)) (kern s))) s).
Proof.
  intros [L1 L2 L3 L4 L5 L6 L7] He. split; try done.
  by apply (first_process_set_env chunks depth').
Qed.

Lemma live_select st v e depth lock p s :
  live depth lock p s → cpu_ready depth e →
  live depth lock (set_state st p)
    (set_cr3 v (set_kern (set_slot 0 (set_state st p) (set_hw (set_env e (mach s)) (kern s))) s)).
Proof.
  intros [L1 L2 L3 L4 L5 L6 L7] He. split; try done.
  - apply list_lookup_insert_eq. by eapply lookup_lt_Some.
  - apply first_process_state. by apply (first_process_set_env chunks depth).
Qed.

Lemma live_ram depth lock m p s :
  live depth lock p s → agree mine m (ram (mach s)) → agree watched m (ram (mach s)) →
  live depth lock p (set_mach (set_ram m (mach s)) s).
Proof.
  intros [L1 L2 L3 L4 L5 L6 L7] Hm Hw. split; try done.
  - by apply first_process_set_ram.
  - eapply agree_trans; [exact Hw|done].
Qed.

(** ** The scan *)

(** A display whose framebuffer lies apart from what matters and whose registers stay as they
    are. *)
Definition is_display (dev : Z) : Prop :=
  rd config 2 dev VendorID = 0x1234 ∧ rd config 2 dev DeviceID = 0x1111.
Record display_apart (dev : Z) : Prop := {
  da_size : display_read config off dev XRes m0 * display_read config off dev YRes m0 ≤ 2 ^ 31;
  da_range : 0 ≤ framebufferAddress config off dev ∧
    framebufferAddress config off dev +
      4 * (display_read config off dev XRes m0 * display_read config off dev YRes m0) ≤ 2 ^ 64;
  da_apart x : range (framebufferAddress config off dev)
      (4 * (display_read config off dev XRes m0 * display_read config off dev YRes m0)) x →
    ¬ mine x ∧ ¬ watched x;
  da_registers x : range (addrOf config off dev XRes) 2 x ∨ range (addrOf config off dev YRes) 2 x → watched x;
}.

Lemma report_device_live depth lock dev p s :
  (is_display dev → display_apart dev) → live depth lock p s →
  ∃ s', report_device config dev (rd config 2 dev VendorID) (rd config 2 dev DeviceID) s = Done s' ∧
    live depth lock p s'.
Proof.
  intros Hd L. unfold report_device.
  destruct (live_log depth lock (str "Addr %llx, Vendor %llx, Device %llx" ++ newline)
    [dev; rd config 2 dev VendorID; rd config 2 dev DeviceID] p s ltac:(by eexists) L)
    as (s1 & E1 & L1 & M1). rewrite E1. cbn [mbind outcome_bind].
  destruct (_ && _) eqn:Ev; [|by exists s1].
  apply andb_prop in Ev as [Hv%Z.eqb_eq Hi%Z.eqb_eq].
  destruct (Hd (conj Hv Hi)) as [D1 [D2 D2'] D3 D4].
  destruct (live_log depth lock (str "That's a qemu!" ++ newline) [] p s1
    ltac:(by eexists) L1)
    as (s2 & E2 & L2 & M2). rewrite E2. cbn [mbind outcome_bind].
  rewrite (lv_offset _ _ _ _ L2).
  assert (Hread : ∀ i, i = XRes ∨ i = YRes → display_read config off dev i (ram (mach s2)) = display_read config off dev i m0).
  { intros i Hi'. apply (load_agree 2 _ _ _ _ (lv_watched _ _ _ _ L2)). intros x Hx. apply D4.
    destruct Hi' as [->| ->]; [by left|by right]. }
  rewrite !Hread by auto.
  set (xres := display_read config off dev XRes m0) in *. set (yres := display_read config off dev YRes m0) in *.
  set (fb := framebufferAddress config off dev) in *.
  pose proof (load_range 2 m0 (addrOf config off dev XRes)) as R1.
  pose proof (load_range 2 m0 (addrOf config off dev YRes)) as R2.
  destruct (fill_framebuffer_painted fb xres yres (ram (mach s2)) D2 D2' D1 (proj1 R1) (proj1 R2)) as [_ HA].
  pose proof (live_ram depth lock (fill_framebuffer fb xres yres (ram (mach s2))) p s2 L2) as L3.
  set (s3 := set_mach _ s2) in *.
  destruct (live_log depth lock (str "The framebuffer is at 0x%llx" ++ newline) [fb] p s3
    ltac:(by eexists)) as (s4 & E4 & L4 & _).
  { apply L3; eapply agree_weaken; try exact HA; intros x Hx Hr; by destruct (D3 x Hr). }
  rewrite E4. cbn [mbind outcome_bind].
  destruct (live_log depth lock (str "The resolution is %d x %d (bpp %d)" ++ newline)
    [xres; yres; display_read config off dev BPP (ram (mach s2))] p s4 ltac:(by eexists) L4)
    as (s5 & E5 & L5 & _). by exists s5.
Qed.

Lemma scan_devices_live depth lock p s :
  bridges_ascend config → (∀ dev, is_display dev → display_apart dev) → live depth lock p s →
  ∃ s', scan_devices config 256 s = Done s' ∧ live depth lock p s'.
Proof.
  intros Hb Hd L. unfold scan_devices.
  set (cb := λ dev vid did st, s ← st; report_device config dev vid did s).
  destruct (scan_done config cb (-1) (Done s) Hb) as [st E]. rewrite E. cbn [mbind outcome_bind].
  assert (∃ s', st = Done s' ∧ live depth lock p s') as (s' & -> & L'); [|by exists s'].
  eapply (scan_keeps config cb (-1) (λ st, ∃ s', st = Done s' ∧ live depth lock p s'));
    [|by exists s|exact E].
  intros bus slot func st1 _ _ _ _ (s1 & -> & L1). unfold scanHit, cb. cbn [mbind outcome_bind].
  destruct (report_device_live depth lock (box bus slot func) p s1) as (s2 & -> & L2); [auto|done|].
  by exists s2.
Qed.

(** ** The scheduler *)

Lemma live_take p s : live 0 0 p s → ∃ s', take_table s = Done s' ∧ live 0 1 p s'.
Proof.
  intros L. unfold take_table.
  assert (He : cpu_ready 0 (put_IF true (env (mach s)))) by (by apply cpu_ready_put_IF, (lv_env _ _ _ _ L)).
  pose proof (live_env _ _ _ _ _ _ L He) as L1. set (s1 := set_sys_env _ s) in *.
  destruct (acquire_table_spec 0 (kern s1) (lv_lock _ _ _ _ L1) He) as (e & E & He').
  rewrite E. eexists. split; [reflexivity|]. exact (live_table 1 e _ _ _ _ _ L1 He').
Qed.

Lemma live_forget lock p s :
  live 0 lock p s → ∃ s', forget_process s = Done s' ∧ live 0 lock p s'.
Proof.
  intros L. destruct (lv_env _ _ _ _ L) as (_ & i & cpu & Hc & _).
  unfold forget_process. rewrite (with_this_of _ i cpu) by done. eexists. split; [reflexivity|].
  apply (live_env 0); [done|]. apply (cpu_ready_put 0 _ _ cpu); [apply (lv_env _ _ _ _ L)|done..].
Qed.

Lemma hand_over_spec p c ret s :
  live 0 1 p s → words_ok (task_words ret c) →
  (∀ x, range (t_rsp c - sizeof_KernelContext) sizeof_KernelContext x → ¬ mine x) →
  ∃ s', hand_over img c ret 0 s = Done ((at_ProcessEntryPoint img, entry_task (kernelTask p)), s') ∧
    ProcessTable (kern s') !! 0%nat = Some (set_state Running p) ∧
    cr3 s' = u64 (pageTable p - off) ∧ first_process (mach s') p ∧
    HigherHalfDirectMapOffset (mach s') = off ∧ env_ready 0 (mach s') ∧ sys_log s' = 0 ∧
    ∃ i cpu, cpu_of (env (mach s')) i cpu ∧ currentProcess cpu = at_ProcessTable img.
Proof.
  intros L3 Hw Hstack. unfold hand_over.
  destruct (live_log 0 1 (str "found a process to run! :)" ++ newline) [] p s
    ltac:(by eexists) L3)
    as (s4 & E4 & L4 & _). rewrite E4. cbn [mbind outcome_bind].
  destruct (lv_env _ _ _ _ L4) as (_ & i4 & cpu4 & Hc4 & _).
  destruct (select_process_spec (at_ProcessTable img) 0 (kern s4) p i4 cpu4 (lv_slot _ _ _ _ L4) Hc4)
    as [E5 Hc5]. rewrite E5. cbn [mbind outcome_bind]. clear E5.
  set (e5 := put_cpu i4 _ (env (hw_state (kern s4)))) in *.
  assert (He5 : cpu_ready 0 e5).
  { apply (cpu_ready_put 0 _ _ cpu4); [apply (lv_env _ _ _ _ L4)|done..]. }
  set (v := toPhysical (hw_state (kern s4)) (pageTable p)).
  pose proof (live_select Running v e5 _ _ _ _ L4 He5) as L5. set (s5 := set_cr3 v _) in L5.
  change (set_cr3 v (set_kern _ s4)) with s5.
  destruct (live_log 0 1 (str "sweeetch! :)" ++ newline) [] (set_state Running p) s5
    ltac:(by eexists) L5)
    as (s6 & E6 & L6 & M6). rewrite E6. cbn [mbind outcome_bind].
  destruct (log_steady 0 _ _ _ _ E6) as [R6 C6]. destruct (R6 He5) as (_ & R6' & _).
  destruct (R6' i4 _ Hc5) as (n6 & w6 & Hc6).
  destruct (switch_to_spec c ret 0 (kern s6) _ i4 _ (lv_slot _ _ _ _ L6) Hc6 Hw) as (m & E7 & Hc7 & _ & HA).
  { pose proof (fst_task _ _ _ _ _ _ _ _ _ (lv_process _ _ _ _ L6)) as [T1 _].
    change sizeof_KernelContext with 56 in *. apply (disj_sets mine); [|exact Hstack|lia..].
    intros x Hx. apply (fst_stack _ _ _ _ _ _ _ _ _ (lv_process _ _ _ _ L6)). rewrite T1 in Hx.
    unfold range in *. lia. }
  rewrite E7. cbn [mbind outcome_bind].
  change (hw_state (kern s6)) with (mach s6).
  rewrite (proj1 (fst_start _ _ _ _ _ _ _ _ _ (lv_process _ _ _ _ L6))).
  eexists. split; [reflexivity|]. split; [exact (lv_slot _ _ _ _ L6)|]. split.
  { cbn. rewrite C6. unfold s5, v, toPhysical. cbn. change (hw_state (kern ?x)) with (mach x).
    by rewrite (lv_offset _ _ _ _ L4). }
  split; [|split; [exact (lv_offset _ _ _ _ L6)|split; [|split; [exact (lv_log _ _ _ _ L6)|]]]].
  - apply (first_process_state chunks Running), (first_process_set_env chunks 0).
    + apply first_process_set_ram; [exact (lv_process _ _ _ _ L6)|].
      eapply agree_weaken; [|exact HA]. intros x Hx Hr. by apply (Hstack x).
    + by eapply cpu_ready_put; [apply (lv_env _ _ _ _ L6)|exact Hc6|..].
  - by eapply cpu_ready_put; [apply (lv_env _ _ _ _ L6)|exact Hc6|..].
  - exists i4, (set_scheduler (t_rsp c - sizeof_KernelContext) (set_cli n6 w6 (set_current (at_ProcessTable img + sizeof_ProcessInfo * Z.of_nat 0) cpu4))).
    split; [exact Hc7|]. simpl. lia.
Qed.

Lemma schedule_spec p c ret s :
  live 0 0 p s → state p = Runnable → (1 ≤ turns)%nat → words_ok (task_words ret c) →
  (∀ x, range (t_rsp c - sizeof_KernelContext) sizeof_KernelContext x → ¬ mine x) →
  ∃ s', schedule img turns c ret s = Done ((at_ProcessEntryPoint img, entry_task (kernelTask p)), s') ∧
    ProcessTable (kern s') !! 0%nat = Some (set_state Running p) ∧
    cr3 s' = u64 (pageTable p - off) ∧ first_process (mach s') p ∧
    HigherHalfDirectMapOffset (mach s') = off ∧ env_ready 0 (mach s') ∧ sys_log s' = 0 ∧
    ∃ i cpu, cpu_of (env (mach s')) i cpu ∧ currentProcess cpu = at_ProcessTable img.
Proof.
  intros L Hrun Hturns Hw Hstack. unfold schedule.
  destruct (live_forget 0 p s L) as (s1 & -> & L1). cbn [mbind outcome_bind].
  destruct turns as [|turns'] eqn:Et; [lia|]. cbn [schedule_loop]. unfold schedule_turn.
  destruct (live_take p s1 L1) as (s2 & -> & L2). cbn [mbind outcome_bind].
  rewrite (find_runnable_stays _ 0 (kern s2) p) by (apply (lv_slot _ _ _ _ L2) || lia).
  rewrite decide_True by done. cbn [mbind outcome_bind].
  destruct (hand_over_spec p c ret s2 L2 Hw Hstack) as (s' & -> & H). by exists s'.
Qed.

(** ** From the interrupt stack to the scheduler *)

Lemma prepare_main_spec lock p n s :
  (∀ x, watched x → ¬ mine x) → live 1 lock p s → at_least n (mach s) →
  15 * Z.of_nat chunks < n → 0 ≤ CPUs_page s → CPUs_page s + PageSize ≤ 2 ^ 64 →
  0 ≤ at_SyscallHandler img < 2 ^ 64 → bridges_ascend config →
  (∀ dev, is_display dev → display_apart dev) →
  ∃ s', prepare_main img config chunks 256 s = Done s' ∧ live 0 lock p s'.
Proof.
  intros Hwatched L Hn Hc P0 P1 Hh Hb Hd. unfold prepare_main.
  destruct (log_spec 1 (str "Booting processor %d!" ++ newline) [lapicID (this_hw (env (mach s)))] _ s
    eq_refl (lv_log _ _ _ _ L) (lv_env _ _ _ _ L)) as (con1 & E1 & Hl1 & He1 & _).
  rewrite E1. cbn [mbind outcome_bind].
  pose proof (live_console _ _ _ _ _ L Hl1 He1) as L1. set (s1 := set_console con1 s) in *.
  assert (N1 : at_least n (mach s1)).
  { apply (vm_ok_set_env chunks 1 (pageTable p) (con_env con1) (mach s)); [|done|done].
    apply (fst_vm _ _ _ _ _ _ _ _ _ (lv_process _ _ _ _ L)). }
  destruct (prepare_processor_spec chunks 1 (CPUs_page s1) (at_SyscallHandler img) (segments s1)
    (pageTable p) n (mach s1) (fst_vm _ _ _ _ _ _ _ _ _ (lv_process _ _ _ _ L1)) N1 Hc
    (lv_env _ _ _ _ L1) P0 P1 Hh) as (r & m2 & stack & i & cpu & E2 & Pr & Ok & _ & B2 & O2 & S2 & A2).
  rewrite E2. cbn [mbind outcome_bind].
  set (s2 := set_idt (IDT s1) (loadIDTTable (at_IDTEntries img)) (set_segments r (set_mach m2 s1))).
  assert (L2 : live 1 lock p s2).
  { pose proof L1 as [X1 X2 X3 X4 X5 X6 X7]. split; try done.
    - split; [lia|]. exists i, cpu. split; [exact (pr_cpu _ _ _ _ _ _ _ _ Pr)|].
      split; [exact (pr_depth _ _ _ _ _ _ _ _ Pr)|exact Ok].
    - apply (first_process_kept chunks _ _ _ _ _ _ (mach s1)); try done.
      eapply agree_weaken; [|exact A2]. tauto.
    - eapply agree_trans; [|exact X6]. eapply agree_weaken; [|exact A2].
      intros x Hx Ho. apply (Hwatched x Hx).
      apply (fst_touched _ _ _ _ _ _ _ _ _ (lv_process _ _ _ _ L1) x). by right.
    - by rewrite <- X7. }
  destruct (cpu_ready_pop 1 _ (lv_env _ _ _ _ L2)) as (e3 & E3 & He3); [lia|].
  rewrite E3. cbn [mbind outcome_bind].
  pose proof (live_env _ _ _ _ _ _ L2 He3) as L3. set (s3 := set_sys_env e3 s2) in *.
  destruct (scan_devices_live 0 lock p s3 Hb Hd L3) as (s4 & E4 & L4).
  rewrite E4. cbn [mbind outcome_bind].
  destruct (live_log 0 lock (str "Processor %d is now going to schedule processes!" ++ newline)
    [lapicID (this_hw (env (mach s4)))] p s4 ltac:(by eexists) L4)
    as (s5 & E5 & L5 & _). by exists s5.
Qed.

Lemma other_main_spec lock p n s :
  (∀ io, ∃ k, (k ≤ polls)%nat ∧
    Z.land (u32 (register {| writes := writes io; reads := (reads io + k)%nat |} LowInterruptCommand))
      DeliveryStatus = 0) →
  live 1 lock p s → at_least n (mach s) →
  ∃ s', other_main register polls s = Done s' ∧ live 1 lock p s' ∧ at_least n (mach s') ∧
    CPUs_page s' = CPUs_page s.
Proof.
  intros Hd L Hn. unfold other_main.
  match goal with |- context [initLAPIC register polls ?io] =>
    destruct (initLAPIC_spec register polls io Hd) as (io' & perf & E & _) end.
  rewrite E. cbn [mbind outcome_bind]. eexists. split; [reflexivity|].
  set (e := set_msrs (setAPICBase (msr (this_hw (env (mach s)))) APICBaseDefault) (env (mach s))).
  assert (He : cpu_ready 1 e).
  { destruct (lv_env _ _ _ _ L) as (H1 & i & c & Hc & H2). split; [lia|]. by exists i, c. }
  split; [|split; [|done]].
  - pose proof (live_env _ _ _ e _ _ L He) as [X1 X2 X3 X4 X5 X6 X7]. by split.
  - apply (vm_ok_set_env chunks 1 (pageTable p) e (mach s)); [|done|done].
    apply (fst_vm _ _ _ _ _ _ _ _ _ (lv_process _ _ _ _ L)).
Qed.

(** A processor that finds the first process taken keeps the table's lock and looks at the first
    slot for ever. *)
Lemma schedule_taken p s :
  live 0 0 p s → state p ≠ Runnable →
  ∃ s1 s2, forget_process s = Done s1 ∧ take_table s1 = Done s2 ∧ live 0 1 p s2 ∧
    ∀ turns c ret, schedule img turns c ret s = Stuck OutOfFuel.
Proof.
  intros L Hp. destruct (live_forget 0 p s L) as (s1 & E1 & L1).
  destruct (live_take p s1 L1) as (s2 & E2 & L2).
  exists s1, s2. do 3 (split; [done|]). intros turns' c ret. unfold schedule. rewrite E1.
  cbn [mbind outcome_bind].
  destruct turns' as [|turns']; [done|]. cbn [schedule_loop]. unfold schedule_turn. rewrite E2.
  cbn [mbind outcome_bind].
  rewrite (find_runnable_stays _ 0 (kern s2) p) by (apply (lv_slot _ _ _ _ L2) || lia).
  by rewrite decide_False.
Qed.

(** C17. A second processor that starts once the first process has been taken never runs anything: for
    every bound on its turns, [OtherProcessorMain] does not come to an end.  It prepares itself,
    calls [schedule] in the state [s1], takes the process table's lock there, and looks at the
    first slot for ever.  With the lock kept ([s2]), a processor with any registers [e] that calls
    [exitCurrentProcess] spins: the first process cannot be ended any more. *)
Theorem second_processor_keeps_table p n s :
  (∀ x, watched x → ¬ mine x) → live 1 0 p s → state p ≠ Runnable → at_least n (mach s) →
  15 * Z.of_nat chunks < n → 0 ≤ CPUs_page s → CPUs_page s + PageSize ≤ 2 ^ 64 →
  0 ≤ at_SyscallHandler img < 2 ^ 64 → bridges_ascend config →
  (∀ dev, is_display dev → display_apart dev) →
  (∀ io, ∃ k, (k ≤ polls)%nat ∧
    Z.land (u32 (register {| writes := writes io; reads := (reads io + k)%nat |} LowInterruptCommand))
      DeliveryStatus = 0) →
  ∃ s1 s2,
    (∀ turns c ret, OtherProcessorMain img config register chunks polls 256 turns c ret s =
       schedule img turns c ret s1) ∧
    (s ← forget_process s1; take_table s) = Done s2 ∧ ProcessTableSpinlock (kern s2) = 1 ∧
    (∀ turns c ret, OtherProcessorMain img config register chunks polls 256 turns c ret s =
       Stuck OutOfFuel) ∧
    (∀ fuel depth e c ret, cpu_ready depth e →
       exitCurrentProcess fuel (at_ProcessTable img) c ret (set_hw (set_env e (mach s2)) (kern s2)) =
         Stuck Spin).
Proof.
  intros Hw L Hp Hn Hc P0 P1 Hh Hb Hd Hdel.
  destruct (other_main_spec 0 p n s Hdel L Hn) as (s0 & E0 & L0 & N0 & EP).
  destruct (prepare_main_spec 0 p n s0 Hw L0 N0) as (s1 & E1 & L1); [done|by rewrite EP..|done|done|done|].
  destruct (schedule_taken p s1 L1 Hp) as (s1' & s2 & E2 & E3 & L2 & H).
  assert (E : ∀ turns c ret, OtherProcessorMain img config register chunks polls 256 turns c ret s =
    schedule img turns c ret s1).
  { intros. unfold OtherProcessorMain. rewrite E0. cbn [mbind outcome_bind]. unfold SharedMain. by rewrite E1. }
  exists s1, s2. split; [exact E|]. split; [by rewrite E2|]. split; [exact (lv_lock _ _ _ _ L2)|].
  split; [intros; by rewrite E|]. intros fuel depth e c ret He.
  apply (exitCurrentProcess_locked fuel depth); [|done]. cbn. rewrite (lv_lock _ _ _ _ L2). lia.
Qed.

End proofs.

(** ** From the boot loader to the first process *)

(** The page at 0x1000 is not one of the higher half. *)
Lemma upper_half_page k v :
  0xffff800000000000 ≤ k → k < 2 ^ 64 → 0 ≤ v < 2 ^ 47 → ¬ same_page k v.
Proof.
  intros H1 H2 Hv. unfold same_page. rewrite (uw_small 48 v) by (change (2 ^ 48) with (2 * 2 ^ 47); lia).
  assert (2 ^ 47 ≤ uw 48 k) as Hk.
  { unfold uw. change (2 ^ 48) with 281474976710656. change (2 ^ 47) with 140737488355328.
    change (2 ^ 64) with 18446744073709551616 in H2. Z.div_mod_to_equations. lia. }
  rewrite !Z.shiftr_div_pow2 by lia. intros Heq.
  assert (v / 2 ^ 12 < 2 ^ 35) by (apply Z.div_lt_upper_bound; lia).
  assert (2 ^ 35 ≤ uw 48 k / 2 ^ 12) by (apply Z.div_le_lower_bound; lia).
  lia.
Qed.

Section boot.
Context (img : image) (config : Z → Z) (register : lapic_state → Z → Z).
Context (chunks pages polls turns : nat).
Context (memmap : list limine_memmap_entry) (off physical_base virtual_base : Z).
Context (infos : list limine_smp_info) (bsp : Z).
#[local] Hint Extern 0 (PageAllocator machine) => exact (phys_pages chunks) : typeclass_instances.
#[local] Hint Extern 0 (PageAllocatorLaws machine) => exact (phys_pages_laws chunks) : typeclass_instances.

Definition answers_of : boot_info :=
  {| bi_memmap := Some memmap; bi_hhdm := Some off;
     bi_kernel_address := Some (physical_base, virtual_base); bi_smp := Some (infos, bsp) |}.

Local Abbreviation free := (usable_chunks off memmap).
Local Abbreviation mine := (free_bytes free).

(** What has to hold when the boot loader enters the kernel.  [watched] are bytes outside the free
    memory that must keep their values (the registers of displays). *)
Record bootable (watched : Z → Prop) (c : task) (ret : Z) (s : system) : Prop := {
  bt_memmap : memmap ≠ [] ∧ memmap_ok 0 off memmap ∧ Forall entry_low memmap ∧
    (length memmap ≤ chunks)%nat;
  bt_off : off_ok off;
  bt_layout : boot_layout off (max_end memmap) (KernelStart img) (KernelEnd img)
    physical_base virtual_base;
  (* the kernel's tables, the records, the first process, and sixteen pages in a row *)
  bt_pages : table_budget (max_end memmap) (KernelStart img) (KernelEnd img) + 1 + 6 +
    15 * Z.of_nat chunks < total_pages free;
  bt_ranges : max_end memmap ≤ 4096 * Z.of_nat pages ∧
    KernelEnd img - KernelStart img ≤ 4096 * Z.of_nat pages;
  bt_processors : (length infos ≤ 18)%nat ∧
    ∃ i, find_cpu 0 (lapicID (this_hw (env (mach s)))) (initial_record <$> infos) = Some i;
  bt_half : 0xffff800000000000 ≤ KernelStart img;
  bt_symbols : 0 ≤ at_TrapRet img < 2 ^ 64 ∧ 0 ≤ at_ProcessEntryPoint img < 2 ^ 64 ∧
    0 ≤ at_SyscallHandler img < 2 ^ 64;
  bt_program : 0 ≤ MyFirstUserspace_size img ≤ 4096 ∧
    ∀ x, range (at_MyFirstUserspace img) (MyFirstUserspace_size img) x → ¬ mine x;
  bt_stack : words_ok (task_words ret c) ∧
    ∀ x, range (t_rsp c - sizeof_KernelContext) sizeof_KernelContext x → ¬ mine x;
  bt_table : ProcessTable (kern s) = replicate 64 zero_process ∧ ProcessTableSpinlock (kern s) = 0;
  bt_delivery : ∀ io, ∃ k, (k ≤ polls)%nat ∧
    Z.land (u32 (register {| writes := writes io; reads := (reads io + k)%nat |} LowInterruptCommand))
      DeliveryStatus = 0;
  bt_buses : bridges_ascend config;
  bt_watched : ∀ x, watched x → ¬ mine x;
  bt_displays : ∀ dev, is_display config dev →
    display_apart config mine watched off (ram (mach s)) dev;
  bt_turns : (1 ≤ turns)%nat;
}.

Lemma early_main_spec watched c ret s :
  bootable watched c ret s →
  ∃ root s', early_main img chunks pages answers_of s = Done s' ∧
    sys_log s' = 0 ∧ KernelPageTable (kern s') = root ∧
    kernel_ready chunks 1 root (kern s')
      (total_pages free - table_budget (max_end memmap) (KernelStart img) (KernelEnd img) - 1) ∧
    ProcessTable (kern s') = replicate 64 zero_process ∧
    0 ≤ CPUs_page s' ∧ CPUs_page s' + PageSize ≤ 2 ^ 64 ∧
    HigherHalfDirectMapOffset (mach s') = off ∧ lapic_io s' = lapic_io s ∧
    (∀ x, touched root (mach s') x → mine x) ∧
    agree (λ x, ¬ mine x) (ram (mach s')) (ram (mach s)) ∧
    (∀ k, KernelStart img ≤ k < KernelEnd img →
       translate_in root (mach s') k = Some (physical_base + (k - virtual_base))).
Proof.
  intros [(M1 & M2 & M3 & M4) B2 B3 B4 [B5 B5'] [B6 (i & B6')] _ _ _ _ [B10 B10'] _ _ _ _ _].
  destruct (kernel_memory_spec chunks pages memmap off (KernelStart img) (KernelEnd img) physical_base
    virtual_base (mach s)) as (root & cr & m1 & E & V & _ & K & O & I & N & T & A); try done.
  { pose proof (Nat2Z.is_nonneg chunks). lia. }
  unfold kernel_memory in E. apply outcome_bind_Done in E as (u & E0 & E).
  apply outcome_bind_Done in E as ([max m0] & E1 & E2).
  unfold early_main. cbn [bi_memmap bi_hhdm bi_kernel_address bi_smp answers_of answered].
  rewrite E0. cbn [mbind outcome_bind]. rewrite E1. cbn [mbind outcome_bind]. rewrite E2.
  cbn [mbind outcome_bind].
  set (e := set_msrs (setAPICBase (msr (this_hw (env m1))) APICBaseDefault) (env m1)).
  match goal with |- context [initializeProcessors chunks infos bsp ?o ?m] =>
    change m with (set_env e m1) end.
  assert (Hidle : lock_idle e (set_env e m1)) by (split; [apply I|split; [apply I|done]]).
  destruct (vm_ok_same chunks root m1 (set_env e m1) V ltac:(by split)) as (V1 & N1 & X1 & [T1 _]).
  { split; [apply (proj1 (vm_pa _ _ V))|]. intros Hu. by rewrite (proj1 Hidle) in Hu. }
  destruct (initializeProcessors_vm chunks infos bsp (at_OtherProcessorMain img) root _ (set_env e m1) e i
    V1 (N1 _ N)) as (page & infos' & m2 & E3 & P0 & P1 & V2 & N2 & O2 & [T2 A2] & X2 & R2); try done.
  { pose proof (Nat2Z.is_nonneg chunks). lia. }
  { unfold e, thisCPU. cbn. by rewrite (proj2 (proj2 I)). }
  rewrite E3. cbn [mbind outcome_bind]. eexists root, _. split; [reflexivity|]. cbn.
  split; [done|]. split; [done|]. split.
  { split; [exact B10'|exact R2|exact V2|exact N2]. }
  split; [done|]. split; [done|]. split; [done|]. split; [by rewrite O2|]. split; [done|].
  split; [|split].
  - intros x Hx. by apply T, T1, T2.
  - eapply agree_trans; [|exact A]. eapply agree_weaken; [|exact A2].
    intros x Hx Ht. by apply Hx, T, T1.
  - intros k Hk. etrans; [exact (X2 k)|]. etrans; [exact (X1 k)|]. by apply (km_image _ _ _ _ _ _ _ _ K).
Qed.

Local Abbreviation program s := (λ j, load8 (ram (mach s)) (at_MyFirstUserspace img + j)).

(** The first process is there when [KernelMain] calls [SharedMain]. *)
Lemma first_main_spec watched c ret s :
  bootable watched c ret s →
  ∃ root s1 s3 p, first_main img register chunks pages polls answers_of s = Done s3 ∧
    live img chunks mine watched (translate_in root (mach s1)) (program s) off (ram (mach s)) 1 0 p s3 ∧
    state p = Runnable ∧ at_least (15 * Z.of_nat chunks + 1) (mach s3) ∧
    0 ≤ CPUs_page s3 ∧ CPUs_page s3 + PageSize ≤ 2 ^ 64 ∧
    (∀ k, KernelStart img ≤ k < KernelEnd img →
       translate_in root (mach s1) k = Some (physical_base + (k - virtual_base))).
Proof.
  intros B. destruct (early_main_spec watched c ret s B)
    as (root & s1 & E1 & Hlog & Hroot & Hk & Htab & P0 & P1 & O1 & Hio & T1 & A1 & K1).
  destruct B as [_ Boff B3 B4 _ _ Bh (S1 & S2 & S3) [G1 G2] [W1 W2] _ Bd Bb Bw Bv Bt].
  unfold first_main. rewrite E1. cbn [mbind outcome_bind].
  destruct (initLAPIC_spec register polls (lapic_io s1) Bd) as (io & perf & E2 & _).
  rewrite E2. cbn [mbind outcome_bind]. set (s2 := set_lapic (lapic s1) io s1).
  rewrite <- Hroot in Hk.
  destruct (createFirstProcess_spec chunks 1 (at_TrapRet img) (at_ProcessEntryPoint img)
    (at_MyFirstUserspace img) (MyFirstUserspace_size img) (kern s2) 0%nat _ Hk)
    as (k3 & p & E3 & T3 & L3 & C3 & R3 & F3 & N3 & O3 & A3).
  { pose proof (Nat2Z.is_nonneg chunks). lia. }
  { change (ProcessTable (kern s2)) with (ProcessTable (kern s1)). by rewrite Htab. }
  { done. }
  { done. }
  { done. }
  { intros x Hx Ht. apply (G2 x Hx), T1. by rewrite <- Hroot. }
  rewrite E3. cbn [mbind outcome_bind]. exists root, s1, (set_kern k3 s2), p. split; [done|].
  split; [|split; [exact R3|split; [|done]]].
  - split; [exact Hlog|exact C3|exact L3|..].
    + change (kern (set_kern k3 s2)) with k3. rewrite T3.
      change (ProcessTable (kern s2)) with (ProcessTable (kern s1)). by rewrite Htab.
    + eapply (first_process_weaken chunks); [rewrite <- Hroot; exact F3| |].
      * intros x Hx. apply T1. by rewrite <- Hroot.
      * intros j Hj. apply A1. apply G2. unfold range. lia.
    + eapply agree_trans; [|eapply agree_weaken; [|exact A1]; exact Bw].
      eapply agree_weaken; [|exact A3]. intros x Hx Ht. apply (Bw x Hx), T1. by rewrite <- Hroot.
    + by rewrite <- O1.
  - eapply at_least_weaken; [|exact N3]. lia.
Qed.

(** The processor is in the first process's kernel task, about to enter user mode: it is the
    process in the first slot, its table is in [cr3], [ProcessEntryPoint] will release the
    scheduler's lock and return to [TrapRet], which enters user mode at 0x1000; there lies the
    first program, and the kernel's image is where it was. *)
Record in_first_process (s s' : system) (p : ProcessInfo) : Prop := {
  ip_slot : ProcessTable (kern s') !! 0%nat = Some p ∧ state p = Running;
  ip_cr3 : cr3 s' + off = pageTable p;
  ip_current : ∃ i cpu, cpu_of (env (mach s')) i cpu ∧ currentProcess cpu = at_ProcessTable img;
  ip_entry : ∃ k, ProcessEntryPoint_body (kern s') = Done k ∧ ProcessTableSpinlock k = 0;
  ip_return : load64 (ram (mach s')) (kernelTask p + sizeof_KernelContext) = at_TrapRet img;
  ip_frame : TrapRet (kernelTask p + sizeof_KernelContext + 8) (ram (mach s')) =
    (zero_registers, {| c_rip := 0x1000; c_cs := Z.lor off_userCode64 3; c_rflags := 0x200;
                        c_rsp := 0; c_ss := Z.lor off_userData64 3 |});
  ip_code j : 0 ≤ j < MyFirstUserspace_size img → ∃ phys,
    translate_in (pageTable p) (mach s') (0x1000 + j) = Some phys ∧
    load8 (ram (mach s')) (phys + off) = load8 (ram (mach s)) (at_MyFirstUserspace img + j);
  ip_kernel k : KernelStart img ≤ k < KernelEnd img →
    translate_in (pageTable p) (mach s') k = Some (physical_base + (k - virtual_base));
}.

Lemma KernelMain_spec watched c ret s :
  bootable watched c ret s →
  ∃ s' p, KernelMain img config register chunks pages polls 256 turns c ret answers_of s =
      Done ((at_ProcessEntryPoint img, entry_task (kernelTask p)), s') ∧
    in_first_process s s' p ∧ env_ready 0 (mach s') ∧ sys_log s' = 0.
Proof.
  intros B. destruct (first_main_spec watched c ret s B)
    as (root & s1 & s3 & p & E3 & L & R3 & N3 & P0 & P1 & K1).
  pose proof (bl_end _ _ _ _ _ _ (bt_layout _ _ _ _ B)) as [B6 _]. pose proof (bt_half _ _ _ _ B) as Bh.
  destruct B as [_ _ _ _ _ _ _ (_ & _ & S3) _ [W1 W2] _ _ Bb Bw Bv Bt].
  unfold KernelMain. rewrite E3. cbn [mbind outcome_bind]. unfold SharedMain.
  destruct (prepare_main_spec img config chunks mine watched _ _ off (ram (mach s)) 0 p _ s3
    Bw L N3) as (s4 & E4 & L4); try done; try lia.
  rewrite E4. cbn [mbind outcome_bind].
  destruct (schedule_spec img chunks turns mine watched _ _ off (ram (mach s)) p c ret s4 L4)
    as (s' & E & T & C & F & O & R & G & I); try done.
  exists s', (set_state Running p). split; [exact E|]. split; [|by split].
  apply (first_process_state chunks Running) in F.
  pose proof F as [X1 (X2 & X2' & X2'') X3 X4 (page & Y1 & Y2 & Y3) X5 [X6 X6'] X7 X8].
  split; try done.
  - cbn. rewrite C.
    pose proof (fst_vm _ _ _ _ _ _ _ _ _ (lv_process _ _ _ _ _ _ _ _ _ _ _ _ L)) as V.
    apply (root_physical (pageTable p) (mach s3)); [exact V|apply L|].
    rewrite <- (lv_offset _ _ _ _ _ _ _ _ _ _ _ _ L). apply (vm_off _ _ V).
  - destruct (release_table_spec 0 (kern s') R) as (e & Er & _).
    by exists (set_lock 0 (set_hw (set_env e (hw_state (kern s'))) (kern s'))).
  - rewrite <- X2''. exact X3.
  - intros j Hj. exists (page + j - off). split; [rewrite Y2 by lia; by rewrite O|].
    replace (page + j - off + off) with (page + j) by lia. by apply Y3.
  - intros k Hk'. rewrite X5; [by apply K1|]. apply upper_half_page; [lia| |lia].
    change (2 ^ 64) with 18446744073709551616 in *. lia.
Qed.

(** C1. The kernel boots: entered by a boot loader that keeps its protocol, on a machine with enough
    memory below 2 GiB, [KernelMain] sets everything up, and its scheduler hands the processor
    over to the first process, which is about to run its program in user mode. *)
Theorem KernelMain_reaches_user_mode watched c ret s :
  bootable watched c ret s →
  ∃ s' p, KernelMain img config register chunks pages polls 256 turns c ret answers_of s =
      Done ((at_ProcessEntryPoint img, entry_task (kernelTask p)), s') ∧
    in_first_process s s' p.
Proof.
  intros B. destruct (KernelMain_spec watched c ret s B) as (s' & p & E & H & _). by exists s', p.
Qed.

(** C2. From the boot loader's entry to the end of the first program: the kernel boots, its scheduler
    enters [ProcessEntryPoint], which returns to [TrapRet], which enters user mode at 0x1000; the
    program there makes its two system calls, and what the kernel prints for them goes out on the
    serial line.  The registers and return addresses of the system-call handler ([c2], [ret2]) and
    the lengths of the program's instructions do not matter, nor do timer interrupts: wherever they
    arrive, the program ends in the same state and the serial line shows the same. *)
Theorem KernelMain_runs_first_program watched c ret c2 ret2 len s :
  bootable watched c ret s →
  ∃ t s1 s2 u s3,
    KernelMain img config register chunks pages polls 256 turns c ret answers_of s =
      Done ((at_ProcessEntryPoint img, t), s1) ∧
    ProcessEntryPoint t s1 = Done (at_TrapRet img, t_rsp t + 8, s2) ∧
    u_rip (return_to_user (t_rsp t + 8) s2) = 0x1000 ∧
    user_run img register chunks c2 ret2 len MyFirstUserspace (return_to_user (t_rsp t + 8) s2) s2 =
      Done (u, s3) ∧
    u_rip u = u64 (0x1000 + foldr (λ x n, len x + n) 0 MyFirstUserspace) ∧
    sys_serial s3 = sys_serial s1 ++ on_wire (str "syscall! 1" ++ newline ++ str "syscall! 2" ++ newline) ∧
    ∀ cs ss evs, 0 ≤ cs < 2 ^ 64 ∧ 0 ≤ ss < 2 ^ 64 → Forall timed evs → program_of evs = MyFirstUserspace →
      ∃ s4, user_events img register chunks c2 ret2 len cs ss evs
          (return_to_user (t_rsp t + 8) s2) s2 = Done (u, s4) ∧ sys_serial s4 = sys_serial s3.
Proof.
  intros B. destruct (KernelMain_spec watched c ret s B) as (s1 & p & E & [_ _ _ _ X5 X6 _ _] & R & G).
  destruct (release_table_spec 0 (kern s1) R) as (e & Er & He).
  set (s2 := set_kern (set_lock 0 (set_hw (set_env e (hw_state (kern s1))) (kern s1))) s1).
  exists (entry_task (kernelTask p)), s1, s2.
  assert (return_to_user (kernelTask p + sizeof_KernelContext + 8) s2 =
    {| u_rip := 0x1000; u_regs := zero_registers; u_rsp := 0; u_rflags := 0x200 |}) as EU.
  { unfold return_to_user. change (ram (mach s2)) with (ram (mach s1)). by rewrite X6. }
  cbn [t_rsp entry_task]. rewrite EU.
  destruct (first_program_spec img register chunks c2 ret2 0 len
    {| u_rip := 0x1000; u_regs := zero_registers; u_rsp := 0; u_rflags := 0x200 |} s2)
    as (u & s3 & E3 & U & _ & _ & _ & S & _); [words_tac|simpl; lia|exact G|exact He|].
  exists u, s3. split; [exact E|]. split; [|split; [done|split; [exact E3|split; [exact U|split; [exact S|]]]]].
  2: { intros cs ss evs Hsel Hev Hprog.
    destruct (ticks_spec img register chunks c2 ret2 len cs ss Hsel 0 evs
      {| u_rip := 0x1000; u_regs := zero_registers; u_rsp := 0; u_rflags := 0x200 |} s2 Hev)
      as (u' & s3' & s4 & E3' & E4 & S4 & _); [split; [words_tac|simpl; lia]|exact G|exact He|].
    rewrite Hprog, E3 in E3'. injection E3' as <- <-. by exists s4. }
  unfold ProcessEntryPoint, ProcessEntryPoint_body. rewrite Er. cbn [mbind outcome_bind]. by rewrite <- X5.
Qed.
End boot.

(** ** A concrete boot: 2 MiB of usable memory, two processors, and QEMU's display with 1024 by 768
    pixels. *)

Definition example_image : image :=
  {| KernelStart := example_kernel; KernelEnd := example_kernel + 0x40000;
     at_TrapRet := 0xffffffff80001000; at_ProcessEntryPoint := 0xffffffff80002000;
     at_SyscallHandler := 0xffffffff80003000; at_OtherProcessorMain := 0xffffffff80004000;
     at_ProcessTable := 0xffffffff80030000; at_IDTEntries := 0xffffffff80031000;
     at_isr := λ i, 0xffffffff80005000 + 16 * i; at_irq := λ i, 0xffffffff80006000 + 16 * i;
     at_MyFirstUserspace := 0xffffffff80010000; MyFirstUserspace_size := 20 |}.

Definition display_config (a : Z) : Z :=
  if a =? 0x80001000 then 0x11111234 else if a =? 0x80001008 then 0x03800000
  else if a =? 0x80001010 then 0xFD000000 else if a =? 0x80001018 then 0xFEBF0000 else 0xFFFFFFFF.
Definition display_registers (x : Z) : Prop :=
  range 0xffff8000FEBF0502 2 x ∨ range 0xffff8000FEBF0504 2 x.

Definition example_system : system :=
  {| kern := empty_kernel 0 (set_ram (store16 (store16 (λ _, 0) 0xffff8000FEBF0502 1024)
                                        0xffff8000FEBF0504 768) blank);
     sys_log := 0; sys_serial := []; IDT := []; idtr := (0, 0); lapic := 0;
     lapic_io := {| writes := []; reads := 0 |}; ports := []; segments := zero_segments; cr3 := 0;
     CPUs_page := 0; smp_infos := [] |}.

Lemma example_mine x :
  free_bytes (usable_chunks example_offset example_map) x → 0xffff800000200000 ≤ x < 0xffff800000400000.
Proof.
  intros (b & n & Hin & Hx). change (usable_chunks example_offset example_map)
    with [(0xffff800000200000, 512)] in Hin. apply list_elem_of_singleton in Hin as [= -> ->].
  change PageSize with 4096 in Hx. lia.
Qed.

(** The part of a configuration address that names the function; its low byte is the field's. *)
Lemma address_low dev i :
  0 ≤ i < 8 →
  Z.testbit (u32 (Z.lor (Z.lor (Z.lor 0x80000000 (u32 (Z.shiftl (busOf dev) 16)))
    (u32 (Z.shiftl (slotOf dev) 11))) (u32 (Z.shiftl (funcOf dev) 8)))) i = false.
Proof.
  intros Hi. unfold uw. change 0x80000000 with (2 ^ 31).
  rewrite Z.mod_pow2_bits_low, !Z.lor_spec, !Z.mod_pow2_bits_low, !Z.shiftl_spec_low, Z.pow2_bits_false
    by lia. done.
Qed.

(** Only the display answers. *)
Lemma display_config_latch dev :
  rd display_config 2 dev VendorID ≠ 0xFFFF → ∀ f,
  u32 (addressOf dev (field_offset f)) = Z.lor 0x80001000 (Z.land (field_offset f) 0xFC).
Proof.
  assert (Hlor : ∀ a b, u32 (Z.lor a b) = Z.lor (u32 a) (u32 b)).
  { intros a b. unfold uw. rewrite <- !Z.land_ones by lia. apply Z.land_lor_distr_l. }
  pose proof (address_low dev) as Hlow. unfold addressOf.
  intros Hv f. rewrite Hlor, (uw_small 32 (Z.land _ _)) by (pose proof (field_word f); lia). f_equal.
  revert Hv Hlow. change (rd display_config 2 dev VendorID) with
    (u16 (Z.shiftr (display_config (u32 (Z.lor (Z.lor (Z.lor (Z.lor 0x80000000
       (u32 (Z.shiftl (busOf dev) 16))) (u32 (Z.shiftl (slotOf dev) 11)))
       (u32 (Z.shiftl (funcOf dev) 8))) 0))) 0)).
  rewrite Z.lor_0_r, Z.shiftr_0_r. match goal with |- context [Z.testbit ?b _] => generalize b end.
  intros base Hv Hlow.
  assert (base = 0x80001000 ∨ base = 0x80001008 ∨ base = 0x80001010 ∨ base = 0x80001018)
    as [H|[H|[H|H]]].
  { unfold display_config in Hv. revert Hv. zdecide. }
  - exact H.
  - rewrite H in Hlow. discriminate (Hlow 3 ltac:(lia)).
  - rewrite H in Hlow. discriminate (Hlow 4 ltac:(lia)).
  - rewrite H in Hlow. discriminate (Hlow 4 ltac:(lia)).
Qed.

Lemma display_config_field dev f :
  rd display_config 2 dev VendorID ≠ 0xFFFF →
  (∀ size, rd display_config size dev f = rd display_config size 0x200 f).
Proof.
  intros Hv size. pose proof (display_config_latch dev Hv f) as H1.
  assert (rd display_config 2 0x200 VendorID ≠ 0xFFFF) as Hv' by (by vm_compute).
  pose proof (display_config_latch 0x200 Hv' f) as H2.
  unfold rd, readField, outl, inl, ins, inb. rewrite !Z.eqb_refl. cbn [fst address_latch].
  by rewrite H1, H2.
Qed.

Lemma display_config_no_bridge : bridges_ascend display_config.
Proof.
  intros bus slot func _ _ _ Ha Ht. exfalso. revert Ht. unfold findType.
  rewrite !(display_config_field _ _ Ha). by vm_compute.
Qed.

Lemma display_config_display dev :
  is_display display_config dev →
  display_apart display_config (free_bytes (usable_chunks example_offset example_map)) display_registers
    example_offset (ram (mach example_system)) dev.
Proof.
  intros [Hv' _]. assert (rd display_config 2 dev VendorID ≠ 0xFFFF) as Hv by (rewrite Hv'; lia).
  assert (framebufferAddress display_config example_offset dev = 0xffff8000FD000000) as Hfb.
  { unfold framebufferAddress. by rewrite (display_config_field dev Bar0 Hv). }
  assert (∀ i, addrOf display_config example_offset dev i =
    u64 (u64 (0xffff8000FEBF0000 + 0x500) + display_index i)) as Hreg.
  { intros i. unfold addrOf. by rewrite (display_config_field dev Bar2 Hv). }
  assert (display_read display_config example_offset dev XRes (ram (mach example_system)) = 1024) as Hx.
  { unfold display_read. rewrite Hreg. by vm_compute. }
  assert (display_read display_config example_offset dev YRes (ram (mach example_system)) = 768) as Hy.
  { unfold display_read. rewrite Hreg. by vm_compute. }
  split; rewrite ?Hfb, ?Hx, ?Hy, ?Hreg; [lia|lia| |].
  - intros x Hx'. unfold range in Hx'. split; [intros ?%example_mine; lia|].
    unfold display_registers, range. lia.
  - intros x Hx'. exact Hx'.
Qed.

Lemma example_bootable :
  bootable example_image display_config (λ _ _, 0) 2 1024 0 1 example_map example_offset 0x100000
    example_kernel example_infos display_registers (example_task 8) 0x22 example_system.
Proof.
  assert (Hlow : ∀ x, x < 0xffff800000200000 ∨ 0xffff800000400000 ≤ x →
    ¬ free_bytes (usable_chunks example_offset example_map) x) by (intros x Hx ?%example_mine; lia).
  split.
  - split; [done|]. split; [exact example_map_ok|]. split; [exact example_map_low|simpl; lia].
  - exact example_offset_ok.
  - exact example_layout.
  - clear. by vm_compute.
  - clear. by vm_compute.
  - split; [simpl; lia|]. by exists 0%nat.
  - simpl. unfold example_kernel. lia.
  - simpl. lia.
  - split; [simpl; lia|]. intros x Hx. apply Hlow. unfold range in Hx. simpl in Hx. lia.
  - split.
    + words_tac.
    + intros x Hx. apply Hlow. unfold range in Hx. change sizeof_KernelContext with 56 in Hx.
      simpl in Hx. lia.
  - done.
  - intros io. exists 0%nat. split; [lia|done].
  - exact display_config_no_bridge.
  - intros x Hx. apply Hlow. unfold display_registers, range in Hx. lia.
  - exact display_config_display.
  - lia.
Qed.

Lemma KernelMain_reaches_user_mode_witness :
  ∃ s' p, KernelMain example_image display_config (λ _ _, 0) 2 1024 0 256 1 (example_task 8) 0x22
      (answers_of example_map example_offset 0x100000 example_kernel example_infos 0) example_system =
      Done ((0xffffffff80002000, entry_task (kernelTask p)), s') ∧
    in_first_process example_image 2 example_offset 0x100000 example_kernel example_system s' p.
Proof.
  exact (KernelMain_reaches_user_mode example_image display_config (λ _ _, 0) 2 1024 0 1 example_map
    example_offset 0x100000 example_kernel example_infos 0 display_registers (example_task 8) 0x22
    example_system example_bootable).
Defined.

Lemma KernelMain_runs_first_program_witness :
  ∃ t s1 s2 u s3, KernelMain example_image display_config (λ _ _, 0) 2 1024 0 256 1 (example_task 8) 0x22
      (answers_of example_map example_offset 0x100000 example_kernel example_infos 0) example_system =
      Done ((0xffffffff80002000, t), s1) ∧
    user_run example_image (λ _ _, 0) 2 (example_task 3) 0x33 (λ _, 4) MyFirstUserspace
      (return_to_user (t_rsp t + 8) s2) s2 = Done (u, s3) ∧ u_rip u = 0x101C ∧
    sys_serial s3 = sys_serial s1 ++ on_wire (str "syscall! 1" ++ newline ++ str "syscall! 2" ++ newline) ∧
    ∃ s4, user_events example_image (λ _ _, 0) 2 (example_task 3) 0x33 (λ _, 4) 0x2b 0x33 ticking_program
      (return_to_user (t_rsp t + 8) s2) s2 = Done (u, s4) ∧ sys_serial s4 = sys_serial s3.
Proof.
  destruct (KernelMain_runs_first_program example_image display_config (λ _ _, 0) 2 1024 0 1 example_map
    example_offset 0x100000 example_kernel example_infos 0 display_registers (example_task 8) 0x22
    (example_task 3) 0x33 (λ _, 4) example_system example_bootable)
    as (t & s1 & s2 & u & s3 & E1 & _ & _ & E3 & U & S & T).
  exists t, s1, s2, u, s3. split; [exact E1|]. split; [exact E3|]. split; [exact U|].
  split; [exact S|]. exact (T 0x2b 0x33 ticking_program ltac:(lia) ticking_timed eq_refl).
Defined.

Lemma dumpPageTable_only_logs_witness :
  ∃ c, dumpPageTable 4 example_offset 1 (set_sys_env one_cpu example_system) =
      Done (set_console c (set_sys_env one_cpu example_system)) ∧ logLock c = 0.
Proof.
  destruct (dumpPageTable_only_logs 0 example_offset (set_sys_env one_cpu example_system))
    as (c & E & Hl & _); [done|exact one_cpu_ready|].
  exists c. split; [exact E|exact Hl].
Defined.

(** The second processor as the boot loader starts it, when the first one runs the process. *)
Definition second_processor : cpu_env :=
  {| CPUs := initial_record <$> example_infos;
     this_hw := {| lapicReg := Z.shiftl 1 24; IF := false; msr := λ _, 0 |} |}.
Definition process_taken (p : ProcessInfo) (s : system) : system :=
  set_kern (set_slot 0 (set_state Running p) (set_hw (set_env second_processor (mach s)) (kern s))) s.

#[local] Hint Extern 0 (PageAllocator machine) => exact (phys_pages 2) : typeclass_instances.
#[local] Hint Extern 0 (PageAllocatorLaws machine) => exact (phys_pages_laws 2) : typeclass_instances.

Lemma second_processor_keeps_table_witness :
  ∃ s p, first_main example_image (λ _ _, 0) 2 1024 0
      (answers_of example_map example_offset 0x100000 example_kernel example_infos 0) example_system =
      Done s ∧
    ∀ turns c ret, OtherProcessorMain example_image display_config (λ _ _, 0) 2 0 256 turns c ret
      (process_taken p s) = Stuck OutOfFuel.
Proof.
  destruct (first_main_spec example_image display_config (λ _ _, 0) 2 1024 0 1 example_map
    example_offset 0x100000 example_kernel example_infos 0 display_registers (example_task 8) 0x22
    example_system example_bootable) as (root & s1 & s & p & E & L & _ & N & P0 & P1 & _).
  exists s, p. split; [exact E|].
  assert (He : cpu_ready 1 second_processor).
  { split; [lia|]. exists 1%nat, (initial_record {| lapic_id := 1; goto_address := 0 |}).
    split; [split; vm_compute; reflexivity|]. split; [done|]. split; [lia|done]. }
  pose proof (live_select _ _ _ _ _ _ _ _ Running (cr3 s) second_processor _ _ _ _ L He) as L'.
  destruct (second_processor_keeps_table example_image display_config (λ _ _, 0) 2 0
    (free_bytes (usable_chunks example_offset example_map)) display_registers
    (translate_in root (mach s1)) (λ j, load8 (ram (mach example_system)) (at_MyFirstUserspace example_image + j))
    example_offset (ram (mach example_system)) (set_state Running p) 31 (process_taken p s)) as (_ & _ & _ & _ & _ & H & _).
  - exact (bt_watched _ _ _ _ _ _ _ _ _ _ _ _ _ _ _ _ example_bootable).
  - pose proof L' as [X1 X2 X3 X4 X5 X6 X7]. by split.
  - done.
  - apply (vm_ok_set_env 2 1 (pageTable p) second_processor (mach s)); [|exact He|exact N].
    apply (fst_vm _ _ _ _ _ _ _ _ _ (lv_process _ _ _ _ _ _ _ _ _ _ _ _ L)).
  - lia.
  - exact P0.
  - exact P1.
  - simpl. lia.
  - exact display_config_no_bridge.
  - exact display_config_display.
  - intros io. exists 0%nat. split; [lia|done].
  - exact H.
Defined.
