(* ===== verification/Typing.v ===== *)
(** The kernel's state is well typed, and stays so.

    The model writes machine integers as [Z].  [system_typed] says that what the C++ declares with a
    width keeps it: counters and addresses are in the range of their type, the lock words are 0 or 1,
    what goes to the serial line are bytes, the arrays have their lengths.  [kernel_move] lists what
    the kernel does at its entry points; every one of them leaves a well-typed state well typed.

    Not bounded here are the addresses the kernel computes by pointer arithmetic, [kernelTask] and
    [trapFrame] of a process: the C++ has no value for them once they leave the address space. *)

From Stdlib Require Import Ascii String.
From S2P Require Import Prelude Mem GDT Cpu Spinlock ChunkList PhysMem PageAlloc CpuReady PhysPages Paging PageTables VirtMem MachineSpace PrintfCore PrintfFormat PCI Traps Boot Processor Process Scheduler Devices System Display Interrupts KernelMain.

(** ** Runs that return only what satisfies a predicate *)

Definition ensures {A} (P : A → Prop) (o : outcome A) : Prop :=
  match o with Done a => P a | Stuck _ => True end.

Lemma ensures_bind {A B} (P : A → Prop) (Q : B → Prop) (o : outcome A) (k : A → outcome B) :
  ensures P o → (∀ a, P a → ensures Q (k a)) → ensures Q (o ≫= k).
Proof. destruct o; simpl; auto. Qed.

Lemma ensures_mono {A} (P Q : A → Prop) (o : outcome A) : ensures P o → (∀ a, P a → Q a) → ensures Q o.
Proof. destruct o; simpl; auto. Qed.

Lemma with_this_ensures {A} (Q : A → Prop) e (k : nat → CPUState → outcome A) :
  (∀ i c, CPUs e !! i = Some c → ensures Q (k i c)) → ensures Q (with_this e k).
Proof.
  intros H. unfold with_this. destruct (thisCPU e) as [i|]; [|done].
  destruct (CPUs e !! i) eqn:E; [by apply H|done].
Qed.

Lemma with_slot_ensures {A} (Q : A → Prop) i k (f : ProcessInfo → outcome A) :
  (∀ p, ProcessTable k !! i = Some p → ensures Q (f p)) → ensures Q (with_slot i k f).
Proof. intros H. unfold with_slot. destruct (ProcessTable k !! i) eqn:E; [by apply H|done]. Qed.

Lemma for_each_ensures {A St} (P : St → Prop) (xs : list A) (body : A → St → outcome St) st :
  (∀ x st, P st → ensures P (body x st)) → P st → ensures P (for_each xs body st).
Proof.
  intros Hb. revert st; induction xs as [|x xs IH]; intros st Hst; [done|].
  apply (ensures_bind P); [by apply Hb|]. apply IH.
Qed.

(** ** Types *)

Definition is_word (x : Z) : Prop := 0 ≤ x < 2 ^ 64.
Definition is_int (x : Z) : Prop := - 2 ^ 31 ≤ x < 2 ^ 31.
Definition is_byte (x : Z) : Prop := 0 ≤ x < 2 ^ 8.
Definition is_lock (x : Z) : Prop := x = 0 ∨ x = 1.

Record cpu_typed (c : CPUState) : Prop := {
  ct_apicID : is_int (apicID c);
  ct_cliCount : is_int (cliCount c);
  ct_currentProcess : is_word (currentProcess c);
  ct_interruptStack : is_word (interruptStack c);
  ct_userStack : is_word (userStack c);
  ct_schedulerTask : is_word (schedulerTask c);
  ct_table : length (stackPointers (theTSSEntryItself (table c))) = 3%nat;
}.
Record env_typed (e : cpu_env) : Prop := {
  et_CPUs : Forall cpu_typed (CPUs e);
  et_msr : ∀ i, is_word (msr (this_hw e) i);
}.
Record machine_typed (s : machine) : Prop := {
  mt_held : is_lock (m_held (Memory s));
  mt_freeList : is_word (freeList (Memory s));
  mt_offset : is_word (HigherHalfDirectMapOffset s);
  mt_env : env_typed (env s);
}.
Record process_typed (p : ProcessInfo) : Prop := {
  pt_pageTable : is_word (pageTable p);
  pt_kernelStack : is_word (kernelStack p);
}.
Record kernel_typed (k : kernel) : Prop := {
  kt_machine : machine_typed (hw_state k);
  kt_slots : length (ProcessTable k) = 64%nat;
  kt_processes : Forall process_typed (ProcessTable k);
  kt_lock : is_lock (ProcessTableSpinlock k);
  kt_root : is_word (KernelPageTable k);
}.
Record gate_typed (e : IDTEntry) : Prop := {
  gt_baseLow : 0 ≤ e_baseLow e < 2 ^ 16;
  gt_selector : 0 ≤ e_selector e < 2 ^ 16;
  gt_zero : is_byte (e_zero e);
  gt_flags : is_byte (e_flags e);
  gt_baseMid : 0 ≤ e_baseMid e < 2 ^ 16;
  gt_baseHigh : 0 ≤ e_baseHigh e < 2 ^ 32;
  gt_padding : 0 ≤ e_padding e < 2 ^ 32;
}.
Definition write_typed (w : Z * Z) : Prop := 0 ≤ w.2 < 2 ^ 32.
Definition port_typed (w : Z * Z) : Prop := 0 ≤ w.1 < 2 ^ 16 ∧ is_byte w.2.
Record system_typed (s : system) : Prop := {
  st_kern : kernel_typed (kern s);
  st_log : is_lock (sys_log s);
  st_serial : Forall is_byte (sys_serial s);
  st_IDT : length (IDT s) = 256%nat ∧ Forall gate_typed (IDT s);
  st_idtr : 0 ≤ (idtr s).1 < 2 ^ 16;
  st_lapic : is_word (lapic s) ∧ Forall write_typed (writes (lapic_io s));
  st_ports : Forall port_typed (ports s);
  st_cr3 : is_word (cr3 s);
  st_CPUs_page : is_word (CPUs_page s);
}.

Lemma u64_word x : is_word (u64 x).
Proof. apply uw_range. lia. Qed.
Lemma load64_word m a : is_word (load64 m a).
Proof. apply load64_range. Qed.
Lemma s32_int x : is_int (s32 x).
Proof. unfold is_int, sw. change (2 ^ (32 - 1)) with (2 ^ 31). pose proof (Z.mod_pos_bound (x + 2 ^ 31) (2 ^ 32)). lia. Qed.
Lemma u8_byte x : is_byte (u8 x).
Proof. apply uw_range. lia. Qed.
Lemma zero_word : is_word 0.
Proof. done. Qed.

Create HintDb typing.
#[export] Hint Resolve u64_word load64_word s32_int u8_byte zero_word : typing.
#[export] Hint Constructors cpu_typed env_typed machine_typed process_typed kernel_typed system_typed : typing.

(** ** This processor's record and the locks *)

Lemma put_cpu_typed i c e : cpu_typed c → env_typed e → env_typed (put_cpu i c e).
Proof. intros Hc [H1 H2]. split; [by apply Forall_insert|done]. Qed.
Lemma put_IF_typed b e : env_typed e → env_typed (put_IF b e).
Proof. by intros [H1 H2]. Qed.
Lemma env_typed_lookup e i c : env_typed e → CPUs e !! i = Some c → cpu_typed c.
Proof. intros [H _]. by apply Forall_lookup_1. Qed.
Lemma set_cli_typed n w c : is_int n → cpu_typed c → cpu_typed (set_cli n w c).
Proof. by intros ? []. Qed.

Lemma pushCLI_typed e : env_typed e → ensures env_typed (pushCLI e).
Proof.
  intros He. unfold pushCLI. apply with_this_ensures. intros i c Hi. apply put_cpu_typed; [|by apply put_IF_typed].
  apply set_cli_typed; [auto with typing|]. by eapply env_typed_lookup.
Qed.
Lemma popCLI_typed e : env_typed e → ensures env_typed (popCLI e).
Proof.
  intros He. unfold popCLI. apply with_this_ensures. intros i c Hi. cbn [ensures].
  set (c1 := set_cli _ _ c). assert (env_typed (put_cpu i c1 e)).
  { apply put_cpu_typed; [|done]. apply set_cli_typed; [auto with typing|]. by eapply env_typed_lookup. }
  destruct (_ && _); [by apply put_IF_typed|done].
Qed.

Lemma acquire_typed h e : env_typed e → ensures (λ r, is_lock r.1 ∧ env_typed r.2) (acquire h e).
Proof.
  intros He. unfold acquire. apply (ensures_bind env_typed); [by apply pushCLI_typed|]. intros e1 H1. simpl.
  destruct (h =? 0); [|done]. apply (ensures_bind env_typed); [by apply popCLI_typed|].
  intros e2 H2. split; [by right|done].
Qed.
Lemma release_typed img e :
  env_typed e → ensures (λ r, r.1 = movl_zero img ∧ env_typed r.2) (release img e).
Proof.
  intros He. unfold release. apply (ensures_bind env_typed); [by apply pushCLI_typed|]. intros e1 H1.
  apply (ensures_bind env_typed); [by apply popCLI_typed|]. by intros e2 H2.
Qed.

(** ** The page allocator *)

Lemma set_ram_typed m s : machine_typed s → machine_typed (set_ram m s).
Proof. by intros []. Qed.
Lemma set_env_typed e s : env_typed e → machine_typed s → machine_typed (set_env e s).
Proof. by intros ? []. Qed.
Lemma set_freeList_typed p s : is_word p → machine_typed s → machine_typed (set_freeList p s).
Proof. by intros ? []. Qed.
#[local] Hint Resolve set_ram_typed set_env_typed set_freeList_typed mt_env mt_freeList mt_offset : typing.

Lemma lock_if_used_typed s : machine_typed s → ensures machine_typed (lock_if_used s).
Proof.
  intros Hs. unfold lock_if_used. destruct (usingLock (Memory s)); [|done].
  eapply ensures_bind; [by apply acquire_typed, mt_env|]. intros [h e] [Hh He]. by destruct Hs.
Qed.
Lemma unlock_if_used_typed s : machine_typed s → ensures machine_typed (unlock_if_used s).
Proof.
  intros Hs. unfold unlock_if_used. destruct (usingLock (Memory s)); [|done].
  eapply ensures_bind; [by apply release_typed, mt_env|]. intros [img e] [Himg He]. simpl in Himg. subst img.
  rewrite Memory_release_image by (by apply mt_freeList). destruct Hs. split; try done. by left.
Qed.

Definition returned (r : Z * machine) : Prop := is_word r.1 ∧ machine_typed r.2.

Lemma take_pages_typed m free chunk n : is_word free → is_word (take_pages m free chunk n).2.
Proof. intros Hf. unfold take_pages. repeat case_match; simpl; by auto with typing || apply load64_range. Qed.

Lemma allocate_loop_typed fuel chunk n s :
  machine_typed s → ensures returned (allocate_loop fuel chunk n s).
Proof.
  intros Hs. revert chunk; induction fuel as [|fuel IH]; intros chunk; cbn [allocate_loop];
    (destruct (chunk =? 0); [eapply ensures_bind; [by apply unlock_if_used_typed|]; by intros s1 H1|]);
    (destruct (n <=? _);
      [pose proof (take_pages_typed (ram s) (freeList (Memory s)) chunk n (mt_freeList _ Hs)) as Ht;
       destruct (take_pages _ _ _ _) as [m free]; eapply ensures_bind;
         [apply unlock_if_used_typed; by auto with typing|];
       intros s1 H1; split; [apply u64_word|done]|]).
  - done.
  - apply IH.
Qed.
Lemma allocatePages_typed fuel n s : machine_typed s → ensures returned (allocatePages fuel n s).
Proof.
  intros Hs. eapply ensures_bind; [by apply lock_if_used_typed|]. intros s1 H1. by apply allocate_loop_typed.
Qed.
Lemma freePages_typed fuel b n s : is_word b → machine_typed s → ensures machine_typed (freePages fuel b n s).
Proof.
  intros Hb Hs. eapply ensures_bind; [by apply lock_if_used_typed|]. intros s1 H1. cbv zeta.
  destruct (_ =? 0); [apply unlock_if_used_typed; by auto with typing|].
  eapply (ensures_bind (λ _, True)); [by destruct (find_place _ _ _ _ _)|]. intros [pv nx] _.
  apply unlock_if_used_typed. by auto with typing.
Qed.

(** ** Page tables, over any allocator that keeps an invariant *)

Section tables.
Context {S : Type} {PA : PageAllocator S} (P : S → Prop) (A : Z → Prop).
Context (Hset : ∀ m s, P s → P (pa_set_ram m s)).
Context (Halloc : ∀ s, P s → ensures (λ r, A r.1 ∧ P r.2) (pa_allocatePage s)) (A0 : A 0).

Lemma allocatePageTableForTableEntry_keeps p s :
  P s → ensures (λ r, P r.2) (allocatePageTableForTableEntry p s).
Proof using All.
  intros Hs. unfold allocatePageTableForTableEntry, allocatePageForTableEntry.
  apply (ensures_bind (λ r, P r.2)).
  - eapply ensures_bind; [by apply Halloc|]. intros [a s1] [_ H1]. by case_match; simpl; [|apply Hset].
  - intros [[] s1] H1; simpl; [by apply Hset|done].
Qed.
Lemma ensure_table_keeps p s : P s → ensures P (ensure_table p s).
Proof using All.
  intros Hs. unfold ensure_table. case_match; [|done].
  eapply ensures_bind; [by apply allocatePageTableForTableEntry_keeps|]. by intros [? ?].
Qed.
Lemma map_keeps root va pa s : P s → ensures P (map root va pa s).
Proof using All.
  intros Hs. unfold map. cbv zeta.
  do 3 (eapply ensures_bind; [by apply ensure_table_keeps|]; intros ? ?). by apply Hset.
Qed.
Lemma map_range_keeps fuel root i limit va pa s : P s → ensures P (map_range fuel root i limit va pa s).
Proof using All.
  revert i s; induction fuel as [|fuel IH]; intros i s Hs; cbn [map_range]; (destruct (i <? limit); [|done]);
    [done|]. eapply ensures_bind; [by apply map_keeps|]. intros s1 H1. by apply IH.
Qed.
Lemma allocateRootPageTable_keeps s : P s → ensures (λ r, A r.1 ∧ P r.2) (allocateRootPageTable s).
Proof using All.
  intros Hs. eapply ensures_bind; [by apply Halloc|]. intros [a s1] [Ha H1]. case_match; [done|].
  split; [done|by apply Hset].
Qed.
Lemma shallowCopy_keeps root s : P s → ensures (λ r, A r.1 ∧ P r.2) (shallowCopy root s).
Proof using All.
  intros Hs. eapply ensures_bind; [by apply Halloc|]. intros [a s1] [Ha H1]. split; [done|by apply Hset].
Qed.
Lemma initializeVirtualMemory_keeps fuel max ks ke pb vb s :
  P s → ensures (λ r, A r.1.1 ∧ is_word r.1.2 ∧ P r.2) (initializeVirtualMemory fuel max ks ke pb vb s).
Proof using All.
  intros Hs. eapply ensures_bind; [by apply allocateRootPageTable_keeps|]. intros [root s1] [Ha H1].
  eapply ensures_bind; [by apply map_range_keeps|]. intros s2 H2.
  eapply ensures_bind; [by apply map_range_keeps|]. intros s3 H3.
  eapply (ensures_bind P).
  - apply for_each_ensures; [|done]. intros x s4 H4. unfold preallocate. case_match; [|done].
    eapply ensures_bind; [by apply allocatePageTableForTableEntry_keeps|]. by intros [? ?].
  - intros s4 H4. split; [done|]. split; [apply u64_word|done].
Qed.
End tables.

(** ** Processes and the scheduler *)

Lemma set_hw_typed s k : machine_typed s → kernel_typed k → kernel_typed (set_hw s k).
Proof. by intros ? []. Qed.
Lemma set_slot_typed i p k : process_typed p → kernel_typed k → kernel_typed (set_slot i p k).
Proof. intros Hp []. split; simpl; try done; [by rewrite length_insert|by apply Forall_insert]. Qed.
Lemma set_state_typed st p : process_typed p → process_typed (set_state st p).
Proof. by intros []. Qed.
Lemma kernel_typed_slot k i p : kernel_typed k → ProcessTable k !! i = Some p → process_typed p.
Proof. intros Hk. by apply Forall_lookup_1, kt_processes. Qed.
#[local] Hint Resolve set_hw_typed set_slot_typed set_state_typed kt_machine kernel_typed_slot
  put_cpu_typed put_IF_typed : typing.

Lemma acquire_table_typed k : kernel_typed k → ensures kernel_typed (acquire_table k).
Proof.
  intros Hk. eapply ensures_bind; [by apply acquire_typed, mt_env, kt_machine|]. intros [h e] [Hh He].
  destruct Hk. split; simpl in *; try done. by apply set_env_typed.
Qed.
Lemma release_table_typed k : kernel_typed k → ensures kernel_typed (release_table k).
Proof.
  intros Hk. eapply ensures_bind; [by apply release_typed, mt_env, kt_machine|]. intros [img e] [Himg He].
  simpl in Himg. subst img. destruct Hk. split; simpl in *; try done; [by apply set_env_typed|by left].
Qed.

Section processes.
Context (fuel : nat).
#[local] Hint Extern 0 (PageAllocator machine) => exact (phys_pages fuel) : typeclass_instances.

Lemma phys_alloc_typed s :
  machine_typed s → ensures (λ r, is_word r.1 ∧ machine_typed r.2) (pa_allocatePage s).
Proof using Type. apply allocatePages_typed. Qed.
Lemma phys_set_typed m s : machine_typed s → machine_typed (pa_set_ram m s).
Proof using Type. apply set_ram_typed. Qed.

Lemma allocateProcess_typed TR EP k :
  kernel_typed k → ensures (λ r, kernel_typed r.2) (allocateProcess fuel TR EP k).
Proof using Type.
  intros Hk. eapply ensures_bind; [by apply acquire_table_typed|]. intros k1 H1.
  destruct (find_unused 0 (ProcessTable k1)) as [i|];
    [|eapply ensures_bind; [by apply release_table_typed|]; done].
  eapply ensures_bind; [apply (shallowCopy_keeps machine_typed is_word phys_set_typed phys_alloc_typed);
    [done|by apply kt_machine]|]. intros [copy s1] [Hcopy Hs1]. cbn [fst snd] in *.
  apply with_slot_ensures. intros p Hp.
  assert (Hpt : process_typed p) by (eapply kernel_typed_slot; [|exact Hp]; by apply set_hw_typed).
  eapply ensures_bind.
  { apply release_table_typed, set_slot_typed; [|by apply set_hw_typed]. destruct Hpt. by split. }
  intros k2 H2. eapply ensures_bind; [by apply allocatePages_typed, kt_machine|].
  intros [stack s2] [Hstack Hs2]. cbn [fst snd] in *. destruct (stack =? 0).
  - apply set_slot_typed; [by split|by apply set_hw_typed].
  - destruct (build_stack _ _ _ _) as [[m t] f]. apply set_slot_typed; [by split|].
    by repeat (apply set_hw_typed || apply set_ram_typed).
Qed.

Lemma createFirstProcess_typed TR EP code size k :
  kernel_typed k → ensures kernel_typed (createFirstProcess fuel TR EP code size k).
Proof using Type.
  intros Hk. eapply ensures_bind; [by apply allocateProcess_typed|]. intros [process k1] H1.
  eapply ensures_bind; [by apply allocatePages_typed, kt_machine|]. intros [page s1] [Hpage Hs1].
  cbn [fst snd] in *. cbv zeta. destruct process as [i|]; [|done]. apply with_slot_ensures. intros p Hp.
  eapply ensures_bind; [apply (map_keeps machine_typed is_word phys_set_typed phys_alloc_typed);
    [done|by apply set_ram_typed]|].
  intros s2 H2. eapply ensures_bind; [apply acquire_table_typed; by auto with typing|].
  intros k2 H3. apply release_table_typed, set_slot_typed; [|done]. by apply set_state_typed, (kernel_typed_slot k1 i).
Qed.

Lemma freeProcess_typed i k : kernel_typed k → ensures kernel_typed (freeProcess fuel i k).
Proof using Type.
  intros Hk. eapply ensures_bind; [by apply acquire_table_typed|]. intros k1 H1.
  apply with_slot_ensures. intros p Hp. pose proof (kernel_typed_slot _ _ _ H1 Hp) as Hpt.
  set (k2 := set_slot _ _ k1). assert (H2 : kernel_typed k2) by (by apply set_slot_typed; [destruct Hpt|]).
  eapply (ensures_bind machine_typed);
    [apply freePages_typed; [by apply pt_kernelStack|exact (kt_machine _ H2)]|].
  intros s Hs. by apply release_table_typed, set_hw_typed.
Qed.
End processes.

(** The task that calls the scheduler or leaves it has a stack with room for its context. *)
Definition task_typed (c : task) : Prop := sizeof_KernelContext ≤ t_rsp c < 2 ^ 64.

Lemma Pause_saved c ret to m : (Pause c ret to m).1.1 = t_rsp c - sizeof_KernelContext.
Proof. unfold Pause. simpl. unfold sizeof_KernelContext. lia. Qed.

Lemma select_process_typed at_table p k :
  0 ≤ at_table → at_table + sizeof_ProcessInfo * 64 ≤ 2 ^ 64 → kernel_typed k →
  ensures (λ r, is_word r.1 ∧ kernel_typed r.2) (select_process at_table p k).
Proof.
  intros H0 H1 Hk. apply with_slot_ensures. intros info Hp. apply with_this_ensures. intros i cpu Hi.
  assert (Hlt : (p < 64)%nat) by (rewrite <- (kt_slots k Hk); by eapply lookup_lt_Some).
  split; [apply u64_word|]. cbn [snd]. pose proof (mt_env _ (kt_machine _ Hk)) as He.
  apply set_slot_typed; [by apply set_state_typed, (kernel_typed_slot k p)|].
  apply set_hw_typed; [|done]. apply set_env_typed; [|by apply kt_machine].
  apply put_cpu_typed; [|done]. destruct (env_typed_lookup _ _ _ He Hi). split; try done.
  unfold is_word. simpl. change sizeof_ProcessInfo with 40 in *. lia.
Qed.

Lemma switch_to_typed c ret p k :
  task_typed c → kernel_typed k → ensures (λ r, kernel_typed r.2) (switch_to c ret p k).
Proof.
  intros Hc Hk. apply with_slot_ensures. intros info Hp. apply with_this_ensures. intros i cpu Hi.
  pose proof (Pause_saved c ret (kernelTask info) (ram (hw_state k))) as Hsaved.
  destruct (Pause _ _ _ _) as [[saved m] next]. simpl in Hsaved. subst saved.
  pose proof (mt_env _ (kt_machine _ Hk)) as He.
  apply set_hw_typed; [|done]. apply set_env_typed; [|by apply set_ram_typed, kt_machine].
  apply put_cpu_typed; [|done]. destruct (env_typed_lookup _ _ _ He Hi). split; try done.
  unfold is_word, task_typed in *. change sizeof_KernelContext with 56 in *. simpl. lia.
Qed.

Lemma enterScheduler_typed at_table c ret k :
  kernel_typed k → ensures (λ r, kernel_typed r.2) (enterSchedulerFromProcess at_table c ret k).
Proof.
  intros Hk. apply with_this_ensures. intros i cpu Hi. case_match; [done|].
  apply with_slot_ensures. intros info Hp. destruct (Pause _ _ _ _) as [[saved m] next].
  apply set_slot_typed; [|by apply set_hw_typed; [apply set_ram_typed, kt_machine|]].
  by destruct (kernel_typed_slot _ _ _ Hk Hp).
Qed.

Lemma exitCurrentProcess_typed fuel at_table c ret k :
  kernel_typed k → ensures (λ r, kernel_typed r.2) (exitCurrentProcess fuel at_table c ret k).
Proof.
  intros Hk. apply with_this_ensures. intros i cpu Hi. cbv zeta.
  eapply ensures_bind; [by apply freeProcess_typed|]. intros k1 H1. by apply enterScheduler_typed.
Qed.

(** ** The console *)

Lemma on_wire_bytes cs : Forall is_byte (on_wire cs).
Proof.
  apply Forall_forall. intros b (c & Hb & _)%list_elem_of_bind. revert b Hb. apply Forall_forall.
  repeat case_match; repeat apply Forall_cons_2; try apply Forall_nil_2; try apply u8_byte; done.
Qed.

Lemma logfn_Done format va s n s' :
  logfn format va s = Done (n, s') → ∃ cs, serial s' = serial s ++ on_wire cs.
Proof.
  intros (s0 & E1 & E)%outcome_bind_Done. unfold lockLog in E1.
  apply outcome_bind_Done in E1 as ([h e1] & _ & [= <-]).
  destruct (printed format va) as [cs|w] eqn:Hp.
  - pose proof (printf_feed _putchar format va cs (serial s) Hp) as Hf. unfold printf_ in Hf.
    cbn [serial] in E. rewrite Hf in E. cbn [mbind outcome_bind] in E.
    apply outcome_bind_Done in E as (s1 & E & [= _ <-]).
    unfold unlockLog in E. apply outcome_bind_Done in E as ([img e2] & _ & [= <-]).
    exists cs. apply feed_putchar.
  - exfalso. unfold _vsnprintf in E. change (local_buffer =? 0) with false in E.
    rewrite format_loop_text, Hp in E by (split; simpl; lia). done.
Qed.

Lemma logfn_typed format va s :
  env_typed (con_env s) →
  ensures (λ r, is_lock (logLock r.2) ∧ env_typed (con_env r.2)) (logfn format va s).
Proof.
  intros He. unfold logfn, lockLog, unlockLog.
  eapply (ensures_bind (λ s, env_typed (con_env s))).
  { eapply ensures_bind; [by apply acquire_typed|]. by intros [h e] [_ H]. }
  intros s1 H1. eapply (ensures_bind (λ _, True)); [by destruct (_vsnprintf _ _ _ _ _ _)|].
  intros [n out] _. eapply (ensures_bind (λ s, is_lock (logLock s) ∧ env_typed (con_env s))); [|done].
  eapply ensures_bind; [by apply release_typed|]. intros [img e] [Himg H]. simpl in Himg. subst img.
  split; [by left|done].
Qed.

(** ** The system *)

Lemma set_kern_typed k s : kernel_typed k → system_typed s → system_typed (set_kern k s).
Proof. by intros ? []. Qed.
Lemma set_mach_typed m s : machine_typed m → system_typed s → system_typed (set_mach m s).
Proof. intros Hm Hs. apply set_kern_typed; [|done]. by apply set_hw_typed, st_kern. Qed.
Lemma mach_typed s : system_typed s → machine_typed (mach s).
Proof. intros Hs. by apply kt_machine, st_kern. Qed.
Lemma sys_env_typed s : system_typed s → env_typed (env (mach s)).
Proof. intros Hs. by apply mt_env, mach_typed. Qed.
Lemma set_sys_env_typed e s : env_typed e → system_typed s → system_typed (set_sys_env e s).
Proof. intros He Hs. apply set_mach_typed; [|done]. by apply set_env_typed, mach_typed. Qed.
Lemma set_memory_typed m s : system_typed s → system_typed (set_memory m s).
Proof. intros Hs. apply set_mach_typed; [|done]. by apply set_ram_typed, mach_typed. Qed.

Lemma set_console_typed c s :
  is_lock (logLock c) → Forall is_byte (serial c) → env_typed (con_env c) → system_typed s →
  system_typed (set_console c s).
Proof.
  intros Hl Hb He Hs. pose proof (mach_typed s Hs) as Hm. destruct Hs as [Hk]. split; simpl; try done.
  by apply set_hw_typed; [apply set_env_typed|].
Qed.

Lemma log_args_typed format va s : system_typed s → ensures system_typed (log_args format va s).
Proof.
  intros Hs. unfold log_args. destruct (logfn _ _ _) as [[n c]|] eqn:E; [|done].
  pose proof (logfn_typed format va (sys_console s) (sys_env_typed s Hs)) as H. rewrite E in H.
  destruct H as [Hl He]. destruct (logfn_Done _ _ _ _ _ E) as [cs Hser]. apply set_console_typed; [done| |done..].
  rewrite Hser. apply Forall_app. split; [by apply st_serial|apply on_wire_bytes].
Qed.
Lemma log_typed format va s : system_typed s → ensures system_typed (log format va s).
Proof. apply log_args_typed. Qed.

(** One step of a handler whose parts keep the type. *)
Ltac typed_step :=
  eapply (ensures_bind system_typed);
  [match goal with
   | |- ensures _ (log _ _ _) => apply log_typed; assumption
   | |- ensures _ (log_args _ _ _) => apply log_args_typed; assumption
   | |- _ => idtac
   end|intros ? ?].

Lemma dumpRegisters_typed f s : system_typed s → ensures system_typed (dumpRegisters f s).
Proof. intros Hs. unfold dumpRegisters. do 4 typed_step. by apply log_typed. Qed.
Lemma panic_typed why f s : system_typed s → ensures system_typed (PanicExclamationExclamation why f s).
Proof.
  intros Hs. unfold PanicExclamationExclamation. typed_step. typed_step; [by apply dumpRegisters_typed|]. apply set_sys_env_typed; [|done].
  by apply put_IF_typed, sys_env_typed.
Qed.

Lemma set_lapic_typed p io s :
  is_word p → Forall write_typed (writes io) → system_typed s → system_typed (set_lapic p io s).
Proof. by intros ?? []. Qed.
Lemma writeLAPIC_typed register i v s :
  Forall write_typed (writes s) → Forall write_typed (writes (writeLAPIC register i v s)).
Proof. intros Hs. apply Forall_cons_2; [|done]. apply (uw_range 32). lia. Qed.

(** Where an interrupt returns to: registers and a context that fit the processor. *)
Definition registers_typed (r : registers) : Prop := Forall is_word (reg_words r).
Definition after_typed (a : after_trap) : Prop :=
  match a with
  | ToContext r c => registers_typed r ∧ Forall is_word (context_words c)
  | _ => True
  end.
Definition trap_typed (r : option after_trap * system) : Prop :=
  after_typed (default HaltedForever r.1) ∧ system_typed r.2.

Lemma TrapRet_typed frame m :
  registers_typed (TrapRet frame m).1 ∧ Forall is_word (context_words (TrapRet frame m).2).
Proof. split; repeat apply Forall_cons_2; try apply Forall_nil_2; try apply load64_word; done. Qed.

Section traps.
Context (img : image) (register : lapic_state → Z → Z) (chunks : nat) (c : task) (ret : Z).

Lemma run_effect_typed f eff s :
  system_typed s → ensures trap_typed (run_effect img register chunks c ret f eff s).
Proof using Type.
  intros Hs. destruct eff; simpl.
  - destruct (st_lapic s Hs) as [Hp Hw]. unfold acknowledgeInterrupt. split; [done|].
    apply set_lapic_typed; [exact Hp|apply writeLAPIC_typed; exact Hw|exact Hs].
  - eapply ensures_bind; [by apply exitCurrentProcess_typed, st_kern|]. intros [next k] Hk.
    split; [done|by apply set_kern_typed].
  - typed_step; [by apply panic_typed|done].
  - by typed_step.
  - by typed_step.
Qed.
Lemma run_effects_typed f effs s :
  system_typed s → ensures trap_typed (run_effects img register chunks c ret f effs s).
Proof using Type.
  revert s; induction effs as [|eff effs IH]; intros s Hs; [done|]. cbn [run_effects].
  eapply ensures_bind; [by apply run_effect_typed|]. intros [[a|] s1] [H1 H2]; [done|by apply IH].
Qed.

Lemma TrapCommon_typed frame s :
  system_typed s →
  ensures (λ r, after_typed r.1 ∧ system_typed r.2) (TrapCommon img register chunks c ret frame s).
Proof using Type.
  intros Hs. unfold TrapCommon. cbv zeta. eapply (ensures_bind (λ _, True)); [by destruct (TrapHandler _ _)|].
  intros effs _. eapply ensures_bind; [by apply run_effects_typed|].
  intros [[a|] s1] [Ha H1]; [done|]. destruct (TrapRet_typed frame (ram (mach s1))) as [Hr Hc].
  destruct (TrapRet _ _) as [r ctx]. split; [done|]. cbn [snd iretq].
  apply set_sys_env_typed; [|done]. by apply put_IF_typed, sys_env_typed.
Qed.

Lemma interrupt_typed st v err ctx r sp s :
  system_typed s →
  ensures (λ r, after_typed r.1 ∧ system_typed r.2) (interrupt img register chunks c ret st v err ctx r sp s).
Proof using Type.
  intros Hs. unfold interrupt. cbv zeta. destruct (trap_entry _ _ _ _ _ _ _) as [frame m].
  apply TrapCommon_typed, set_memory_typed, set_sys_env_typed; [|done]. by apply put_IF_typed, sys_env_typed.
Qed.

Lemma syscall_typed r user_rsp s :
  is_word user_rsp → system_typed s →
  ensures (λ x, registers_typed x.1.1 ∧ is_word x.1.2 ∧ system_typed x.2)
    (syscall img register chunks c ret r user_rsp s).
Proof using Type.
  intros Hu Hs. pose proof (sys_env_typed s Hs) as He. unfold syscall.
  apply with_this_ensures. intros i cpu Hi. unfold syscall_entry.
  destruct (push_all _ _ _) as [sp m]. cbv beta iota zeta. set (cpu1 := {| apicID := _ |}).
  eapply ensures_bind.
  { apply run_effects_typed, set_memory_typed, set_sys_env_typed; [|done]. apply put_cpu_typed; [|done].
    by destruct (env_typed_lookup _ _ _ He Hi). }
  intros [a s1] [_ H1]. apply with_this_ensures. intros j cpu2 Hj. cbn [fst snd syscall_exit].
  split; [apply (proj1 (TrapRet_typed sp (ram (mach s1))))|]. split; [|done].
  by destruct (env_typed_lookup _ _ _ (sys_env_typed s1 H1) Hj).
Qed.

(** The first program runs on a typed state of the processor, and leaves one. *)
Record user_typed (u : user_state) : Prop := {
  ut_rip : is_word (u_rip u);
  ut_regs : registers_typed (u_regs u);
  ut_rsp : is_word (u_rsp u);
  ut_rflags : is_word (u_rflags u);
}.
Lemma user_step_typed len instr u s :
  (∀ v, instr = mov_rax v → is_word v) → user_typed u → system_typed s →
  ensures (λ x, user_typed x.1 ∧ system_typed x.2) (user_step img register chunks c ret len instr u s).
Proof using Type.
  intros Hi [H1 H2 H3 H4] Hs. unfold user_step. cbv zeta. destruct instr as [|v|].
  - split; [|done]. split; [apply u64_word|done..].
  - split; [|done]. split; simpl; [apply u64_word| |done..].
    specialize (Hi v eq_refl). unfold registers_typed, reg_words in *. cbn [u_regs fst] in *. simpl in *.
    repeat match goal with H : Forall _ (_ :: _) |- _ => apply Forall_cons in H as [? H] end.
    repeat apply Forall_cons_2; try apply Forall_nil_2; assumption.
  - eapply ensures_bind; [by apply syscall_typed|]. intros [[r rsp] s1] (Hr & Hrsp & Hs1).
    split; [|done]. cbn [fst snd] in *. unfold registers_typed in Hr. pose proof Hr as Hw.
    rewrite Forall_forall in Hw. split; simpl; try done; apply Hw; unfold reg_words;
      rewrite !elem_of_cons; tauto.
Qed.
End traps.

(** ** From the boot loader to the scheduler *)

Lemma outb_typed port v s : system_typed s → system_typed (outb port v s).
Proof.
  intros []. split; simpl; try done. apply Forall_app. split; [done|]. apply Forall_singleton.
  split; [apply (uw_range 16); lia|apply u8_byte].
Qed.
Lemma set_cr3_typed v s : is_word v → system_typed s → system_typed (set_cr3 v s).
Proof. by intros ? []. Qed.
Lemma set_segments_typed r s : system_typed s → system_typed (set_segments r s).
Proof. by intros []. Qed.
Lemma set_smp_typed page infos s : is_word page → system_typed s → system_typed (set_smp page infos s).
Proof. by intros ? []. Qed.
Lemma set_root_typed root s : is_word root → system_typed s → system_typed (set_root root s).
Proof. intros Hr Hs. pose proof (st_kern s Hs) as []. by apply set_kern_typed. Qed.

Lemma lor_range k a b : 0 ≤ k → 0 ≤ a < 2 ^ k → 0 ≤ b < 2 ^ k → 0 ≤ Z.lor a b < 2 ^ k.
Proof.
  intros Hk Ha Hb. replace (Z.lor a b) with (uw k (Z.lor a b)); [by apply uw_range|].
  rewrite uw_ones, Z.land_lor_distr_l, <- !uw_ones, !uw_small by done. done.
Qed.

Lemma setGate_typed handler flags user :
  is_byte flags → gate_typed (setGate handler off_kernelCode flags user).
Proof.
  intros Hf. unfold setGate. rewrite (land_ffff handler), (land_ffff (Z.shiftr handler 16)), land_ffffffff.
  split; cbn; try (apply uw_range; lia); try done. destruct user; [|done].
  by apply lor_range.
Qed.
Lemma setupIDTTable_typed isr irq t :
  length t = 256%nat ∧ Forall gate_typed t →
  length (setupIDTTable isr irq t) = 256%nat ∧ Forall gate_typed (setupIDTTable isr irq t).
Proof.
  unfold setupIDTTable. generalize (gates isr irq). intros gs. revert t.
  induction gs as [|[[v handler] user] gs IH]; intros t [Hl Ht]; [done|]. simpl. apply IH.
  split; [by rewrite length_insert|]. apply Forall_insert; [done|]. by apply setGate_typed.
Qed.
Lemma set_idt_typed t r s :
  length t = 256%nat ∧ Forall gate_typed t → 0 ≤ r.1 < 2 ^ 16 → system_typed s → system_typed (set_idt t r s).
Proof. by intros ?? []. Qed.

Definition msrs_typed (r : msrs) : Prop := ∀ i, is_word (r i).
Lemma set_msr_typed r i v : is_word v → msrs_typed r → msrs_typed (set_msr r i v).
Proof. intros Hv Hr j. unfold set_msr. by case_match. Qed.
Lemma cpuSetMSR_typed r i lo hi : msrs_typed r → msrs_typed (cpuSetMSR r i lo hi).
Proof.
  apply set_msr_typed. pose proof (uw_range 32 lo ltac:(lia)). pose proof (uw_range 32 hi ltac:(lia)).
  unfold is_word. lia.
Qed.
Lemma syscall_msrs_typed r this handler :
  msrs_typed r → msrs_typed (setStarRegister (setSyscallRIP (setKernelGSBase r this) handler)).
Proof.
  intros Hr. apply cpuSetMSR_typed, cpuSetMSR_typed.
  assert (H : msrs_typed (setKernelGSBase r this)).
  { unfold setKernelGSBase, swapgs. pose proof (cpuSetMSR_typed r 0xC0000101 this (Z.shiftr this 32) Hr) as H1.
    pose proof (cpuSetMSR_typed _ 0xC0000102 this (Z.shiftr this 32) H1) as H2.
    by do 2 (apply set_msr_typed; [by apply H2|]). }
  apply set_msr_typed; [|exact H]. set (v := setKernelGSBase r this _).
  apply lor_range; [done|apply H|done].
Qed.
Lemma set_msrs_typed m e : msrs_typed m → env_typed e → env_typed (set_msrs m e).
Proof. by intros ? []. Qed.

Lemma Table_init_pointers this stack t :
  length (stackPointers (theTSSEntryItself (Table_init this stack t))) =
    length (stackPointers (theTSSEntryItself t)).
Proof. apply length_insert. Qed.

Lemma prepare_processor_typed chunks page handler r s :
  machine_typed s → ensures (λ x, machine_typed x.2) (prepare_processor chunks page handler r s).
Proof.
  intros Hs. eapply ensures_bind; [by apply allocatePages_typed|]. intros [stack s1] [Hst H1].
  cbn [fst snd] in *. apply with_this_ensures. intros i c Hi. destruct (stack =? 0); [done|]. cbv zeta.
  pose proof (mt_env _ H1) as He. apply set_env_typed; [|done]. apply set_msrs_typed.
  - apply syscall_msrs_typed. exact (et_msr _ He).
  - apply put_cpu_typed; [|done]. destruct (env_typed_lookup _ _ _ He Hi). split; try done.
    cbn [table set_table]. by rewrite Table_init_pointers.
Qed.

Lemma initializeProcessors_typed chunks infos bsp address s :
  machine_typed s →
  ensures (λ x, is_word x.1.1 ∧ machine_typed x.2) (initializeProcessors chunks infos bsp address s).
Proof.
  intros Hs. eapply ensures_bind; [by apply allocatePages_typed|]. intros [page s1] [Hp [? ? ? [? ?]]].
  split; [done|]. split; simpl; try done. split; [|done]. apply Forall_fmap, Forall_true.
  intros info. split; simpl; try done. apply s32_int.
Qed.

Lemma memory_map_typed chunks offset entries s :
  is_word offset → machine_typed s →
  ensures (λ x, machine_typed x.2) (initByAddingUsablePagesToMemoryManagement chunks offset entries s).
Proof.
  intros Ho [? ? ? He]. apply (for_each_ensures (λ x : Z * machine, machine_typed x.2)).
  - intros e [max s1] H1. unfold add_entry. cbv zeta. case_match; [|done].
    eapply ensures_bind; [apply freePages_typed; [apply u64_word|exact H1]|]. done.
  - split; simpl; try done. by left.
Qed.

Section boot.
Context (img : image) (config : Z → Z) (register : lapic_state → Z → Z).
Context (chunks pages polls bridges turns : nat).
#[local] Hint Extern 0 (PageAllocator machine) => exact (phys_pages chunks) : typeclass_instances.

(** What the linker and the boot loader give are addresses. *)
Record image_typed : Prop := {
  it_table : 0 ≤ at_ProcessTable img ∧ at_ProcessTable img + sizeof_ProcessInfo * 64 ≤ 2 ^ 64;
}.
Definition boot_info_typed (info : boot_info) : Prop := ∀ offset, bi_hhdm info = Some offset → is_word offset.

Lemma report_device_typed dev vid did s :
  system_typed s → ensures system_typed (report_device config dev vid did s).
Proof using Type.
  intros Hs. unfold report_device. typed_step. case_match; [|done]. typed_step. cbv zeta.
  typed_step; [apply log_typed, set_mach_typed; [by apply set_ram_typed, mach_typed|done]|].
  by apply log_typed.
Qed.

Lemma scan_devices_typed s : system_typed s → ensures system_typed (scan_devices config bridges s).
Proof using Type.
  intros Hs. unfold scan_devices. destruct (scan _ _ _ _ _) as [r|] eqn:E; [|done]. cbn [mbind outcome_bind].
  refine (scan_keeps config _ (-1) (ensures system_typed) _ bridges (Done s) r Hs E).
  intros bus slot func st _ _ _ _ Hst. unfold scanHit. eapply ensures_bind; [exact Hst|].
  intros s1 H1. by apply report_device_typed.
Qed.

Lemma with_msr_typed f s : (∀ r, msrs_typed r → msrs_typed (f r)) → system_typed s → system_typed (with_msr f s).
Proof using Type.
  intros Hf Hs. apply set_sys_env_typed; [|done]. pose proof (sys_env_typed s Hs) as He.
  apply set_msrs_typed; [|done]. exact (Hf _ (et_msr _ He)).
Qed.
Lemma setAPICBase_typed s : system_typed s → system_typed (setAPICBase_default s).
Proof using Type. apply with_msr_typed. intros r. apply cpuSetMSR_typed. Qed.

Lemma initLAPIC_typed s :
  Forall write_typed (writes s) → ensures (λ s, Forall write_typed (writes s)) (initLAPIC register polls s).
Proof using Type.
  intros Hs. unfold initLAPIC. cbn [readLAPIC].
  eapply (ensures_bind (λ s, Forall write_typed (writes s))); [|intros s1 H1; by apply writeLAPIC_typed].
  assert (Hw : ∀ n s, Forall write_typed (writes s) →
    ensures (λ s, Forall write_typed (writes s)) (wait_delivery register n s)).
  { clear. induction n as [|n IH]; intros s Hs; cbn [wait_delivery readLAPIC]; (case_match; [done|]);
      [done|by apply IH]. }
  apply Hw. do 6 apply writeLAPIC_typed. case_match; [apply writeLAPIC_typed|]; cbn [writes];
    by repeat apply writeLAPIC_typed.
Qed.
Lemma start_lapic_typed s :
  system_typed s →
  ensures system_typed (io ← initLAPIC register polls (lapic_io s); Done (set_lapic (lapic s) io s)).
Proof using Type.
  intros Hs. destruct (st_lapic s Hs) as [Hp Hw]. eapply ensures_bind; [by apply initLAPIC_typed|].
  intros io Hio. by apply set_lapic_typed.
Qed.

Lemma prepare_main_typed s : system_typed s → ensures system_typed (prepare_main img config chunks bridges s).
Proof using Type.
  intros Hs. unfold prepare_main. typed_step. eapply ensures_bind; [by apply prepare_processor_typed, mach_typed|].
  intros [r m] Hm. cbv zeta. cbn [snd] in Hm. set (s1 := set_idt _ _ _).
  assert (H1 : system_typed s1).
  { assert (H2 : system_typed (set_segments r (set_mach m a))) by (by apply set_segments_typed, set_mach_typed).
    apply set_idt_typed; [exact (st_IDT _ H2)|apply (uw_range 16); lia|done]. }
  eapply ensures_bind; [by apply popCLI_typed, sys_env_typed|]. intros e He.
  typed_step; [apply scan_devices_typed; by apply set_sys_env_typed|]. by apply log_typed.
Qed.

Lemma other_main_typed s : system_typed s → ensures system_typed (other_main register polls s).
Proof using Type.
  intros Hs. unfold other_main. cbv zeta.
  apply start_lapic_typed, setAPICBase_typed, set_cr3_typed; [apply u64_word|done].
Qed.

Lemma early_main_typed info s :
  boot_info_typed info → system_typed s → ensures system_typed (early_main img chunks pages info s).
Proof using Type.
  intros Hi Hs. unfold early_main. eapply (ensures_bind (λ _, True));
    [by destruct (checkThatLimineGaveUsEverythingWeNeed _ _ _ _)|]. intros _ _.
  destruct (bi_memmap info) as [memmap|]; [|done]. destruct (bi_hhdm info) as [offset|] eqn:Ho; [|done].
  destruct (bi_kernel_address info) as [[pb vb]|]; [|done]. destruct (bi_smp info) as [[infos bsp]|]; [|done].
  eapply ensures_bind; [apply memory_map_typed; [by apply Hi|by apply mach_typed]|]. intros [max m] Hm.
  cbn [snd] in Hm.
  eapply ensures_bind.
  { apply (initializeVirtualMemory_keeps machine_typed is_word (phys_set_typed chunks) (phys_alloc_typed chunks));
      [done|exact Hm]. }
  intros [[root cr3] m1] (Hroot & Hcr3 & Hm1). cbn [fst snd] in *. cbv zeta.
  set (s1 := set_cr3 cr3 _). assert (H1 : system_typed s1)
    by (by apply set_cr3_typed, set_root_typed, set_mach_typed).
  set (s2 := set_console _ s1). assert (H2 : system_typed s2).
  { apply set_console_typed; [by left|exact (st_serial _ H1)|exact (sys_env_typed _ H1)|done]. }
  set (s3 := setLAPICAddress _). assert (H3 : system_typed s3).
  { pose proof (setAPICBase_typed s2 H2) as H. apply set_lapic_typed;
      [apply u64_word|exact (proj2 (st_lapic _ H))|exact H]. }
  set (s4 := set_idt _ _ s3). assert (H4 : system_typed s4).
  { apply set_idt_typed; [apply setupIDTTable_typed; exact (st_IDT _ H3)|exact (st_idtr _ H3)|exact H3]. }
  eapply ensures_bind; [by apply initializeProcessors_typed, mach_typed|]. intros [[page infos'] m2] [Hp Hm2].
  cbn [fst snd] in *. by apply outb_typed, outb_typed, set_smp_typed, set_mach_typed.
Qed.

Lemma first_main_typed info s :
  boot_info_typed info → system_typed s →
  ensures system_typed (first_main img register chunks pages polls info s).
Proof using Type.
  intros Hi Hs. unfold first_main. typed_step; [by apply early_main_typed|].
  pose proof (start_lapic_typed _ ltac:(eassumption)) as Hl. destruct (initLAPIC _ _ _) as [io|]; [|done].
  cbn [mbind outcome_bind ensures] in *. cbv zeta.
  eapply ensures_bind; [by apply createFirstProcess_typed, st_kern|]. intros k Hk. by apply set_kern_typed.
Qed.

Lemma take_table_typed s : system_typed s → ensures system_typed (take_table s).
Proof using Type.
  intros Hs. unfold take_table. cbv zeta. set (s1 := set_sys_env _ s).
  assert (H1 : system_typed s1) by (by apply set_sys_env_typed; [apply put_IF_typed, sys_env_typed|]).
  eapply ensures_bind; [by apply acquire_table_typed, st_kern|]. intros k Hk. by apply set_kern_typed.
Qed.
Lemma forget_process_typed s : system_typed s → ensures system_typed (forget_process s).
Proof using Type.
  intros Hs. pose proof (sys_env_typed s Hs) as He. unfold forget_process.
  apply with_this_ensures. intros i cpu Hi. apply set_sys_env_typed; [|done]. apply put_cpu_typed; [|done].
  by destruct (env_typed_lookup _ _ _ He Hi).
Qed.
Lemma hand_over_typed c ret p s :
  image_typed → task_typed c → system_typed s → ensures (λ r, system_typed r.2) (hand_over img c ret p s).
Proof using Type.
  intros [[T0 T1]] Hc Hs. unfold hand_over. typed_step.
  eapply ensures_bind; [by apply select_process_typed; [..|by apply st_kern]|]. intros [v k] [Hv Hk].
  cbn [fst snd] in *. typed_step; [by apply log_typed, set_cr3_typed, set_kern_typed|].
  eapply ensures_bind; [by apply switch_to_typed; [|by apply st_kern]|]. intros [next k'] Hk'. by apply set_kern_typed.
Qed.
Lemma schedule_turn_typed c ret s :
  image_typed → task_typed c → system_typed s →
  ensures (λ r, system_typed r.2) (schedule_turn img turns c ret s).
Proof using Type.
  intros Hi Hc Hs. unfold schedule_turn. typed_step; [by apply take_table_typed|].
  eapply (ensures_bind (λ _, True)); [by destruct (find_runnable _ _ _)|]. intros [p|] _.
  - eapply ensures_bind; [by apply hand_over_typed|]. by intros [next s1].
  - eapply ensures_bind; [by apply release_table_typed, st_kern|]. intros k Hk. by apply set_kern_typed.
Qed.
End boot.

(** ** Several processors

    What each processor has of its own; the rest of [system] they share. *)

Record own := {
  o_hw : hw; o_cr3 : Z; o_segments : SegmentRegisters; o_idtr : Z * Z; o_lapic_io : lapic_state;
}.
Definition own_of (s : system) : own :=
  {| o_hw := this_hw (env (mach s)); o_cr3 := cr3 s; o_segments := segments s; o_idtr := idtr s;
     o_lapic_io := lapic_io s |}.
Definition on_processor (o : own) (s : system) : system :=
  set_lapic (lapic s) (o_lapic_io o) (set_idt (IDT s) (o_idtr o) (set_segments (o_segments o)
    (set_cr3 (o_cr3 o) (set_sys_env {| CPUs := CPUs (env (mach s)); this_hw := o_hw o |} s)))).
Record multi := { shared_system : system; owns : list own }.

Record own_typed (o : own) : Prop := {
  ot_msr : msrs_typed (msr (o_hw o));
  ot_cr3 : is_word (o_cr3 o);
  ot_idtr : 0 ≤ (o_idtr o).1 < 2 ^ 16;
  ot_lapic : Forall write_typed (writes (o_lapic_io o));
}.
Record multi_typed (m : multi) : Prop := {
  mlt_system : system_typed (shared_system m);
  mlt_owns : Forall own_typed (owns m);
}.

Lemma own_of_typed s : system_typed s → own_typed (own_of s).
Proof.
  intros Hs. split; [exact (et_msr _ (sys_env_typed s Hs))|exact (st_cr3 s Hs)|exact (st_idtr s Hs)|].
  exact (proj2 (st_lapic s Hs)).
Qed.
Lemma on_processor_typed o s : own_typed o → system_typed s → system_typed (on_processor o s).
Proof.
  intros [H1 H2 H3 H4] Hs. pose proof (sys_env_typed s Hs) as He.
  apply set_lapic_typed; [exact (proj1 (st_lapic s Hs))|exact H4|].
  apply set_idt_typed; [exact (st_IDT s Hs)|exact H3|]. apply set_segments_typed, set_cr3_typed; [done|].
  apply set_sys_env_typed; [|done]. split; [exact (et_CPUs _ He)|exact H1].
Qed.

(** ** What the kernel does at its entry points *)

Section moves.
Context (img : image) (config : Z → Z) (register : lapic_state → Z → Z).
Context (chunks pages polls bridges turns : nat).

Lemma schedule_typed c ret s :
  image_typed img → task_typed c → system_typed s →
  ensures (λ r, system_typed r.2) (schedule img turns c ret s).
Proof using Type.
  intros Hi Hc Hs. unfold schedule. typed_step; [by apply forget_process_typed|].
  generalize dependent a. generalize turns at 2. intros n. induction n as [|n IH]; intros a Ha; [done|].
  cbn [schedule_loop]. eapply ensures_bind; [by apply schedule_turn_typed|].
  intros [[next|] s1] H1; [done|by apply IH].
Qed.
Lemma SharedMain_typed c ret s :
  image_typed img → task_typed c → system_typed s →
  ensures (λ r, system_typed r.2) (SharedMain img config chunks bridges turns c ret s).
Proof using Type.
  intros Hi Hc Hs. unfold SharedMain. typed_step; [by apply prepare_main_typed|]. by apply schedule_typed.
Qed.

(** The program, the processors that start, interrupts and system calls; [move_memory] is what user
    code and devices store. *)
Inductive kernel_move (s : system) : system → Prop :=
  | move_KernelMain c ret info next s' :
      boot_info_typed info → task_typed c →
      KernelMain.KernelMain img config register chunks pages polls bridges turns c ret info s = Done (next, s') →
      kernel_move s s'
  | move_OtherProcessorMain c ret next s' :
      task_typed c →
      OtherProcessorMain img config register chunks polls bridges turns c ret s = Done (next, s') →
      kernel_move s s'
  | move_schedule_turn c ret next s' :
      task_typed c → schedule_turn img turns c ret s = Done (next, s') → kernel_move s s'
  | move_ProcessEntryPoint t rip rsp s' :
      KernelMain.ProcessEntryPoint t s = Done (rip, rsp, s') → kernel_move s s'
  | move_interrupt c ret st v err ctx r sp after s' :
      interrupt img register chunks c ret st v err ctx r sp s = Done (after, s') → kernel_move s s'
  | move_syscall c ret r user_rsp r' rsp s' :
      is_word user_rsp → syscall img register chunks c ret r user_rsp s = Done (r', rsp, s') →
      kernel_move s s'
  | move_log format va s' : log_args format va s = Done s' → kernel_move s s'
  | move_memory m : kernel_move s (set_memory m s).

Lemma ensures_Done {A} (P : A → Prop) (o : outcome A) a : ensures P o → o = Done a → P a.
Proof using Type. by intros H ->. Qed.

Lemma kernel_move_typed s s' : image_typed img → system_typed s → kernel_move s s' → system_typed s'.
Proof using Type.
  intros Hi Hs [c ret info next s1 Hinfo Hc E|c ret next s1 Hc E|c ret next s1 Hc E|t rip rsp s1 E
    |c ret st v err ctx r sp after s1 E|c ret r user_rsp r' rsp s1 Hu E|format va s1 E|m].
  - revert E. apply (ensures_Done (λ x, system_typed x.2)). unfold KernelMain.KernelMain.
    typed_step; [by apply first_main_typed|]. by apply SharedMain_typed.
  - revert E. apply (ensures_Done (λ x, system_typed x.2)). unfold OtherProcessorMain.
    typed_step; [by apply other_main_typed|]. by apply SharedMain_typed.
  - exact (ensures_Done _ _ _ (schedule_turn_typed img turns c ret s Hi Hc Hs) E).
  - unfold KernelMain.ProcessEntryPoint in E. apply outcome_bind_Done in E as (k & E & [= _ _ <-]).
    apply set_kern_typed; [|done]. exact (ensures_Done _ _ _ (release_table_typed _ (st_kern _ Hs)) E).
  - exact (proj2 (ensures_Done _ _ _ (interrupt_typed img register chunks c ret st v err ctx r sp s Hs) E)).
  - exact (proj2 (proj2 (ensures_Done _ _ _ (syscall_typed img register chunks c ret r user_rsp s Hu Hs) E))).
  - exact (ensures_Done _ _ _ (log_args_typed format va s Hs) E).
  - by apply set_memory_typed.
Qed.

(** Any number of processors, which take turns; each move is one processor's. *)
Inductive multi_move : multi → multi → Prop :=
  | move_of i o s os s' :
      os !! i = Some o → kernel_move (on_processor o s) s' →
      multi_move {| shared_system := s; owns := os |}
                 {| shared_system := s'; owns := <[i := own_of s']> os |}.


(** And what goes back to interrupted code, or to the caller of a system call, fits the processor's
    registers. *)
Theorem returns_are_typed s :
  system_typed s →
  (∀ c ret st v err ctx r sp r' ctx' s',
     interrupt img register chunks c ret st v err ctx r sp s = Done (ToContext r' ctx', s') →
     registers_typed r' ∧ Forall is_word (context_words ctx')) ∧
  (∀ c ret r user_rsp r' rsp s',
     is_word user_rsp → syscall img register chunks c ret r user_rsp s = Done (r', rsp, s') →
     registers_typed r' ∧ is_word rsp).
Proof using Type.
  intros Hs. split.
  - intros c ret st v err ctx r sp r' ctx' s' E.
    exact (proj1 (ensures_Done _ _ _ (interrupt_typed img register chunks c ret st v err ctx r sp s Hs) E)).
  - intros c ret r user_rsp r' rsp s' Hu E.
    destruct (ensures_Done _ _ _ (syscall_typed img register chunks c ret r user_rsp s Hu Hs) E) as (H1 & H2 & _).
    by split.
Qed.
End moves.

(** ** A concrete run: one processor prints a line, then another takes a timer interrupt *)

Definition typed_example : system :=
  {| kern := {| hw_state := set_env one_cpu example; ProcessTable := replicate 64 zero_process;
                ProcessTableSpinlock := 0; KernelPageTable := 0 |};
     sys_log := 0; sys_serial := []; IDT := replicate 256 zero_IDTEntry; idtr := (0, 0); lapic := 0;
     lapic_io := {| writes := []; reads := 0 |}; ports := []; segments := zero_segments; cr3 := 0;
     CPUs_page := 0; smp_infos := [] |}.

Lemma typed_example_typed : system_typed typed_example.
Proof.
  split; try done; cbn [kern sys_log sys_serial IDT idtr lapic lapic_io ports typed_example].
  - split; try done; [|by apply Forall_replicate|by left].
    split; try done; [by left|]. split; [|done]. by repeat constructor.
  - by left.
  - split; [apply length_replicate|by apply Forall_replicate].
Qed.

(** The second processor has interrupts enabled. *)
Definition example_owns : list own :=
  [own_of typed_example;
   own_of (set_sys_env (put_IF true (env (mach typed_example))) typed_example)].
Definition example_line : system :=
  done_or typed_example (log_args (str "up" ++ newline) [] (on_processor (own_of typed_example) typed_example)).
Definition example_tick : system :=
  (done_or (HaltedForever, typed_example)
     (interrupt user_image (λ _ _, 0) 1 handler_task 0x22 IRQ_Stub 32 0 user_context example_registers
        0x9000 (on_processor (nth 1 example_owns (own_of typed_example)) example_line))).2.
Definition example_end : multi :=
  {| shared_system := example_tick;
     owns := <[1%nat := own_of example_tick]> (<[0%nat := own_of example_line]> example_owns) |}.

